(** * The shepherd control loop, its planner, state store, policy enforcer and
      watchdog: a shallow embedding of the Python sources and the properties
      proved about them.

    Layout: the embedding comes first (one module per Python module:
    [state], [planner], [watchdog], [policies], [mcp_client], [daemon],
    preceded by the small model of the Python values, of [json] and of
    [pathlib] that they use); the lemmas and theorems follow. *)

From Stdlib Require Import ZArith Ascii String List Bool Lia.
From Stdlib Require Import DecimalString DecimalPos DecimalFacts.
From stdpp Require Import base option list gmap strings sorting.

Local Open Scope Z_scope.

(* ================================================================= *)
(** ** Python values *)

(** The values the program handles are the ones [json.loads] builds:
    [None], booleans, integers, strings, lists and dictionaries with string
    keys.  A string is a sequence of characters with code below 256; floats
    are outside the modelled fragment.  A dictionary keeps its keys in
    insertion order, as Python's [dict] does. *)
#[local] Unset Elimination Schemes.
Inductive json : Type :=
| JNull
| JBool (b : bool)
| JInt (z : Z)
| JStr (s : string)
| JList (items : list json)
| JObj (fields : list (string * json)).
#[local] Set Elimination Schemes.

(** Induction on values: the items of a list and the values of a
    dictionary are covered. *)
Section json_induction.
Variable P : json → Prop.
Hypothesis Hnull : P JNull.
Hypothesis Hbool : ∀ b, P (JBool b).
Hypothesis Hint : ∀ z, P (JInt z).
Hypothesis Hstr : ∀ s, P (JStr s).
Hypothesis Hlist : ∀ l, Forall P l → P (JList l).
Hypothesis Hobj : ∀ d, Forall (fun kv => P (snd kv)) d → P (JObj d).

Fixpoint json_ind (v : json) : P v :=
  match v with
  | JNull => Hnull
  | JBool b => Hbool b
  | JInt z => Hint z
  | JStr s => Hstr s
  | JList l =>
      Hlist l
        ((fix all (l : list json) : Forall P l :=
            match l with
            | [] => List.Forall_nil _
            | x :: r => List.Forall_cons _ _ _ (json_ind x) (all r)
            end) l)
  | JObj d =>
      Hobj d
        ((fix all (d : list (string * json))
            : Forall (fun kv => P (snd kv)) d :=
            match d with
            | [] => List.Forall_nil _
            | kv :: r => List.Forall_cons _ _ _ (json_ind (snd kv)) (all r)
            end) d)
  end.
End json_induction.

(** Exceptions.  The classes of [state.py], [planner.py], [policies.py],
    [mcp_client.py] and [daemon.py] carry their message; the built-in
    exceptions that dynamically typed code can raise carry a short tag. *)
Inductive exn : Type :=
| StateError (msg : string)
| ReadOnlyStateError (msg : string)
| StateValidationError (msg : string)
| MissingStateError (msg : string)
| PlannerError (msg : string)
| PolicyViolation (msg : string)
| StopExecution (msg : string)
| MCPTimeoutError (msg : string)
| MCPProtocolError (msg : string)
| MCPProcessError (msg : string)
| TypeError (msg : string)
| AttributeError (msg : string)
| KeyError (msg : string)
| ValueError (msg : string)
| OSError (msg : string).

(** [isinstance(e, StateError)]: the class and its three subclasses. *)
Definition is_StateError (e : exn) : bool :=
  match e with
  | StateError _ | ReadOnlyStateError _ | StateValidationError _
  | MissingStateError _ => true
  | _ => false
  end.

(** [isinstance(e, MCPError)] *)
Definition is_MCPError (e : exn) : bool :=
  match e with
  | MCPTimeoutError _ | MCPProtocolError _ | MCPProcessError _ => true
  | _ => false
  end.

(** [str(e)] for the exceptions that carry a message. *)
Definition exn_message (e : exn) : string :=
  match e with
  | StateError m | ReadOnlyStateError m | StateValidationError m
  | MissingStateError m | PlannerError m | PolicyViolation m
  | StopExecution m | MCPTimeoutError m | MCPProtocolError m
  | MCPProcessError m | TypeError m | AttributeError m | KeyError m
  | ValueError m | OSError m => m
  end.

(** A computation that returns or raises. *)
Inductive res (A : Type) : Type :=
| Ok (a : A)
| Err (e : exn).
Arguments Ok {A} a.
Arguments Err {A} e.

#[global] Instance res_ret : MRet res := fun A a => Ok a.
#[global] Instance res_bind : MBind res := fun A B f m =>
  match m with
  | Ok a => f a
  | Err e => Err e
  end.

(** A computation that returns or raises and may change a state of type
    [S] on the way: what it changed before raising stays changed. *)
Definition M (S A : Type) : Type := S → res A * S.

#[global] Instance M_ret {S} : MRet (M S) := fun A a s => (Ok a, s).
#[global] Instance M_bind {S} : MBind (M S) := fun A B f m s =>
  match m s with
  | (Ok a, s') => f a s'
  | (Err e, s') => (Err e, s')
  end.

(** [raise e], a pure computation run inside a stateful one, and the
    reading and writing of the state. *)
Definition raise {S A} (e : exn) : M S A := fun s => (Err e, s).
Definition lift {S A} (r : res A) : M S A := fun s => (r, s).
Definition get_state {S} : M S S := fun s => (Ok s, s).
Definition put_state {S} (s : S) : M S unit := fun _ => (Ok tt, s).

Module Py.

Definition dquote : ascii := "034"%char.
Definition newline : string := String "010"%char "".

(** [s1 + s2 + ...] *)
Definition concat_str (l : list string) : string :=
  foldr String.append "" l.

(** [sep.join(l)] *)
Fixpoint join (sep : string) (l : list string) : string :=
  match l with
  | [] => ""
  | [x] => x
  | x :: r => x +:+ sep +:+ join sep r
  end.

(** [isinstance(v, str)], [isinstance(v, list)], [isinstance(v, dict)],
    [isinstance(v, bool)] and [isinstance(v, int)] (which is true of the
    booleans too). *)
Definition is_str (v : json) : bool :=
  match v with JStr _ => true | _ => false end.
Definition is_list (v : json) : bool :=
  match v with JList _ => true | _ => false end.
Definition is_dict (v : json) : bool :=
  match v with JObj _ => true | _ => false end.
Definition is_bool (v : json) : bool :=
  match v with JBool _ => true | _ => false end.
Definition is_int (v : json) : bool :=
  match v with JInt _ | JBool _ => true | _ => false end.

(** [v == s] for a string [s]: only a string equals a string. *)
Definition eq_str (v : json) (s : string) : bool :=
  match v with
  | JStr s' => String.eqb s' s
  | _ => false
  end.

(** Dictionaries: lookup, [d[k] = v] (in place when the key is present, at
    the end otherwise), [k in d], [d.pop(k, None)]. *)
Fixpoint dict_get {V : Type} (k : string) (d : list (string * V)) : option V :=
  match d with
  | [] => None
  | (k', v) :: r => if String.eqb k k' then Some v else dict_get k r
  end.

Fixpoint dict_set {V : Type} (k : string) (v : V) (d : list (string * V))
  : list (string * V) :=
  match d with
  | [] => [(k, v)]
  | (k', v') :: r =>
      if String.eqb k k' then (k, v) :: r else (k', v') :: dict_set k v r
  end.

Definition dict_mem {V : Type} (k : string) (d : list (string * V)) : bool :=
  match dict_get k d with Some _ => true | None => false end.

Definition dict_keys {V : Type} (d : list (string * V)) : list string :=
  map fst d.

(** [dict(pairs)]: later pairs overwrite earlier ones. *)
Definition dict_of_pairs {V : Type} (l : list (string * V))
  : list (string * V) :=
  foldl (fun d kv => dict_set (fst kv) (snd kv) d) [] l.

(** [o.get(k)] and [o.get(k, default)]: an attribute of dictionaries only. *)
Definition get (o : json) (k : string) : res json :=
  match o with
  | JObj d => Ok (default JNull (dict_get k d))
  | _ => Err (AttributeError "get")
  end.

Definition get_default (o : json) (k : string) (dflt : json) : res json :=
  match o with
  | JObj d => Ok (default dflt (dict_get k d))
  | _ => Err (AttributeError "get")
  end.

(** [o[k]] for a string key. *)
Definition getitem (o : json) (k : string) : res json :=
  match o with
  | JObj d =>
      match dict_get k d with
      | Some v => Ok v
      | None => Err (KeyError k)
      end
  | _ => Err (TypeError "subscript")
  end.

(** [o[k] = v] for a string key. *)
Definition setitem (o : json) (k : string) (v : json) : res json :=
  match o with
  | JObj d => Ok (JObj (dict_set k v d))
  | JList _ => Err (TypeError "list indices must be integers")
  | _ => Err (TypeError "item assignment")
  end.

(** The elements a [for] loop visits: the items of a list, the characters
    of a string, the keys of a dictionary. *)
Definition iter (v : json) : res (list json) :=
  match v with
  | JList l => Ok l
  | JStr s => Ok (map (fun c => JStr (String c "")) (list_ascii_of_string s))
  | JObj d => Ok (map (fun kv => JStr (fst kv)) d)
  | _ => Err (TypeError "not iterable")
  end.

(** Whitespace as [str.strip] sees it, on characters below 256. *)
Definition isspace (c : ascii) : bool :=
  let n := N_of_ascii c in
  ((9 <=? n) && (n <=? 13) || (28 <=? n) && (n <=? 32)
   || (n =? 133) || (n =? 160))%N.

Fixpoint lstrip (s : string) : string :=
  match s with
  | String c r => if isspace c then lstrip r else s
  | EmptyString => EmptyString
  end.

Fixpoint rstrip (s : string) : string :=
  match s with
  | String c r =>
      match rstrip r with
      | EmptyString => if isspace c then EmptyString else String c EmptyString
      | r' => String c r'
      end
  | EmptyString => EmptyString
  end.

Definition strip (s : string) : string := lstrip (rstrip s).

(** What a file opened in text mode gives for its content: a carriage
    return, alone or followed by a line feed, is read as a line feed. *)
Fixpoint universal_newlines (s : string) : string :=
  match s with
  | EmptyString => EmptyString
  | String c r =>
      if Ascii.eqb c "013"%char then
        match r with
        | String c' r' =>
            if Ascii.eqb c' "010"%char
            then String "010"%char (universal_newlines r')
            else String "010"%char (universal_newlines r)
        | EmptyString => String "010"%char EmptyString
        end
      else String c (universal_newlines r)
  end.

Definition is_empty (s : string) : bool :=
  match s with EmptyString => true | _ => false end.

Fixpoint endswith_newline (s : string) : bool :=
  match s with
  | EmptyString => false
  | String c EmptyString => Ascii.eqb c "010"%char
  | String _ r => endswith_newline r
  end.

(** A value is well formed when no dictionary in it lists a key twice:
    every value Python builds is. *)
Fixpoint distinct (l : list string) : bool :=
  match l with
  | [] => true
  | x :: r => negb (existsb (String.eqb x) r) && distinct r
  end.

Fixpoint well_formed (v : json) : bool :=
  match v with
  | JList l => forallb well_formed l
  | JObj d =>
      distinct (map fst d) && forallb (fun kv => well_formed (snd kv)) d
  | _ => true
  end.

(** Decimal notation of an integer, as [str] and [json.dumps] print it. *)
Definition str_of_Z (z : Z) : string :=
  match z with
  | Z0 => "0"
  | Zpos p => NilEmpty.string_of_uint (Pos.to_uint p)
  | Zneg p => String "-"%char (NilEmpty.string_of_uint (Pos.to_uint p))
  end.

Definition str_of_nat (n : nat) : string := str_of_Z (Z.of_nat n).

(** [len(v)] *)
Definition len (v : json) : res nat :=
  match v with
  | JList l => Ok (length l)
  | JStr s => Ok (String.length s)
  | JObj d => Ok (length d)
  | _ => Err (TypeError "object has no len()")
  end.

(** [repr(s)] of a string: single quotes unless the string holds one and
    no double quote; the backslash, the chosen quote and the characters
    that do not print are escaped. *)
Definition hex_char (n : N) : ascii :=
  match n with
  | 0 => "0" | 1 => "1" | 2 => "2" | 3 => "3" | 4 => "4" | 5 => "5"
  | 6 => "6" | 7 => "7" | 8 => "8" | 9 => "9" | 10 => "a" | 11 => "b"
  | 12 => "c" | 13 => "d" | 14 => "e" | _ => "f"
  end%N%char.

Fixpoint contains_char (c : ascii) (s : string) : bool :=
  match s with
  | EmptyString => false
  | String c' r => Ascii.eqb c c' || contains_char c r
  end.

Definition repr_char (q : ascii) (c : ascii) : string :=
  let n := N_of_ascii c in
  let bs := "\"%char in
  if Ascii.eqb c q || (n =? 92)%N then String bs (String c "")
  else if (n =? 9)%N then String bs "t"
  else if (n =? 10)%N then String bs "n"
  else if (n =? 13)%N then String bs "r"
  else if ((n <? 32) || (n =? 127) || (127 <? n) && (n <? 161)
           || (n =? 173))%N then
    String bs (String "x"
      (String (hex_char (n / 16)) (String (hex_char (n mod 16)) "")))
  else String c "".

Definition repr_str (s : string) : string :=
  let q := if contains_char "'" s && negb (contains_char dquote s)
           then dquote else "'"%char in
  String q (concat_str (map (repr_char q) (list_ascii_of_string s))
            +:+ String q "").

(** [repr(v)] and [str(v)]: they differ on strings only. *)
Fixpoint repr (v : json) : string :=
  match v with
  | JNull => "None"
  | JBool true => "True"
  | JBool false => "False"
  | JInt z => str_of_Z z
  | JStr s => repr_str s
  | JList l => "[" +:+ join ", " (map repr l) +:+ "]"
  | JObj d =>
      "{" +:+ join ", "
                (map (fun kv => repr_str (fst kv) +:+ ": " +:+ repr (snd kv))
                   d)
      +:+ "}"
  end.

Definition str (v : json) : string :=
  match v with
  | JStr s => s
  | _ => repr v
  end.

(** A value that can be put in a set or be the key of a dictionary. *)
Definition hashable (v : json) : bool :=
  match v with
  | JList _ | JObj _ => false
  | _ => true
  end.

(** [sorted(l)] on strings: by character codes. *)
Definition str_le (a b : string) : Prop := String.leb a b = true.

#[global] Instance str_le_dec : RelDecision str_le :=
  fun a b => decide (String.leb a b = true).

Definition sorted (l : list string) : list string := merge_sort str_le l.

(** [set(l)] as the list of its elements, each once. *)
Fixpoint dedup (l : list string) : list string :=
  match l with
  | [] => []
  | x :: r => if existsb (String.eqb x) r then dedup r else x :: dedup r
  end.

(** [k in l] for a list, set or tuple of strings. *)
Definition mem (k : string) (l : list string) : bool :=
  existsb (String.eqb k) l.

(** [s.lower()] on characters below 256: the letters [A] to [Z], and the
    capital letters of Latin-1 (192 to 222, the multiplication sign 215
    apart), go to their small forms. *)
Definition lower_char (c : ascii) : ascii :=
  let n := N_of_ascii c in
  if ((65 <=? n) && (n <=? 90)
      || (192 <=? n) && (n <=? 222) && negb (n =? 215))%N
  then ascii_of_N (n + 32)
  else c.

Fixpoint lower (s : string) : string :=
  match s with
  | EmptyString => EmptyString
  | String c r => String (lower_char c) (lower r)
  end.

End Py.

(* ================================================================= *)
(** ** [json.dumps(_, indent=2)] and [json.loads] *)

Module Json.
Import Py.

(** *** Printing *)

Definition hex_char (n : N) : ascii :=
  match n with
  | 0 => "0" | 1 => "1" | 2 => "2" | 3 => "3" | 4 => "4" | 5 => "5"
  | 6 => "6" | 7 => "7" | 8 => "8" | 9 => "9" | 10 => "a" | 11 => "b"
  | 12 => "c" | 13 => "d" | 14 => "e" | _ => "f"
  end%N%char.

(** One character inside a string literal ([ensure_ascii] is on): the
    quote and the backslash are escaped, the usual control characters have
    a short escape, and whatever else lies outside [' '..'~'] is written
    [\u00xx]. *)
Definition escape_char (c : ascii) : string :=
  let n := N_of_ascii c in
  let bs := "\"%char in
  if (n =? 34)%N then String bs (String dquote "")
  else if (n =? 92)%N then String bs (String bs "")
  else if (n =? 8)%N then String bs "b"
  else if (n =? 12)%N then String bs "f"
  else if (n =? 10)%N then String bs "n"
  else if (n =? 13)%N then String bs "r"
  else if (n =? 9)%N then String bs "t"
  else if ((n <? 32) || (126 <? n))%N then
    String bs (String "u" (String "0" (String "0"
      (String (hex_char (n / 16)) (String (hex_char (n mod 16)) "")))))
  else String c "".

Fixpoint escape (s : string) : string :=
  match s with
  | EmptyString => EmptyString
  | String c r => escape_char c +:+ escape r
  end.

Definition quote (s : string) : string :=
  String dquote (escape s +:+ String dquote "").

Fixpoint indent (lvl : nat) : string :=
  match lvl with
  | O => ""
  | S n => "  " +:+ indent n
  end.

(** The line break and indentation put before an item at depth [lvl]. *)
Definition nl (lvl : nat) : string := newline +:+ indent lvl.

Section Tail.
(** The items of a list after the first one, each on its own line, and
    the closing bracket; the same for the members of a dictionary. *)
Variable dump : json → string.
Variable lvl : nat.

Fixpoint items_tail (l : list json) : string :=
  match l with
  | [] => nl lvl +:+ "]"
  | y :: l' => "," +:+ nl (S lvl) +:+ dump y +:+ items_tail l'
  end.

Fixpoint members_tail (l : list (string * json)) : string :=
  match l with
  | [] => nl lvl +:+ "}"
  | (k, y) :: l' =>
      "," +:+ nl (S lvl) +:+ quote k +:+ ": " +:+ dump y
      +:+ members_tail l'
  end.
End Tail.

(** [dumps_at lvl v] is the text of [v] when it stands at depth [lvl]. *)
Fixpoint dumps_at (lvl : nat) (v : json) : string :=
  match v with
  | JNull => "null"
  | JBool true => "true"
  | JBool false => "false"
  | JInt z => str_of_Z z
  | JStr s => quote s
  | JList [] => "[]"
  | JList (x :: r) =>
      "[" +:+ nl (S lvl) +:+ dumps_at (S lvl) x
      +:+ items_tail (dumps_at (S lvl)) lvl r
  | JObj [] => "{}"
  | JObj ((k, x) :: r) =>
      "{" +:+ nl (S lvl) +:+ quote k +:+ ": " +:+ dumps_at (S lvl) x
      +:+ members_tail (dumps_at (S lvl)) lvl r
  end.

(** [json.dumps(v, indent=2)] *)
Definition dumps (v : json) : string := dumps_at 0 v.

(** *** Parsing *)

Definition is_ws (c : ascii) : bool :=
  let n := N_of_ascii c in
  ((n =? 32) || (n =? 9) || (n =? 10) || (n =? 13))%N.

Fixpoint skip_ws (s : string) : string :=
  match s with
  | String c r => if is_ws c then skip_ws r else s
  | EmptyString => EmptyString
  end.

Definition is_digit (c : ascii) : bool :=
  let n := N_of_ascii c in ((48 <=? n) && (n <=? 57))%N.

Definition hex_val (c : ascii) : option N :=
  let n := N_of_ascii c in
  if ((48 <=? n) && (n <=? 57))%N then Some (n - 48)%N
  else if ((97 <=? n) && (n <=? 102))%N then Some (n - 87)%N
  else if ((65 <=? n) && (n <=? 70))%N then Some (n - 55)%N
  else None.

(** The characters of a string literal up to its closing quote, and the
    text after it.  A raw control character is refused, and so is a
    [\u] escape of a character above 255 (outside the modelled
    strings). *)
Fixpoint parse_chars (s : string) : option (string * string) :=
  match s with
  | EmptyString => None
  | String c r =>
      let n := N_of_ascii c in
      if (n =? 34)%N then Some (EmptyString, r)
      else if (n =? 92)%N then
        match r with
        | String e r1 =>
            let m := N_of_ascii e in
            let plain (d : ascii) :=
              '(t, r') ← parse_chars r1; Some (String d t, r') in
            if (m =? 34)%N then plain dquote
            else if (m =? 92)%N then plain "\"%char
            else if (m =? 47)%N then plain "/"%char
            else if (m =? 98)%N then plain "008"%char
            else if (m =? 102)%N then plain "012"%char
            else if (m =? 110)%N then plain "010"%char
            else if (m =? 114)%N then plain "013"%char
            else if (m =? 116)%N then plain "009"%char
            else if (m =? 117)%N then
              match r1 with
              | String h1 (String h2 (String h3 (String h4 r2))) =>
                  a ← hex_val h1; b ← hex_val h2;
                  c' ← hex_val h3; d ← hex_val h4;
                  if ((a =? 0) && (b =? 0))%N then
                    '(t, r') ← parse_chars r2;
                    Some (String (ascii_of_N (16 * c' + d)) t, r')
                  else None
              | _ => None
              end
            else None
        | EmptyString => None
        end
      else if (n <? 32)%N then None
      else '(t, r') ← parse_chars r; Some (String c t, r')
  end.

(** The longest run of digits at the head of the text, and the rest. *)
Fixpoint span_digits (s : string) : string * string :=
  match s with
  | String c r =>
      if is_digit c then
        let '(ds, r') := span_digits r in (String c ds, r')
      else (EmptyString, s)
  | EmptyString => (EmptyString, EmptyString)
  end.

Definition starts_fraction (s : string) : bool :=
  match s with
  | String c _ =>
      let n := N_of_ascii c in ((n =? 46) || (n =? 101) || (n =? 69))%N
  | EmptyString => false
  end.

(** An integer literal without its sign: no leading zero, and no fraction
    or exponent after it (that would be a float). *)
Definition parse_nat (s : string) : option (Z * string) :=
  match s with
  | EmptyString => None
  | String c r =>
      if Ascii.eqb c "0"%char then
        if starts_fraction r then None else Some (0, r)
      else
        let '(ds, r') := span_digits s in
        match ds with
        | EmptyString => None
        | _ =>
            if starts_fraction r' then None
            else d ← NilEmpty.uint_of_string ds;
                 Some (Z.of_N (N.of_uint d), r')
        end
  end.

Definition expect (c : ascii) (s : string) : option string :=
  match s with
  | String c' r => if Ascii.eqb c c' then Some r else None
  | EmptyString => None
  end.

(** The text after the word [lit], when the text starts with it. *)
Fixpoint literal (lit : string) (s : string) : option string :=
  match lit with
  | EmptyString => Some s
  | String c lit' =>
      match s with
      | String c' r => if Ascii.eqb c c' then literal lit' r else None
      | EmptyString => None
      end
  end.

Section Items.
(** The items of an array and the members of an object, given the
    parser of one value. *)
Variable parse_value : string → option (json * string).

Fixpoint parse_items (fuel : nat) (s : string)
  : option (list json * string) :=
  match fuel with
  | O => None
  | S fuel' =>
      '(v, r) ← parse_value s;
      match skip_ws r with
      | String c r' =>
          if Ascii.eqb c ","%char then
            '(vs, r'') ← parse_items fuel' r'; Some (v :: vs, r'')
          else if Ascii.eqb c "]"%char then Some ([v], r')
          else None
      | EmptyString => None
      end
  end.

Fixpoint parse_members (fuel : nat) (s : string)
  : option (list (string * json) * string) :=
  match fuel with
  | O => None
  | S fuel' =>
      r0 ← expect dquote (skip_ws s);
      '(k, r1) ← parse_chars r0;
      r2 ← expect ":"%char (skip_ws r1);
      '(v, r) ← parse_value r2;
      match skip_ws r with
      | String c r' =>
          if Ascii.eqb c ","%char then
            '(kvs, r'') ← parse_members fuel' r'; Some ((k, v) :: kvs, r'')
          else if Ascii.eqb c "}"%char then Some ([(k, v)], r')
          else None
      | EmptyString => None
      end
  end.
End Items.

Fixpoint parse_value (fuel : nat) (s : string) : option (json * string) :=
  match fuel with
  | O => None
  | S fuel' =>
      match skip_ws s with
      | EmptyString => None
      | String c r as s' =>
          let n := N_of_ascii c in
          if (n =? 34)%N then
            '(t, r') ← parse_chars r; Some (JStr t, r')
          else if (n =? 91)%N then
            match expect "]"%char (skip_ws r) with
            | Some r' => Some (JList [], r')
            | None =>
                '(vs, r') ← parse_items (parse_value fuel') fuel' r;
                Some (JList vs, r')
            end
          else if (n =? 123)%N then
            match expect "}"%char (skip_ws r) with
            | Some r' => Some (JObj [], r')
            | None =>
                '(kvs, r') ← parse_members (parse_value fuel') fuel' r;
                Some (JObj (dict_of_pairs kvs), r')
            end
          else if (n =? 45)%N then
            '(z, r') ← parse_nat r; Some (JInt (- z), r')
          else if is_digit c then
            '(z, r') ← parse_nat s'; Some (JInt z, r')
          else
            match literal "null" s' with
            | Some r' => Some (JNull, r')
            | None =>
                match literal "true" s' with
                | Some r' => Some (JBool true, r')
                | None =>
                    r' ← literal "false" s'; Some (JBool false, r')
                end
            end
      end
  end.

(** Fuel that suffices to read back the text of [v]. *)
Fixpoint cost (v : json) : nat :=
  match v with
  | JList l => S (foldr (fun x n => Nat.max (cost x) (S n)) O l)
  | JObj d => S (foldr (fun kv n => Nat.max (cost (snd kv)) (S n)) O d)
  | _ => 1
  end.

(** What may follow a number: not a digit, nor the start of a fraction
    or an exponent. *)
Definition follow_ok (s : string) : bool :=
  match s with
  | EmptyString => true
  | String c _ => negb (is_digit c) && negb (starts_fraction s)
  end.

(** [json.loads(s)]: one value and nothing but blanks after it. *)
Definition loads (s : string) : option json :=
  '(v, r) ← parse_value (S (String.length s)) s;
  match skip_ws r with
  | EmptyString => Some v
  | _ => None
  end.

End Json.

(* ================================================================= *)
(** ** [pathlib] and the file system *)

Module pathlib.

(** A path is the list of its components, below the root when it is
    absolute.  The file system has no symbolic links, so that
    [Path.resolve] is the removal of the [..] components; a relative path
    resolves against the root. *)
Record Path : Type := mkPath { is_absolute : bool; parts : list string }.

#[global] Instance Path_eq_dec : EqDecision Path.
Proof. solve_decision. Defined.

Fixpoint split_slash (s : string) : list string :=
  match s with
  | EmptyString => [EmptyString]
  | String c r =>
      if Ascii.eqb c "/" then EmptyString :: split_slash r
      else match split_slash r with
           | h :: t => String c h :: t
           | [] => [String c EmptyString]
           end
  end.

Definition keep_part (p : string) : bool :=
  negb (String.eqb p "" || String.eqb p ".").

(** [Path(s)] *)
Definition of_str (s : string) : Path :=
  {| is_absolute := match s with
                    | String c _ => Ascii.eqb c "/"
                    | EmptyString => false
                    end;
     parts := List.filter keep_part (split_slash s) |}.

(** [p / q] *)
Definition joinpath (p q : Path) : Path :=
  if is_absolute q then q
  else {| is_absolute := is_absolute p; parts := parts p ++ parts q |}.

(** [p / s] for a string [s] *)
Definition join (p : Path) (s : string) : Path := joinpath p (of_str s).

Fixpoint normalize (stack : list string) (l : list string) : list string :=
  match l with
  | [] => rev stack
  | x :: r =>
      if String.eqb x ".." then normalize (tail stack) r
      else normalize (x :: stack) r
  end.

(** [p.resolve()] *)
Definition resolve (p : Path) : Path :=
  {| is_absolute := true; parts := normalize [] (parts p) |}.

(** [p.resolve()] looks at each component of [p] with [os.lstat], which
    raises [ValueError] on a name that holds a NUL character, whether or
    not a later [..] would remove the component. *)
Definition has_nul (p : Path) : bool :=
  existsb (Py.contains_char "000"%char) (parts p).

Definition resolve_checked (p : Path) : res Path :=
  if has_nul p then Err (ValueError "embedded null byte")
  else Ok (resolve p).

(** [p.parent] and [p.name] *)
Definition parent (p : Path) : Path :=
  {| is_absolute := is_absolute p; parts := removelast (parts p) |}.

Definition name (p : Path) : string := List.last (parts p) "".

(** [str(p)] *)
Definition to_str (p : Path) : string :=
  match is_absolute p, parts p with
  | true, l => "/" +:+ Py.join "/" l
  | false, [] => "."
  | false, l => Py.join "/" l
  end.

Fixpoint is_prefix (d p : list string) : bool :=
  match d, p with
  | [], _ => true
  | x :: d', y :: p' => String.eqb x y && is_prefix d' p'
  | _ :: _, [] => false
  end.

(** [p.relative_to(d)] succeeds: [d] is [p] or one of its ancestors. *)
Definition relative_to_ok (p d : Path) : bool :=
  Bool.eqb (is_absolute p) (is_absolute d) && is_prefix (parts d) (parts p).

End pathlib.

Module fs.
Import pathlib.

(** What stands at a path: a directory, or a file and its content. *)
Inductive node : Type :=
| Dir
| File (content : string).

(** The disk maps the canonical form of a path to what stands there. *)
Abbreviation disk := (gmap (list string) node).

Definition key (p : Path) : list string := parts (resolve p).

(** [p.exists()] *)
Definition exists_ (d : disk) (p : Path) : bool :=
  match d !! key p with Some _ => true | None => false end.

(** The proper prefixes of a key: the keys of the ancestors of a path,
    from the root down. *)
Fixpoint ancestors (k : list string) : list (list string) :=
  match k with
  | [] => []
  | x :: r => [] :: map (cons x) (ancestors r)
  end.

(** An ancestor of [p] is a regular file: opening [p] then fails with
    [NotADirectoryError], not with [FileNotFoundError]. *)
Definition under_file (d : disk) (p : Path) : bool :=
  existsb (fun k => match d !! k with Some (File _) => true | _ => false end)
    (ancestors (key p)).

End fs.

(* ================================================================= *)
(** ** [state.py]: the state store and the schema validation *)

Module state.
Import Py pathlib fs.

Definition AI_DIRNAME : string := "ai".
Definition DESIGN_DIRNAME : string := "design".

Definition CONFIG_FILENAME : string := "config.json".
Definition GOALS_FILENAME : string := "GOALS.md".
Definition SOURCES_FILENAME : string := "SOURCES.yaml".
Definition PLAN_FILENAME : string := "PLAN.yaml".
Definition ACTIVE_TASK_FILENAME : string := "ACTIVE_TASK.yaml".
Definition SUMMARY_FILENAME : string := "SUMMARY.md".
Definition LAST_RESULT_FILENAME : string := "LAST_RESULT.json".
Definition PROGRESS_FILENAME : string := "PROGRESS.yaml".

Definition DEFAULT_SUMMARY : string := "".
Definition DEFAULT_PROGRESS : string := "objectives: {}" +:+ newline.

Definition OBJECTIVE_STATUSES : list string :=
  ["pending"; "in_progress"; "complete"].
Definition TASK_STATUSES : list string :=
  ["pending"; "active"; "done"; "failed"; "blocked"].
Definition CODEX_RESULT_STATUSES : list string :=
  ["success"; "failed"; "blocked"].

Record Config : Type := {
  mcp_command : string;
  startup_timeout_seconds : Z;
  task_timeout_seconds : Z;
  max_retries_per_task : Z;
  max_consecutive_failures : Z;
  one_task_at_a_time : bool;
  cfg_design_dir : string;
  cfg_state_dir : string;
  cfg_strict_schema_validation : bool;
  cfg_json_subset_only : bool;
  log_level : string;
  log_file : string
}.

(** *** The store *)

Record StateStore : Type := {
  project_root : Path;
  ai_dir : Path;
  design_dir : Path;
  config_path : Path;
  goals_path : Path;
  sources_path : Path;
  plan_path : Path;
  active_task_path : Path;
  summary_path : Path;
  last_result_path : Path;
  progress_path : Path;
  strict_schema_validation : bool;
  json_subset_only : bool;
  _read_only_paths : list Path;
  _writable_paths : list Path;
  _design_resolved : Path
}.

(** [StateStore.__init__], on the disk [d]. *)
Definition StateStore_init (d : disk) (root0 : Path)
    (state_dir design_dir0 : string) (config_path0 : option Path)
    (strict json_subset : bool) : res StateStore :=
  let root := resolve root0 in
  if negb (exists_ d root) then
    Err (MissingStateError ("Project root does not exist: " +:+ to_str root))
  else
    let ai := join root state_dir in
    let design := join root design_dir0 in
    let config := default (join (join root AI_DIRNAME) CONFIG_FILENAME)
                    config_path0 in
    let goals := join ai GOALS_FILENAME in
    let sources := join ai SOURCES_FILENAME in
    let plan := join ai PLAN_FILENAME in
    let active := join ai ACTIVE_TASK_FILENAME in
    let summary := join ai SUMMARY_FILENAME in
    let last := join ai LAST_RESULT_FILENAME in
    let progress := join ai PROGRESS_FILENAME in
    Ok {| project_root := root;
          ai_dir := ai;
          design_dir := design;
          config_path := config;
          goals_path := goals;
          sources_path := sources;
          plan_path := plan;
          active_task_path := active;
          summary_path := summary;
          last_result_path := last;
          progress_path := progress;
          strict_schema_validation := strict;
          json_subset_only := json_subset;
          _read_only_paths :=
            [resolve config; resolve goals; resolve sources];
          _writable_paths :=
            [resolve plan; resolve active; resolve summary; resolve last;
             resolve progress];
          _design_resolved := resolve design |}.

Definition _is_within (path directory : Path) : bool :=
  relative_to_ok path directory.

Definition is_read_only_path (store : StateStore) (path : Path) : bool :=
  let resolved := resolve path in
  if bool_decide (resolved ∈ _read_only_paths store) then true
  else _is_within resolved (_design_resolved store).

Definition is_writable_path (store : StateStore) (path : Path) : bool :=
  bool_decide (resolve path ∈ _writable_paths store).

(** *** Reading *)

(** [path.read_text(encoding="utf-8")] opens the file in text mode, so
    that the text comes with its line ends translated.  Of the errors of
    [open], [FileNotFoundError] alone becomes [MissingStateError]: nothing
    stands at the path and no ancestor of it is a regular file. *)
Definition _read_text (path : Path) : M disk string := fun d =>
  match d !! key path with
  | Some (File content) => (Ok (universal_newlines content), d)
  | Some Dir => (Err (OSError ("Is a directory: " +:+ to_str path)), d)
  | None =>
      if under_file d path then
        (Err (OSError ("Not a directory: " +:+ to_str path)), d)
      else
        (Err (MissingStateError
                ("Missing required state file: " +:+ to_str path)), d)
  end.

(** The decoder's own account of the error, which the source appends to
    the message, is left out. *)
Definition _read_json_object (path : Path) : M disk json :=
  text ← _read_text path;
  match Json.loads text with
  | None =>
      raise (StateValidationError
               (to_str path
                +:+ " must contain JSON (YAML-compatible) object data"))
  | Some data =>
      if negb (is_dict data) then
        raise (StateValidationError
                 (to_str path +:+ " must contain a JSON object."))
      else mret data
  end.

(** *** Writing *)

Definition _ensure_writable_path (path : Path) (store : StateStore)
  : res unit :=
  let resolved := resolve path in
  if bool_decide (resolved ∈ _read_only_paths store) then
    Err (ReadOnlyStateError (to_str path +:+ " is read-only."))
  else if _is_within resolved (_design_resolved store) then
    Err (ReadOnlyStateError
           (to_str path +:+ " is under design/ and immutable."))
  else if negb (bool_decide (resolved ∈ _writable_paths store)) then
    Err (StateError ("Refusing to write unknown state file: " +:+ to_str path))
  else Ok tt.

Definition _ensure_parent_dir (path : Path) : M disk unit := fun d =>
  if negb (exists_ d (parent path)) then
    (Err (MissingStateError
            ("Missing parent directory for " +:+ to_str path)), d)
  else (Ok tt, d).

(** The payload goes to a fresh temporary file next to the target, which
    is then renamed over the target; whatever happens the temporary file
    is gone afterwards.  The disk therefore changes at the target only,
    and only when the rename succeeds: the parent must be a directory and
    the target must not be one. *)
Definition _atomic_write_bytes (path : Path) (payload : string)
  : M disk unit := fun d =>
  match d !! key (parent path) with
  | Some Dir =>
      match d !! key path with
      | Some Dir => (Err (OSError ("Is a directory: " +:+ to_str path)), d)
      | _ => (Ok tt, <[key path := File payload]> d)
      end
  | _ => (Err (OSError ("Not a directory: " +:+ to_str (parent path))), d)
  end.

(** The content is a string here, so that the source's [isinstance]
    check on it always passes. *)
Definition _atomic_write_text (path : Path) (content : string)
    (store : StateStore) : M disk unit :=
  lift (_ensure_writable_path path store);;
  _ensure_parent_dir path;;
  _atomic_write_bytes path content.

(** Every value of the model is serializable. *)
Definition _atomic_write_json (path : Path) (data : json)
    (store : StateStore) : M disk unit :=
  if negb (is_dict data) then
    raise (TypeError ("JSON content for " +:+ to_str path
                      +:+ " must be a dict."))
  else
    lift (_ensure_writable_path path store);;
    _ensure_parent_dir path;;
    let text := Json.dumps data +:+ newline in
    _atomic_write_bytes path text.

(** *** Schema validation *)

Definition fail {A} (msg : string) : res A := Err (StateValidationError msg).

Definition _require_mapping (value : json) (context : string) : res unit :=
  if negb (is_dict value) then fail (context +:+ " must be an object.")
  else Ok tt.

Definition _require_list (value : json) (context : string) : res unit :=
  if negb (is_list value) then fail (context +:+ " must be an array.")
  else Ok tt.

(** [mapping.keys()] *)
Definition keys (mapping : json) : res (list string) :=
  match mapping with
  | JObj d => Ok (dict_keys d)
  | _ => Err (AttributeError "keys")
  end.

Definition _require_keys (mapping : json) (required : list string)
    (context : string) : res unit :=
  ks ← keys mapping;
  let missing := List.filter (fun k => negb (mem k ks)) required in
  match missing with
  | [] => Ok tt
  | _ =>
      let missing_list := Py.join ", " (sorted missing) in
      fail (context +:+ " is missing required keys: " +:+ missing_list)
  end.

Definition _reject_extra_keys (mapping : json) (allowed : list string)
    (context : string) : res unit :=
  ks ← keys mapping;
  let extra := List.filter (fun k => negb (mem k allowed)) (dedup ks) in
  match extra with
  | [] => Ok tt
  | _ =>
      let extra_list := Py.join ", " (sorted extra) in
      fail (context +:+ " has unexpected keys: " +:+ extra_list)
  end.

Definition _require_int (value : json) (context : string) : res unit :=
  if negb (is_int value) || is_bool value
  then fail (context +:+ " must be an integer.")
  else Ok tt.

Definition _require_string (value : json) (context : string) : res unit :=
  if negb (is_str value) then fail (context +:+ " must be a string.")
  else Ok tt.

Definition index_context (context : string) (index : nat) : string :=
  context +:+ "[" +:+ str_of_nat index +:+ "]".

(** [for index, item in enumerate(l): check(item, f"{context}[{index}]")],
    from position [index] on. *)
Fixpoint for_enumerate (check : json → string → res unit)
    (context : string) (index : nat) (l : list json) : res unit :=
  match l with
  | [] => Ok tt
  | item :: r =>
      check item (index_context context index);;
      for_enumerate check context (S index) r
  end.

Definition _require_string_list (value : json) (context : string)
  : res unit :=
  _require_list value context;;
  items ← iter value;
  for_enumerate
    (fun item ctx =>
       if negb (is_str item) then fail (ctx +:+ " must be a string.")
       else Ok tt)
    context O items.

Definition _require_enum (value : json) (allowed : list string)
    (context : string) : res unit :=
  _require_string value context;;
  match value with
  | JStr s =>
      if negb (mem s allowed) then
        let allowed_list := Py.join ", " (sorted allowed) in
        fail (context +:+ " must be one of: " +:+ allowed_list)
      else Ok tt
  | _ => Ok tt
  end.

Definition _validate_objective (obj : json) (context : string) : res unit :=
  _require_mapping obj context;;
  _require_keys obj ["id"; "source"; "status"] context;;
  _reject_extra_keys obj ["id"; "source"; "status"] context;;
  v ← getitem obj "id"; _require_string v (context +:+ ".id");;
  v ← getitem obj "source"; _require_string v (context +:+ ".source");;
  v ← getitem obj "status";
  _require_enum v OBJECTIVE_STATUSES (context +:+ ".status").

(** [if key in task: _require_string_list(task[key], f"{context}.{key}")] *)
Definition optional_string_list (task : json) (key : string)
    (context : string) : res unit :=
  ks ← keys task;
  if mem key ks then
    v ← getitem task key;
    _require_string_list v (context +:+ "." +:+ key)
  else Ok tt.

Definition _validate_task (task : json) (context : string) : res unit :=
  _require_mapping task context;;
  let required := ["id"; "objective"; "derived_from"; "status"] in
  let optional := ["depends_on"; "scope"; "success_criteria"] in
  let allowed := required ++ optional in
  _require_keys task required context;;
  _reject_extra_keys task allowed context;;
  v ← getitem task "id"; _require_string v (context +:+ ".id");;
  v ← getitem task "objective";
  _require_string v (context +:+ ".objective");;
  v ← getitem task "derived_from";
  _require_string v (context +:+ ".derived_from");;
  v ← getitem task "status";
  _require_enum v TASK_STATUSES (context +:+ ".status");;
  optional_string_list task "depends_on" context;;
  optional_string_list task "scope" context;;
  optional_string_list task "success_criteria" context.

Definition _validate_plan (plan : json) : res unit :=
  _require_mapping plan "plan";;
  _require_keys plan ["version"; "objectives"; "tasks"] "plan";;
  _reject_extra_keys plan ["version"; "objectives"; "tasks"] "plan";;
  v ← getitem plan "version"; _require_int v "plan.version";;
  objectives ← getitem plan "objectives";
  _require_list objectives "plan.objectives";;
  items ← iter objectives;
  for_enumerate _validate_objective "plan.objectives" O items;;
  tasks ← getitem plan "tasks";
  _require_list tasks "plan.tasks";;
  items ← iter tasks;
  for_enumerate _validate_task "plan.tasks" O items.

Definition _validate_active_task (task : json) : res unit :=
  let context := "active_task" in
  _require_mapping task context;;
  let required :=
    ["id"; "objective"; "derived_from"; "status"; "timeout_seconds"] in
  let optional := ["depends_on"; "scope"; "success_criteria"] in
  let allowed := required ++ optional in
  _require_keys task required context;;
  _reject_extra_keys task allowed context;;
  v ← getitem task "id"; _require_string v (context +:+ ".id");;
  v ← getitem task "objective";
  _require_string v (context +:+ ".objective");;
  v ← getitem task "derived_from";
  _require_string v (context +:+ ".derived_from");;
  v ← getitem task "status";
  _require_enum v TASK_STATUSES (context +:+ ".status");;
  v ← getitem task "timeout_seconds";
  _require_int v (context +:+ ".timeout_seconds");;
  optional_string_list task "depends_on" context;;
  optional_string_list task "scope" context;;
  optional_string_list task "success_criteria" context.

Definition _validate_codex_result (result : json) : res unit :=
  let fields := ["status"; "files_changed"; "tests_run"; "notes"] in
  _require_mapping result "codex_result";;
  _require_keys result fields "codex_result";;
  _reject_extra_keys result fields "codex_result";;
  v ← getitem result "status";
  _require_enum v CODEX_RESULT_STATUSES "codex_result.status";;
  v ← getitem result "files_changed";
  _require_string_list v "codex_result.files_changed";;
  v ← getitem result "tests_run";
  _require_string_list v "codex_result.tests_run";;
  v ← getitem result "notes";
  _require_string v "codex_result.notes".

(** *** The methods of the store *)

Definition load_goals (store : StateStore) : M disk string :=
  _read_text (goals_path store).

Definition load_sources (store : StateStore) : M disk json :=
  _read_json_object (sources_path store).

Definition load_plan (store : StateStore) : M disk json :=
  plan ← _read_json_object (plan_path store);
  (if strict_schema_validation store then lift (_validate_plan plan)
   else mret tt);;
  mret plan.

Definition load_active_task (store : StateStore) : M disk json :=
  task ← _read_json_object (active_task_path store);
  (if strict_schema_validation store then lift (_validate_active_task task)
   else mret tt);;
  mret task.

Definition load_summary (store : StateStore) : M disk string := fun d =>
  if negb (exists_ d (summary_path store)) then (Ok DEFAULT_SUMMARY, d)
  else _read_text (summary_path store) d.

Definition load_last_result (store : StateStore) : M disk (option json) :=
  fun d =>
  if negb (exists_ d (last_result_path store)) then (Ok None, d)
  else
    (result ← _read_json_object (last_result_path store);
     (if strict_schema_validation store
      then lift (_validate_codex_result result)
      else mret tt);;
     mret (Some result)) d.

Definition load_progress (store : StateStore) : M disk string := fun d =>
  if negb (exists_ d (progress_path store)) then (Ok DEFAULT_PROGRESS, d)
  else _read_text (progress_path store) d.

Definition write_plan (store : StateStore) (plan : json) : M disk unit :=
  (if strict_schema_validation store then lift (_validate_plan plan)
   else mret tt);;
  _atomic_write_json (plan_path store) plan store.

Definition write_active_task (store : StateStore) (task : json)
  : M disk unit :=
  (if strict_schema_validation store then lift (_validate_active_task task)
   else mret tt);;
  _atomic_write_json (active_task_path store) task store.

Definition write_summary (store : StateStore) (content : string)
  : M disk unit :=
  _atomic_write_text (summary_path store) content store.

Definition write_last_result (store : StateStore) (result : json)
  : M disk unit :=
  (if strict_schema_validation store
   then lift (_validate_codex_result result)
   else mret tt);;
  _atomic_write_json (last_result_path store) result store.

Definition write_progress (store : StateStore) (content : string)
  : M disk unit :=
  _atomic_write_text (progress_path store) content store.

(** [unlink] removes a file; on a directory it fails. *)
Definition unlink (path : Path) : M disk unit := fun d =>
  match d !! key path with
  | Some (File _) => (Ok tt, delete (key path) d)
  | Some Dir => (Err (OSError ("Is a directory: " +:+ to_str path)), d)
  | None => (Err (OSError ("No such file: " +:+ to_str path)), d)
  end.

Definition clear_active_task (store : StateStore) : M disk unit := fun d =>
  if exists_ d (active_task_path store) then
    (lift (_ensure_writable_path (active_task_path store) store);;
     unlink (active_task_path store)) d
  else (Ok tt, d).

(** *** The configuration *)

Definition _require_section (config : json) (name : string) : res json :=
  section ← get config name;
  if negb (is_dict section)
  then fail ("config." +:+ name +:+ " must be an object.")
  else Ok section.

Definition _require_bool (value : json) (context : string) : res unit :=
  if negb (is_bool value) then fail (context +:+ " must be a boolean.")
  else Ok tt.

(** [value <= 0] and [value < 0], on the integers and booleans the
    callers pass; a comparison of anything else with [0] is a
    [TypeError]. *)
Definition as_number (value : json) : res Z :=
  match value with
  | JInt z => Ok z
  | JBool b => Ok (if b then 1 else 0)
  | _ => Err (TypeError "not supported between instances")
  end.

Definition _require_positive (value : json) (context : string)
  : res unit :=
  n ← as_number value;
  if n <=? 0 then fail (context +:+ " must be greater than zero.")
  else Ok tt.

Definition _require_non_negative (value : json) (context : string)
  : res unit :=
  n ← as_number value;
  if n <? 0 then fail (context +:+ " must be non-negative.")
  else Ok tt.

(** [value.strip()] is a method of strings. *)
Definition _require_non_empty (value : json) (context : string)
  : res unit :=
  match value with
  | JStr s =>
      if is_empty (strip s) then fail (context +:+ " must be non-empty.")
      else Ok tt
  | _ => Err (AttributeError "strip")
  end.

Definition LOG_LEVELS : list string :=
  ["debug"; "info"; "warning"; "error"; "critical"].

Definition _require_log_level (value : json) : res unit :=
  match value with
  | JStr s =>
      if negb (mem (lower s) LOG_LEVELS) then
        fail ("config.logging.level must be one of: "
              +:+ Py.join ", " (sorted LOG_LEVELS))
      else Ok tt
  | _ => Err (AttributeError "lower")
  end.

(** [x is not True] *)
Definition is_not_True (value : json) : bool :=
  match value with
  | JBool true => false
  | _ => true
  end.

(** The call of the constructor of [Config] on the values read: the
    checks before it leave a string, an integer or a boolean where the
    dataclass declares one. *)
Definition Config_of (command startup task retries failures one
    design_dir state_dir strict subset level log_file : json)
  : res Config :=
  match command, startup, task, retries, failures, one with
  | JStr command, JInt startup, JInt task, JInt retries, JInt failures,
    JBool one =>
      match design_dir, state_dir, strict, subset, level, log_file with
      | JStr design_dir, JStr state_dir, JBool strict, JBool subset,
        JStr level, JStr log_file =>
          Ok {| mcp_command := command;
                startup_timeout_seconds := startup;
                task_timeout_seconds := task;
                max_retries_per_task := retries;
                max_consecutive_failures := failures;
                one_task_at_a_time := one;
                cfg_design_dir := design_dir;
                cfg_state_dir := state_dir;
                cfg_strict_schema_validation := strict;
                cfg_json_subset_only := subset;
                log_level := level;
                log_file := log_file |}
      | _, _, _, _, _, _ => Err (TypeError "Config")
      end
  | _, _, _, _, _, _ => Err (TypeError "Config")
  end.

Definition _parse_config (config : json) : res Config :=
  let sections := ["mcp"; "execution"; "paths"; "validation"; "logging"] in
  _require_mapping config "config";;
  _require_keys config sections "config";;
  _reject_extra_keys config sections "config";;

  mcp ← _require_section config "mcp";
  _require_keys mcp ["command"; "startup_timeout_seconds"] "config.mcp";;
  _reject_extra_keys mcp ["command"; "startup_timeout_seconds"]
    "config.mcp";;
  command ← getitem mcp "command";
  _require_string command "config.mcp.command";;
  startup ← getitem mcp "startup_timeout_seconds";
  _require_int startup "config.mcp.startup_timeout_seconds";;
  _require_non_negative startup "config.mcp.startup_timeout_seconds";;

  execution ← _require_section config "execution";
  let execution_keys :=
    ["task_timeout_seconds"; "max_retries_per_task";
     "max_consecutive_failures"; "one_task_at_a_time"] in
  _require_keys execution execution_keys "config.execution";;
  _reject_extra_keys execution execution_keys "config.execution";;
  task ← getitem execution "task_timeout_seconds";
  _require_int task "config.execution.task_timeout_seconds";;
  _require_positive task "config.execution.task_timeout_seconds";;
  retries ← getitem execution "max_retries_per_task";
  _require_int retries "config.execution.max_retries_per_task";;
  _require_non_negative retries "config.execution.max_retries_per_task";;
  failures ← getitem execution "max_consecutive_failures";
  _require_int failures "config.execution.max_consecutive_failures";;
  _require_positive failures "config.execution.max_consecutive_failures";;
  one ← getitem execution "one_task_at_a_time";
  _require_bool one "config.execution.one_task_at_a_time";;
  (if is_not_True one
   then fail "config.execution.one_task_at_a_time must be true."
   else Ok tt);;

  paths ← _require_section config "paths";
  _require_keys paths ["design_dir"; "state_dir"] "config.paths";;
  _reject_extra_keys paths ["design_dir"; "state_dir"] "config.paths";;
  design_dir ← getitem paths "design_dir";
  _require_string design_dir "config.paths.design_dir";;
  state_dir ← getitem paths "state_dir";
  _require_string state_dir "config.paths.state_dir";;
  _require_non_empty design_dir "config.paths.design_dir";;
  _require_non_empty state_dir "config.paths.state_dir";;

  validation ← _require_section config "validation";
  _require_keys validation ["strict_schema_validation"; "json_subset_only"]
    "config.validation";;
  _reject_extra_keys validation
    ["strict_schema_validation"; "json_subset_only"] "config.validation";;
  strict ← getitem validation "strict_schema_validation";
  _require_bool strict "config.validation.strict_schema_validation";;
  subset ← getitem validation "json_subset_only";
  _require_bool subset "config.validation.json_subset_only";;
  (if is_not_True subset
   then fail "config.validation.json_subset_only must be true."
   else Ok tt);;

  logging_cfg ← _require_section config "logging";
  _require_keys logging_cfg ["level"; "log_file"] "config.logging";;
  _reject_extra_keys logging_cfg ["level"; "log_file"] "config.logging";;
  level ← getitem logging_cfg "level";
  _require_string level "config.logging.level";;
  log_file ← getitem logging_cfg "log_file";
  _require_string log_file "config.logging.log_file";;
  _require_non_empty level "config.logging.level";;
  _require_non_empty log_file "config.logging.log_file";;
  _require_log_level level;;

  Config_of command startup task retries failures one design_dir state_dir
    strict subset level log_file.

Definition load_config (store : StateStore) : M disk Config :=
  config_data ← _read_json_object (config_path store);
  lift (_parse_config config_data).

End state.

(* ================================================================= *)
(** ** [planner.py] *)

Module planner.
Import Py pathlib fs state.

(** The planner mutates the plan it is given; here each operation returns
    the plan as it stands afterwards.  Nothing else holds a reference to
    the tasks and objectives of a plan, which [json.loads] (or
    [ensure_plan]) has just built. *)

Definition empty_plan : json :=
  JObj [("version", JInt 1); ("objectives", JList []); ("tasks", JList [])].

Definition ensure_plan (store : StateStore) : M disk json := fun d =>
  if negb (exists_ d (plan_path store)) then
    (write_plan store empty_plan;; mret empty_plan) d
  else load_plan store d.

Fixpoint _task_map_loop (tasks : list json) (task_map : list (string * json))
  : res (list (string * json)) :=
  match tasks with
  | [] => Ok task_map
  | task :: r =>
      task_id ← get task "id";
      match task_id with
      | JStr s =>
          if is_empty s then
            Err (PlannerError "Task id must be a non-empty string.")
          else if dict_mem s task_map then
            Err (PlannerError ("Duplicate task id: " +:+ s))
          else _task_map_loop r (dict_set s task task_map)
      | _ => Err (PlannerError "Task id must be a non-empty string.")
      end
  end.

Definition _task_map (tasks : json) : res (list (string * json)) :=
  items ← iter tasks;
  _task_map_loop items [].

Fixpoint _dependencies_loop (deps : list json)
    (task_map : list (string * json)) : res bool :=
  match deps with
  | [] => Ok true
  | dep :: r =>
      match dep with
      | JStr s =>
          match dict_get s task_map with
          | None => Err (PlannerError ("Dependency not found: " +:+ s))
          | Some t =>
              status ← get t "status";
              if negb (eq_str status "done") then Ok false
              else _dependencies_loop r task_map
          end
      | _ => Err (PlannerError "depends_on entries must be strings.")
      end
  end.

Definition _dependencies_satisfied (depends_on : json)
    (task_map : list (string * json)) : res bool :=
  match depends_on with
  | JList deps => _dependencies_loop deps task_map
  | _ => Err (PlannerError "depends_on must be a list.")
  end.

Fixpoint select_loop (tasks : list json) (task_map : list (string * json))
  : res (option json) :=
  match tasks with
  | [] => Ok None
  | task :: r =>
      status ← get task "status";
      if eq_str status "active" then
        Err (PlannerError
               "Plan contains an active task without execution context.")
      else if negb (eq_str status "pending") then select_loop r task_map
      else
        depends_on ← get_default task "depends_on" (JList []);
        ok ← _dependencies_satisfied depends_on task_map;
        if negb ok then select_loop r task_map
        else Ok (Some task)
  end.

Definition select_next_task (plan : json) : res (option json) :=
  tasks ← get_default plan "tasks" (JList []);
  task_map ← _task_map tasks;
  items ← iter tasks;
  select_loop items task_map.

(** The position and the value of the first task whose id is [task_id]. *)
Fixpoint _find_task_loop (tasks : list json) (task_id : string) (i : nat)
  : res (nat * json) :=
  match tasks with
  | [] => Err (PlannerError ("Task not found: " +:+ task_id))
  | task :: r =>
      id ← get task "id";
      if eq_str id task_id then Ok (i, task)
      else _find_task_loop r task_id (S i)
  end.

Definition _find_task (plan : json) (task_id : string) : res (nat * json) :=
  tasks ← get_default plan "tasks" (JList []);
  items ← iter tasks;
  _find_task_loop items task_id O.

(** The plan once its [i]-th task has become [task]: the task found by
    [_find_task] is an item of the list under ["tasks"]. *)
Definition with_task (plan : json) (i : nat) (task : json) : json :=
  match plan with
  | JObj d =>
      match dict_get "tasks" d with
      | Some (JList items) =>
          JObj (dict_set "tasks" (JList (<[i := task]> items)) d)
      | _ => plan
      end
  | _ => plan
  end.

Definition with_objectives (plan : json) (objectives : list json) : json :=
  match plan with
  | JObj d =>
      match dict_get "objectives" d with
      | Some (JList _) => JObj (dict_set "objectives" (JList objectives) d)
      | _ => plan
      end
  | _ => plan
  end.

(** [tasks_by_objective.setdefault(objective_id, []).append(task)] for
    each task whose objective is a string. *)
Fixpoint group_tasks (tasks : list json)
    (by_objective : list (string * list json))
  : res (list (string * list json)) :=
  match tasks with
  | [] => Ok by_objective
  | task :: r =>
      objective_id ← get task "objective";
      match objective_id with
      | JStr s =>
          group_tasks r
            (dict_set s (default [] (dict_get s by_objective) ++ [task])
               by_objective)
      | _ => group_tasks r by_objective
      end
  end.

(** [{task.get("status") for task in related}], as the list of the
    statuses; one that cannot be hashed cannot enter the set. *)
Fixpoint status_set (related : list json) : res (list json) :=
  match related with
  | [] => Ok []
  | task :: r =>
      status ← get task "status";
      if negb (hashable status) then Err (TypeError "unhashable type")
      else rest ← status_set r; Ok (status :: rest)
  end.

(** [statuses <= {"done"}] and [statuses & {"active", "done", "failed",
    "blocked"}] *)
Definition all_done (statuses : list json) : bool :=
  forallb (fun s => eq_str s "done") statuses.

Definition some_started (statuses : list json) : bool :=
  existsb
    (fun s => eq_str s "active" || eq_str s "done" || eq_str s "failed"
              || eq_str s "blocked")
    statuses.

Definition rollup (statuses : list json) : string :=
  if all_done statuses then "complete"
  else if some_started statuses then "in_progress"
  else "pending".

Fixpoint refresh_loop (objectives : list json)
    (by_objective : list (string * list json)) : res (list json) :=
  match objectives with
  | [] => Ok []
  | obj :: r =>
      obj_id ← get obj "id";
      obj' ←
        match obj_id with
        | JStr s =>
            match default [] (dict_get s by_objective) with
            | [] => Ok obj
            | related =>
                statuses ← status_set related;
                setitem obj "status" (JStr (rollup statuses))
            end
        | _ => Ok obj
        end;
      rest ← refresh_loop r by_objective;
      Ok (obj' :: rest)
  end.

Definition _refresh_objective_statuses (plan : json) : res json :=
  objectives ← get_default plan "objectives" (JList []);
  tasks ← get_default plan "tasks" (JList []);
  items ← iter tasks;
  by_objective ← group_tasks items [];
  objs ← iter objectives;
  objs' ← refresh_loop objs by_objective;
  Ok (with_objectives plan objs').

(** [task["status"] = status] on the task with id [task_id], then the
    refresh. *)
Definition set_status (plan : json) (task_id : string) (status : string)
  : res (json * json) :=
  '(i, task) ← _find_task plan task_id;
  task' ← setitem task "status" (JStr status);
  plan' ← _refresh_objective_statuses (with_task plan i task');
  Ok (plan', task').

(** Returns the plan as mutated and the active task. *)
Definition activate_task (plan : json) (task_id : string)
    (timeout_seconds : Z) : res (json * json) :=
  '(plan', task) ← set_status plan task_id "active";
  active_task ← setitem task "timeout_seconds" (JInt timeout_seconds);
  Ok (plan', active_task).

Definition finalize_task (plan : json) (task_id : string) (status : string)
  : res json :=
  '(plan', _) ← set_status plan task_id status;
  Ok plan'.

Definition reset_task_for_retry (plan : json) (task_id : string)
  : res json :=
  '(plan', _) ← set_status plan task_id "pending";
  Ok plan'.

Definition _json_dump (payload : json) : string :=
  Json.dumps payload +:+ newline.

(** The key under which [json.dumps] writes an id: the id itself when it
    is a string, its JSON text when it is a number, a boolean or [None]
    (which strict validation excludes). *)
Definition key_of (v : json) : res string :=
  match v with
  | JStr s => Ok s
  | JList _ | JObj _ => Err (TypeError "unhashable type")
  | _ => Ok (Json.dumps v)
  end.

(** [{x["id"]: x["status"] for x in items}] *)
Fixpoint status_by_id (items : list json) (acc : list (string * json))
  : res (list (string * json)) :=
  match items with
  | [] => Ok acc
  | x :: r =>
      id ← getitem x "id";
      status ← getitem x "status";
      k ← key_of id;
      status_by_id r (dict_set k status acc)
  end.

Definition progress_of (plan : json) : res json :=
  objs ← get_default plan "objectives" (JList []);
  objs ← iter objs;
  objectives ← status_by_id objs [];
  tasks ← get_default plan "tasks" (JList []);
  tasks ← iter tasks;
  tasks ← status_by_id tasks [];
  Ok (JObj [("objectives", JObj objectives); ("tasks", JObj tasks)]).

Definition write_progress (store : StateStore) (plan : json) : M disk unit :=
  progress ← lift (progress_of plan);
  state.write_progress store (_json_dump progress).

Definition SUMMARY_HEADER : string :=
  "# Execution Summary" +:+ newline +:+ newline
  +:+ "(No execution has occurred yet.)" +:+ newline +:+ newline.

Definition append_summary (store : StateStore) (entry : string)
  : M disk unit :=
  let entry := if negb (endswith_newline entry) then entry +:+ newline
               else entry in
  d ← get_state;
  content ←
    (if negb (exists_ d (summary_path store)) then
       mret (SUMMARY_HEADER +:+ entry)
     else
       existing ← load_summary store;
       if is_empty (strip existing) then mret (SUMMARY_HEADER +:+ entry)
       else mret (rstrip existing +:+ newline +:+ newline +:+ entry));
  write_summary store content.

End planner.

(* ================================================================= *)
(** ** [watchdog.py] *)

Module watchdog.

Record RetryTracker : Type := {
  max_retries_per_task : Z;
  max_consecutive_failures : Z;
  attempts : gmap string Z;
  consecutive_failures : Z
}.

(** [RetryTracker(max_retries_per_task=r, max_consecutive_failures=c)] *)
Definition new (r c : Z) : RetryTracker :=
  {| max_retries_per_task := r;
     max_consecutive_failures := c;
     attempts := ∅;
     consecutive_failures := 0 |}.

Definition record_success (self : RetryTracker) (task_id : string)
  : RetryTracker :=
  {| max_retries_per_task := max_retries_per_task self;
     max_consecutive_failures := max_consecutive_failures self;
     attempts := delete task_id (attempts self);
     consecutive_failures := 0 |}.

Definition record_failure (self : RetryTracker) (task_id : string)
  : RetryTracker :=
  {| max_retries_per_task := max_retries_per_task self;
     max_consecutive_failures := max_consecutive_failures self;
     attempts :=
       <[task_id := default 0 (attempts self !! task_id) + 1]>
         (attempts self);
     consecutive_failures := consecutive_failures self + 1 |}.

Definition can_retry (self : RetryTracker) (task_id : string) : bool :=
  default 0 (attempts self !! task_id) <=? max_retries_per_task self.

Definition too_many_consecutive_failures (self : RetryTracker) : bool :=
  max_consecutive_failures self <=? consecutive_failures self.

End watchdog.

(* ================================================================= *)
(** ** [policies.py] *)

Module policies.
Import Py pathlib.

(** [candidate.resolve()] raises [ValueError] when the entry holds a NUL
    character. *)
Definition resolve_path (project_root : Path) (path_str : string)
  : res Path :=
  let candidate := of_str path_str in
  let candidate :=
    if negb (is_absolute candidate) then joinpath project_root candidate
    else candidate in
  resolve_checked candidate.

Definition _is_within (path directory : Path) : bool :=
  relative_to_ok path directory.

(** Whether an entry, a string, goes to the list of forbidden changes. *)
Definition is_forbidden (project_root design_root state_root : Path)
    (entry : string) : res bool :=
  resolved ← resolve_path project_root entry;
  if _is_within resolved design_root || _is_within resolved state_root
  then Ok true
  else if negb (_is_within resolved project_root) then Ok true
  else Ok false.

Fixpoint forbidden_loop (project_root design_root state_root : Path)
    (entries : list json) (forbidden : list string) : res (list string) :=
  match entries with
  | [] => Ok forbidden
  | entry :: r =>
      match entry with
      | JStr s =>
          bad ← is_forbidden project_root design_root state_root s;
          forbidden_loop project_root design_root state_root r
            (if bad : bool then forbidden ++ [s] else forbidden)
      | _ => Err (PolicyViolation "files_changed entries must be strings.")
      end
  end.

Definition assert_no_forbidden_changes (files_changed : json)
    (project_root design_dir state_dir : Path) : res unit :=
  design_root ← resolve_checked design_dir;
  state_root ← resolve_checked state_dir;
  project_root ← resolve_checked project_root;
  entries ← iter files_changed;
  forbidden ← forbidden_loop project_root design_root state_root entries [];
  match forbidden with
  | [] => Ok tt
  | _ =>
      let joined := Py.join ", " (sorted forbidden) in
      Err (PolicyViolation ("Forbidden files modified: " +:+ joined))
  end.

End policies.

(* ================================================================= *)
(** ** [mcp_client.py] *)

Module mcp_client.
Import Py.

Record MCPResult : Type := { payload : json; stderr : string }.

(** The agent is an external process.  One invocation of it is described
    by what the client observes of it: the spawn fails, the process has
    exited when the client first looks, no line comes within the time
    allowed, or a line comes, along with what the process wrote to its
    error stream.  (A command that cannot be split into words, and a pipe
    that breaks while the request is written, are outside the model.) *)
Inductive exchange : Type :=
| SpawnFails (why : string)
| ExitsAtStartup
| Silent
| Answers (line : string) (err : string).

Record MCPClient : Type := {
  command : string;
  startup_timeout_seconds : Z;
  task_timeout_seconds : Z
}.

(** [MCPClient.__init__] *)
Definition MCPClient_init (command : string) (startup task : Z)
  : res MCPClient :=
  if is_empty (strip command) then
    Err (MCPProcessError "MCP command must be a non-empty string.")
  else
    Ok {| command := command;
          startup_timeout_seconds := startup;
          task_timeout_seconds := task |}.

(** The decoder's own account of the error is left out of the message. *)
Definition _parse_response (line : string) : res json :=
  if is_empty line then Err (MCPProtocolError "MCP response was empty.")
  else
    match Json.loads line with
    | None => Err (MCPProtocolError "MCP response is not valid JSON")
    | Some data =>
        if negb (is_dict data) then
          Err (MCPProtocolError "MCP response must be a JSON object.")
        else Ok data
    end.

(** [run_task], given what the process does this time. *)
Definition run_task (self : MCPClient) (request : json) (x : exchange)
  : res MCPResult :=
  if negb (is_dict request) then
    Err (MCPProtocolError "Task payload must be a JSON object.")
  else
    match x with
    | SpawnFails why =>
        Err (MCPProcessError ("Failed to start MCP command: " +:+ why))
    | ExitsAtStartup =>
        Err (MCPProcessError "MCP process exited during startup.")
    | Silent | Answers _ _ =>
        if startup_timeout_seconds self <? 0 then
          Err (MCPProcessError
                 "startup_timeout_seconds must be non-negative.")
        else
          match x with
          | Answers line err =>
              response ← _parse_response line;
              Ok {| payload := response; stderr := err |}
          | _ => Err (MCPTimeoutError "Timed out waiting for MCP response.")
          end
    end.

End mcp_client.

(* ================================================================= *)
(** ** [daemon.py]: the control loop *)

Module daemon.
Import Py pathlib fs state.

(** What the loop changes: the disk, the retry tracker and the log.  The
    log is kept as the list of the records (level and message), oldest
    first; the log file itself, with its time stamps, is not on the
    modelled disk. *)
Record World : Type := {
  w_disk : disk;
  w_tracker : watchdog.RetryTracker;
  w_log : list (string * string)
}.

Definition on_disk {A} (m : M disk A) : M World A := fun w =>
  let '(r, d) := m (w_disk w) in
  (r, {| w_disk := d; w_tracker := w_tracker w; w_log := w_log w |}).

Definition on_tracker (f : watchdog.RetryTracker → watchdog.RetryTracker)
  : M World unit := fun w =>
  (Ok tt, {| w_disk := w_disk w; w_tracker := f (w_tracker w);
             w_log := w_log w |}).

Definition tracker : M World watchdog.RetryTracker := fun w =>
  (Ok (w_tracker w), w).

Definition logger (level msg : string) : M World unit := fun w =>
  (Ok tt, {| w_disk := w_disk w; w_tracker := w_tracker w;
             w_log := w_log w ++ [(level, msg)] |}).

Definition _append_summary (store : StateStore) (task_id status : string)
    (payload : json) : M disk unit :=
  line1 ← mret ("Task " +:+ task_id +:+ ": " +:+ status);
  files ← lift (get_default payload "files_changed" (JList []));
  n_files ← lift (len files);
  tests ← lift (get_default payload "tests_run" (JList []));
  n_tests ← lift (len tests);
  notes ← lift (get_default payload "notes" (JStr ""));
  let entry_lines :=
    [line1;
     "Files changed: " +:+ str_of_nat n_files;
     "Tests run: " +:+ str_of_nat n_tests;
     "Notes: " +:+ str notes] in
  planner.append_summary store (Py.join newline entry_lines).

(** The id of the task the planner selected: a string, since the task map
    was built from it. *)
Definition task_id_of (task : json) : res string :=
  id ← getitem task "id";
  match id with
  | JStr s => Ok s
  | _ => Err (TypeError "task id")
  end.

(** One pass of the loop body up to the call of the agent: [None] when
    the loop returns, otherwise the plan, the id of the task and the
    active task. *)
Definition start_iteration (store : StateStore) (config : Config)
  : M World (option (json * string * json)) :=
  w ← get_state;
  (if exists_ (w_disk w) (active_task_path store) then
     raise (StopExecution
              "ACTIVE_TASK.yaml exists; manual intervention required.")
   else mret tt);;
  plan ← on_disk (planner.ensure_plan store);
  task ← lift (planner.select_next_task plan);
  match task with
  | None =>
      logger "INFO" "No pending tasks available. Stopping.";;
      mret None
  | Some task =>
      task_id ← lift (task_id_of task);
      '(plan, active_task) ←
        lift (planner.activate_task plan task_id
                (task_timeout_seconds config));
      on_disk (write_plan store plan);;
      on_disk (planner.write_progress store plan);;
      on_disk (write_active_task store active_task);;
      mret (Some (plan, task_id, active_task))
  end.

(** The rest of the body, given what the agent does: it returns when the
    loop goes on to its next pass and raises otherwise. *)
Definition finish_iteration (store : StateStore) (config : Config)
    (project_root : Path) (plan : json) (task_id : string)
    (active_task : json) (x : mcp_client.exchange) : M World unit :=
  executor ← lift (mcp_client.MCPClient_init (mcp_command config)
                     (startup_timeout_seconds config)
                     (task_timeout_seconds config));
  let request := JObj [("task", active_task)] in
  result ←
    match mcp_client.run_task executor request x with
    | Err (MCPTimeoutError msg) => raise (StopExecution msg)
    | r => lift r
    end;
  let payload := mcp_client.payload result in
  on_disk (clear_active_task store);;
  (if negb (is_empty (strip (mcp_client.stderr result))) then
     logger "WARNING" ("MCP stderr: " +:+ strip (mcp_client.stderr result))
   else mret tt);;
  on_disk (write_last_result store payload);;
  files ← lift (get_default payload "files_changed" (JList []));
  lift (policies.assert_no_forbidden_changes files project_root
          (design_dir store) (ai_dir store));;
  status ← lift (get payload "status");
  if eq_str status "success" then
    plan ← lift (planner.finalize_task plan task_id "done");
    on_tracker (fun t => watchdog.record_success t task_id);;
    on_disk (_append_summary store task_id "success" payload);;
    on_disk (write_plan store plan);;
    on_disk (planner.write_progress store plan)
  else if eq_str status "blocked" then
    plan ← lift (planner.finalize_task plan task_id "blocked");
    on_disk (write_plan store plan);;
    on_disk (planner.write_progress store plan);;
    on_disk (_append_summary store task_id "blocked" payload);;
    raise (StopExecution "Codex reported blocked.")
  else if eq_str status "failed" then
    on_tracker (fun t => watchdog.record_failure t task_id);;
    t ← tracker;
    if watchdog.too_many_consecutive_failures t then
      raise (StopExecution "Max consecutive failures reached.")
    else if watchdog.can_retry t task_id then
      plan ← lift (planner.reset_task_for_retry plan task_id);
      on_disk (write_plan store plan);;
      on_disk (planner.write_progress store plan);;
      on_disk (_append_summary store task_id "failed" payload)
    else
      plan ← lift (planner.finalize_task plan task_id "failed");
      on_disk (write_plan store plan);;
      on_disk (planner.write_progress store plan);;
      on_disk (_append_summary store task_id "failed" payload);;
      raise (StopExecution "Task failed more than once.")
  else
    raise (StopExecution ("Unexpected Codex status: " +:+ str status)).

(** How a run of the loop ends when it does not raise: it returns, or
    the listed behaviours of the agent are used up and the loop is at the
    point of calling it again. *)
Inductive loop_end : Type :=
| Returned
| AwaitingAgent.

(** [_run_loop], against an agent that behaves as [agent] lists, one item
    per invocation. *)
Fixpoint _run_loop (store : StateStore) (config : Config)
    (project_root : Path) (agent : list mcp_client.exchange)
  : M World loop_end :=
  started ← start_iteration store config;
  match started with
  | None => mret Returned
  | Some (plan, task_id, active_task) =>
      match agent with
      | [] => mret AwaitingAgent
      | x :: agent' =>
          finish_iteration store config project_root plan task_id
            active_task x;;
          _run_loop store config project_root agent'
      end
  end.

(** The retry limit [main] hands to the tracker. *)
Definition effective_max_retries (config : Config) : Z :=
  Z.min (max_retries_per_task config) 1.

(** The [try] statement of [main] around the loop: [StopExecution], the
    state, planner and policy errors and the errors of the client are
    logged and [main] goes on to return; any other exception leaves
    [main].  The [finally] clause logs the exit in every case. *)
Definition guarded_loop (store : StateStore) (config : Config)
    (project_root : Path) (agent : list mcp_client.exchange)
  : M World loop_end := fun w =>
  let '(r, w') := _run_loop store config project_root agent w in
  let finally := logger "INFO" "Shepherd exiting." in
  match r with
  | Ok e => (finally;; mret e) w'
  | Err (StopExecution msg) =>
      (logger "ERROR" ("Execution stopped: " +:+ msg);; finally;;
       mret Returned) w'
  | Err e =>
      if is_StateError e
         || match e with
            | PlannerError _ | PolicyViolation _ => true
            | _ => false
            end
      then
        (logger "ERROR" ("Execution halted: " +:+ exn_message e);;
         finally;; mret Returned) w'
      else if is_MCPError e then
        (logger "ERROR" ("MCP error: " +:+ exn_message e);; finally;;
         mret Returned) w'
      else (finally;; raise e) w'
  end.

(** [main] from the construction of the tracker on: the clamp of the
    retry limit, then the guarded loop.  [Returned] is [main] returning. *)
Definition run (store : StateStore) (config : Config) (project_root : Path)
    (agent : list mcp_client.exchange) : M World loop_end :=
  let max_retries := effective_max_retries config in
  (if max_retries <? max_retries_per_task config then
     logger "WARNING"
       ("max_retries_per_task=" +:+ str_of_Z (max_retries_per_task config)
        +:+ " exceeds safety limit; clamped to " +:+ str_of_Z max_retries
        +:+ ".")
   else mret tt);;
  on_tracker (fun _ =>
    watchdog.new max_retries (max_consecutive_failures config));;
  guarded_loop store config project_root agent.

End daemon.

(* ================================================================= *)
(** ** The data model, as the specification words it *)

(** These predicates follow section 3 of the specification, not the
    validators of [state.py]; the two are compared below. *)
Module schema.
Import Py.

Definition field_is (p : json → bool) (d : list (string * json))
    (k : string) : bool :=
  match dict_get k d with
  | Some v => p v
  | None => false
  end.

(** An optional field: absent, or present and as required. *)
Definition optional_is (p : json → bool) (d : list (string * json))
    (k : string) : bool :=
  match dict_get k d with
  | Some v => p v
  | None => true
  end.

Definition only_keys (allowed : list string) (d : list (string * json))
  : bool :=
  forallb (fun k => mem k allowed) (dict_keys d).

Definition one_of (allowed : list string) (v : json) : bool :=
  match v with
  | JStr s => mem s allowed
  | _ => false
  end.

(** An integer that is not a boolean. *)
Definition is_integer (v : json) : bool :=
  match v with
  | JInt _ => true
  | _ => false
  end.

Definition list_of (p : json → bool) (v : json) : bool :=
  match v with
  | JList l => forallb p l
  | _ => false
  end.

Definition string_list : json → bool := list_of is_str.

(** Objective: [{id: string, source: string, status}], no extras. *)
Definition is_objective (v : json) : bool :=
  match v with
  | JObj d =>
      only_keys ["id"; "source"; "status"] d
      && field_is is_str d "id"
      && field_is is_str d "source"
      && field_is (one_of ["pending"; "in_progress"; "complete"]) d "status"
  | _ => false
  end.

Definition task_fields (d : list (string * json)) : bool :=
  field_is is_str d "id"
  && field_is is_str d "objective"
  && field_is is_str d "derived_from"
  && field_is (one_of ["pending"; "active"; "done"; "failed"; "blocked"])
       d "status"
  && optional_is string_list d "depends_on"
  && optional_is string_list d "scope"
  && optional_is string_list d "success_criteria".

(** Task: four required fields and three optional lists of strings. *)
Definition is_task (v : json) : bool :=
  match v with
  | JObj d =>
      only_keys ["id"; "objective"; "derived_from"; "status";
                 "depends_on"; "scope"; "success_criteria"] d
      && task_fields d
  | _ => false
  end.

(** Active task: a task with the additional required integer
    [timeout_seconds]. *)
Definition is_active_task (v : json) : bool :=
  match v with
  | JObj d =>
      only_keys ["id"; "objective"; "derived_from"; "status";
                 "timeout_seconds"; "depends_on"; "scope";
                 "success_criteria"] d
      && task_fields d
      && field_is is_integer d "timeout_seconds"
  | _ => false
  end.

(** Plan: [{version: int, objectives: [Objective], tasks: [Task]}], no
    unknown keys. *)
Definition is_plan (v : json) : bool :=
  match v with
  | JObj d =>
      only_keys ["version"; "objectives"; "tasks"] d
      && field_is is_integer d "version"
      && field_is (list_of is_objective) d "objectives"
      && field_is (list_of is_task) d "tasks"
  | _ => false
  end.

(** Agent result: [{status, files_changed, tests_run, notes}], no
    extras. *)
Definition is_agent_result (v : json) : bool :=
  match v with
  | JObj d =>
      only_keys ["status"; "files_changed"; "tests_run"; "notes"] d
      && field_is (one_of ["success"; "failed"; "blocked"]) d "status"
      && field_is string_list d "files_changed"
      && field_is string_list d "tests_run"
      && field_is is_str d "notes"
  | _ => false
  end.

End schema.

(* ================================================================= *)
(** ** A small project, used to exercise the statements *)

Module sample.
Import Py pathlib fs state.

Definition root : Path := {| is_absolute := true; parts := ["proj"] |}.

Definition task (id status : string) (deps : list string) : json :=
  JObj [("id", JStr id); ("objective", JStr "o1"); ("derived_from", JStr "d");
        ("status", JStr status); ("depends_on", JList (map JStr deps))].

Definition objective (status : string) : json :=
  JObj [("id", JStr "o1"); ("source", JStr "s"); ("status", JStr status)].

Definition plan_of (tasks : list json) : json :=
  JObj [("version", JInt 1); ("objectives", JList [objective "pending"]);
        ("tasks", JList tasks)].

(** One pending task, as in the second scenario of the specification. *)
Definition plan : json := plan_of [task "t1" "pending" []].

(** The directories of the project, and nothing in them. *)
Definition bare_disk : disk :=
  <[ ["proj"; "ai"] := Dir ]>
    (<[ ["proj"; "design"] := Dir ]>
       (<[ ["proj"] := Dir ]> (<[ [] := Dir ]> ∅))).

Definition disk_with (p : json) : disk :=
  <[ ["proj"; "ai"; "PLAN.yaml"] := File (Json.dumps p +:+ newline) ]>
    bare_disk.

Definition store : StateStore :=
  let ai := join root "ai" in
  {| project_root := root;
     ai_dir := ai;
     design_dir := join root "design";
     config_path := join ai CONFIG_FILENAME;
     goals_path := join ai GOALS_FILENAME;
     sources_path := join ai SOURCES_FILENAME;
     plan_path := join ai PLAN_FILENAME;
     active_task_path := join ai ACTIVE_TASK_FILENAME;
     summary_path := join ai SUMMARY_FILENAME;
     last_result_path := join ai LAST_RESULT_FILENAME;
     progress_path := join ai PROGRESS_FILENAME;
     strict_schema_validation := true;
     json_subset_only := true;
     _read_only_paths :=
       [join ai CONFIG_FILENAME; join ai GOALS_FILENAME;
        join ai SOURCES_FILENAME];
     _writable_paths :=
       [join ai PLAN_FILENAME; join ai ACTIVE_TASK_FILENAME;
        join ai SUMMARY_FILENAME; join ai LAST_RESULT_FILENAME;
        join ai PROGRESS_FILENAME];
     _design_resolved := join root "design" |}.

(** The same store with strict validation turned off. *)
Definition lenient_store : StateStore :=
  let ai := join root "ai" in
  {| project_root := root;
     ai_dir := ai;
     design_dir := join root "design";
     config_path := join ai CONFIG_FILENAME;
     goals_path := join ai GOALS_FILENAME;
     sources_path := join ai SOURCES_FILENAME;
     plan_path := join ai PLAN_FILENAME;
     active_task_path := join ai ACTIVE_TASK_FILENAME;
     summary_path := join ai SUMMARY_FILENAME;
     last_result_path := join ai LAST_RESULT_FILENAME;
     progress_path := join ai PROGRESS_FILENAME;
     strict_schema_validation := false;
     json_subset_only := true;
     _read_only_paths :=
       [join ai CONFIG_FILENAME; join ai GOALS_FILENAME;
        join ai SOURCES_FILENAME];
     _writable_paths :=
       [join ai PLAN_FILENAME; join ai ACTIVE_TASK_FILENAME;
        join ai SUMMARY_FILENAME; join ai LAST_RESULT_FILENAME;
        join ai PROGRESS_FILENAME];
     _design_resolved := join root "design" |}.

Definition config (max_retries max_failures : Z) : Config :=
  {| mcp_command := "agent";
     startup_timeout_seconds := 0;
     task_timeout_seconds := 30;
     max_retries_per_task := max_retries;
     max_consecutive_failures := max_failures;
     one_task_at_a_time := true;
     cfg_design_dir := "design";
     cfg_state_dir := "ai";
     cfg_strict_schema_validation := true;
     cfg_json_subset_only := true;
     log_level := "info";
     log_file := "shepherd.log" |}.

Definition result (status : string) (files : list string) : json :=
  JObj [("status", JStr status); ("files_changed", JList (map JStr files));
        ("tests_run", JList [JStr "t"]); ("notes", JStr "ok")].

(** The agent answers with the line that carries [payload]. *)
Definition answers (payload : json) : mcp_client.exchange :=
  mcp_client.Answers (Json.dumps payload +:+ newline) "".

Definition world (d : disk) : daemon.World :=
  {| daemon.w_disk := d;
     daemon.w_tracker := watchdog.new 1 2;
     daemon.w_log := [] |}.

(** The document of a configuration file. *)
Definition config_data (max_retries max_failures : Z) : json :=
  JObj [("mcp", JObj [("command", JStr "agent");
                      ("startup_timeout_seconds", JInt 0)]);
        ("execution", JObj [("task_timeout_seconds", JInt 30);
                            ("max_retries_per_task", JInt max_retries);
                            ("max_consecutive_failures", JInt max_failures);
                            ("one_task_at_a_time", JBool true)]);
        ("paths", JObj [("design_dir", JStr "design");
                        ("state_dir", JStr "ai")]);
        ("validation", JObj [("strict_schema_validation", JBool true);
                             ("json_subset_only", JBool true)]);
        ("logging", JObj [("level", JStr "info");
                          ("log_file", JStr "shepherd.log")])].

(** Three tasks: the first is done, the second waits for the third, the
    third is pending and free. *)
Definition chain : json :=
  plan_of
    [task "a" "done" []; task "b" "pending" ["a"; "c"];
     task "c" "pending" ["a"]].

(** A pending task that depends on a task that is not done and, after
    it, on a name that is in no task. *)
Definition dangling : json :=
  plan_of [task "b" "pending" ["a"; "ghost"]; task "a" "pending" []].

End sample.

(* ================================================================= *)
(** ** Reading a plan, in the words of the specification *)

(** The notions the properties are stated with: the tasks and objectives
    of a plan, the fields of a task, the tasks related to an objective,
    whether a dependency is done.  They are meant for plans that have the
    shape of [schema.is_plan]. *)
Module view.
Import Py.

Definition list_field (k : string) (v : json) : list json :=
  match v with
  | JObj d =>
      match dict_get k d with
      | Some (JList l) => l
      | _ => []
      end
  | _ => []
  end.

Definition str_field (k : string) (v : json) : string :=
  match v with
  | JObj d =>
      match dict_get k d with
      | Some (JStr s) => s
      | _ => ""
      end
  | _ => ""
  end.

Definition tasks_of : json → list json := list_field "tasks".
Definition objectives_of : json → list json := list_field "objectives".
Definition id_of : json → string := str_field "id".
Definition status_of : json → string := str_field "status".
Definition objective_of : json → string := str_field "objective".

Definition unstr (v : json) : string :=
  match v with
  | JStr s => s
  | _ => ""
  end.

Definition deps_of (task : json) : list string :=
  map unstr (list_field "depends_on" task).

(** The task of the plan with a given id. *)
Definition find_task (tasks : list json) (id : string) : option json :=
  List.find (fun t => String.eqb (id_of t) id) tasks.

Definition dep_exists (tasks : list json) (dep : string) : bool :=
  match find_task tasks dep with
  | Some _ => true
  | None => false
  end.

Definition dep_done (tasks : list json) (dep : string) : bool :=
  match find_task tasks dep with
  | Some t => String.eqb (status_of t) "done"
  | None => false
  end.

Definition has_status (s : string) (task : json) : bool :=
  String.eqb (status_of task) s.

(** A pending task all of whose dependencies name tasks that are done. *)
Definition eligible (tasks : list json) (task : json) : bool :=
  has_status "pending" task && forallb (dep_done tasks) (deps_of task).

(** The dependencies hold a pending task back: one of them names a task
    that is not done, and those listed before it name tasks that are
    done.  What is listed after it is not looked at. *)
Fixpoint held_back (tasks : list json) (deps : list string) : bool :=
  match deps with
  | [] => false
  | dep :: r =>
      dep_exists tasks dep
      && (negb (dep_done tasks dep) || held_back tasks r)
  end.

(** A task the scan passes over: one that is neither active nor pending,
    or a pending one that its dependencies hold back. *)
Definition passed_over (tasks : list json) (task : json) : bool :=
  negb (has_status "active" task) && negb (has_status "pending" task)
  || has_status "pending" task && held_back tasks (deps_of task).

(** Task ids are non-empty and unique within the plan. *)
Definition unique_ids (tasks : list json) : bool :=
  forallb (fun t => negb (is_empty (id_of t))) tasks
  && distinct (map id_of tasks).

(** The tasks related to an objective: those whose [objective] field is
    the id of the objective. *)
Definition related (tasks : list json) (objective : json) : list json :=
  List.filter (fun t => String.eqb (objective_of t) (id_of objective)) tasks.

(** The status of an objective that has related tasks: [complete] if
    every related task is done, else [in_progress] if some related task
    is active, done, failed or blocked, else [pending]. *)
Definition rollup (related : list json) : string :=
  if forallb (has_status "done") related then "complete"
  else if existsb
            (fun t => has_status "active" t || has_status "done" t
                      || has_status "failed" t || has_status "blocked" t)
            related
  then "in_progress"
  else "pending".

End view.

(** ** The effect of the planner's mutations, as values *)

Module effect.
Import Py view.

(** [v["status"] = s] *)
Definition with_status (v : json) (s : string) : json :=
  match v with
  | JObj d => JObj (dict_set "status" (JStr s) d)
  | _ => v
  end.

Definition replace_tasks (plan : json) (tasks : list json) : json :=
  match plan with
  | JObj d => JObj (dict_set "tasks" (JList tasks) d)
  | _ => plan
  end.

Definition replace_objectives (plan : json) (objectives : list json)
  : json :=
  match plan with
  | JObj d => JObj (dict_set "objectives" (JList objectives) d)
  | _ => plan
  end.

(** An objective after the refresh, given the tasks of the plan: its
    status becomes the roll-up of its related tasks when it has some. *)
Definition refresh_one (tasks : list json) (objective : json) : json :=
  match related tasks objective with
  | [] => objective
  | rel => with_status objective (rollup rel)
  end.

(** The plan once its tasks have become [tasks] and its objectives have
    been refreshed. *)
Definition mutated (plan : json) (tasks : list json) : json :=
  replace_objectives (replace_tasks plan tasks)
    (map (refresh_one tasks) (objectives_of plan)).

(** [dict(task)] with [timeout_seconds] added. *)
Definition with_timeout (task : json) (timeout : Z) : json :=
  match task with
  | JObj d => JObj (dict_set "timeout_seconds" (JInt timeout) d)
  | _ => task
  end.

End effect.

Module rollup_spec.
Import Py view.

(** The objectives of [after] are those of [before], in the same order;
    each one that has related tasks in [after] has the status that the
    roll-up gives for them, and each other one is as it was. *)
Definition rolled_up (before after : json) : Prop :=
  length (objectives_of after) = length (objectives_of before)
  ∧ ∀ (i : nat) o o',
      objectives_of before !! i = Some o →
      objectives_of after !! i = Some o' →
      id_of o' = id_of o
      ∧ match related (tasks_of after) o' with
        | [] => o' = o
        | rel => status_of o' = rollup rel
        end.

End rollup_spec.

Module layout.
Import Py pathlib fs state.

(** The five files the store writes. *)
Definition written_paths (store : StateStore) : list Path :=
  [plan_path store; active_task_path store; summary_path store;
   last_result_path store; progress_path store].

Definition is_ok {A} (r : res A) : bool :=
  match r with Ok _ => true | Err _ => false end.

Definition is_dir (d : disk) (p : Path) : bool :=
  match d !! key p with Some Dir => true | _ => false end.

(** The store can work on the disk: its five files pass the check of
    [_ensure_writable_path], are five different files, stand in
    directories that exist, and are not directories themselves. *)
Definition usable (store : StateStore) (d : disk) : bool :=
  forallb (fun p => is_ok (_ensure_writable_path p store))
    (written_paths store)
  && bool_decide (NoDup (map key (written_paths store)))
  && forallb (fun p => is_dir d (parent p)) (written_paths store)
  && forallb (fun p => negb (is_dir d p)) (written_paths store).

End layout.

Module outcome.
Import Py pathlib fs state view effect.

(** The tasks once the first one with id [id] has taken the status [s]. *)
Fixpoint set_first (tasks : list json) (id s : string) : list json :=
  match tasks with
  | [] => []
  | u :: r =>
      if String.eqb (id_of u) id then with_status u s :: r
      else u :: set_first r id s
  end.

(** The plan after [task["status"] = s] on the task [id] and the refresh
    of the objectives. *)
Definition plan_after (plan : json) (id s : string) : json :=
  mutated plan (set_first (tasks_of plan) id s).

(** The text the store writes for a document. *)
Definition text_of (v : json) : string := Json.dumps v +:+ newline.

(** The text [Planner.write_progress] writes for a plan. *)
Definition progress_text (plan : json) : string :=
  match planner.progress_of plan with
  | Ok progress => planner._json_dump progress
  | Err _ => EmptyString
  end.

(** What the loop logs of the error stream of the agent. *)
Definition stderr_log (err : string) : list (string * string) :=
  if negb (is_empty (strip err))
  then [("WARNING", "MCP stderr: " +:+ strip err)]
  else [].

(** The disk once a pass has written the plan, the progress file and the
    active task. *)
Definition started_disk (store : StateStore) (d : disk) (plan active : json)
  : disk :=
  <[key (active_task_path store) := File (text_of active)]>
    (<[key (progress_path store) := File (progress_text plan)]>
       (<[key (plan_path store) := File (text_of plan)]> d)).

(** The disk once the agent has answered: the active task file is gone
    and the result is stored. *)
Definition answered_disk (store : StateStore) (d : disk) (payload : json)
  : disk :=
  <[key (last_result_path store) := File (text_of payload)]>
    (delete (key (active_task_path store)) d).

(** The disk once a failure has been settled: the plan and the progress
    file are written, then the summary. *)
Definition settled_disk (store : StateStore) (d : disk) (plan : json)
    (summary : string) : disk :=
  <[key (summary_path store) := File summary]>
    (<[key (progress_path store) := File (progress_text plan)]>
       (<[key (plan_path store) := File (text_of plan)]> d)).

(** The agent is invoked and answers with the line [line], which is the
    text of the dictionary [payload]. *)
Record answering (config : Config) (line : string) (payload : json)
  : Prop := {
  answering_command : is_empty (strip (mcp_command config)) = false;
  answering_startup : 0 <= startup_timeout_seconds config;
  answering_line : mcp_client._parse_response line = Ok payload
}.

(** The status of the task [id] in a plan, [None] if there is none. *)
Definition status_in (plan : json) (id : string) : option string :=
  status_of <$> find_task (tasks_of plan) id.

(** The plan the plan file holds, and the status of a task in it. *)
Definition persisted_plan (store : StateStore) (d : disk) : option json :=
  match d !! key (plan_path store) with
  | Some (File text) => Json.loads text
  | _ => None
  end.

Definition persisted_status (store : StateStore) (d : disk) (id : string)
  : option string :=
  plan ← persisted_plan store d; status_in plan id.

(** The verdict of the policy enforcer on a result, as the loop asks
    for it. *)
Definition policy_verdict (store : StateStore) (project_root : Path)
    (payload : json) : res unit :=
  files ← get_default payload "files_changed" (JList []);
  policies.assert_no_forbidden_changes files project_root
    (design_dir store) (ai_dir store).

(** The agent answers with a result that passes validation and the
    policy check and reports the status [status]. *)
Record reporting (store : StateStore) (config : Config)
    (project_root : Path) (status line : string) (payload : json)
  : Prop := {
  reporting_answer : answering config line payload;
  reporting_result : schema.is_agent_result payload = true;
  reporting_status : get payload "status" = Ok (JStr status);
  reporting_policy : policy_verdict store project_root payload = Ok tt
}.

(** One pass of the body of the loop, given what the agent does: [true]
    when the loop goes on to its next pass, [false] when it returns. *)
Definition iteration (store : StateStore) (config : Config)
    (project_root : Path) (x : mcp_client.exchange) : M daemon.World bool :=
  started ← daemon.start_iteration store config;
  match started with
  | None => mret false
  | Some (plan, task_id, active_task) =>
      daemon.finish_iteration store config project_root plan task_id
        active_task x;;
      mret true
  end.

(** The world in which [main] enters the loop: the tracker is new, with
    the clamped retry limit, and the clamp is logged when it applies. *)
Definition clamp_log (config : Config) : list (string * string) :=
  if daemon.effective_max_retries config <? max_retries_per_task config
  then [("WARNING",
         "max_retries_per_task="
         +:+ str_of_Z (max_retries_per_task config)
         +:+ " exceeds safety limit; clamped to "
         +:+ str_of_Z (daemon.effective_max_retries config) +:+ ".")]
  else [].

Definition entered (config : Config) (w : daemon.World) : daemon.World :=
  {| daemon.w_disk := daemon.w_disk w;
     daemon.w_tracker :=
       watchdog.new (daemon.effective_max_retries config)
         (max_consecutive_failures config);
     daemon.w_log := daemon.w_log w ++ clamp_log config |}.

(** The two limits of a tracker. *)
Definition limits (t : watchdog.RetryTracker) : Z * Z :=
  (watchdog.max_retries_per_task t, watchdog.max_consecutive_failures t).

End outcome.

Module scanning.
Import Py view.

(** The dependencies of a task, walked as [_dependencies_satisfied] walks
    them: stop with an error at a name that is not in the plan, stop with
    [False] at a task that is not done. *)
Fixpoint deps_verdict (tasks : list json) (deps : list string) : res bool :=
  match deps with
  | [] => Ok true
  | dep :: r =>
      match find_task tasks dep with
      | None => Err (PlannerError ("Dependency not found: " +:+ dep))
      | Some t =>
          if String.eqb (status_of t) "done" then deps_verdict tasks r
          else Ok false
      end
  end.

(** The scan of [select_next_task], on the fields of the tasks. *)
Fixpoint scan (tasks rest : list json) : res (option json) :=
  match rest with
  | [] => Ok None
  | t :: r =>
      if has_status "active" t then
        Err (PlannerError
               "Plan contains an active task without execution context.")
      else if negb (has_status "pending" t) then scan tasks r
      else
        match deps_verdict tasks (deps_of t) with
        | Err e => Err e
        | Ok false => scan tasks r
        | Ok true => Ok (Some t)
        end
  end.

(** The scan goes past a task: it is not active, and it is not pending
    or its dependencies are found not to be all done. *)
Definition goes_past (tasks : list json) (u : json) : Prop :=
  has_status "active" u = false
  ∧ (has_status "pending" u = false
     ∨ deps_verdict tasks (deps_of u) = Ok false).

Definition task_map_of (tasks : list json) : list (string * json) :=
  map (fun t => (id_of t, t)) tasks.

End scanning.

(* ================================================================= *)
(** ** Notions the properties are stated with *)

Module reading.
Import Py Json.

(** [parses f y]: with fuel [f], the text of [y] is read back as [y],
    wherever it stands. *)
Definition parses (f : nat) (y : json) : Prop :=
  ∀ lvl rest, follow_ok rest = true →
    parse_value f (dumps_at lvl y +:+ rest) = Some (y, rest).

End reading.

Module refinement.

(** A validator agrees with a predicate when it returns on the values
    that satisfy it and raises [StateValidationError] on the others. *)
Definition agrees (r : res unit) (b : bool) : Prop :=
  match r with
  | Ok _ => b = true
  | Err (StateValidationError _) => b = false
  | Err _ => False
  end.

(** A computation either returns a value that satisfies [Q] or raises
    [StateValidationError]; it raises nothing else. *)
Definition ensures {A} (r : res A) (Q : A → Prop) : Prop :=
  match r with
  | Ok a => Q a
  | Err (StateValidationError _) => True
  | Err _ => False
  end.

(** What every configuration that [_parse_config] returns satisfies. *)
Definition config_ok (c : state.Config) : Prop :=
  0 <= state.startup_timeout_seconds c
  ∧ 0 < state.task_timeout_seconds c
  ∧ 0 <= state.max_retries_per_task c
  ∧ 0 < state.max_consecutive_failures c
  ∧ state.one_task_at_a_time c = true
  ∧ state.cfg_json_subset_only c = true
  ∧ Py.is_empty (Py.strip (state.cfg_design_dir c)) = false
  ∧ Py.is_empty (Py.strip (state.cfg_state_dir c)) = false
  ∧ Py.mem (Py.lower (state.log_level c)) state.LOG_LEVELS = true
  ∧ Py.is_empty (Py.strip (state.log_file c)) = false.

End refinement.

Module shape.
Import Py pathlib fs state schema view effect outcome scanning layout.
Import daemon.

(** What a task of the right shape holds. *)
Record task_shape (t : json) (d : list (string * json)) : Prop := {
  shape_eq : t = JObj d;
  shape_id : dict_get "id" d = Some (JStr (id_of t));
  shape_objective : dict_get "objective" d = Some (JStr (objective_of t));
  shape_status : dict_get "status" d = Some (JStr (status_of t));
  shape_status_enum : mem (status_of t) TASK_STATUSES = true;
  shape_deps :
    default (JList []) (dict_get "depends_on" d)
    = JList (map JStr (deps_of t))
}.

(** What [usable] gives for one of the five files. *)
Record usable_at (store : StateStore) (d : disk) (p : Path) : Prop := {
  at_writable : _ensure_writable_path p store = Ok tt;
  at_parent : d !! key (parent p) = Some Dir;
  at_not_dir : d !! key p ≠ Some Dir
}.

(** The selected task, in its place: no task before it bears its id. *)
Record selected (plan : json) (t : json) (pre post : list json) : Prop := {
  sel_tasks : tasks_of plan = pre ++ t :: post;
  sel_pre : Forall (goes_past (tasks_of plan)) pre;
  sel_fresh : Forall (fun u => id_of u ≠ id_of t) pre;
  sel_task : is_task t = true;
  sel_pending : status_of t = "pending";
  sel_ready : deps_verdict (tasks_of plan) (deps_of t) = Ok true;
  sel_unique : unique_ids (tasks_of plan) = true
}.

(** A task in its place in a plan. *)
Record placed (plan : json) (id : string) (u : json)
    (pre post : list json) : Prop := {
  placed_plan : is_plan plan = true;
  placed_tasks : tasks_of plan = pre ++ u :: post;
  placed_fresh : Forall (fun v => id_of v ≠ id) pre;
  placed_id : id_of u = id
}.

(** The state at the top of the loop from which a pass goes through: the
    store can work, no active task file is there, and the plan file holds
    a text that the store reads as a plan. *)
Record ready (store : StateStore) (d : disk) (plan : json) : Prop := {
  ready_usable : usable store d = true;
  ready_idle : exists_ d (active_task_path store) = false;
  ready_file :
    ∃ text, d !! key (plan_path store) = Some (File text)
            ∧ Json.loads (universal_newlines text) = Some plan;
  ready_plan : is_plan plan = true
}.

(** The plan with the selected task made active and put back to
    pending. *)
Definition retried (plan : json) (id : string) : json :=
  plan_after (plan_after plan id "active") id "pending".

(** A computation leaves the limits of the tracker as they are. *)
Definition keeps {A} (m : M World A) : Prop :=
  ∀ w, limits (w_tracker (m w).2) = limits (w_tracker w).

(** The disk once a success has been settled: the summary is written,
    then the plan and the progress file. *)
Definition succeeded_disk (store : StateStore) (d : disk) (plan : json)
    (summary : string) : disk :=
  <[key (progress_path store) := File (progress_text plan)]>
    (<[key (plan_path store) := File (text_of plan)]>
       (<[key (summary_path store) := File summary]> d)).

(** The agent is invoked: the command is not blank and the start-up
    timeout is not negative. *)
Record invocable (config : Config) : Prop := {
  invocable_command : is_empty (strip (mcp_command config)) = false;
  invocable_startup : 0 <= startup_timeout_seconds config
}.

(** The snapshot [Planner.write_progress] takes of a plan: the status of
    each objective and of each task under its id, in document order. *)
Definition statuses (items : list json) : list (string * json) :=
  map (fun x => (id_of x, JStr (status_of x))) items.

Definition snapshot_of (plan : json) : json :=
  JObj [("objectives", JObj (statuses (objectives_of plan)));
        ("tasks", JObj (statuses (tasks_of plan)))].

(** The entry as [append_summary] writes it: with a newline at its
    end. *)
Definition closed_entry (entry : string) : string :=
  if negb (endswith_newline entry) then entry +:+ newline else entry.

End shape.

Module policy_rule.
Import Py pathlib.

(** The resolution of an entry: a relative entry is anchored at the
    project root, an absolute one is taken as it is, and the result is
    made canonical. *)
Definition resolution (root : Path) (entry : string) : Path :=
  resolve (if is_absolute (of_str entry) then of_str entry
           else joinpath (resolve root) (of_str entry)).

(** An entry is forbidden when its resolution lies under the design
    directory, under the state directory, or outside the project root. *)
Definition forbidden (root design state : Path) (entry : string) : bool :=
  relative_to_ok (resolution root entry) (resolve design)
  || relative_to_ok (resolution root entry) (resolve state)
  || negb (relative_to_ok (resolution root entry) (resolve root)).

(** An entry the enforcer can resolve: a string that holds no NUL
    character. *)
Definition resolvable (entry : json) : bool :=
  match entry with
  | JStr s => negb (contains_char "000"%char s)
  | _ => false
  end.

End policy_rule.

(* ================================================================= *)
(** * Properties of the embedding *)

(** ** Strings *)

#[local] Arguments String.append !s1 s2 / : simpl nomatch.

Lemma append_assoc (a b c : string) : (a +:+ b) +:+ c = a +:+ (b +:+ c).
Proof. induction a as [|x a IH]; simpl; [done | by rewrite IH]. Qed.

Lemma append_nil_r (a : string) : a +:+ "" = a.
Proof. induction a as [|x a IH]; simpl; [done | by rewrite IH]. Qed.

Lemma append_cons (c : ascii) (a b : string) :
  String c a +:+ b = String c (a +:+ b).
Proof. reflexivity. Qed.

Lemma append_nil_l (a : string) : "" +:+ a = a.
Proof. reflexivity. Qed.

Ltac str_norm :=
  repeat first [ rewrite append_assoc | rewrite append_cons
               | rewrite append_nil_l ].

Lemma length_append (a b : string) :
  String.length (a +:+ b) = (String.length a + String.length b)%nat.
Proof. induction a as [|x a IH]; simpl; [done | by rewrite IH]. Qed.

(** ** Reading back what [json.dumps] wrote *)

Module JsonFacts.
Import Py Json.

(** *** Blanks *)

Lemma skip_ws_indent lvl s : skip_ws (indent lvl +:+ s) = skip_ws s.
Proof. induction lvl as [|n IH]; simpl; [done | apply IH]. Qed.

Lemma skip_ws_nl lvl s : skip_ws (nl lvl +:+ s) = skip_ws s.
Proof. unfold nl. rewrite append_assoc. simpl. apply skip_ws_indent. Qed.

Lemma skip_ws_idemp s : skip_ws (skip_ws s) = skip_ws s.
Proof.
  induction s as [|c s IH]; simpl; [done|].
  destruct (is_ws c) eqn:E; [done | simpl; by rewrite E].
Qed.

Lemma parse_value_skip_ws fuel s :
  parse_value fuel (skip_ws s) = parse_value fuel s.
Proof. destruct fuel; simpl; [done | by rewrite skip_ws_idemp]. Qed.

Lemma parse_value_nl fuel lvl s :
  parse_value fuel (nl lvl +:+ s) = parse_value fuel s.
Proof.
  rewrite <- (parse_value_skip_ws fuel (nl lvl +:+ s)), skip_ws_nl.
  apply parse_value_skip_ws.
Qed.

(** *** String literals *)

Lemma parse_chars_escape_char c s :
  parse_chars (escape_char c +:+ s)
  = '(t, r) ← parse_chars s; Some (String c t, r).
Proof.
  destruct c as [[] [] [] [] [] [] [] []]; reflexivity.
Qed.

Lemma parse_chars_escape s rest :
  parse_chars (escape s +:+ String dquote rest) = Some (s, rest).
Proof.
  induction s as [|c s IH]; [done|].
  cbn [escape]. rewrite append_assoc, parse_chars_escape_char, IH. done.
Qed.

Lemma parse_chars_quote s rest :
  ∃ body, quote s +:+ rest = String dquote body
          ∧ parse_chars body = Some (s, rest).
Proof.
  exists (escape s +:+ String dquote rest). split.
  - unfold quote. simpl. by rewrite append_assoc.
  - apply parse_chars_escape.
Qed.
End JsonFacts.

Module JsonNumbers.
Import Py Json.

Lemma nzhead_not_D0 d d' : Decimal.nzhead d ≠ Decimal.D0 d'.
Proof. induction d; simpl; congruence. Qed.

Lemma to_uint_head p :
  ∃ c s, NilEmpty.string_of_uint (Pos.to_uint p) = String c s
         ∧ is_digit c = true ∧ Ascii.eqb c "0" = false.
Proof.
  pose proof (Unsigned.to_uint_nonzero p) as Hnz.
  assert (Hu : Decimal.unorm (Pos.to_uint p) = Pos.to_uint p).
  { rewrite <- (Unsigned.to_of (Pos.to_uint p)), Unsigned.of_to.
    reflexivity. }
  destruct (Pos.to_uint p) as [|d|d|d|d|d|d|d|d|d|d] eqn:E.
  - exfalso. by apply (Unsigned.to_uint_nonnil p).
  - exfalso. unfold Decimal.unorm in Hu. simpl in Hu.
    destruct (Decimal.nzhead d) eqn:E';
      solve [ apply Hnz; congruence | by apply nzhead_not_D0 in E' ].
  - eexists _, _. split; [reflexivity|]. split; reflexivity.
  - eexists _, _. split; [reflexivity|]. split; reflexivity.
  - eexists _, _. split; [reflexivity|]. split; reflexivity.
  - eexists _, _. split; [reflexivity|]. split; reflexivity.
  - eexists _, _. split; [reflexivity|]. split; reflexivity.
  - eexists _, _. split; [reflexivity|]. split; reflexivity.
  - eexists _, _. split; [reflexivity|]. split; reflexivity.
  - eexists _, _. split; [reflexivity|]. split; reflexivity.
  - eexists _, _. split; [reflexivity|]. split; reflexivity.
Qed.

Lemma span_digits_uint d rest :
  follow_ok rest = true →
  span_digits (NilEmpty.string_of_uint d +:+ rest)
  = (NilEmpty.string_of_uint d, rest).
Proof.
  intros Hr. induction d; simpl; try (by rewrite IHd).
  destruct rest as [|c r]; [done|]. simpl in Hr.
  apply andb_true_iff in Hr as [Hd _]. simpl.
  apply negb_true_iff in Hd. by rewrite Hd.
Qed.

Lemma parse_nat_pos p rest :
  follow_ok rest = true →
  parse_nat (NilEmpty.string_of_uint (Pos.to_uint p) +:+ rest)
  = Some (Z.pos p, rest).
Proof.
  intros Hr. destruct (to_uint_head p) as (c & s & Hs & Hd & H0).
  unfold parse_nat.
  pose proof (span_digits_uint (Pos.to_uint p) rest Hr) as Hsp.
  rewrite Hs in *. simpl String.append in *. cbv beta iota.
  rewrite H0, Hsp.
  assert (Hf : starts_fraction rest = false).
  { destruct rest; [done|]. simpl in Hr.
    apply andb_true_iff in Hr as [_ Hr]. by apply negb_true_iff in Hr. }
  rewrite Hf, <- Hs, NilEmpty.usu. simpl.
  unfold N.of_uint. by rewrite Unsigned.of_to.
Qed.

Lemma parse_value_int fuel z rest :
  follow_ok rest = true →
  parse_value (S fuel) (str_of_Z z +:+ rest) = Some (JInt z, rest).
Proof.
  intros Hr. destruct z as [|p|p]; simpl str_of_Z.
  - destruct rest as [|c r]; [done|].
    simpl in Hr. apply andb_true_iff in Hr as [_ Hr].
    apply negb_true_iff in Hr. simpl. unfold parse_nat. simpl.
    by rewrite Hr.
  - pose proof (parse_nat_pos p rest Hr) as Hp.
    destruct (to_uint_head p) as (c & s & Hs & Hd & H0).
    rewrite Hs in *. simpl String.append in *.
    cbn [parse_value].
    assert (Hws : is_ws c = false).
    { revert Hd. unfold is_digit, is_ws.
      destruct c as [[] [] [] [] [] [] [] []]; done. }
    cbn [skip_ws]. rewrite Hws.
    assert (Hn : ((N_of_ascii c =? 34) = false
                  ∧ (N_of_ascii c =? 91) = false
                  ∧ (N_of_ascii c =? 123) = false
                  ∧ (N_of_ascii c =? 45) = false)%N).
    { revert Hd. unfold is_digit.
      destruct c as [[] [] [] [] [] [] [] []]; done. }
    destruct Hn as (-> & -> & -> & ->). rewrite Hd, Hp. done.
  - pose proof (parse_nat_pos p rest Hr) as Hp.
    simpl. rewrite Hp. done.
Qed.
End JsonNumbers.

Module JsonRoundTrip.
Import Py Json JsonFacts JsonNumbers.
Import reading.

#[local] Arguments nl : simpl never.

Lemma follow_ok_nl lvl s : follow_ok (nl lvl +:+ s) = true.
Proof. reflexivity. Qed.

Lemma follow_ok_items_tail dump lvl l rest :
  follow_ok (items_tail dump lvl l +:+ rest) = true.
Proof. destruct l; reflexivity. Qed.

Lemma follow_ok_members_tail dump lvl l rest :
  follow_ok (members_tail dump lvl l +:+ rest) = true.
Proof. destruct l as [|[k y] l]; reflexivity. Qed.

(** The text of a value starts with a character that is not a blank and
    closes neither a list nor a dictionary. *)
Lemma dumps_head lvl v rest :
  ∃ c s, dumps_at lvl v +:+ rest = String c s
         ∧ is_ws c = false
         ∧ Ascii.eqb "]" c = false ∧ Ascii.eqb "}" c = false.
Proof.
  destruct v as [|[]|[|p|p]|s|[|x l]|[|[k x] d]];
    try (eexists _, _; split; [reflexivity|]; repeat split; reflexivity).
  destruct (to_uint_head p) as (c & s & Hs & Hd & _).
  exists c, (s +:+ rest). split.
  { simpl. by rewrite Hs. }
  revert Hd. unfold is_digit, is_ws.
  destruct c as [[] [] [] [] [] [] [] []]; done.
Qed.

Lemma skip_ws_dumps lvl v rest :
  skip_ws (dumps_at lvl v +:+ rest) = dumps_at lvl v +:+ rest.
Proof.
  destruct (dumps_head lvl v rest) as (c & s & -> & Hw & _).
  simpl. by rewrite Hw.
Qed.

Lemma expect_dumps_bracket lvl v rest :
  expect "]" (skip_ws (nl lvl +:+ dumps_at lvl v +:+ rest)) = None.
Proof.
  rewrite skip_ws_nl, skip_ws_dumps.
  destruct (dumps_head lvl v rest) as (c & s & -> & _ & Hb & _).
  unfold expect. by rewrite Hb.
Qed.

Lemma expect_quote_brace lvl k rest :
  expect "}" (skip_ws (nl lvl +:+ quote k +:+ rest)) = None.
Proof. by rewrite skip_ws_nl. Qed.

#[local] Opaque nl.

Lemma parse_value_space f s : parse_value f (String " " s) = parse_value f s.
Proof. destruct f; reflexivity. Qed.

Lemma items_tail_cons dump lvl y l :
  items_tail dump lvl (y :: l)
  = "," +:+ nl (S lvl) +:+ dump y +:+ items_tail dump lvl l.
Proof. reflexivity. Qed.

Lemma members_tail_cons dump lvl k y l :
  members_tail dump lvl ((k, y) :: l)
  = "," +:+ nl (S lvl) +:+ quote k +:+ ": " +:+ dump y
    +:+ members_tail dump lvl l.
Proof. reflexivity. Qed.

Lemma parse_items_last pv n s v r r' :
  pv s = Some (v, r) → skip_ws r = String "]" r' →
  parse_items pv (S n) s = Some ([v], r').
Proof. intros Hv Hr. simpl. rewrite Hv. simpl. by rewrite Hr. Qed.

Lemma parse_items_more pv n s v r r' vs r'' :
  pv s = Some (v, r) → skip_ws r = String "," r' →
  parse_items pv n r' = Some (vs, r'') →
  parse_items pv (S n) s = Some (v :: vs, r'').
Proof.
  intros Hv Hr Hvs. simpl. rewrite Hv. simpl. rewrite Hr. simpl.
  by rewrite Hvs.
Qed.

Lemma parse_members_last pv n s r0 k r1 r2 v r r' :
  expect dquote (skip_ws s) = Some r0 → parse_chars r0 = Some (k, r1) →
  expect ":" (skip_ws r1) = Some r2 → pv r2 = Some (v, r) →
  skip_ws r = String "}" r' →
  parse_members pv (S n) s = Some ([(k, v)], r').
Proof.
  intros H0 H1 H2 Hv Hr. simpl. rewrite H0. simpl. rewrite H1. simpl.
  rewrite H2. simpl. rewrite Hv. simpl. by rewrite Hr.
Qed.

Lemma parse_members_more pv n s r0 k r1 r2 v r r' kvs r'' :
  expect dquote (skip_ws s) = Some r0 → parse_chars r0 = Some (k, r1) →
  expect ":" (skip_ws r1) = Some r2 → pv r2 = Some (v, r) →
  skip_ws r = String "," r' →
  parse_members pv n r' = Some (kvs, r'') →
  parse_members pv (S n) s = Some ((k, v) :: kvs, r'').
Proof.
  intros H0 H1 H2 Hv Hr Hkvs. simpl. rewrite H0. simpl. rewrite H1. simpl.
  rewrite H2. simpl. rewrite Hv. simpl. rewrite Hr. simpl. by rewrite Hkvs.
Qed.

Lemma skip_ws_items_nil dump lvl rest :
  skip_ws (items_tail dump lvl [] +:+ rest) = String "]" rest.
Proof. cbn [items_tail]. by rewrite append_assoc, skip_ws_nl. Qed.

Lemma skip_ws_members_nil dump lvl rest :
  skip_ws (members_tail dump lvl [] +:+ rest) = String "}" rest.
Proof. cbn [members_tail]. by rewrite append_assoc, skip_ws_nl. Qed.

Lemma skip_ws_items_cons dump lvl y l rest :
  skip_ws (items_tail dump lvl (y :: l) +:+ rest)
  = String "," (nl (S lvl) +:+ dump y +:+ items_tail dump lvl l +:+ rest).
Proof. rewrite items_tail_cons, !append_assoc. reflexivity. Qed.

Lemma skip_ws_members_cons dump lvl k y l rest :
  skip_ws (members_tail dump lvl ((k, y) :: l) +:+ rest)
  = String ","
      (nl (S lvl) +:+ quote k +:+ ": " +:+ dump y
       +:+ members_tail dump lvl l +:+ rest).
Proof. rewrite members_tail_cons, !append_assoc. reflexivity. Qed.

Lemma parse_items_dumps f lvl l :
  ∀ x n rest,
    parses f x → Forall (parses f) l → (length l < n)%nat →
    parse_items (parse_value f) n
      (nl (S lvl) +:+ dumps_at (S lvl) x
       +:+ items_tail (dumps_at (S lvl)) lvl l +:+ rest)
    = Some (x :: l, rest).
Proof.
  induction l as [|y l IH]; intros x n rest Hx Hl Hn;
    (destruct n as [|n]; [simpl in Hn; lia|]).
  - eapply parse_items_last.
    + rewrite parse_value_nl. apply Hx, follow_ok_items_tail.
    + apply skip_ws_items_nil.
  - apply Forall_cons in Hl as [Hy Hl]. eapply parse_items_more.
    + rewrite parse_value_nl. apply Hx, follow_ok_items_tail.
    + apply skip_ws_items_cons.
    + apply IH; [done | done | simpl in Hn; lia].
Qed.

Lemma expect_quote lvl k rest :
  expect dquote (skip_ws (nl lvl +:+ quote k +:+ rest))
  = Some (escape k +:+ String dquote rest).
Proof.
  rewrite skip_ws_nl. unfold quote. rewrite append_cons, append_assoc.
  reflexivity.
Qed.

Lemma parse_members_dumps f lvl l :
  ∀ k x n rest,
    parses f x → Forall (fun kv => parses f (snd kv)) l →
    (length l < n)%nat →
    parse_members (parse_value f) n
      (nl (S lvl) +:+ quote k +:+ ": " +:+ dumps_at (S lvl) x
       +:+ members_tail (dumps_at (S lvl)) lvl l +:+ rest)
    = Some ((k, x) :: l, rest).
Proof.
  induction l as [|[k' y] l IH]; intros k x n rest Hx Hl Hn;
    (destruct n as [|n]; [simpl in Hn; lia|]).
  - eapply parse_members_last.
    + apply expect_quote.
    + apply parse_chars_escape.
    + reflexivity.
    + rewrite parse_value_space. apply Hx, follow_ok_members_tail.
    + apply skip_ws_members_nil.
  - apply Forall_cons in Hl as [Hy Hl]. eapply parse_members_more.
    + apply expect_quote.
    + apply parse_chars_escape.
    + reflexivity.
    + rewrite parse_value_space. apply Hx, follow_ok_members_tail.
    + apply skip_ws_members_cons.
    + apply IH; [done | done | simpl in Hn; lia].
Qed.

(** *** Dictionaries without a repeated key *)

Lemma existsb_eqb_false k (l : list string) :
  existsb (String.eqb k) l = false ↔ k ∉ l.
Proof.
  induction l as [|x l IH]; simpl.
  - split; [intros _; apply not_elem_of_nil | done].
  - rewrite orb_false_iff, IH, not_elem_of_cons, String.eqb_neq. done.
Qed.

Lemma dict_set_fresh {V} k (v : V) d :
  k ∉ map fst d → dict_set k v d = d ++ [(k, v)].
Proof.
  induction d as [|[k' v'] d IH]; simpl; [done|].
  rewrite not_elem_of_cons. intros [Hne Hd].
  apply String.eqb_neq in Hne. rewrite Hne. by rewrite IH.
Qed.

Lemma foldl_dict_set_distinct {V} (l acc : list (string * V)) :
  distinct (map fst (acc ++ l)) = true →
  foldl (fun d kv => dict_set (fst kv) (snd kv) d) acc l = acc ++ l.
Proof.
  revert acc. induction l as [|[k v] l IH]; intros acc Hd; simpl.
  - by rewrite app_nil_r.
  - assert (Hk : k ∉ map fst acc).
    { clear IH. induction acc as [|[k' v'] acc IHa]; simpl in *.
      - apply not_elem_of_nil.
      - apply andb_true_iff in Hd as [Hn Hd]. apply negb_true_iff in Hn.
        apply existsb_eqb_false in Hn. rewrite not_elem_of_cons. split.
        + intros ->. apply Hn. rewrite map_app. simpl.
          apply elem_of_app. right. left.
        + by apply IHa. }
    rewrite (dict_set_fresh _ _ _ Hk), IH; rewrite <- app_assoc; done.
Qed.

Lemma dict_of_pairs_distinct {V} (d : list (string * V)) :
  distinct (map fst d) = true → dict_of_pairs d = d.
Proof. intros Hd. unfold dict_of_pairs. by rewrite foldl_dict_set_distinct. Qed.

(** *** The round trip *)

Lemma cost_items f (l : list json) :
  (foldr (fun x n => Nat.max (cost x) (S n)) O l ≤ f)%nat →
  (length l ≤ f)%nat ∧ Forall (fun y => (cost y ≤ f)%nat) l.
Proof.
  revert f. induction l as [|x l IH]; simpl; intros f Hf.
  - split; [lia | constructor].
  - destruct f as [|f]; [lia|].
    destruct (IH f) as [Hl Hc]; [lia|]. split; [lia|].
    constructor; [lia|]. eapply Forall_impl; [exact Hc|]. simpl. lia.
Qed.

Lemma cost_members f (l : list (string * json)) :
  (foldr (fun kv n => Nat.max (cost (snd kv)) (S n)) O l ≤ f)%nat →
  (length l ≤ f)%nat ∧ Forall (fun kv => (cost (snd kv) ≤ f)%nat) l.
Proof.
  revert f. induction l as [|x l IH]; simpl; intros f Hf.
  - split; [lia | constructor].
  - destruct f as [|f]; [lia|].
    destruct (IH f) as [Hl Hc]; [lia|]. split; [lia|].
    constructor; [lia|]. eapply Forall_impl; [exact Hc|]. simpl. lia.
Qed.

Theorem parse_value_dumps v :
  well_formed v = true →
  ∀ fuel, (cost v ≤ fuel)%nat → parses fuel v.
Proof.
  induction v as [|b|z|s|l IH|d IH] using json_ind;
    intros Hwf fuel Hfuel lvl rest Hrest;
    (destruct fuel as [|f]; [simpl in Hfuel; lia|]).
  - reflexivity.
  - destruct b; reflexivity.
  - by apply parse_value_int.
  - destruct (parse_chars_quote s rest) as (body & Hq & Hp).
    cbn [dumps_at]. rewrite Hq. cbn [parse_value skip_ws].
    change (is_ws dquote) with false. cbv beta iota zeta.
    change (N_of_ascii dquote =? 34)%N with true. cbv beta iota.
    by rewrite Hp.
  - destruct l as [|x l]; [reflexivity|].
    cbn [dumps_at]. str_norm. cbn [parse_value skip_ws].
    change (is_ws "[") with false. cbv beta iota zeta.
    change (N_of_ascii "[" =? 34)%N with false.
    change (N_of_ascii "[" =? 91)%N with true. cbv beta iota.
    rewrite expect_dumps_bracket.
    simpl in Hfuel. apply le_S_n in Hfuel.
    apply (cost_items f (x :: l)) in Hfuel as [Hlen Hcost].
    simpl in Hwf. apply andb_true_iff in Hwf as [Hwx Hwl].
    apply Forall_cons in IH as [IHx IHl].
    apply Forall_cons in Hcost as [Hcx Hcl].
    rewrite parse_items_dumps; [done | by apply IHx | | simpl in Hlen; lia].
    rewrite Forall_forall in IHl, Hcl. rewrite Forall_forall.
    intros y Hy. apply IHl; [done | | by apply Hcl].
    rewrite forallb_forall in Hwl. apply Hwl. by apply list_elem_of_In.
  - destruct d as [|[k x] d]; [reflexivity|].
    cbn [dumps_at]. rewrite !append_assoc.
    change ("{" +:+ ?s) with (String "{" s). cbn [parse_value skip_ws].
    change (is_ws "{") with false. cbv beta iota zeta.
    change (N_of_ascii "{" =? 34)%N with false.
    change (N_of_ascii "{" =? 91)%N with false.
    change (N_of_ascii "{" =? 123)%N with true. cbv beta iota.
    rewrite expect_quote_brace.
    simpl in Hfuel. apply le_S_n in Hfuel.
    apply (cost_members f ((k, x) :: d)) in Hfuel as [Hlen Hcost].
    cbn [well_formed] in Hwf. apply andb_true_iff in Hwf as [Hdist Hwf].
    cbn [forallb] in Hwf. apply andb_true_iff in Hwf as [Hwx Hwl].
    apply Forall_cons in IH as [IHx IHl].
    apply Forall_cons in Hcost as [Hcx Hcl].
    rewrite parse_members_dumps;
      [ | by apply IHx | | simpl in Hlen; lia].
    + cbn [mbind option_bind]. by rewrite dict_of_pairs_distinct.
    + rewrite Forall_forall in IHl, Hcl. rewrite Forall_forall.
      intros kv Hkv. apply IHl; [done | | by apply Hcl].
      rewrite forallb_forall in Hwl. apply (Hwl kv).
      by apply list_elem_of_In.
Qed.

#[local] Transparent nl.

Lemma length_nl lvl : (1 ≤ String.length (nl lvl))%nat.
Proof. unfold nl, newline. simpl. lia. Qed.

#[local] Opaque nl.

Lemma length_quote s : (1 ≤ String.length (quote s))%nat.
Proof. unfold quote. simpl. lia. Qed.

Lemma cost_le_length v : ∀ lvl, (cost v ≤ String.length (dumps_at lvl v))%nat.
Proof.
  induction v as [|b|z|s|l IH|d IH] using json_ind; intros lvl.
  - simpl. lia.
  - destruct b; simpl; lia.
  - destruct z as [|p|p]; cbn [cost dumps_at str_of_Z]; [simpl; lia| |simpl; lia].
    destruct (to_uint_head p) as (c & s & -> & _). simpl. lia.
  - apply length_quote.
  - destruct l as [|x l]; [simpl; lia|].
    apply Forall_cons in IH as [IHx IHl].
    cbn [dumps_at cost foldr]. rewrite !length_append.
    specialize (IHx (S lvl)). pose proof (length_nl (S lvl)).
    assert (foldr (fun x n => Nat.max (cost x) (S n)) O l + 1
            ≤ String.length (items_tail (dumps_at (S lvl)) lvl l))%nat.
    { clear -IHl. induction l as [|y l IH].
      - cbn [foldr items_tail]. rewrite length_append.
        pose proof (length_nl lvl). simpl. lia.
      - apply Forall_cons in IHl as [IHy IHl]. specialize (IH IHl).
        cbn [foldr items_tail]. rewrite !length_append.
        specialize (IHy (S lvl)). pose proof (length_nl (S lvl)).
        simpl String.length.
        set (F := foldr _ _ l) in *. clearbody F. lia. }
    simpl String.length. set (F := foldr _ _ l) in *. clearbody F. lia.
  - destruct d as [|[k x] d]; [simpl; lia|].
    apply Forall_cons in IH as [IHx IHl].
    cbn [dumps_at cost foldr]. rewrite !length_append.
    cbn [snd] in IHx. specialize (IHx (S lvl)). pose proof (length_nl (S lvl)).
    assert (foldr (fun kv n => Nat.max (cost (snd kv)) (S n)) O d + 1
            ≤ String.length (members_tail (dumps_at (S lvl)) lvl d))%nat.
    { clear -IHl. induction d as [|[k' y] d IH].
      - cbn [foldr members_tail]. rewrite length_append.
        pose proof (length_nl lvl). simpl. lia.
      - apply Forall_cons in IHl as [IHy IHl]. specialize (IH IHl).
        cbn [foldr members_tail]. rewrite !length_append.
        cbn [snd] in IHy.
        specialize (IHy (S lvl)). pose proof (length_nl (S lvl)).
        simpl String.length.
        set (F := foldr _ _ d) in *. clearbody F. cbn [snd]. lia. }
    pose proof (length_quote k).
    simpl String.length. set (F := foldr _ _ d) in *. clearbody F.
    cbn [snd]. lia.
Qed.

(** [json.loads(json.dumps(v, indent=2))] is [v], also with the newline the
    state store appends. *)
Theorem loads_dumps v : well_formed v = true → loads (dumps v) = Some v.
Proof.
  intros Hwf. unfold loads, dumps.
  pose proof (parse_value_dumps v Hwf (S (String.length (dumps_at 0 v)))) as H.
  unfold parses in H. specialize (H ltac:(pose proof (cost_le_length v 0%nat); lia) 0%nat "" eq_refl).
  rewrite append_nil_r in H. rewrite H. reflexivity.
Qed.

Theorem loads_dumps_newline v :
  well_formed v = true → loads (dumps v +:+ newline) = Some v.
Proof.
  intros Hwf. unfold loads, dumps.
  pose proof (parse_value_dumps v Hwf
                (S (String.length (dumps_at 0 v +:+ newline)))) as H.
  unfold parses in H.
  rewrite H; [reflexivity | | reflexivity].
  rewrite length_append. pose proof (cost_le_length v 0%nat). lia.
Qed.

(** *** The text of a document holds no carriage return *)

Lemma universal_newlines_plain s :
  contains_char "013" s = false → universal_newlines s = s.
Proof.
  induction s as [|c s IH]; cbn [contains_char universal_newlines]; [done|].
  intros H. apply orb_false_iff in H as [Hc Hs].
  rewrite Ascii.eqb_sym in Hc. rewrite Hc. by rewrite IH.
Qed.

Lemma contains_char_append c a b :
  contains_char c (a +:+ b) = contains_char c a || contains_char c b.
Proof.
  induction a as [|x a IH]; simpl; [done|]. by rewrite IH, orb_assoc.
Qed.

Lemma plain_escape s : contains_char "013" (escape s) = false.
Proof.
  induction s as [|c s IH]; simpl; [done|].
  rewrite contains_char_append, IH, orb_false_r.
  by destruct c as [[] [] [] [] [] [] [] []].
Qed.

Lemma plain_quote s : contains_char "013" (quote s) = false.
Proof.
  unfold quote. cbn [contains_char]. rewrite contains_char_append.
  by rewrite plain_escape.
Qed.

#[local] Transparent nl.
Lemma plain_nl lvl : contains_char "013" (nl lvl) = false.
Proof.
  unfold nl. rewrite contains_char_append. simpl.
  induction lvl as [|lvl IH]; simpl; [done|]. exact IH.
Qed.
#[local] Opaque nl.

Lemma plain_int z : contains_char "013" (str_of_Z z) = false.
Proof.
  assert (∀ d, contains_char "013" (NilEmpty.string_of_uint d) = false)
    as H by (induction d; simpl; done).
  destruct z; simpl; [done|apply H|apply H].
Qed.

Lemma plain_dumps_at v : ∀ lvl, contains_char "013" (dumps_at lvl v) = false.
Proof.
  induction v as [|b|z|s|l IH|d IH] using json_ind; intros lvl.
  - done.
  - by destruct b.
  - apply plain_int.
  - apply plain_quote.
  - destruct l as [|x l]; [done|].
    apply Forall_cons in IH as [IHx IHl].
    cbn [dumps_at]. rewrite !contains_char_append, plain_nl, IHx.
    cbn [contains_char Ascii.eqb Bool.eqb orb andb].
    clear IHx. induction IHl as [|y l IHy _ IH]; cbn [items_tail].
    + rewrite contains_char_append, plain_nl. done.
    + rewrite !contains_char_append, plain_nl, IHy, IH. done.
  - destruct d as [|[k x] d]; [done|].
    apply Forall_cons in IH as [IHx IHl]. cbn [snd] in IHx.
    cbn [dumps_at]. rewrite !contains_char_append, plain_nl, plain_quote, IHx.
    cbn [contains_char Ascii.eqb Bool.eqb orb andb].
    clear IHx. induction IHl as [|[k' y] d IHy _ IH]; cbn [members_tail].
    + rewrite contains_char_append, plain_nl. done.
    + cbn [snd] in IHy.
      rewrite !contains_char_append, plain_nl, plain_quote, IHy, IH.
      done.
Qed.

(** The store reads back the text it wrote as the text it wrote. *)
Lemma universal_newlines_dumps v :
  universal_newlines (dumps v +:+ newline) = dumps v +:+ newline.
Proof.
  apply universal_newlines_plain. rewrite contains_char_append.
  unfold dumps. by rewrite plain_dumps_at.
Qed.

(** *** What [json.loads] returns is well formed *)

Lemma dict_set_keys {V} k (v : V) d :
  ∀ k', k' ∈ map fst (dict_set k v d) ↔ k' = k ∨ k' ∈ map fst d.
Proof.
  induction d as [|[k0 v0] d IH]; intros k'; simpl.
  - rewrite list_elem_of_singleton. split; [auto | intros [?|H]; [done|]].
    by apply elem_of_nil in H.
  - destruct (String.eqb_spec k k0) as [->|Hne]; simpl.
    + rewrite !elem_of_cons. tauto.
    + rewrite !elem_of_cons, IH. tauto.
Qed.

Lemma distinct_NoDup (l : list string) : distinct l = true ↔ NoDup l.
Proof.
  induction l as [|x l IH]; simpl.
  - split; [constructor | done].
  - rewrite andb_true_iff, negb_true_iff, existsb_eqb_false, IH, NoDup_cons.
    done.
Qed.

Lemma dict_set_distinct {V} k (v : V) d :
  distinct (map fst d) = true → distinct (map fst (dict_set k v d)) = true.
Proof.
  rewrite !distinct_NoDup.
  induction d as [|[k0 v0] d IH]; simpl; intros Hd.
  - apply NoDup_singleton.
  - apply NoDup_cons in Hd as [Hk0 Hd].
    destruct (String.eqb_spec k k0) as [->|Hne]; simpl.
    + by apply NoDup_cons.
    + apply NoDup_cons. split; [|by apply IH].
      rewrite dict_set_keys. intros [?|?]; congruence.
Qed.

Lemma dict_set_forallb {V} (P : V → bool) k v d :
  P v = true → forallb (fun kv => P (snd kv)) d = true →
  forallb (fun kv => P (snd kv)) (dict_set k v d) = true.
Proof.
  intros Hv. induction d as [|[k0 v0] d IH]; simpl.
  - by rewrite Hv.
  - rewrite andb_true_iff. intros [H0 Hd].
    destruct (String.eqb k k0); simpl.
    + by rewrite Hv, Hd.
    + by rewrite H0, IH.
Qed.

Lemma dict_of_pairs_well_formed (l : list (string * json)) :
  forallb (fun kv => well_formed (snd kv)) l = true →
  well_formed (JObj (dict_of_pairs l)) = true.
Proof.
  unfold dict_of_pairs. intros Hl.
  assert (H : ∀ acc, well_formed (JObj acc) = true →
            well_formed
              (JObj (foldl (fun d kv => dict_set (fst kv) (snd kv) d) acc l))
            = true).
  { induction l as [|[k v] l IH]; intros acc Hacc; simpl; [done|].
    simpl in Hl. apply andb_true_iff in Hl as [Hv Hl].
    apply IH; [done|]. cbn [well_formed] in *.
    apply andb_true_iff in Hacc as [Hd Hf]. apply andb_true_iff. split.
    - by apply dict_set_distinct.
    - by apply (dict_set_forallb well_formed). }
  by apply H.
Qed.

Lemma parse_items_well_formed pv :
  (∀ s v r, pv s = Some (v, r) → well_formed v = true) →
  ∀ n s vs r, parse_items pv n s = Some (vs, r) →
              forallb well_formed vs = true.
Proof.
  intros Hpv. induction n as [|n IH]; intros s vs r H; [done|].
  simpl in H. destruct (pv s) as [[v r0]|] eqn:Ev; [|done]. simpl in H.
  apply Hpv in Ev. destruct (skip_ws r0) as [|c r1]; [done|].
  destruct (Ascii.eqb c ","); [|destruct (Ascii.eqb c "]")].
  - destruct (parse_items pv n r1) as [[vs' r2]|] eqn:Ei; [|done].
    simpl in H. injection H as <- <-. simpl. rewrite Ev. by eapply IH.
  - injection H as <- <-. simpl. by rewrite Ev.
  - done.
Qed.

Lemma parse_members_well_formed pv :
  (∀ s v r, pv s = Some (v, r) → well_formed v = true) →
  ∀ n s kvs r, parse_members pv n s = Some (kvs, r) →
               forallb (fun kv => well_formed (snd kv)) kvs = true.
Proof.
  intros Hpv. induction n as [|n IH]; intros s kvs r H; [done|].
  simpl in H. destruct (expect dquote _) as [r0|]; [|done]. simpl in H.
  destruct (parse_chars r0) as [[k r1]|]; [|done]. simpl in H.
  destruct (expect ":" _) as [r2|]; [|done]. simpl in H.
  destruct (pv r2) as [[v r3]|] eqn:Ev; [|done]. simpl in H.
  apply Hpv in Ev. destruct (skip_ws r3) as [|c r4]; [done|].
  destruct (Ascii.eqb c ","); [|destruct (Ascii.eqb c "}")].
  - destruct (parse_members pv n r4) as [[kvs' r5]|] eqn:Ei; [|done].
    simpl in H. injection H as <- <-. simpl. rewrite Ev. by eapply IH.
  - injection H as <- <-. simpl. by rewrite Ev.
  - done.
Qed.

Lemma parse_value_well_formed fuel :
  ∀ s v r, parse_value fuel s = Some (v, r) → well_formed v = true.
Proof.
  induction fuel as [|f IH]; intros s v r H; [done|].
  cbn [parse_value] in H. destruct (skip_ws s) as [|c s']; [done|].
  cbv zeta in H.
  destruct (N_of_ascii c =? 34)%N.
  { destruct (parse_chars s') as [[t r']|]; [|done]. by injection H as <- <-. }
  destruct (N_of_ascii c =? 91)%N.
  { destruct (expect "]" _); [by injection H as <- <-|].
    destruct (parse_items _ f s') as [[vs r']|] eqn:Ei; [|done].
    injection H as <- <-. eapply parse_items_well_formed; [|exact Ei].
    exact IH. }
  destruct (N_of_ascii c =? 123)%N.
  { destruct (expect "}" _); [by injection H as <- <-|].
    destruct (parse_members _ f s') as [[kvs r']|] eqn:Ei; [|done].
    injection H as <- <-. apply dict_of_pairs_well_formed.
    eapply parse_members_well_formed; [|exact Ei]. exact IH. }
  destruct (N_of_ascii c =? 45)%N.
  { destruct (parse_nat s') as [[z r']|]; [|done]. by injection H as <- <-. }
  destruct (is_digit c).
  { destruct (parse_nat _) as [[z r']|]; [|done]. by injection H as <- <-. }
  destruct (literal "null" _); [by injection H as <- <-|].
  destruct (literal "true" _); [by injection H as <- <-|].
  destruct (literal "false" _); [|done]. by injection H as <- <-.
Qed.

Theorem loads_well_formed s v : loads s = Some v → well_formed v = true.
Proof.
  unfold loads. intros H.
  destruct (parse_value _ s) as [[v' r]|] eqn:E; [|done]. simpl in H.
  destruct (skip_ws r); [|done]. injection H as <-.
  by eapply parse_value_well_formed.
Qed.
End JsonRoundTrip.

#[local] Arguments String.append _ _ : simpl never.

(** ** Dictionaries *)

Module DictFacts.
Import Py.

Lemma mem_spec k (l : list string) : mem k l = true ↔ k ∈ l.
Proof.
  unfold mem. induction l as [|x l IH]; simpl.
  - split; [done | intros H; by apply elem_of_nil in H].
  - rewrite orb_true_iff, IH, elem_of_cons, String.eqb_eq. done.
Qed.

Lemma mem_false k (l : list string) : mem k l = false ↔ k ∉ l.
Proof.
  rewrite <- mem_spec. destruct (mem k l); split; done.
Qed.

Lemma dict_get_Some_key {V} k (d : list (string * V)) v :
  dict_get k d = Some v → k ∈ dict_keys d.
Proof.
  unfold dict_keys. induction d as [|[k' v'] d IH]; simpl; [done|].
  destruct (String.eqb_spec k k') as [->|Hne]; intros H.
  - apply elem_of_cons. by left.
  - apply elem_of_cons. right. by apply IH.
Qed.

Lemma dict_get_None_key {V} k (d : list (string * V)) :
  dict_get k d = None ↔ k ∉ dict_keys d.
Proof.
  unfold dict_keys. induction d as [|[k' v'] d IH]; simpl.
  - split; [intros _; apply not_elem_of_nil | done].
  - rewrite not_elem_of_cons.
    destruct (String.eqb_spec k k') as [->|Hne]; [split; [done | tauto]|].
    rewrite IH. tauto.
Qed.

Lemma dict_mem_keys {V} k (d : list (string * V)) :
  dict_mem k d = mem k (dict_keys d).
Proof.
  unfold dict_mem. destruct (dict_get k d) eqn:E.
  - symmetry. apply mem_spec. by eapply dict_get_Some_key.
  - symmetry. apply mem_false. by apply dict_get_None_key.
Qed.

Lemma dict_get_set_eq {V} k (v : V) d : dict_get k (dict_set k v d) = Some v.
Proof.
  induction d as [|[k' v'] d IH]; simpl.
  - by rewrite String.eqb_refl.
  - destruct (String.eqb_spec k k') as [->|Hne]; simpl.
    + by rewrite String.eqb_refl.
    + apply String.eqb_neq in Hne. by rewrite Hne.
Qed.

Lemma dict_get_set_ne {V} k k' (v : V) d :
  k ≠ k' → dict_get k' (dict_set k v d) = dict_get k' d.
Proof.
  intros Hne. induction d as [|[k0 v0] d IH]; simpl.
  - assert (k' ≠ k) as Hne' by congruence.
    apply String.eqb_neq in Hne'. by rewrite Hne'.
  - destruct (String.eqb_spec k k0) as [->|Hne0]; simpl.
    + assert (k' ≠ k0) as Hne' by congruence.
      apply String.eqb_neq in Hne'. by rewrite Hne'.
    + by rewrite IH.
Qed.

Lemma dict_get_set {V} k k' (v : V) d :
  dict_get k' (dict_set k v d)
  = if String.eqb k k' then Some v else dict_get k' d.
Proof.
  destruct (String.eqb_spec k k') as [->|Hne].
  - apply dict_get_set_eq.
  - by apply dict_get_set_ne.
Qed.

(** Assigning to a key that is present keeps the keys and their order. *)
Lemma dict_keys_set_present {V} k (v : V) d :
  k ∈ dict_keys d → dict_keys (dict_set k v d) = dict_keys d.
Proof.
  unfold dict_keys. induction d as [|[k' v'] d IH]; simpl.
  - intros H. by apply elem_of_nil in H.
  - destruct (String.eqb_spec k k') as [->|Hne]; [done|].
    rewrite elem_of_cons. intros [?|H]; [done|]. simpl. by rewrite IH.
Qed.

Lemma dict_keys_set_fresh {V} k (v : V) d :
  k ∉ dict_keys d → dict_keys (dict_set k v d) = dict_keys d ++ [k].
Proof.
  unfold dict_keys. induction d as [|[k' v'] d IH]; simpl; [done|].
  rewrite not_elem_of_cons. intros [Hne H].
  apply String.eqb_neq in Hne. rewrite Hne. simpl. by rewrite IH.
Qed.

(** Assigning its own value to a key changes nothing. *)
Lemma dict_set_same {V} k (v : V) d :
  dict_get k d = Some v → dict_set k v d = d.
Proof.
  induction d as [|[k' v'] d IH]; simpl; [done|].
  destruct (String.eqb_spec k k') as [->|Hne].
  - by intros [= ->].
  - intros H. by rewrite IH.
Qed.

Lemma dict_set_set {V} k (v v' : V) d :
  dict_set k v' (dict_set k v d) = dict_set k v' d.
Proof.
  induction d as [|[k0 v0] d IH]; simpl.
  - by rewrite String.eqb_refl.
  - destruct (String.eqb_spec k k0) as [->|Hne]; simpl.
    + by rewrite String.eqb_refl.
    + apply String.eqb_neq in Hne. by rewrite Hne, IH.
Qed.
End DictFacts.

(** ** The validators refine the data model *)

Module SchemaFacts.
Import Py state schema DictFacts.
Import refinement.

Lemma agrees_ok r : agrees r true → r = Ok tt.
Proof. destruct r as [[]|[]]; simpl; done. Qed.

Lemma agrees_err r : agrees r false → ∃ msg, r = Err (StateValidationError msg).
Proof. destruct r as [[]|[]]; simpl; try done. eauto. Qed.

Lemma agrees_iff r b : agrees r b → (r = Ok tt ↔ b = true).
Proof.
  destruct r as [[]|[]]; simpl; try done; intros ->; split; done.
Qed.

Lemma agrees_ext r b b' : agrees r b → b = b' → agrees r b'.
Proof. by intros H <-. Qed.

Lemma agrees_seq r1 r2 b1 b2 :
  agrees r1 b1 → (b1 = true → agrees r2 b2) →
  agrees (r1;; r2) (b1 && b2).
Proof.
  destruct r1 as [[]|[]]; simpl; try done.
  - intros -> H. by apply H.
  - by intros ->.
Qed.

Lemma agrees_if_not (c : bool) msg :
  agrees (if negb c then fail msg else Ok tt) c.
Proof. by destruct c. Qed.

Lemma require_mapping_agrees v ctx :
  agrees (_require_mapping v ctx) (is_dict v).
Proof. apply agrees_if_not. Qed.

Lemma require_list_agrees v ctx : agrees (_require_list v ctx) (is_list v).
Proof. apply agrees_if_not. Qed.

Lemma require_string_agrees v ctx :
  agrees (_require_string v ctx) (is_str v).
Proof. apply agrees_if_not. Qed.

Lemma require_int_agrees v ctx : agrees (_require_int v ctx) (is_integer v).
Proof. by destruct v. Qed.

Lemma require_enum_agrees v allowed ctx :
  agrees (_require_enum v allowed ctx) (one_of allowed v).
Proof.
  unfold _require_enum, _require_string, fail.
  destruct v; cbn; try done. by destruct (mem s allowed).
Qed.

Lemma for_enumerate_agrees check p ctx :
  (∀ v c, agrees (check v c) (p v)) →
  ∀ l i, agrees (for_enumerate check ctx i l) (forallb p l).
Proof.
  intros Hc. induction l as [|x l IH]; intros i; simpl; [done|].
  apply agrees_seq; [apply Hc | intros _; apply IH].
Qed.

Lemma require_string_list_agrees v ctx :
  agrees (_require_string_list v ctx) (string_list v).
Proof.
  destruct v; try done. simpl.
  apply (for_enumerate_agrees _ is_str). intros v c. apply agrees_if_not.
Qed.

Lemma require_keys_agrees d required ctx :
  agrees (_require_keys (JObj d) required ctx)
    (forallb (fun k => dict_mem k d) required).
Proof.
  unfold _require_keys. simpl.
  assert (H : ∀ l, (List.filter (fun k => negb (mem k (dict_keys d))) l = [])
                   ↔ forallb (fun k => dict_mem k d) l = true).
  { induction l as [|k l IH]; simpl; [done|].
    rewrite dict_mem_keys. destruct (mem k (dict_keys d)); simpl; [done|].
    split; done. }
  destruct (List.filter _ required) eqn:E.
  - simpl. by apply H.
  - simpl. destruct (forallb _ required) eqn:E'; [|done].
    apply H in E'. congruence.
Qed.

Lemma dedup_elem (l : list string) k : k ∈ dedup l ↔ k ∈ l.
Proof.
  induction l as [|x l IH]; simpl; [done|].
  destruct (existsb (String.eqb x) l) eqn:E.
  - rewrite IH, elem_of_cons. split; [auto|]. intros [->|?]; [|done].
    by apply mem_spec.
  - rewrite !elem_of_cons, IH. done.
Qed.

Lemma reject_extra_keys_agrees d allowed ctx :
  agrees (_reject_extra_keys (JObj d) allowed ctx) (only_keys allowed d).
Proof.
  unfold _reject_extra_keys, only_keys. simpl.
  assert (H : (List.filter (fun k => negb (mem k allowed))
                 (dedup (dict_keys d)) = [])
              ↔ forallb (fun k => mem k allowed) (dict_keys d) = true).
  { rewrite forallb_forall.
    split.
    - intros Hf k Hk. apply list_elem_of_In, dedup_elem in Hk.
      destruct (mem k allowed) eqn:E; [done|].
      assert (k ∈ List.filter (fun k => negb (mem k allowed))
                    (dedup (dict_keys d))) as Hin.
      { apply list_elem_of_In, filter_In. split.
        - by apply list_elem_of_In.
        - by rewrite E. }
      rewrite Hf in Hin. by apply elem_of_nil in Hin.
    - intros Hall.
      destruct (List.filter _ (dedup (dict_keys d))) as [|k l] eqn:E; [done|].
      assert (In k (List.filter (fun k => negb (mem k allowed))
                      (dedup (dict_keys d)))) as Hin
        by (rewrite E; by left).
      apply filter_In in Hin as [Hin Hk].
      apply list_elem_of_In, dedup_elem, list_elem_of_In, Hall in Hin.
      by rewrite Hin in Hk. }
  destruct (forallb _ (dict_keys d)) eqn:E'.
  - destruct H as [_ H]. by rewrite H.
  - destruct (List.filter _ (dedup (dict_keys d))) eqn:E; [|done].
    destruct H as [H _]. by specialize (H eq_refl).
Qed.

Lemma field_agrees (p : json → bool) check d k :
  (∀ v, agrees (check v) (p v)) → dict_mem k d = true →
  agrees (v ← getitem (JObj d) k; check v) (field_is p d k).
Proof.
  intros Hc. unfold dict_mem, field_is. simpl.
  destruct (dict_get k d); [|done]. intros _. apply Hc.
Qed.

Lemma optional_agrees d k ctx :
  agrees (optional_string_list (JObj d) k ctx) (optional_is string_list d k).
Proof.
  unfold optional_string_list, optional_is. simpl.
  rewrite <- dict_mem_keys. unfold dict_mem.
  destruct (dict_get k d); [|done]. simpl.
  apply require_string_list_agrees.
Qed.

Lemma field_present (p : json → bool) d k :
  field_is p d k = true → dict_mem k d = true.
Proof. unfold field_is, dict_mem. by destruct (dict_get k d). Qed.

Lemma field_then (p : json → bool) check rest d k b :
  (∀ v, agrees (check v) (p v)) → dict_mem k d = true →
  (field_is p d k = true → agrees rest b) →
  agrees (v ← getitem (JObj d) k; check v;; rest) (field_is p d k && b).
Proof.
  intros Hc. unfold dict_mem, field_is. simpl.
  destruct (dict_get k d); [|done]. intros _ Hrest.
  apply agrees_seq; [apply Hc | apply Hrest].
Qed.

Ltac by_fields :=
  repeat match goal with
    | |- context [field_is ?p ?d ?k] =>
        lazymatch goal with
        | H : field_is p d k = _ |- _ => fail
        | _ =>
            let E := fresh "E" in
            destruct (field_is p d k) eqn:E;
            [ rewrite ?(field_present _ _ _ E)
            | by rewrite ?andb_false_r ]
        end
    end.

Theorem validate_objective_agrees v ctx :
  agrees (_validate_objective v ctx) (is_objective v).
Proof.
  destruct v as [| | | | |d]; try done.
  unfold _validate_objective.
  eapply agrees_ext.
  { apply agrees_seq; [apply require_mapping_agrees|intros _].
    apply agrees_seq; [apply require_keys_agrees|intros Hk].
    simpl in Hk. apply andb_true_iff in Hk as [Hid Hk].
    apply andb_true_iff in Hk as [Hsrc Hk].
    apply andb_true_iff in Hk as [Hst _].
    apply agrees_seq; [apply reject_extra_keys_agrees|intros _].
    apply (field_then is_str);
      [intros; apply require_string_agrees|done|intros _].
    apply (field_then is_str);
      [intros; apply require_string_agrees|done|intros _].
    apply (field_agrees (one_of OBJECTIVE_STATUSES));
      [intros; apply require_enum_agrees|done]. }
  cbn [is_dict is_objective forallb andb].
  destruct (only_keys _ d); cbn [andb]; [|by rewrite !andb_false_r].
  unfold OBJECTIVE_STATUSES. by_fields. done.
Qed.

Ltac split_keys H :=
  simpl in H;
  repeat match type of H with
    | _ && _ = true =>
        let H1 := fresh "Hk" in
        apply andb_true_iff in H as [H1 H]
    end.

Ltac str_field :=
  apply (field_then is_str);
  [intros; apply require_string_agrees|done|intros _].

Theorem validate_task_agrees v ctx :
  agrees (_validate_task v ctx) (is_task v).
Proof.
  destruct v as [| | | | |d]; try done.
  unfold _validate_task.
  eapply agrees_ext.
  { apply agrees_seq; [apply require_mapping_agrees|intros _].
    cbv zeta.
    apply agrees_seq; [apply require_keys_agrees|intros Hk].
    split_keys Hk.
    apply agrees_seq; [apply reject_extra_keys_agrees|intros _].
    str_field. str_field. str_field.
    apply (field_then (one_of TASK_STATUSES));
      [intros; apply require_enum_agrees|done|intros _].
    apply agrees_seq; [apply optional_agrees|intros _].
    apply agrees_seq; [apply optional_agrees|intros _].
    apply optional_agrees. }
  cbn [is_dict is_task task_fields forallb andb app].
  destruct (only_keys _ d); cbn [andb]; [|by rewrite !andb_false_r].
  unfold TASK_STATUSES, task_fields. by_fields.
  destruct (optional_is _ d "depends_on"), (optional_is _ d "scope"),
    (optional_is _ d "success_criteria"); done.
Qed.

Theorem validate_active_task_agrees v :
  agrees (_validate_active_task v) (is_active_task v).
Proof.
  destruct v as [| | | | |d]; try done.
  unfold _validate_active_task.
  eapply agrees_ext.
  { cbv zeta.
    apply agrees_seq; [apply require_mapping_agrees|intros _].
    apply agrees_seq; [apply require_keys_agrees|intros Hk].
    split_keys Hk.
    apply agrees_seq; [apply reject_extra_keys_agrees|intros _].
    str_field. str_field. str_field.
    apply (field_then (one_of TASK_STATUSES));
      [intros; apply require_enum_agrees|done|intros _].
    apply (field_then is_integer);
      [intros; apply require_int_agrees|done|intros _].
    apply agrees_seq; [apply optional_agrees|intros _].
    apply agrees_seq; [apply optional_agrees|intros _].
    apply optional_agrees. }
  cbn [is_dict is_active_task task_fields forallb andb app].
  destruct (only_keys _ d); cbn [andb]; [|by rewrite !andb_false_r].
  unfold TASK_STATUSES, task_fields. by_fields.
  destruct (optional_is _ d "depends_on"), (optional_is _ d "scope"),
    (optional_is _ d "success_criteria"); done.
Qed.

Theorem validate_codex_result_agrees v :
  agrees (_validate_codex_result v) (is_agent_result v).
Proof.
  destruct v as [| | | | |d]; try done.
  unfold _validate_codex_result.
  eapply agrees_ext.
  { cbv zeta.
    apply agrees_seq; [apply require_mapping_agrees|intros _].
    apply agrees_seq; [apply require_keys_agrees|intros Hk].
    split_keys Hk.
    apply agrees_seq; [apply reject_extra_keys_agrees|intros _].
    apply (field_then (one_of CODEX_RESULT_STATUSES));
      [intros; apply require_enum_agrees|done|intros _].
    apply (field_then string_list);
      [intros; apply require_string_list_agrees|done|intros _].
    apply (field_then string_list);
      [intros; apply require_string_list_agrees|done|intros _].
    apply (field_agrees is_str); [intros; apply require_string_agrees|done]. }
  cbn [is_dict is_agent_result forallb andb].
  destruct (only_keys _ d); cbn [andb]; [|by rewrite !andb_false_r].
  unfold CODEX_RESULT_STATUSES. by_fields. done.
Qed.

(** The items of a list checked one by one, under a field. *)
Lemma list_field_then (p : json → bool) check ctx rest d k b :
  (∀ v c, agrees (check v c) (p v)) → dict_mem k d = true →
  (field_is (list_of p) d k = true → agrees rest b) →
  agrees (l ← getitem (JObj d) k;
          _require_list l ctx;;
          items ← iter l;
          for_enumerate check ctx O items;;
          rest)
    (field_is (list_of p) d k && b).
Proof.
  intros Hc. unfold dict_mem, field_is. simpl.
  destruct (dict_get k d) as [v|]; [|done]. intros _ Hrest.
  destruct v; try done. simpl.
  apply agrees_seq; [by apply for_enumerate_agrees | apply Hrest].
Qed.

Lemma list_field_last (p : json → bool) check ctx d k :
  (∀ v c, agrees (check v c) (p v)) → dict_mem k d = true →
  agrees (l ← getitem (JObj d) k;
          _require_list l ctx;;
          items ← iter l;
          for_enumerate check ctx O items)
    (field_is (list_of p) d k).
Proof.
  intros Hc. unfold dict_mem, field_is. simpl.
  destruct (dict_get k d) as [v|]; [|done]. intros _.
  destruct v; try done. simpl. by apply for_enumerate_agrees.
Qed.

Theorem validate_plan_agrees v : agrees (_validate_plan v) (is_plan v).
Proof.
  destruct v as [| | | | |d]; try done.
  unfold _validate_plan.
  eapply agrees_ext.
  { apply agrees_seq; [apply require_mapping_agrees|intros _].
    apply agrees_seq; [apply require_keys_agrees|intros Hk].
    split_keys Hk.
    apply agrees_seq; [apply reject_extra_keys_agrees|intros _].
    apply (field_then is_integer);
      [intros; apply require_int_agrees|done|intros _].
    apply (list_field_then is_objective);
      [apply validate_objective_agrees|done|intros _].
    apply (list_field_last is_task); [apply validate_task_agrees|done]. }
  cbn [is_dict is_plan forallb andb].
  destruct (only_keys _ d); cbn [andb]; [|by rewrite !andb_false_r].
  by_fields. done.
Qed.

(** In the words of the claims: a payload is schema-invalid exactly when
    its validator raises, and what it raises is [StateValidationError]. *)
Corollary validate_plan_ok v : _validate_plan v = Ok tt ↔ is_plan v = true.
Proof. apply agrees_iff, validate_plan_agrees. Qed.

Corollary validate_active_task_ok v :
  _validate_active_task v = Ok tt ↔ is_active_task v = true.
Proof. apply agrees_iff, validate_active_task_agrees. Qed.

Corollary validate_codex_result_ok v :
  _validate_codex_result v = Ok tt ↔ is_agent_result v = true.
Proof. apply agrees_iff, validate_codex_result_agrees. Qed.
End SchemaFacts.

(** ** Plans that have the shape of the data model *)

Module PlanFacts.
Import Py state schema view DictFacts.
Import shape.

Lemma field_is_Some p d k :
  field_is p d k = true → ∃ v, dict_get k d = Some v ∧ p v = true.
Proof. unfold field_is. destruct (dict_get k d); [eauto | done]. Qed.

Lemma field_is_str d k :
  field_is is_str d k = true → dict_get k d = Some (JStr (str_field k (JObj d))).
Proof.
  intros (v & Hv & Hs)%field_is_Some. simpl. rewrite Hv.
  by destruct v.
Qed.

Lemma field_one_of allowed d k :
  field_is (one_of allowed) d k = true →
  dict_get k d = Some (JStr (str_field k (JObj d)))
  ∧ mem (str_field k (JObj d)) allowed = true.
Proof.
  intros (v & Hv & Hs)%field_is_Some. simpl. rewrite Hv.
  by destruct v.
Qed.

Lemma string_list_map l : forallb is_str l = true → l = map JStr (map unstr l).
Proof.
  induction l as [|v l IH]; simpl; [done|].
  rewrite andb_true_iff. intros [Hv Hl]. destruct v; try done.
  simpl. by rewrite <- IH.
Qed.

Lemma is_task_shape t : is_task t = true → ∃ d, task_shape t d.
Proof.
  destruct t as [| | | | |d]; try done. simpl.
  rewrite andb_true_iff. unfold task_fields. rewrite !andb_true_iff.
  intros (_ & (((((Hid & Hobj) & _) & Hst) & Hdeps) & _) & _).
  exists d. split; try done.
  - by apply field_is_str.
  - by apply field_is_str.
  - by apply field_one_of in Hst as [? ?].
  - by apply field_one_of in Hst as [? ?].
  - unfold deps_of, optional_is in *. simpl.
    destruct (dict_get "depends_on" d) as [v|]; [|done].
    destruct v; try done. simpl in *. f_equal. by apply string_list_map.
Qed.

Lemma is_task_get_id t : is_task t = true → get t "id" = Ok (JStr (id_of t)).
Proof. intros [d []]%is_task_shape. subst. simpl. by rewrite shape_id0. Qed.

Lemma is_task_get_status t :
  is_task t = true → get t "status" = Ok (JStr (status_of t)).
Proof.
  intros [d []]%is_task_shape. subst. simpl. by rewrite shape_status0.
Qed.

Lemma is_task_get_objective t :
  is_task t = true → get t "objective" = Ok (JStr (objective_of t)).
Proof.
  intros [d []]%is_task_shape. subst. simpl. by rewrite shape_objective0.
Qed.

Lemma is_task_get_deps t :
  is_task t = true →
  get_default t "depends_on" (JList [])
  = Ok (JList (map JStr (deps_of t))).
Proof.
  intros [d []]%is_task_shape. subst. simpl. by rewrite shape_deps0.
Qed.

Lemma is_task_getitem_id t :
  is_task t = true → getitem t "id" = Ok (JStr (id_of t)).
Proof. intros [d []]%is_task_shape. subst. simpl. by rewrite shape_id0. Qed.

Lemma is_task_getitem_status t :
  is_task t = true → getitem t "status" = Ok (JStr (status_of t)).
Proof.
  intros [d []]%is_task_shape. subst. simpl. by rewrite shape_status0.
Qed.

(** What a plan of the right shape holds. *)
Lemma is_plan_shape plan :
  is_plan plan = true →
  ∃ d z,
    plan = JObj d
    ∧ only_keys ["version"; "objectives"; "tasks"] d = true
    ∧ dict_get "version" d = Some (JInt z)
    ∧ dict_get "objectives" d = Some (JList (objectives_of plan))
    ∧ dict_get "tasks" d = Some (JList (tasks_of plan))
    ∧ forallb is_objective (objectives_of plan) = true
    ∧ forallb is_task (tasks_of plan) = true.
Proof.
  destruct plan as [| | | | |d]; try done. simpl.
  rewrite !andb_true_iff. intros (((Hk & Hv) & Ho) & Ht).
  apply field_is_Some in Hv as (v & Hv & Hvi).
  apply field_is_Some in Ho as (o & Ho & Hoi).
  apply field_is_Some in Ht as (t & Ht & Hti).
  destruct v; try done. destruct o; try done. destruct t; try done.
  exists d, z. unfold objectives_of, tasks_of. simpl. rewrite Ho, Ht.
  done.
Qed.

Lemma is_plan_get_tasks plan :
  is_plan plan = true →
  get_default plan "tasks" (JList []) = Ok (JList (tasks_of plan)).
Proof.
  intros (d & z & -> & _ & _ & _ & Ht & _)%is_plan_shape.
  simpl. simpl in Ht. by rewrite Ht.
Qed.

Lemma is_plan_get_objectives plan :
  is_plan plan = true →
  get_default plan "objectives" (JList [])
  = Ok (JList (objectives_of plan)).
Proof.
  intros (d & z & -> & _ & _ & Ho & _)%is_plan_shape.
  simpl. simpl in Ho. by rewrite Ho.
Qed.

Lemma is_plan_tasks plan :
  is_plan plan = true → Forall (fun t => is_task t = true) (tasks_of plan).
Proof.
  intros (d & z & -> & _ & _ & _ & _ & _ & Ht)%is_plan_shape.
  apply Forall_forall. intros t Hin. rewrite forallb_forall in Ht.
  apply Ht. by apply list_elem_of_In.
Qed.

Lemma is_plan_objectives plan :
  is_plan plan = true →
  Forall (fun o => is_objective o = true) (objectives_of plan).
Proof.
  intros (d & z & -> & _ & _ & _ & _ & Ho & _)%is_plan_shape.
  apply Forall_forall. intros t Hin. rewrite forallb_forall in Ho.
  apply Ho. by apply list_elem_of_In.
Qed.
End PlanFacts.

(** ** The selection of the next task *)

Module SelectFacts.
Import Py state schema view planner scanning.
Import DictFacts PlanFacts JsonRoundTrip.
Import shape.

Lemma is_empty_false s : is_empty s = false ↔ s ≠ "".
Proof. by destruct s. Qed.

Lemma task_map_loop_ok tasks :
  Forall (fun t => is_task t = true) tasks →
  ∀ acc,
    forallb (fun t => negb (is_empty (id_of t))) tasks = true →
    distinct (map fst acc ++ map id_of tasks) = true →
    _task_map_loop tasks acc = Ok (acc ++ task_map_of tasks).
Proof.
  induction 1 as [|t tasks Ht Hts IH]; intros acc Hne Hd; simpl.
  - by rewrite app_nil_r.
  - rewrite (is_task_get_id t Ht). simpl.
    simpl in Hne. apply andb_true_iff in Hne as [Hne1 Hne].
    apply negb_true_iff in Hne1. rewrite Hne1.
    assert (Hfresh : id_of t ∉ map fst acc).
    { apply distinct_NoDup in Hd. apply NoDup_app in Hd as (_ & Hd & _).
      intros Hin. apply (Hd _ Hin). simpl. apply elem_of_cons. by left. }
    rewrite dict_mem_keys. unfold dict_keys.
    apply mem_false in Hfresh as Hm. rewrite Hm.
    rewrite (dict_set_fresh _ _ _ Hfresh).
    rewrite IH; [by rewrite <- app_assoc | done |].
    rewrite map_app. simpl. by rewrite <- app_assoc.
Qed.

Lemma task_map_ok tasks :
  Forall (fun t => is_task t = true) tasks → unique_ids tasks = true →
  _task_map (JList tasks) = Ok (task_map_of tasks).
Proof.
  intros Ht Hu. unfold unique_ids in Hu.
  apply andb_true_iff in Hu as [Hne Hd]. unfold _task_map. simpl.
  by rewrite (task_map_loop_ok tasks Ht []).
Qed.

Lemma dict_get_task_map tasks s :
  dict_get s (task_map_of tasks) = find_task tasks s.
Proof.
  unfold find_task. induction tasks as [|t tasks IH]; simpl; [done|].
  rewrite String.eqb_sym. by destruct (String.eqb (id_of t) s).
Qed.

Lemma find_task_In tasks s t : find_task tasks s = Some t → t ∈ tasks.
Proof.
  unfold find_task. intros H. apply find_some in H as [H _].
  by apply list_elem_of_In.
Qed.

Lemma dependencies_loop_verdict tasks deps :
  Forall (fun t => is_task t = true) tasks →
  _dependencies_loop (map JStr deps) (task_map_of tasks)
  = deps_verdict tasks deps.
Proof.
  intros Ht. induction deps as [|dep deps IH]; simpl; [done|].
  rewrite dict_get_task_map. destruct (find_task tasks dep) as [t|] eqn:E;
    [|done].
  apply find_task_In in E. rewrite Forall_forall in Ht.
  rewrite (is_task_get_status t (Ht t E)). simpl.
  by destruct (String.eqb (status_of t) "done").
Qed.

Lemma deps_verdict_done tasks deps :
  forallb (dep_done tasks) deps = true → deps_verdict tasks deps = Ok true.
Proof.
  induction deps as [|dep deps IH]; simpl; [done|].
  rewrite andb_true_iff. unfold dep_done at 1.
  destruct (find_task tasks dep); [|intros [? _]; done].
  intros [-> H]. by apply IH.
Qed.

Lemma deps_verdict_not_done tasks deps :
  forallb (dep_exists tasks) deps = true →
  forallb (dep_done tasks) deps = false →
  deps_verdict tasks deps = Ok false.
Proof.
  induction deps as [|dep deps IH]; simpl; [done|].
  rewrite andb_true_iff. unfold dep_exists at 1, dep_done at 1.
  destruct (find_task tasks dep); [|intros [? _]; done].
  intros [_ He]. destruct (String.eqb _ "done"); [|done].
  simpl. by apply IH.
Qed.

Lemma deps_verdict_missing tasks d1 g d2 :
  forallb (dep_done tasks) d1 = true → dep_exists tasks g = false →
  deps_verdict tasks (d1 ++ g :: d2)
  = Err (PlannerError ("Dependency not found: " +:+ g)).
Proof.
  intros Hd1 Hg. induction d1 as [|dep d1 IH]; simpl.
  - unfold dep_exists in Hg. by destruct (find_task tasks g).
  - simpl in Hd1. apply andb_true_iff in Hd1 as [Hd Hd1].
    unfold dep_done in Hd. destruct (find_task tasks dep); [|done].
    rewrite Hd. by apply IH.
Qed.

Lemma select_loop_scan tasks rest :
  Forall (fun t => is_task t = true) tasks →
  Forall (fun t => is_task t = true) rest →
  select_loop rest (task_map_of tasks) = scan tasks rest.
Proof.
  intros Ht Hr. induction Hr as [|t rest Hti Hr IH]; simpl; [done|].
  rewrite (is_task_get_status t Hti). simpl. unfold has_status.
  destruct (String.eqb (status_of t) "active"); [done|].
  destruct (String.eqb (status_of t) "pending"); simpl; [|done].
  rewrite (is_task_get_deps t Hti). simpl.
  rewrite (dependencies_loop_verdict _ _ Ht).
  by destruct (deps_verdict tasks (deps_of t)) as [[]|].
Qed.

Theorem select_next_task_scan plan :
  is_plan plan = true → unique_ids (tasks_of plan) = true →
  select_next_task plan = scan (tasks_of plan) (tasks_of plan).
Proof.
  intros Hp Hu. unfold select_next_task.
  rewrite (is_plan_get_tasks plan Hp). simpl.
  pose proof (is_plan_tasks plan Hp) as Ht.
  rewrite (task_map_ok _ Ht Hu). simpl. by apply select_loop_scan.
Qed.

(** An id that is empty or repeated stops the construction of the task
    map. *)
Lemma task_map_loop_bad tasks :
  Forall (fun t => is_task t = true) tasks →
  ∀ acc,
    distinct (map fst acc) = true →
    forallb (fun t => negb (is_empty (id_of t))) tasks
    && distinct (map fst acc ++ map id_of tasks) = false →
    ∃ msg, _task_map_loop tasks acc = Err (PlannerError msg).
Proof.
  induction 1 as [|t tasks Ht Hts IH]; intros acc Hd; simpl.
  - by rewrite app_nil_r, Hd.
  - rewrite (is_task_get_id t Ht). simpl.
    destruct (is_empty (id_of t)) eqn:Ee; simpl; [eauto|].
    destruct (dict_mem (id_of t) acc) eqn:Em; [eauto|].
    rewrite dict_mem_keys in Em. apply mem_false in Em.
    rewrite (dict_set_fresh _ _ _ Em). intros Hbad. apply IH.
    + rewrite map_app. simpl. apply distinct_NoDup, NoDup_app.
      apply distinct_NoDup in Hd. split; [done|]. split.
      * intros x Hx Hin. apply list_elem_of_singleton in Hin as ->.
        by apply Em.
      * apply NoDup_singleton.
    + rewrite map_app. simpl. by rewrite <- app_assoc.
Qed.

Lemma deps_verdict_held_back tasks deps :
  deps_verdict tasks deps = Ok false ↔ held_back tasks deps = true.
Proof.
  induction deps as [|dep deps IH]; simpl; [done|].
  unfold dep_exists, dep_done.
  destruct (find_task tasks dep) as [t|]; simpl; [|done].
  by destruct (String.eqb (status_of t) "done").
Qed.

Lemma active_not_pending u :
  has_status "active" u = true → has_status "pending" u = false.
Proof.
  unfold has_status. intros H. apply String.eqb_eq in H. by rewrite H.
Qed.

Lemma scan_passed_over tasks pre rest :
  forallb (passed_over tasks) pre = true →
  scan tasks (pre ++ rest) = scan tasks rest.
Proof.
  induction pre as [|u pre IH]; simpl; [done|].
  rewrite andb_true_iff. intros [Hu Hpre]. unfold passed_over in Hu.
  destruct (has_status "active" u) eqn:Ea; simpl in Hu.
  - by rewrite (active_not_pending u Ea) in Hu.
  - destruct (has_status "pending" u) eqn:Ep; simpl in Hu; [|by apply IH].
    apply deps_verdict_held_back in Hu. rewrite Hu. by apply IH.
Qed.

(** The scan reaches the end exactly when it passes over every task. *)
Lemma scan_None tasks rest :
  scan tasks rest = Ok None ↔ forallb (passed_over tasks) rest = true.
Proof.
  induction rest as [|u rest IH]; simpl; [done|].
  unfold passed_over at 1.
  destruct (has_status "active" u) eqn:Ea; simpl.
  - rewrite (active_not_pending u Ea). simpl. done.
  - destruct (has_status "pending" u) eqn:Ep; simpl; [|exact IH].
    pose proof (deps_verdict_held_back tasks (deps_of u)) as Hh.
    destruct (deps_verdict tasks (deps_of u)) as [[]|e].
    + destruct (held_back tasks (deps_of u)); simpl; [|done].
      by destruct Hh as [_ Hh]; specialize (Hh eq_refl).
    + destruct Hh as [Hh _]. rewrite (Hh eq_refl). exact IH.
    + destruct (held_back tasks (deps_of u)); simpl; [|done].
      by destruct Hh as [_ Hh]; specialize (Hh eq_refl).
Qed.
End SelectFacts.

(** ** The mutations of the planner *)

Module MutationFacts.
Import Py state schema view effect planner DictFacts PlanFacts SelectFacts.
Import shape.

(** *** Changing a field that is present *)

Lemma only_keys_set_present allowed k v d :
  k ∈ dict_keys d →
  only_keys allowed (dict_set k v d) = only_keys allowed d.
Proof. intros H. unfold only_keys. by rewrite dict_keys_set_present. Qed.

Lemma field_is_set_eq p k v d : field_is p (dict_set k v d) k = p v.
Proof. unfold field_is. by rewrite dict_get_set_eq. Qed.

Lemma field_is_set_ne p k k' v d :
  k ≠ k' → field_is p (dict_set k v d) k' = field_is p d k'.
Proof. intros H. unfold field_is. by rewrite dict_get_set_ne. Qed.

Lemma optional_is_set_ne p k k' v d :
  k ≠ k' → optional_is p (dict_set k v d) k' = optional_is p d k'.
Proof. intros H. unfold optional_is. by rewrite dict_get_set_ne. Qed.

Lemma str_field_set_ne k k' v d :
  k ≠ k' → str_field k' (JObj (dict_set k v d)) = str_field k' (JObj d).
Proof. intros H. simpl. by rewrite dict_get_set_ne. Qed.

Lemma list_field_set_ne k k' v d :
  k ≠ k' → list_field k' (JObj (dict_set k v d)) = list_field k' (JObj d).
Proof. intros H. simpl. by rewrite dict_get_set_ne. Qed.

(** *** Tasks *)

Lemma with_status_task t s :
  is_task t = true → mem s TASK_STATUSES = true →
  is_task (with_status t s) = true
  ∧ id_of (with_status t s) = id_of t
  ∧ objective_of (with_status t s) = objective_of t
  ∧ deps_of (with_status t s) = deps_of t
  ∧ status_of (with_status t s) = s
  ∧ setitem t "status" (JStr s) = Ok (with_status t s).
Proof.
  intros Ht Hs. destruct t as [| | | | |d]; try done. simpl in Ht.
  apply andb_true_iff in Ht as [Hk Hf]. unfold task_fields in Hf.
  rewrite !andb_true_iff in Hf.
  destruct Hf as ((((((Hid & Hobj) & Hder) & Hst) & H1) & H2) & H3).
  assert (Hin : "status" ∈ dict_keys d).
  { apply field_is_Some in Hst as (v & Hv & _).
    by eapply dict_get_Some_key. }
  repeat split.
  - simpl. rewrite (only_keys_set_present _ _ _ _ Hin), Hk. simpl.
    unfold task_fields.
    rewrite field_is_set_eq, !field_is_set_ne, !optional_is_set_ne by done.
    rewrite Hid, Hobj, Hder, H1, H2, H3. cbn [andb one_of].
    fold TASK_STATUSES. by rewrite Hs.
  - unfold id_of. by apply str_field_set_ne.
  - unfold objective_of. by apply str_field_set_ne.
  - unfold deps_of. f_equal. by apply list_field_set_ne.
  - unfold status_of. simpl. by rewrite dict_get_set_eq.
Qed.

(** Putting back the status a task has changes nothing; the last
    assignment wins. *)
Lemma with_status_same t :
  is_task t = true → with_status t (status_of t) = t.
Proof.
  intros [d []]%is_task_shape. subst. simpl. f_equal.
  by apply dict_set_same.
Qed.

Lemma with_status_twice t s s' :
  with_status (with_status t s) s' = with_status t s'.
Proof. destruct t; try done. simpl. by rewrite dict_set_set. Qed.

(** *** Objectives *)

Lemma is_objective_get_id o :
  is_objective o = true → get o "id" = Ok (JStr (id_of o)).
Proof.
  destruct o as [| | | | |d]; try done. simpl. rewrite !andb_true_iff.
  intros (((_ & Hid) & _) & _). apply field_is_str in Hid.
  simpl in Hid. by rewrite Hid.
Qed.

Lemma rollup_enum rel : mem (view.rollup rel) OBJECTIVE_STATUSES = true.
Proof.
  unfold view.rollup. destruct (forallb (has_status "done") rel); [done|].
  by destruct (existsb _ rel).
Qed.

Lemma with_status_objective o s :
  is_objective o = true → mem s OBJECTIVE_STATUSES = true →
  is_objective (with_status o s) = true
  ∧ id_of (with_status o s) = id_of o
  ∧ status_of (with_status o s) = s
  ∧ setitem o "status" (JStr s) = Ok (with_status o s).
Proof.
  intros Ho Hs. destruct o as [| | | | |d]; try done. simpl in Ho.
  rewrite !andb_true_iff in Ho. destruct Ho as (((Hk & Hid) & Hsrc) & Hst).
  assert (Hin : "status" ∈ dict_keys d).
  { apply field_is_Some in Hst as (v & Hv & _).
    by eapply dict_get_Some_key. }
  repeat split.
  - simpl. rewrite (only_keys_set_present _ _ _ _ Hin), Hk. simpl.
    rewrite field_is_set_eq, !field_is_set_ne by done.
    rewrite Hid, Hsrc. cbn [andb one_of].
    fold OBJECTIVE_STATUSES. by rewrite Hs.
  - unfold id_of. by apply str_field_set_ne.
  - unfold status_of. simpl. by rewrite dict_get_set_eq.
Qed.

Lemma refresh_one_objective tasks o :
  is_objective o = true →
  is_objective (refresh_one tasks o) = true
  ∧ id_of (refresh_one tasks o) = id_of o.
Proof.
  intros Ho. unfold refresh_one. destruct (related tasks o); [done|].
  destruct (with_status_objective o (view.rollup (j :: l)) Ho
              (rollup_enum _))
    as (? & ? & _). done.
Qed.

(** *** The plan *)

Lemma replace_tasks_plan plan tasks :
  is_plan plan = true → forallb is_task tasks = true →
  is_plan (replace_tasks plan tasks) = true
  ∧ tasks_of (replace_tasks plan tasks) = tasks
  ∧ objectives_of (replace_tasks plan tasks) = objectives_of plan.
Proof.
  intros Hp Ht.
  destruct (is_plan_shape plan Hp) as (d & z & -> & Hk & Hv & Ho & Hts & Hos & _).
  assert (Hin : "tasks" ∈ dict_keys d) by by eapply dict_get_Some_key.
  repeat split.
  - simpl. rewrite (only_keys_set_present _ _ _ _ Hin), Hk. simpl.
    rewrite field_is_set_eq, !field_is_set_ne by done.
    unfold field_is. rewrite Hv, Ho. cbn [list_of andb is_integer].
    by rewrite Hos, Ht.
  - unfold tasks_of. simpl. by rewrite dict_get_set_eq.
  - unfold objectives_of. by apply list_field_set_ne.
Qed.

Lemma replace_objectives_plan plan objectives :
  is_plan plan = true → forallb is_objective objectives = true →
  is_plan (replace_objectives plan objectives) = true
  ∧ tasks_of (replace_objectives plan objectives) = tasks_of plan
  ∧ objectives_of (replace_objectives plan objectives) = objectives.
Proof.
  intros Hp Hobjs.
  destruct (is_plan_shape plan Hp) as (d & z & -> & Hk & Hv & Ho & Hts & Hos & Htt).
  assert (Hin : "objectives" ∈ dict_keys d) by by eapply dict_get_Some_key.
  repeat split.
  - simpl. rewrite (only_keys_set_present _ _ _ _ Hin), Hk. simpl.
    rewrite field_is_set_eq, !field_is_set_ne by done.
    unfold field_is. rewrite Hv, Hts. cbn [list_of andb is_integer].
    by rewrite Hobjs, Htt.
  - unfold tasks_of. by apply list_field_set_ne.
  - unfold objectives_of. simpl. by rewrite dict_get_set_eq.
Qed.

Lemma forallb_refresh tasks objectives :
  forallb is_objective objectives = true →
  forallb is_objective (map (refresh_one tasks) objectives) = true.
Proof.
  rewrite !forallb_forall. intros H o' Hin.
  apply in_map_iff in Hin as (o & <- & Hin).
  by apply refresh_one_objective, H.
Qed.

Theorem mutated_plan plan tasks :
  is_plan plan = true → forallb is_task tasks = true →
  is_plan (mutated plan tasks) = true
  ∧ tasks_of (mutated plan tasks) = tasks
  ∧ objectives_of (mutated plan tasks)
    = map (refresh_one tasks) (objectives_of plan).
Proof.
  intros Hp Ht. unfold mutated.
  destruct (replace_tasks_plan plan tasks Hp Ht) as (Hp1 & Ht1 & Ho1).
  destruct (is_plan_shape plan Hp) as (d & z & _ & _ & _ & _ & _ & Hos & _).
  destruct (replace_objectives_plan (replace_tasks plan tasks)
              (map (refresh_one tasks) (objectives_of plan)) Hp1
              (forallb_refresh _ _ Hos)) as (Hp2 & Ht2 & Ho2).
  by rewrite Ht2, Ht1.
Qed.

(** *** What the code computes *)

Lemma find_task_loop_found pre t post id :
  Forall (fun u => is_task u = true) pre → is_task t = true →
  Forall (fun u => id_of u ≠ id) pre → id_of t = id →
  ∀ i, _find_task_loop (pre ++ t :: post) id i = Ok ((i + length pre)%nat, t).
Proof.
  intros Hpre Ht Hne Hid. induction pre as [|u pre IH]; intros i; simpl.
  - rewrite (is_task_get_id t Ht). simpl. rewrite Hid, String.eqb_refl.
    by rewrite Nat.add_0_r.
  - apply Forall_cons in Hpre as [Hu Hpre].
    apply Forall_cons in Hne as [Hune Hne].
    rewrite (is_task_get_id u Hu). simpl.
    apply String.eqb_neq in Hune. rewrite Hune.
    rewrite (IH Hpre Hne). f_equal. f_equal. lia.
Qed.

(** The first task with a given id splits the list. *)
Lemma split_at_id (tasks : list json) id :
  (∃ pre t post,
      tasks = pre ++ t :: post ∧ Forall (fun u => id_of u ≠ id) pre
      ∧ id_of t = id)
  ∨ Forall (fun u => id_of u ≠ id) tasks.
Proof.
  induction tasks as [|u tasks IH]; [by right|].
  destruct (String.eqb_spec (id_of u) id) as [He|Hne].
  - left. exists [], u, tasks. done.
  - destruct IH as [(pre & t & post & -> & Hpre & Hid)|Hall].
    + left. exists (u :: pre), t, post. split; [done|]. split; [|done].
      by constructor.
    + right. by constructor.
Qed.

Lemma find_task_loop_missing tasks id :
  Forall (fun u => is_task u = true) tasks →
  Forall (fun u => id_of u ≠ id) tasks →
  ∀ i, _find_task_loop tasks id i
       = Err (PlannerError ("Task not found: " +:+ id)).
Proof.
  intros Ht Hne. induction tasks as [|u tasks IH]; intros i; simpl; [done|].
  apply Forall_cons in Ht as [Hu Ht]. apply Forall_cons in Hne as [Hune Hne].
  rewrite (is_task_get_id u Hu). simpl.
  apply String.eqb_neq in Hune. rewrite Hune. by apply IH.
Qed.

Lemma group_tasks_spec tasks :
  Forall (fun t => is_task t = true) tasks →
  ∀ acc, ∃ g,
    group_tasks tasks acc = Ok g
    ∧ ∀ s, default [] (dict_get s g)
           = default [] (dict_get s acc)
             ++ List.filter (fun t => String.eqb (objective_of t) s) tasks.
Proof.
  induction 1 as [|t tasks Ht Hts IH]; intros acc; simpl.
  - exists acc. split; [done|]. intros s. by rewrite app_nil_r.
  - rewrite (is_task_get_objective t Ht). simpl.
    destruct (IH (dict_set (objective_of t)
                    (default [] (dict_get (objective_of t) acc) ++ [t]) acc))
      as (g & Hg & Hs).
    exists g. split; [done|]. intros s. rewrite Hs, dict_get_set.
    destruct (String.eqb (objective_of t) s) eqn:E; simpl.
    + apply String.eqb_eq in E as <-. by rewrite <- app_assoc.
    + done.
Qed.

Lemma status_set_ok rel :
  Forall (fun t => is_task t = true) rel →
  status_set rel = Ok (map (fun t => JStr (status_of t)) rel).
Proof.
  induction 1 as [|t rel Ht Hrel IH]; simpl; [done|].
  rewrite (is_task_get_status t Ht). simpl. by rewrite IH.
Qed.

Lemma rollup_view rel :
  planner.rollup (map (fun t => JStr (status_of t)) rel) = view.rollup rel.
Proof.
  unfold planner.rollup, view.rollup, all_done, some_started.
  assert (forallb (fun s => eq_str s "done")
            (map (fun t => JStr (status_of t)) rel)
          = forallb (has_status "done") rel) as ->.
  { induction rel as [|t rel IH]; simpl; [done|]. by rewrite IH. }
  assert (existsb
            (fun s => eq_str s "active" || eq_str s "done"
                      || eq_str s "failed" || eq_str s "blocked")
            (map (fun t => JStr (status_of t)) rel)
          = existsb
              (fun t => has_status "active" t || has_status "done" t
                        || has_status "failed" t || has_status "blocked" t)
              rel) as ->.
  { induction rel as [|t rel IH]; simpl; [done|]. by rewrite IH. }
  done.
Qed.

Lemma refresh_loop_ok tasks g objectives :
  Forall (fun t => is_task t = true) tasks →
  (∀ s, default [] (dict_get s g)
        = List.filter (fun t => String.eqb (objective_of t) s) tasks) →
  Forall (fun o => is_objective o = true) objectives →
  refresh_loop objectives g = Ok (map (refresh_one tasks) objectives).
Proof.
  intros Ht Hg. induction 1 as [|o objectives Ho Hos IH]; [done|].
  cbn [refresh_loop map]. rewrite (is_objective_get_id o Ho).
  cbn [mbind res_bind]. rewrite Hg, IH.
  change (refresh_one tasks o)
    with (match List.filter
                  (fun t => String.eqb (objective_of t) (id_of o)) tasks
          with
          | [] => o
          | rel => with_status o (view.rollup rel)
          end).
  destruct (List.filter (fun t => String.eqb (objective_of t) (id_of o))
              tasks) as [|r rel] eqn:E; [done|].
  assert (Hrel : Forall (fun t => is_task t = true) (r :: rel)).
  { rewrite <- E. apply Forall_forall. intros t Hin.
    apply list_elem_of_In, filter_In in Hin as [Hin _].
    rewrite Forall_forall in Ht. by apply Ht, list_elem_of_In. }
  rewrite (status_set_ok _ Hrel).
  cbn [mbind res_bind]. rewrite (rollup_view (r :: rel)).
  destruct (with_status_objective o (view.rollup (r :: rel)) Ho
              (rollup_enum _)) as (_ & _ & _ & ->). done.
Qed.

Theorem refresh_ok plan :
  is_plan plan = true →
  _refresh_objective_statuses plan
  = Ok (replace_objectives plan
          (map (refresh_one (tasks_of plan)) (objectives_of plan))).
Proof.
  intros Hp. unfold _refresh_objective_statuses.
  rewrite (is_plan_get_objectives plan Hp), (is_plan_get_tasks plan Hp).
  simpl. pose proof (is_plan_tasks plan Hp) as Ht.
  destruct (group_tasks_spec _ Ht []) as (g & -> & Hg). simpl.
  rewrite (refresh_loop_ok (tasks_of plan) g); [| done | | ].
  - simpl. f_equal.
    destruct (is_plan_shape plan Hp) as (d & z & -> & _ & _ & Ho & _).
    simpl. by rewrite Ho.
  - intros s. by rewrite Hg.
  - by apply is_plan_objectives.
Qed.

Lemma forallb_Forall {A} (p : A → bool) l :
  forallb p l = true ↔ Forall (fun x => p x = true) l.
Proof.
  rewrite forallb_forall, Forall_forall. split; intros H x Hx; apply H.
  - by apply list_elem_of_In.
  - by apply list_elem_of_In.
Qed.

Theorem set_status_ok plan id s pre t post :
  is_plan plan = true → tasks_of plan = pre ++ t :: post →
  Forall (fun u => id_of u ≠ id) pre → id_of t = id →
  mem s TASK_STATUSES = true →
  set_status plan id s
  = Ok (mutated plan (pre ++ with_status t s :: post), with_status t s).
Proof.
  intros Hp Heq Hpre Hid Hs. unfold set_status, _find_task.
  rewrite (is_plan_get_tasks plan Hp). simpl.
  pose proof (is_plan_tasks plan Hp) as Hts. rewrite Heq in Hts |- *.
  apply Forall_app in Hts as [Hts_pre Hts_post].
  apply Forall_cons in Hts_post as [Ht Hts_post].
  rewrite (find_task_loop_found pre t post id Hts_pre Ht Hpre Hid). simpl.
  destruct (with_status_task t s Ht Hs) as (Ht' & _ & _ & _ & _ & ->).
  simpl.
  assert (Hwt : with_task plan (length pre) (with_status t s)
                = replace_tasks plan (pre ++ with_status t s :: post)).
  { destruct (is_plan_shape plan Hp) as (d & z & -> & _ & _ & _ & Hd & _).
    simpl. rewrite Hd, Heq. do 3 f_equal.
    rewrite insert_app_r_alt by lia. by rewrite Nat.sub_diag. }
  rewrite Hwt.
  assert (Hall : forallb is_task (pre ++ with_status t s :: post) = true).
  { apply forallb_Forall, Forall_app. split; [done|]. by constructor. }
  destruct (replace_tasks_plan plan _ Hp Hall) as (Hp1 & Ht1 & Ho1).
  rewrite (refresh_ok _ Hp1), Ht1, Ho1. done.
Qed.

Theorem set_status_missing plan id s :
  is_plan plan = true → Forall (fun u => id_of u ≠ id) (tasks_of plan) →
  set_status plan id s = Err (PlannerError ("Task not found: " +:+ id)).
Proof.
  intros Hp Hne. unfold set_status, _find_task.
  rewrite (is_plan_get_tasks plan Hp). simpl.
  by rewrite (find_task_loop_missing _ _ (is_plan_tasks plan Hp) Hne).
Qed.
End MutationFacts.

(** ** The store at work on a disk *)

Module StoreFacts.
Import Py pathlib fs state schema view effect layout outcome.
Import DictFacts PlanFacts SchemaFacts JsonRoundTrip.
Import shape.

(** *** Sequencing *)

Lemma bind_ok {S A B} (m : M S A) (f : A → M S B) s a s' :
  m s = (Ok a, s') → (m ≫= f) s = f a s'.
Proof. intros H. unfold mbind, M_bind. by rewrite H. Qed.

Lemma bind_err {S A B} (m : M S A) (f : A → M S B) s e s' :
  m s = (Err e, s') → (m ≫= f) s = (Err e, s').
Proof. intros H. unfold mbind, M_bind. by rewrite H. Qed.

Lemma lift_ok {S A} (r : res A) (a : A) (s : S) :
  r = Ok a → lift r s = (Ok a, s).
Proof. by intros ->. Qed.

(** [step tac]: the first computation of a sequence returns, by [tac]. *)
Ltac step tac := erewrite bind_ok; [cbv beta | solve [tac]].

(** *** What [usable] gives *)

Lemma usable_spec store d :
  usable store d = true ↔
  NoDup (map key (written_paths store))
  ∧ ∀ p, p ∈ written_paths store → usable_at store d p.
Proof.
  unfold usable. rewrite !andb_true_iff, !forallb_forall, bool_decide_eq_true.
  split.
  - intros (((Hw & Hnd) & Hpar) & Hdir). split; [done|]. intros p Hp.
    apply list_elem_of_In in Hp. split.
    + specialize (Hw p Hp). by destruct (_ensure_writable_path p store) as [[]|].
    + specialize (Hpar p Hp). unfold is_dir in Hpar.
      by destruct (d !! key (parent p)) as [[]|].
    + specialize (Hdir p Hp). unfold is_dir in Hdir. intros E.
      by rewrite E in Hdir.
  - intros [Hnd H]. repeat split; [|done| |]; intros p Hp;
      apply list_elem_of_In in Hp; destruct (H p Hp) as [Hw Hpar Hdir].
    + by rewrite Hw.
    + unfold is_dir. by rewrite Hpar.
    + unfold is_dir. by destruct (d !! key p) as [[]|].
Qed.

Lemma usable_insert store d p content :
  usable store d = true → p ∈ written_paths store →
  usable store (<[key p := File content]> d) = true.
Proof.
  rewrite !usable_spec. intros [Hnd H] Hp. split; [done|]. intros q Hq.
  destruct (H q Hq) as [Hw Hpar Hdir]. destruct (H p Hp) as [_ _ Hpd].
  split; [done| |].
  - rewrite lookup_insert_ne; [done|]. intros E. by rewrite E in Hpd.
  - destruct (decide (key p = key q)) as [E|E].
    + by rewrite E, lookup_insert_eq.
    + by rewrite lookup_insert_ne.
Qed.

Lemma usable_delete store d p :
  usable store d = true → p ∈ written_paths store →
  usable store (delete (key p) d) = true.
Proof.
  rewrite !usable_spec. intros [Hnd H] Hp. split; [done|]. intros q Hq.
  destruct (H q Hq) as [Hw Hpar Hdir]. destruct (H p Hp) as [_ _ Hpd].
  split; [done| |].
  - rewrite lookup_delete_ne; [done|]. intros E. by rewrite E in Hpd.
  - destruct (decide (key p = key q)) as [E|E].
    + by rewrite E, lookup_delete_eq.
    + by rewrite lookup_delete_ne.
Qed.

(** Two of the five files are different files. *)
Lemma usable_keys_ne store d (i j : nat) p q :
  usable store d = true →
  written_paths store !! i = Some p → written_paths store !! j = Some q →
  i ≠ j → key p ≠ key q.
Proof.
  rewrite usable_spec. intros [Hnd _] Hi Hj Hne E.
  apply Hne. eapply (NoDup_lookup _ i j (key p)); [exact Hnd| |].
  - by rewrite list_lookup_fmap, Hi.
  - by rewrite list_lookup_fmap, Hj, E.
Qed.

(** *** Writing *)

Lemma atomic_write_bytes_done store d p content :
  usable_at store d p →
  _atomic_write_bytes p content d = (Ok tt, <[key p := File content]> d).
Proof.
  intros [_ Hpar Hdir]. unfold _atomic_write_bytes. rewrite Hpar.
  by destruct (d !! key p) as [[]|].
Qed.

Lemma ensure_parent_dir_done store d p :
  usable_at store d p → _ensure_parent_dir p d = (Ok tt, d).
Proof.
  intros [_ Hpar _]. unfold _ensure_parent_dir, exists_. by rewrite Hpar.
Qed.

Lemma atomic_write_text_done store d p content :
  usable_at store d p →
  _atomic_write_text p content store d
  = (Ok tt, <[key p := File content]> d).
Proof.
  intros Hu. unfold _atomic_write_text.
  step ltac:(apply lift_ok, Hu).
  step ltac:(by eapply ensure_parent_dir_done).
  by eapply atomic_write_bytes_done.
Qed.

Lemma atomic_write_json_done store d p data :
  usable_at store d p → is_dict data = true →
  _atomic_write_json p data store d
  = (Ok tt, <[key p := File (text_of data)]> d).
Proof.
  intros Hu Hd. unfold _atomic_write_json. rewrite Hd.
  change (negb true) with false. cbv iota.
  step ltac:(apply lift_ok, Hu).
  step ltac:(by eapply ensure_parent_dir_done).
  by eapply atomic_write_bytes_done.
Qed.

Lemma checked {S} (strict : bool) (r : res unit) (s : S) :
  r = Ok tt → (if strict then lift r else mret tt) s = (Ok tt, s).
Proof. intros ->. by destruct strict. Qed.

Lemma is_plan_dict plan : is_plan plan = true → is_dict plan = true.
Proof. by destruct plan. Qed.

Lemma write_plan_done store d plan :
  usable store d = true → is_plan plan = true →
  write_plan store plan d
  = (Ok tt, <[key (plan_path store) := File (text_of plan)]> d).
Proof.
  intros Hu Hp. apply usable_spec in Hu as [_ Hu]. unfold write_plan.
  step ltac:(by apply checked, validate_plan_ok).
  apply atomic_write_json_done; [|by apply is_plan_dict].
  apply Hu. set_solver.
Qed.

Lemma write_active_task_done store d task :
  usable store d = true → is_active_task task = true →
  write_active_task store task d
  = (Ok tt, <[key (active_task_path store) := File (text_of task)]> d).
Proof.
  intros Hu Hp. apply usable_spec in Hu as [_ Hu]. unfold write_active_task.
  step ltac:(by apply checked, validate_active_task_ok).
  apply atomic_write_json_done; [|by destruct task].
  apply Hu. set_solver.
Qed.

Lemma write_last_result_done store d result :
  usable store d = true → is_dict result = true →
  (strict_schema_validation store = true → is_agent_result result = true) →
  write_last_result store result d
  = (Ok tt, <[key (last_result_path store) := File (text_of result)]> d).
Proof.
  intros Hu Hd Hr. apply usable_spec in Hu as [_ Hu].
  unfold write_last_result.
  erewrite bind_ok; [cbv beta|].
  - apply atomic_write_json_done; [|done]. apply Hu. set_solver.
  - destruct (strict_schema_validation store); [|done].
    apply lift_ok, validate_codex_result_ok. by apply Hr.
Qed.

Lemma write_summary_done store d content :
  usable store d = true →
  write_summary store content d
  = (Ok tt, <[key (summary_path store) := File content]> d).
Proof.
  intros Hu. apply usable_spec in Hu as [_ Hu].
  apply atomic_write_text_done. apply Hu. set_solver.
Qed.

Lemma write_progress_done store d content :
  usable store d = true →
  state.write_progress store content d
  = (Ok tt, <[key (progress_path store) := File content]> d).
Proof.
  intros Hu. apply usable_spec in Hu as [_ Hu].
  apply atomic_write_text_done. apply Hu. set_solver.
Qed.

(** *** Reading *)

Lemma read_json_object_done d p v :
  d !! key p = Some (File (text_of v)) → well_formed v = true →
  is_dict v = true →
  _read_json_object p d = (Ok v, d).
Proof.
  intros Hf Hwf Hd. unfold _read_json_object.
  erewrite bind_ok; [cbv beta|unfold _read_text; by rewrite Hf].
  unfold text_of. rewrite universal_newlines_dumps.
  rewrite (loads_dumps_newline v Hwf). by rewrite Hd.
Qed.

Lemma read_json_object_text d p text v :
  d !! key p = Some (File text) →
  Json.loads (universal_newlines text) = Some v →
  is_dict v = true →
  _read_json_object p d = (Ok v, d).
Proof.
  intros Hf Hl Hd. unfold _read_json_object.
  erewrite bind_ok; [cbv beta|unfold _read_text; by rewrite Hf].
  rewrite Hl. by rewrite Hd.
Qed.

Lemma loads_text_of v :
  well_formed v = true →
  Json.loads (universal_newlines (text_of v)) = Some v.
Proof.
  intros Hwf. unfold text_of. rewrite universal_newlines_dumps.
  by apply loads_dumps_newline.
Qed.

Lemma load_plan_done store d text plan :
  d !! key (plan_path store) = Some (File text) →
  Json.loads (universal_newlines text) = Some plan → is_plan plan = true →
  load_plan store d = (Ok plan, d).
Proof.
  intros Hf Hl Hp. unfold load_plan.
  step ltac:(by eapply read_json_object_text; [| |apply is_plan_dict]).
  step ltac:(by apply checked, validate_plan_ok). done.
Qed.

Lemma clear_active_task_done store d :
  usable store d = true →
  clear_active_task store d
  = (Ok tt, delete (key (active_task_path store)) d).
Proof.
  intros Hu. apply usable_spec in Hu as [_ Hu].
  destruct (Hu (active_task_path store)) as [Hw _ Hdir]; [set_solver|].
  unfold clear_active_task, exists_.
  destruct (d !! key (active_task_path store)) as [[|c]|] eqn:E; [done| |].
  - step ltac:(by apply lift_ok). unfold unlink. by rewrite E.
  - by rewrite delete_id.
Qed.
End StoreFacts.

(** ** The selected task and the plan around it *)

Module SelectedFacts.
Import Py state schema view effect outcome scanning planner.
Import DictFacts PlanFacts SelectFacts MutationFacts JsonRoundTrip.
Import shape.

(** *** A selection implies ids that are non-empty and distinct *)

Lemma task_map_loop_inv tasks :
  Forall (fun t => is_task t = true) tasks →
  ∀ acc m,
    distinct (map fst acc) = true →
    _task_map_loop tasks acc = Ok m →
    forallb (fun t => negb (is_empty (id_of t))) tasks = true
    ∧ distinct (map fst acc ++ map id_of tasks) = true.
Proof.
  induction 1 as [|t tasks Ht Hts IH]; intros acc m Hd; simpl.
  - intros _. by rewrite app_nil_r.
  - rewrite (is_task_get_id t Ht). simpl.
    destruct (is_empty (id_of t)) eqn:Ee; [done|].
    destruct (dict_mem (id_of t) acc) eqn:Em; [done|].
    rewrite dict_mem_keys in Em. apply mem_false in Em.
    rewrite (dict_set_fresh _ _ _ Em). intros Hm.
    apply IH in Hm as [Hne Hdist].
    + split; [done|]. rewrite map_app in Hdist. simpl in Hdist.
      by rewrite <- app_assoc in Hdist.
    + rewrite map_app. simpl. apply distinct_NoDup, NoDup_app.
      apply distinct_NoDup in Hd. split; [done|]. split.
      * intros x Hx Hin. apply list_elem_of_singleton in Hin as ->.
        by apply Em.
      * apply NoDup_singleton.
Qed.

Lemma select_unique_ids plan r :
  is_plan plan = true → select_next_task plan = Ok r →
  unique_ids (tasks_of plan) = true.
Proof.
  intros Hp. unfold select_next_task.
  rewrite (is_plan_get_tasks plan Hp). simpl. unfold _task_map. simpl.
  destruct (_task_map_loop (tasks_of plan) []) as [m|] eqn:E; [|done].
  intros _. apply task_map_loop_inv in E as [Hne Hd];
    [|by apply is_plan_tasks|done].
  unfold unique_ids. simpl in Hd. by rewrite Hne, Hd.
Qed.

(** *** Where the selected task stands *)

Lemma scan_Some tasks rest t :
  scan tasks rest = Ok (Some t) →
  ∃ pre post,
    rest = pre ++ t :: post ∧ Forall (goes_past tasks) pre
    ∧ has_status "active" t = false ∧ has_status "pending" t = true
    ∧ deps_verdict tasks (deps_of t) = Ok true.
Proof.
  induction rest as [|u rest IH]; simpl; [done|].
  destruct (has_status "active" u) eqn:Ea; [done|].
  destruct (has_status "pending" u) eqn:Ep; simpl.
  - destruct (deps_verdict tasks (deps_of u)) as [[]|] eqn:Ed; [| |done].
    + intros [= ->]. exists [], rest. done.
    + intros (pre & post & -> & Hpre & Ht)%IH.
      exists (u :: pre), post. split; [done|]. split; [|done].
      constructor; [|done]. split; [done|]. by right.
  - intros (pre & post & -> & Hpre & Ht)%IH.
    exists (u :: pre), post. split; [done|]. split; [|done].
    constructor; [|done]. split; [done|]. by left.
Qed.

Lemma scan_goes_past tasks pre rest :
  Forall (goes_past tasks) pre → scan tasks (pre ++ rest) = scan tasks rest.
Proof.
  induction 1 as [|u pre [Ha Hu] Hpre IH]; simpl; [done|].
  rewrite Ha. destruct Hu as [Hp|Hd].
  - by rewrite Hp.
  - destruct (has_status "pending" u); simpl; [by rewrite Hd | done].
Qed.

Theorem select_selected plan t :
  is_plan plan = true → select_next_task plan = Ok (Some t) →
  ∃ pre post, selected plan t pre post.
Proof.
  intros Hp Hs. pose proof (select_unique_ids plan _ Hp Hs) as Hu.
  rewrite (select_next_task_scan plan Hp Hu) in Hs.
  apply scan_Some in Hs as (pre & post & Heq & Hpre & Ha & Hpend & Hd).
  exists pre, post. split; try done.
  - unfold unique_ids in Hu. apply andb_true_iff in Hu as [_ Hu].
    rewrite Heq, map_app in Hu. simpl in Hu.
    apply distinct_NoDup, NoDup_app in Hu as (_ & Hu & _).
    apply Forall_forall. intros u Hin E.
    apply (Hu (id_of u)); [by apply list_elem_of_fmap_2|].
    rewrite E. apply elem_of_cons. by left.
  - pose proof (is_plan_tasks plan Hp) as Hts. rewrite Heq in Hts.
    apply Forall_app in Hts as [_ Hts]. by apply Forall_cons in Hts as [? _].
  - unfold has_status in Hpend. by apply String.eqb_eq in Hpend.
Qed.

(** *** Changing the status of the selected task *)

Lemma set_first_split pre t post id s :
  Forall (fun u => id_of u ≠ id) pre → id_of t = id →
  set_first (pre ++ t :: post) id s = pre ++ with_status t s :: post.
Proof.
  intros Hpre Hid. induction Hpre as [|u pre Hu Hpre IH]; simpl.
  - by rewrite Hid, String.eqb_refl.
  - apply String.eqb_neq in Hu. by rewrite Hu, IH.
Qed.

Lemma id_of_with_status u s : id_of (with_status u s) = id_of u.
Proof.
  destruct u; try done. unfold id_of. by apply str_field_set_ne.
Qed.

Lemma deps_of_with_status u s : deps_of (with_status u s) = deps_of u.
Proof.
  destruct u; try done. unfold deps_of. f_equal. by apply list_field_set_ne.
Qed.

Lemma set_status_selected plan t pre post s :
  is_plan plan = true → selected plan t pre post →
  mem s TASK_STATUSES = true →
  set_status plan (id_of t) s
  = Ok (plan_after plan (id_of t) s, with_status t s).
Proof.
  intros Hp [] Hs. unfold plan_after.
  rewrite sel_tasks0, (set_first_split pre t post) by done.
  by apply set_status_ok.
Qed.

Lemma set_first_tasks (tasks : list json) id s :
  Forall (fun t => is_task t = true) tasks →
  mem s TASK_STATUSES = true →
  forallb is_task (set_first tasks id s) = true.
Proof.
  intros Ht Hs. induction Ht as [|u tasks Hu Ht IH]; simpl; [done|].
  destruct (String.eqb (id_of u) id); simpl.
  - destruct (with_status_task u s Hu Hs) as [-> _]. simpl.
    by apply forallb_Forall.
  - by rewrite Hu, IH.
Qed.

Theorem plan_after_plan plan id s :
  is_plan plan = true → mem s TASK_STATUSES = true →
  is_plan (plan_after plan id s) = true
  ∧ tasks_of (plan_after plan id s) = set_first (tasks_of plan) id s.
Proof.
  intros Hp Hs. unfold plan_after.
  destruct (mutated_plan plan (set_first (tasks_of plan) id s) Hp)
    as (? & ? & _); [|done].
  apply set_first_tasks; [by apply is_plan_tasks | done].
Qed.

(** Activating a task and putting it back to the status it had gives
    back the tasks as they were. *)
Lemma set_first_back tasks id s :
  Forall (fun t => is_task t = true) tasks →
  (∀ t, find_task tasks id = Some t → status_of t = s) →
  ∀ s', set_first (set_first tasks id s') id s = tasks.
Proof.
  intros Ht Hs s'. induction Ht as [|u tasks Hu Ht IH]; simpl; [done|].
  unfold find_task in Hs. simpl in Hs.
  destruct (String.eqb (id_of u) id) eqn:E; simpl.
  - rewrite id_of_with_status, E, with_status_twice.
    rewrite <- (Hs u eq_refl). by rewrite with_status_same.
  - rewrite E. f_equal. by apply IH.
Qed.

Lemma find_task_selected plan t pre post :
  selected plan t pre post → find_task (tasks_of plan) (id_of t) = Some t.
Proof.
  intros []. rewrite sel_tasks0. unfold find_task.
  clear sel_tasks0 sel_pre0. induction sel_fresh0 as [|u pre Hu Hpre IH];
    simpl.
  - by rewrite String.eqb_refl.
  - apply String.eqb_neq in Hu. by rewrite Hu.
Qed.

(** *** Well-formedness goes through the mutations *)

Lemma well_formed_set k v d :
  well_formed (JObj d) = true → well_formed v = true →
  well_formed (JObj (dict_set k v d)) = true.
Proof.
  cbn [well_formed]. rewrite !andb_true_iff. intros [Hd Hf] Hv. split.
  - by apply dict_set_distinct.
  - by apply (dict_set_forallb well_formed).
Qed.

Lemma well_formed_with_status v s :
  well_formed v = true → well_formed (with_status v s) = true.
Proof. destruct v; try done. intros H. by apply well_formed_set. Qed.

Lemma well_formed_field k v :
  well_formed v = true → forallb well_formed (list_field k v) = true.
Proof.
  destruct v as [| | | | |d]; try done. cbn [well_formed list_field].
  rewrite andb_true_iff. intros [_ Hf].
  destruct (dict_get k d) as [x|] eqn:E; [|done].
  destruct x; try done.
  assert (well_formed (JList items) = true) as Hx; [|done].
  clear -E Hf. induction d as [|[k' v'] d IH]; simpl in *; [done|].
  apply andb_true_iff in Hf as [Hv Hf].
  destruct (String.eqb k k'); [by injection E as ->|by apply IH].
Qed.

Lemma well_formed_set_first tasks id s :
  forallb well_formed tasks = true →
  forallb well_formed (set_first tasks id s) = true.
Proof.
  induction tasks as [|u tasks IH]; simpl; [done|].
  rewrite andb_true_iff. intros [Hu Ht].
  destruct (String.eqb (id_of u) id); simpl.
  - by rewrite well_formed_with_status.
  - by rewrite Hu, IH.
Qed.

Lemma well_formed_refresh tasks objectives :
  forallb well_formed objectives = true →
  forallb well_formed (map (refresh_one tasks) objectives) = true.
Proof.
  induction objectives as [|o objectives IH]; simpl; [done|].
  rewrite andb_true_iff. intros [Ho Hos]. rewrite IH by done.
  unfold refresh_one. destruct (related tasks o); [by rewrite Ho|].
  by rewrite well_formed_with_status.
Qed.

Theorem well_formed_plan_after plan id s :
  well_formed plan = true → well_formed (plan_after plan id s) = true.
Proof.
  intros Hwf. unfold plan_after, mutated, replace_objectives, replace_tasks.
  destruct plan as [| | | | |d]; try done.
  apply well_formed_set; [apply well_formed_set|]; try done.
  - cbn [well_formed]. apply well_formed_set_first.
    by apply (well_formed_field "tasks" (JObj d)).
  - cbn [well_formed]. apply well_formed_refresh.
    by apply (well_formed_field "objectives" (JObj d)).
Qed.
End SelectedFacts.

(** ** One pass of the control loop *)

Module LoopFacts.
Import Py pathlib fs state schema view effect outcome scanning layout.
Import planner daemon.
Import DictFacts PlanFacts SelectFacts MutationFacts JsonRoundTrip.
Import StoreFacts SelectedFacts.
Import shape.

(** *** The planner on the selected task *)

Lemma selected_select plan t pre post :
  is_plan plan = true → selected plan t pre post →
  select_next_task plan = Ok (Some t).
Proof.
  intros Hp []. rewrite (select_next_task_scan plan Hp sel_unique0).
  rewrite sel_tasks0 at 2. rewrite (scan_goes_past _ _ _ sel_pre0).
  simpl. unfold has_status. rewrite sel_pending0. simpl.
  by rewrite sel_ready0.
Qed.

Lemma task_id_of_ok t : is_task t = true → task_id_of t = Ok (id_of t).
Proof.
  intros Ht. unfold task_id_of. by rewrite (is_task_getitem_id t Ht).
Qed.

Lemma only_keys_mono allowed allowed' d :
  (∀ k, mem k allowed = true → mem k allowed' = true) →
  only_keys allowed d = true → only_keys allowed' d = true.
Proof.
  intros H. unfold only_keys. rewrite !forallb_forall. eauto.
Qed.

Lemma with_timeout_active t z :
  is_task t = true →
  setitem t "timeout_seconds" (JInt z) = Ok (with_timeout t z)
  ∧ is_active_task (with_timeout t z) = true.
Proof.
  destruct t as [| | | | |d]; try done. simpl. intros Ht. split; [done|].
  apply andb_true_iff in Ht as [Hk Hf].
  assert (dict_get "timeout_seconds" d = None) as Hnone.
  { destruct (dict_get "timeout_seconds" d) eqn:E; [|done].
    apply dict_get_Some_key in E. unfold only_keys in Hk.
    rewrite forallb_forall in Hk. apply list_elem_of_In, Hk in E. done. }
  rewrite !andb_true_iff. split; [split|].
  - unfold only_keys. rewrite dict_keys_set_fresh
      by (by apply dict_get_None_key).
    rewrite forallb_app. apply andb_true_iff. split; [|done].
    unfold only_keys in Hk. rewrite forallb_forall in Hk |- *.
    intros k Hin. specialize (Hk k Hin). simpl in Hk |- *.
    destruct (String.eqb k "timeout_seconds"); [|exact Hk].
    simpl. by rewrite !orb_true_r.
  - unfold task_fields, field_is, optional_is in *.
    by rewrite !dict_get_set_ne.
  - unfold field_is. by rewrite dict_get_set_eq.
Qed.

Lemma activate_task_selected plan t pre post seconds :
  is_plan plan = true → selected plan t pre post →
  activate_task plan (id_of t) seconds
  = Ok (plan_after plan (id_of t) "active",
        with_timeout (with_status t "active") seconds)
  ∧ is_active_task (with_timeout (with_status t "active") seconds) = true.
Proof.
  intros Hp Hsel. unfold activate_task.
  rewrite (set_status_selected plan t pre post "active") by done. simpl.
  destruct (with_status_task t "active") as [Ht _];
    [by destruct Hsel | done |].
  destruct (with_timeout_active (with_status t "active") seconds Ht)
    as [-> ?]. done.
Qed.

(** *** The progress file *)

Lemma status_by_id_ok items :
  Forall (fun x => ∃ id st, getitem x "id" = Ok (JStr id)
                            ∧ getitem x "status" = Ok st) items →
  ∀ acc, ∃ r, status_by_id items acc = Ok r.
Proof.
  induction 1 as [|x items (id & st & Hid & Hst) _ IH]; intros acc; simpl.
  - eauto.
  - rewrite Hid, Hst. simpl. apply IH.
Qed.

Lemma progress_of_ok plan :
  is_plan plan = true → ∃ progress, progress_of plan = Ok progress.
Proof.
  intros Hp. unfold progress_of.
  rewrite (is_plan_get_objectives plan Hp), (is_plan_get_tasks plan Hp).
  simpl.
  destruct (status_by_id_ok (objectives_of plan)) with (acc := @nil (string * json))
    as [os ->].
  { eapply Forall_impl; [apply (is_plan_objectives plan Hp)|].
    intros o Ho. destruct o as [| | | | |d]; try done. simpl in Ho.
    rewrite !andb_true_iff in Ho. destruct Ho as (((_ & Hid) & _) & Hst).
    apply field_is_str in Hid. apply field_one_of in Hst as [Hst _].
    unfold getitem. simpl. rewrite Hid, Hst. eauto. }
  simpl.
  destruct (status_by_id_ok (tasks_of plan)) with (acc := @nil (string * json))
    as [ts ->].
  { eapply Forall_impl; [apply (is_plan_tasks plan Hp)|].
    intros u Hu. exists (id_of u), (JStr (status_of u)).
    by rewrite (is_task_getitem_id u Hu), (is_task_getitem_status u Hu). }
  simpl. eauto.
Qed.

Lemma planner_write_progress_done store d plan :
  usable store d = true → is_plan plan = true →
  planner.write_progress store plan d
  = (Ok tt, <[key (progress_path store) := File (progress_text plan)]> d).
Proof.
  intros Hu Hp. unfold planner.write_progress, progress_text.
  destruct (progress_of_ok plan Hp) as [progress ->].
  unfold mbind, M_bind, lift. by apply write_progress_done.
Qed.

(** *** The disk, the tracker and the log *)

Lemma on_disk_ok {A} (m : M disk A) w a d' :
  m (w_disk w) = (Ok a, d') →
  on_disk m w
  = (Ok a, {| w_disk := d'; w_tracker := w_tracker w; w_log := w_log w |}).
Proof. intros H. unfold on_disk. by rewrite H. Qed.

Lemma on_disk_err {A} (m : M disk A) w e d' :
  m (w_disk w) = (Err e, d') →
  on_disk m w
  = (Err e, {| w_disk := d'; w_tracker := w_tracker w; w_log := w_log w |}).
Proof. intros H. unfold on_disk. by rewrite H. Qed.

Tactic Notation "advance" tactic(tac) :=
  erewrite bind_ok; [|solve [tac]];
  cbv beta iota; cbn [w_disk w_tracker w_log].

Tactic Notation "advance_disk" tactic(tac) :=
  advance (apply on_disk_ok; cbn [w_disk w_tracker w_log]; tac).

Lemma in_written_plan store : plan_path store ∈ written_paths store.
Proof. apply elem_of_cons. by left. Qed.

Lemma in_written_active store : active_task_path store ∈ written_paths store.
Proof. do 1 (apply elem_of_cons; right). apply elem_of_cons. by left. Qed.

Lemma in_written_summary store : summary_path store ∈ written_paths store.
Proof. do 2 (apply elem_of_cons; right). apply elem_of_cons. by left. Qed.

Lemma in_written_last store : last_result_path store ∈ written_paths store.
Proof. do 3 (apply elem_of_cons; right). apply elem_of_cons. by left. Qed.

Lemma in_written_progress store : progress_path store ∈ written_paths store.
Proof. do 4 (apply elem_of_cons; right). apply elem_of_cons. by left. Qed.

Create HintDb written.
#[export] Hint Resolve in_written_plan in_written_active in_written_summary
  in_written_last in_written_progress usable_insert usable_delete : written.

Lemma ready_well_formed store d plan :
  ready store d plan → well_formed plan = true.
Proof. intros [_ _ (text & _ & Hl) _]. by apply loads_well_formed in Hl. Qed.

Lemma ensure_plan_ready store d plan :
  ready store d plan → ensure_plan store d = (Ok plan, d).
Proof.
  intros [_ _ (text & Hf & Hl) Hp]. unfold ensure_plan, exists_.
  rewrite Hf. simpl. by apply (load_plan_done store d text).
Qed.

Lemma started_disk_usable store d plan active :
  usable store d = true → usable store (started_disk store d plan active) = true.
Proof. intros. unfold started_disk. auto 10 with written. Qed.

Theorem start_iteration_selected store config d tr lg plan t pre post :
  ready store d plan → selected plan t pre post →
  let plan_a := plan_after plan (id_of t) "active" in
  let active :=
    with_timeout (with_status t "active") (task_timeout_seconds config) in
  start_iteration store config
    {| w_disk := d; w_tracker := tr; w_log := lg |}
  = (Ok (Some (plan_a, id_of t, active)),
     {| w_disk := started_disk store d plan_a active;
        w_tracker := tr; w_log := lg |}).
Proof.
  intros Hr Hsel plan_a active. pose proof Hr as [Hu Hidle _ Hp].
  destruct (activate_task_selected plan t pre post
              (task_timeout_seconds config) Hp Hsel) as [Hact Hactive].
  destruct (plan_after_plan plan (id_of t) "active" Hp eq_refl) as [Hpa _].
  unfold start_iteration.
  advance reflexivity. rewrite Hidle.
  advance reflexivity.
  advance_disk (by apply ensure_plan_ready).
  advance (by apply lift_ok, (selected_select plan t pre post)).
  advance (apply lift_ok, task_id_of_ok; by destruct Hsel).
  advance (by apply lift_ok).
  advance_disk (by apply write_plan_done).
  advance_disk (apply planner_write_progress_done; auto with written).
  advance_disk (apply write_active_task_done; auto with written).
  reflexivity.
Qed.

(** *** The summary *)

Lemma read_text_file d p content :
  d !! key p = Some (File content) →
  _read_text p d = (Ok (universal_newlines content), d).
Proof. intros H. unfold _read_text. by rewrite H. Qed.

Lemma append_summary_done store d entry :
  usable store d = true →
  ∃ content,
    append_summary store entry d
    = (Ok tt, <[key (summary_path store) := File content]> d).
Proof.
  intros Hu. unfold append_summary.
  erewrite bind_ok; [cbv beta|reflexivity].
  pose proof (proj1 (usable_spec store d) Hu) as [_ Hat].
  destruct (Hat _ (in_written_summary store)) as [_ _ Hnd].
  match goal with
  | |- ∃ c, (?m ≫= _) d = _ =>
      assert (∃ content, m d = (Ok content, d)) as [content Hm]
  end.
  { unfold exists_.
    destruct (d !! key (summary_path store)) as [[|existing]|] eqn:E;
      [done| |]; cbn [negb]; cbv iota; [|by eexists].
    erewrite bind_ok; [cbv beta|];
      [|unfold load_summary, exists_; rewrite E;
        by apply read_text_file].
    destruct (is_empty (strip (universal_newlines existing))); by eexists. }
  erewrite bind_ok; [cbv beta|exact Hm].
  eexists. by apply write_summary_done.
Qed.

Lemma is_agent_result_fields payload :
  is_agent_result payload = true →
  ∃ files tests notes,
    get_default payload "files_changed" (JList []) = Ok (JList files)
    ∧ get_default payload "tests_run" (JList []) = Ok (JList tests)
    ∧ get_default payload "notes" (JStr EmptyString) = Ok (JStr notes)
    ∧ is_dict payload = true.
Proof.
  destruct payload as [| | | | |d]; try done. simpl.
  rewrite !andb_true_iff. intros ((((_ & _) & Hf) & Ht) & Hn).
  unfold field_is in *.
  destruct (dict_get "files_changed" d) as [[]|]; try done.
  destruct (dict_get "tests_run" d) as [[]|]; try done.
  destruct (dict_get "notes" d) as [[]|]; try done.
  simpl. eauto 10.
Qed.

Lemma daemon_append_summary_done store d id status payload :
  usable store d = true → is_agent_result payload = true →
  ∃ content,
    _append_summary store id status payload d
    = (Ok tt, <[key (summary_path store) := File content]> d).
Proof.
  intros Hu Hr. unfold _append_summary.
  destruct (is_agent_result_fields payload Hr)
    as (files & tests & notes & -> & -> & -> & _).
  erewrite bind_ok; [cbv beta|reflexivity].
  erewrite bind_ok; [cbv beta|reflexivity].
  erewrite bind_ok; [cbv beta|reflexivity].
  erewrite bind_ok; [cbv beta|reflexivity].
  erewrite bind_ok; [cbv beta|reflexivity].
  erewrite bind_ok; [cbv beta|reflexivity].
  by apply append_summary_done.
Qed.

(** *** A task in its place in a plan *)

Lemma selected_placed plan t pre post :
  is_plan plan = true → selected plan t pre post →
  placed plan (id_of t) t pre post.
Proof. intros Hp []. by split. Qed.

Lemma placed_task plan id u pre post :
  placed plan id u pre post → is_task u = true.
Proof.
  intros [Hp Heq _ _]. pose proof (is_plan_tasks plan Hp) as Hts.
  rewrite Heq in Hts. apply Forall_app in Hts as [_ Hts].
  by apply Forall_cons in Hts as [? _].
Qed.

Lemma plan_after_placed plan id u pre post s :
  placed plan id u pre post → mem s TASK_STATUSES = true →
  set_status plan id s = Ok (plan_after plan id s, with_status u s)
  ∧ placed (plan_after plan id s) id (with_status u s) pre post.
Proof.
  intros Hpl Hs. pose proof Hpl as [Hp Heq Hpre Hid].
  destruct (plan_after_plan plan id s Hp Hs) as [Hp' Ht'].
  assert (set_first (tasks_of plan) id s = pre ++ with_status u s :: post)
    as Hsf by (rewrite Heq; by apply set_first_split).
  split.
  - unfold plan_after. rewrite Hsf. by apply set_status_ok.
  - split; [done|by rewrite Ht'|done|by rewrite id_of_with_status].
Qed.

Lemma status_in_placed plan id u pre post :
  placed plan id u pre post → status_in plan id = Some (status_of u).
Proof.
  intros [_ Heq Hpre Hid]. unfold status_in, find_task. rewrite Heq.
  clear Heq. induction Hpre as [|v pre Hv Hpre IH]; simpl.
  - by rewrite Hid, String.eqb_refl.
  - apply String.eqb_neq in Hv. by rewrite Hv.
Qed.

(** *** The second half of a pass *)

Lemma parse_response_dict line payload :
  mcp_client._parse_response line = Ok payload → is_dict payload = true.
Proof.
  unfold mcp_client._parse_response. destruct (is_empty line); [done|].
  destruct (Json.loads line) as [data|]; [|done].
  destruct (is_dict data) eqn:E; simpl; [|done]. by intros [= <-].
Qed.

Lemma run_task_answers executor request line err payload :
  is_dict request = true →
  0 <= mcp_client.startup_timeout_seconds executor →
  mcp_client._parse_response line = Ok payload →
  mcp_client.run_task executor request (mcp_client.Answers line err)
  = Ok {| mcp_client.payload := payload; mcp_client.stderr := err |}.
Proof.
  intros Hd Hs Hl. unfold mcp_client.run_task. rewrite Hd. simpl.
  destruct (Z.ltb_spec (mcp_client.startup_timeout_seconds executor) 0);
    [lia|]. by rewrite Hl.
Qed.

Lemma stderr_logged err w :
  (if negb (is_empty (strip err))
   then logger "WARNING" ("MCP stderr: " +:+ strip err)
   else mret tt) w
  = (Ok tt, {| w_disk := w_disk w; w_tracker := w_tracker w;
               w_log := w_log w ++ stderr_log err |}).
Proof.
  unfold stderr_log. destruct (negb (is_empty (strip err))); [done|].
  destruct w. simpl. by rewrite app_nil_r.
Qed.

Tactic Notation "halt" tactic(tac) :=
  erewrite bind_err; [reflexivity|solve [tac]].

(** The pass up to the point where the result is stored. *)
Ltac to_stored_result Hans :=
  let Hcmd := fresh "Hcmd" in
  let Hstart := fresh "Hstart" in
  let Hline := fresh "Hline" in
  pose proof Hans as [Hcmd Hstart Hline];
  unfold finish_iteration;
  (advance (apply lift_ok; unfold mcp_client.MCPClient_init;
            by rewrite Hcmd));
  (erewrite run_task_answers; [|done|done|exact Hline]);
  (advance (by apply lift_ok));
  cbn [mcp_client.payload mcp_client.stderr];
  (advance_disk (by apply clear_active_task_done));
  (advance (apply stderr_logged));
  cbn [w_disk w_tracker w_log].

Section Finish.
Context (store : StateStore) (config : Config) (project_root : Path).
Context (d : disk) (tr : watchdog.RetryTracker).
Context (lg : list (string * string)).
Context (plan : json) (id : string) (active : json).
Context (line err : string) (payload : json).
Hypothesis Hu : usable store d = true.
Hypothesis Hans : answering config line payload.

Let w : World := {| w_disk := d; w_tracker := tr; w_log := lg |}.
Let finish :=
  finish_iteration store config project_root plan id active
    (mcp_client.Answers line err) w.

(** Strict validation refuses the result: the pass ends there, the
    active task file cleared and nothing else written. *)
Lemma finish_invalid :
  strict_schema_validation store = true →
  is_agent_result payload = false →
  ∃ msg,
    finish
    = (Err (StateValidationError msg),
       {| w_disk := delete (key (active_task_path store)) d;
          w_tracker := tr; w_log := lg ++ stderr_log err |}).
Proof.
  intros Hstrict Hbad. subst finish w.
  pose proof (SchemaFacts.validate_codex_result_agrees payload) as Hag.
  rewrite Hbad in Hag.
  destruct (_validate_codex_result payload) as [|e] eqn:Ev; [done|].
  destruct e; try done. exists msg.
  to_stored_result Hans.
  halt (apply on_disk_err; cbn [w_disk]; unfold write_last_result;
        rewrite Hstrict; erewrite bind_err; [reflexivity|];
        unfold lift; by rewrite Ev).
Qed.

Hypothesis Hvalid :
  strict_schema_validation store = true → is_agent_result payload = true.

Let stored : World :=
  {| w_disk := answered_disk store d payload; w_tracker := tr;
     w_log := lg ++ stderr_log err |}.

Lemma answered_disk_usable : usable store (answered_disk store d payload) = true.
Proof. unfold answered_disk. auto with written. Qed.

(** The policy enforcer refuses the changes. *)
Lemma finish_policy_violation files e :
  get_default payload "files_changed" (JList []) = Ok files →
  policies.assert_no_forbidden_changes files project_root
    (design_dir store) (ai_dir store) = Err e →
  finish = (Err e, stored).
Proof.
  intros Hfiles Hpol. subst finish w stored.
  pose proof (parse_response_dict _ _ (answering_line _ _ _ Hans)).
  to_stored_result Hans.
  advance_disk (apply write_last_result_done; auto with written).
  advance (by apply lift_ok).
  halt (unfold lift; by rewrite Hpol).
Qed.

Hypothesis Hfiles :
  ∃ files,
    get_default payload "files_changed" (JList []) = Ok files
    ∧ policies.assert_no_forbidden_changes files project_root
        (design_dir store) (ai_dir store) = Ok tt.

(** A status that is none of the three. *)
Lemma finish_unexpected status :
  get payload "status" = Ok status →
  eq_str status "success" = false → eq_str status "blocked" = false →
  eq_str status "failed" = false →
  finish
  = (Err (StopExecution ("Unexpected Codex status: " +:+ str status)),
     stored).
Proof.
  intros Hst H1 H2 H3. subst finish w stored.
  destruct Hfiles as (files & Hf & Hpol).
  pose proof (parse_response_dict _ _ (answering_line _ _ _ Hans)).
  to_stored_result Hans.
  advance_disk (apply write_last_result_done; auto with written).
  advance (by apply lift_ok).
  advance (by apply lift_ok).
  advance (by apply lift_ok).
  by rewrite H1, H2, H3.
Qed.

Hypothesis Hfailed : get payload "status" = Ok (JStr "failed").
Hypothesis Hresult : is_agent_result payload = true.

Let tr' := watchdog.record_failure tr id.

(** The failure reaches the ceiling of consecutive failures. *)
Lemma finish_failed_ceiling :
  watchdog.too_many_consecutive_failures tr' = true →
  finish
  = (Err (StopExecution "Max consecutive failures reached."),
     {| w_disk := answered_disk store d payload; w_tracker := tr';
        w_log := lg ++ stderr_log err |}).
Proof.
  intros Hceil. subst finish w stored tr'.
  destruct Hfiles as (files & Hf & Hpol).
  pose proof (parse_response_dict _ _ (answering_line _ _ _ Hans)).
  to_stored_result Hans.
  advance_disk (apply write_last_result_done; auto with written).
  advance (by apply lift_ok).
  advance (by apply lift_ok).
  advance (by apply lift_ok).
  cbn [eq_str String.eqb Ascii.eqb Bool.eqb]. cbv iota.
  advance reflexivity. advance reflexivity.
  by rewrite Hceil.
Qed.

Context (u : json) (pre post : list json).
Hypothesis Hplaced : placed plan id u pre post.

(** The failure is below the ceiling and the task has attempts left, or
    has none: the task takes the status [s], the three files are
    written. *)
Lemma finish_failed_settled (s : string) :
  mem s TASK_STATUSES = true →
  watchdog.too_many_consecutive_failures tr' = false →
  ∃ summary,
    let w' :=
      {| w_disk :=
           settled_disk store (answered_disk store d payload)
             (plan_after plan id s) summary;
         w_tracker := tr'; w_log := lg ++ stderr_log err |} in
    (watchdog.can_retry tr' id = true → s = "pending" →
     finish = (Ok tt, w'))
    ∧ (watchdog.can_retry tr' id = false → s = "failed" →
       finish = (Err (StopExecution "Task failed more than once."), w')).
Proof.
  intros Hs Hceil.
  destruct (plan_after_placed plan id u pre post s Hplaced Hs)
    as [Hset [Hp' _ _ _]].
  pose proof answered_disk_usable as Hu1.
  assert (usable store
            (<[key (progress_path store) :=
                 File (progress_text (plan_after plan id s))]>
               (<[key (plan_path store) :=
                    File (text_of (plan_after plan id s))]>
                  (answered_disk store d payload))) = true) as Hu2
    by auto with written.
  destruct (daemon_append_summary_done store _ id "failed" payload
              Hu2 Hresult) as [summary Hsum].
  exists summary. cbv zeta. subst finish w stored tr'.
  destruct Hfiles as (files & Hf & Hpol).
  pose proof (parse_response_dict _ _ (answering_line _ _ _ Hans)).
  split; intros Hretry ->.
  - to_stored_result Hans.
    advance_disk (apply write_last_result_done; auto with written).
    advance (by apply lift_ok).
    advance (by apply lift_ok).
    advance (by apply lift_ok).
    cbn [eq_str String.eqb Ascii.eqb Bool.eqb]. cbv iota.
    advance reflexivity. advance reflexivity.
    rewrite Hceil, Hretry.
    advance (apply lift_ok; unfold reset_task_for_retry;
             by rewrite Hset).
    advance_disk (by apply write_plan_done).
    advance_disk (apply planner_write_progress_done; auto with written).
    unfold settled_disk. by apply on_disk_ok.
  - to_stored_result Hans.
    advance_disk (apply write_last_result_done; auto with written).
    advance (by apply lift_ok).
    advance (by apply lift_ok).
    advance (by apply lift_ok).
    cbn [eq_str String.eqb Ascii.eqb Bool.eqb]. cbv iota.
    advance reflexivity. advance reflexivity.
    rewrite Hceil, Hretry.
    advance (apply lift_ok; unfold finalize_task; by rewrite Hset).
    advance_disk (by apply write_plan_done).
    advance_disk (apply planner_write_progress_done; auto with written).
    advance_disk (exact Hsum).
    reflexivity.
Qed.
End Finish.
End LoopFacts.

(** ** From one pass to the next *)

Module RunFacts.
Import Py pathlib fs state schema view effect outcome scanning layout.
Import planner daemon.
Import DictFacts PlanFacts SelectFacts MutationFacts JsonRoundTrip.
Import StoreFacts SelectedFacts LoopFacts.
Import shape.

(** *** The five files are five different files *)

Ltac index_of p :=
  lazymatch p with
  | plan_path _ => constr:(0%nat)
  | active_task_path _ => constr:(1%nat)
  | summary_path _ => constr:(2%nat)
  | last_result_path _ => constr:(3%nat)
  | progress_path _ => constr:(4%nat)
  end.

Ltac keys_ne Hu :=
  lazymatch goal with
  | |- key ?p ≠ key ?q =>
      let i := index_of p in
      let j := index_of q in
      apply (usable_keys_ne _ _ i j p q Hu); [reflexivity|reflexivity|done]
  end.

Lemma answered_disk_idle store d payload :
  usable store d = true →
  exists_ (answered_disk store d payload) (active_task_path store) = false.
Proof.
  intros Hu. unfold exists_, answered_disk.
  rewrite lookup_insert_ne by keys_ne Hu. by rewrite lookup_delete_eq.
Qed.

Lemma answered_disk_plan store d payload :
  usable store d = true →
  answered_disk store d payload !! key (plan_path store)
  = d !! key (plan_path store).
Proof.
  intros Hu. unfold answered_disk.
  rewrite lookup_insert_ne by keys_ne Hu.
  by rewrite lookup_delete_ne by keys_ne Hu.
Qed.

Lemma started_disk_plan store d plan active :
  usable store d = true →
  started_disk store d plan active !! key (plan_path store)
  = Some (File (text_of plan)).
Proof.
  intros Hu. unfold started_disk.
  rewrite !lookup_insert_ne by keys_ne Hu. by rewrite lookup_insert_eq.
Qed.

Lemma settled_disk_plan store d plan summary :
  usable store d = true →
  settled_disk store d plan summary !! key (plan_path store)
  = Some (File (text_of plan)).
Proof.
  intros Hu. unfold settled_disk.
  rewrite !lookup_insert_ne by keys_ne Hu. by rewrite lookup_insert_eq.
Qed.

Lemma settled_disk_idle store d plan summary :
  usable store d = true →
  exists_ (settled_disk store d plan summary) (active_task_path store)
  = exists_ d (active_task_path store).
Proof.
  intros Hu. unfold exists_, settled_disk.
  by rewrite !lookup_insert_ne by keys_ne Hu.
Qed.

Lemma settled_disk_usable store d plan summary :
  usable store d = true →
  usable store (settled_disk store d plan summary) = true.
Proof. intros. unfold settled_disk. auto 10 with written. Qed.

(** *** What the plan file holds *)

Lemma persisted_plan_text store d plan :
  d !! key (plan_path store) = Some (File (text_of plan)) →
  well_formed plan = true → persisted_plan store d = Some plan.
Proof.
  intros Hf Hwf. unfold persisted_plan. rewrite Hf.
  by apply loads_dumps_newline.
Qed.

Lemma persisted_status_placed store d plan id u pre post :
  persisted_plan store d = Some plan → placed plan id u pre post →
  persisted_status store d id = Some (status_of u).
Proof.
  intros Hp Hpl. unfold persisted_status. rewrite Hp. simpl.
  by apply (status_in_placed plan id u pre post).
Qed.

(** *** The plan with the selected task active *)

Lemma find_task_set_first tasks id s dep :
  find_task (set_first tasks id s) dep
  = (fun u => if String.eqb dep id then with_status u s else u)
      <$> find_task tasks dep.
Proof.
  unfold find_task. induction tasks as [|u tasks IH]; simpl; [done|].
  destruct (String.eqb_spec (id_of u) id) as [Hid|Hid]; simpl.
  - rewrite id_of_with_status.
    destruct (String.eqb_spec (id_of u) dep) as [Hdep|Hdep]; simpl.
    + subst. by rewrite String.eqb_refl.
    + destruct (find _ tasks) as [v|]; simpl; [|done].
      destruct (String.eqb_spec dep id); [congruence|done].
  - destruct (String.eqb_spec (id_of u) dep) as [Hdep|Hdep]; simpl.
    + destruct (String.eqb_spec dep id); [congruence|done].
    + apply IH.
Qed.

Lemma status_not_done u s :
  status_of u ≠ "done" → s ≠ "done" → status_of (with_status u s) ≠ "done".
Proof.
  destruct u as [| | | | |d]; try done. intros _ Hs.
  unfold status_of. simpl. by rewrite dict_get_set_eq.
Qed.

Lemma deps_verdict_set_first tasks id s deps :
  (∀ u, find_task tasks id = Some u → status_of u ≠ "done") →
  s ≠ "done" →
  deps_verdict (set_first tasks id s) deps = deps_verdict tasks deps.
Proof.
  intros Hu Hs. induction deps as [|dep deps IH]; simpl; [done|].
  rewrite find_task_set_first.
  destruct (find_task tasks dep) as [u|] eqn:E; simpl; [|done].
  destruct (String.eqb_spec dep id) as [->|_]; [|by rewrite IH].
  apply Hu in E. pose proof (status_not_done u s E Hs) as E'.
  apply String.eqb_neq in E, E'. by rewrite E, E'.
Qed.

Lemma ids_set_first tasks id s :
  map id_of (set_first tasks id s) = map id_of tasks.
Proof.
  induction tasks as [|u tasks IH]; simpl; [done|].
  destruct (String.eqb (id_of u) id); simpl.
  - by rewrite id_of_with_status.
  - by rewrite IH.
Qed.

Lemma unique_ids_ids tasks tasks' :
  map id_of tasks = map id_of tasks' →
  unique_ids tasks = unique_ids tasks'.
Proof.
  intros H. unfold unique_ids. rewrite H. f_equal.
  revert tasks' H. induction tasks as [|u tasks IH]; intros [|u' tasks'];
    simpl; try done.
  intros [= -> H]. by rewrite (IH _ H).
Qed.

Theorem select_active plan t pre post :
  is_plan plan = true → selected plan t pre post →
  select_next_task (plan_after plan (id_of t) "active")
  = Err (PlannerError
           "Plan contains an active task without execution context.").
Proof.
  intros Hp Hsel. pose proof Hsel as [].
  destruct (plan_after_plan plan (id_of t) "active" Hp eq_refl)
    as [Hp' Ht'].
  rewrite select_next_task_scan; [|done|].
  - rewrite Ht'. rewrite sel_tasks0 at 2.
    rewrite (set_first_split pre t post) by done.
    rewrite scan_goes_past.
    + simpl. destruct (with_status_task t "active" sel_task0 eq_refl)
        as (_ & _ & _ & _ & Hst & _).
      unfold has_status. by rewrite Hst.
    + eapply Forall_impl; [exact sel_pre0|]. intros u [Ha Hd].
      split; [done|]. rewrite deps_verdict_set_first; [done| |done].
      intros v Hv. rewrite (find_task_selected plan t pre post Hsel) in Hv.
      injection Hv as <-. by rewrite sel_pending0.
  - rewrite Ht'.
    by rewrite (unique_ids_ids _ (tasks_of plan)) by apply ids_set_first.
Qed.

(** *** The plan with the selected task back to pending *)

Theorem selected_again plan t pre post :
  is_plan plan = true → selected plan t pre post →
  is_plan (retried plan (id_of t)) = true
  ∧ tasks_of (retried plan (id_of t)) = tasks_of plan
  ∧ selected (retried plan (id_of t)) t pre post.
Proof.
  intros Hp Hsel. unfold retried.
  destruct (plan_after_plan plan (id_of t) "active" Hp eq_refl)
    as [Hp1 Ht1].
  destruct (plan_after_plan _ (id_of t) "pending" Hp1 eq_refl)
    as [Hp2 Ht2].
  assert (tasks_of (plan_after (plan_after plan (id_of t) "active")
                      (id_of t) "pending") = tasks_of plan) as Heq.
  { rewrite Ht2, Ht1. apply set_first_back; [by apply is_plan_tasks|].
    intros v Hv. rewrite (find_task_selected plan t pre post Hsel) in Hv.
    injection Hv as <-. by destruct Hsel. }
  split; [done|]. split; [done|].
  destruct Hsel. split; rewrite ?Heq; done.
Qed.

(** *** The loop, pass by pass *)

Lemma run_loop_iteration store config project_root x agent w :
  _run_loop store config project_root (x :: agent) w
  = (go_on ← iteration store config project_root x;
     if go_on : bool then _run_loop store config project_root agent
     else mret Returned) w.
Proof.
  simpl. unfold iteration, mbind, M_bind, mret, M_ret.
  destruct (start_iteration store config w) as [[[[[p id] a]|]|e] w1];
    try done.
  by destruct (finish_iteration _ _ _ _ _ _ _ w1) as [[[]|e] w2].
Qed.

Lemma iteration_started store config project_root x w plan id active w1 :
  start_iteration store config w = (Ok (Some (plan, id, active)), w1) →
  iteration store config project_root x w
  = (finish_iteration store config project_root plan id active x;;
     mret true) w1.
Proof.
  intros H. unfold iteration. erewrite bind_ok; [|exact H]. reflexivity.
Qed.

Lemma policy_verdict_ok store project_root payload :
  policy_verdict store project_root payload = Ok tt →
  ∃ files,
    get_default payload "files_changed" (JList []) = Ok files
    ∧ policies.assert_no_forbidden_changes files project_root
        (design_dir store) (ai_dir store) = Ok tt.
Proof.
  unfold policy_verdict.
  destruct (get_default payload "files_changed" (JList [])) as [files|];
    [|done]. simpl. eauto.
Qed.

(** *** A pass on the selected task *)

Section Pass.
Context (store : StateStore) (config : Config) (project_root : Path).
Context (d : disk) (tr : watchdog.RetryTracker).
Context (lg : list (string * string)).
Context (plan t : json) (pre post : list json).
Context (line err : string) (payload : json).
Hypothesis Hr : ready store d plan.
Hypothesis Hsel : selected plan t pre post.
Hypothesis Hans : answering config line payload.

Let plan_a := plan_after plan (id_of t) "active".
Let active :=
  with_timeout (with_status t "active") (task_timeout_seconds config).
Let d1 := started_disk store d plan_a active.
Let pass :=
  iteration store config project_root (mcp_client.Answers line err)
    {| w_disk := d; w_tracker := tr; w_log := lg |}.

Lemma pass_started :
  pass
  = (finish_iteration store config project_root plan_a (id_of t) active
       (mcp_client.Answers line err);; mret true)
      {| w_disk := d1; w_tracker := tr; w_log := lg |}.
Proof.
  subst pass. apply iteration_started.
  by apply (start_iteration_selected _ _ _ _ _ plan t pre post).
Qed.

Lemma started_usable : usable store d1 = true.
Proof. apply started_disk_usable. by destruct Hr. Qed.

Lemma placed_active :
  placed plan_a (id_of t) (with_status t "active") pre post.
Proof.
  destruct Hr as [_ _ _ Hp].
  by apply (plan_after_placed plan (id_of t) t pre post "active");
    [apply selected_placed|].
Qed.

Lemma status_after s :
  mem s TASK_STATUSES = true →
  status_of (with_status (with_status t "active") s) = s.
Proof.
  intros Hs. rewrite with_status_twice.
  destruct Hsel. by destruct (with_status_task t s)
    as (_ & _ & _ & _ & ? & _).
Qed.

(** The active task file is gone and the plan file still has the task
    as active. *)
Lemma answered_state (d' : disk) :
  d' !! key (plan_path store) = d1 !! key (plan_path store) →
  persisted_plan store d' = Some plan_a
  ∧ persisted_status store d' (id_of t) = Some "active".
Proof.
  intros Hd'. pose proof Hr as [Hu _ _ Hp].
  assert (persisted_plan store d' = Some plan_a) as Hpp.
  { apply persisted_plan_text.
    - rewrite Hd'. by apply started_disk_plan.
    - apply well_formed_plan_after.
      by apply (ready_well_formed store d). }
  split; [done|].
  rewrite (persisted_status_placed store d' plan_a (id_of t) _ pre post
             Hpp placed_active).
  destruct Hsel. by destruct (with_status_task t "active")
    as (_ & _ & _ & _ & -> & _).
Qed.

Lemma cleared_idle :
  exists_ (delete (key (active_task_path store)) d1)
    (active_task_path store) = false.
Proof. unfold exists_. by rewrite lookup_delete_eq. Qed.

Lemma cleared_plan :
  delete (key (active_task_path store)) d1 !! key (plan_path store)
  = d1 !! key (plan_path store).
Proof.
  pose proof started_usable as Hu1.
  by rewrite lookup_delete_ne by keys_ne Hu1.
Qed.

Lemma answered_summary :
  exists_ (answered_disk store d1 payload) (active_task_path store)
  = false
  ∧ persisted_plan store (answered_disk store d1 payload) = Some plan_a
  ∧ persisted_status store (answered_disk store d1 payload) (id_of t)
    = Some "active".
Proof.
  pose proof started_usable as Hu1.
  split; [by apply answered_disk_idle|].
  apply answered_state. by apply answered_disk_plan.
Qed.

Lemma cleared_summary :
  exists_ (delete (key (active_task_path store)) d1)
    (active_task_path store) = false
  ∧ persisted_status store (delete (key (active_task_path store)) d1)
      (id_of t) = Some "active"
  ∧ delete (key (active_task_path store)) d1
      !! key (last_result_path store)
    = d !! key (last_result_path store).
Proof.
  pose proof started_usable as Hu1.
  split; [apply cleared_idle|]. split.
  - apply answered_state, cleared_plan.
  - rewrite lookup_delete_ne by keys_ne Hu1. subst d1.
    unfold started_disk. by rewrite !lookup_insert_ne by keys_ne Hu1.
Qed.

Theorem pass_invalid :
  strict_schema_validation store = true →
  is_agent_result payload = false →
  ∃ msg,
    pass
    = (Err (StateValidationError msg),
       {| w_disk := delete (key (active_task_path store)) d1;
          w_tracker := tr; w_log := lg ++ stderr_log err |}).
Proof.
  intros Hstrict Hbad. rewrite pass_started.
  destruct (finish_invalid store config project_root d1 tr lg plan_a
              (id_of t) active line err payload started_usable Hans
              Hstrict Hbad) as [msg Hf].
  exists msg. by erewrite bind_err.
Qed.

Hypothesis Hvalid :
  strict_schema_validation store = true → is_agent_result payload = true.

Theorem pass_policy_violation e :
  policy_verdict store project_root payload = Err e →
  pass
  = (Err e,
     {| w_disk := answered_disk store d1 payload; w_tracker := tr;
        w_log := lg ++ stderr_log err |}).
Proof.
  intros Hpol. rewrite pass_started. unfold policy_verdict in Hpol.
  pose proof (parse_response_dict _ _ (answering_line _ _ _ Hans)) as Hd.
  destruct payload as [| | | | |fields]; try done.
  erewrite bind_err; [reflexivity|].
  by eapply finish_policy_violation; try apply started_usable.
Qed.

Hypothesis Hpolicy : policy_verdict store project_root payload = Ok tt.

Theorem pass_unexpected status :
  get payload "status" = Ok status →
  eq_str status "success" = false → eq_str status "blocked" = false →
  eq_str status "failed" = false →
  pass
  = (Err (StopExecution ("Unexpected Codex status: " +:+ str status)),
     {| w_disk := answered_disk store d1 payload; w_tracker := tr;
        w_log := lg ++ stderr_log err |}).
Proof.
  intros Hst H1 H2 H3. rewrite pass_started.
  erewrite bind_err; [reflexivity|].
  apply finish_unexpected; try done; try apply started_usable.
  by apply policy_verdict_ok.
Qed.

Hypothesis Hfailed : get payload "status" = Ok (JStr "failed").
Hypothesis Hresult : is_agent_result payload = true.

Let tr' := watchdog.record_failure tr (id_of t).

Theorem pass_failed_ceiling :
  watchdog.too_many_consecutive_failures tr' = true →
  pass
  = (Err (StopExecution "Max consecutive failures reached."),
     {| w_disk := answered_disk store d1 payload; w_tracker := tr';
        w_log := lg ++ stderr_log err |}).
Proof.
  intros Hceil. rewrite pass_started.
  erewrite bind_err; [reflexivity|].
  apply finish_failed_ceiling; try done; try apply started_usable.
  by apply policy_verdict_ok.
Qed.

Lemma settled_state s summary :
  mem s TASK_STATUSES = true →
  let d' :=
    settled_disk store (answered_disk store d1 payload)
      (plan_after plan_a (id_of t) s) summary in
  usable store d' = true
  ∧ exists_ d' (active_task_path store) = false
  ∧ d' !! key (plan_path store)
    = Some (File (text_of (plan_after plan_a (id_of t) s)))
  ∧ persisted_plan store d' = Some (plan_after plan_a (id_of t) s)
  ∧ persisted_status store d' (id_of t) = Some s.
Proof.
  intros Hs d'. pose proof started_usable as Hu1.
  assert (usable store (answered_disk store d1 payload) = true) as Hu2
    by by apply answered_disk_usable.
  assert (d' !! key (plan_path store)
          = Some (File (text_of (plan_after plan_a (id_of t) s))))
    as Hfile by by apply settled_disk_plan.
  assert (persisted_plan store d' = Some (plan_after plan_a (id_of t) s))
    as Hpp.
  { apply persisted_plan_text; [done|].
    do 2 apply well_formed_plan_after.
    by apply (ready_well_formed store d). }
  split; [by apply settled_disk_usable|]. split; [|split; [done|split]].
  - subst d'. rewrite settled_disk_idle by done.
    by apply answered_disk_idle.
  - done.
  - destruct (plan_after_placed plan_a (id_of t) _ pre post s
                placed_active Hs) as [_ Hpl].
    rewrite (persisted_status_placed store d' _ (id_of t) _ pre post
               Hpp Hpl).
    by rewrite status_after.
Qed.

Theorem pass_failed_retry :
  watchdog.too_many_consecutive_failures tr' = false →
  watchdog.can_retry tr' (id_of t) = true →
  ∃ d',
    pass
    = (Ok true,
       {| w_disk := d'; w_tracker := tr';
          w_log := lg ++ stderr_log err |})
    ∧ ready store d' (retried plan (id_of t))
    ∧ persisted_status store d' (id_of t) = Some "pending".
Proof.
  intros Hceil Hretry.
  destruct (finish_failed_settled store config project_root d1 tr lg
              plan_a (id_of t) active line err payload started_usable
              Hans Hvalid (policy_verdict_ok _ _ _ Hpolicy) Hfailed
              Hresult (with_status t "active") pre post placed_active
              "pending" eq_refl Hceil) as (summary & Hgo & _).
  destruct (settled_state "pending" summary eq_refl)
    as (Hu' & Hidle & Hfile & Hpp & Hst).
  exists (settled_disk store (answered_disk store d1 payload)
            (plan_after plan_a (id_of t) "pending") summary).
  split; [|split].
  - rewrite pass_started. erewrite bind_ok; [|by apply Hgo].
    reflexivity.
  - split; [done|done| |].
    + eexists. split; [exact Hfile|]. apply loads_text_of.
      do 2 apply well_formed_plan_after.
      by apply (ready_well_formed store d).
    + destruct Hr as [_ _ _ Hp].
      by destruct (selected_again plan t pre post Hp Hsel) as [? _].
  - done.
Qed.

Theorem pass_failed_final :
  watchdog.too_many_consecutive_failures tr' = false →
  watchdog.can_retry tr' (id_of t) = false →
  ∃ d',
    pass
    = (Err (StopExecution "Task failed more than once."),
       {| w_disk := d'; w_tracker := tr';
          w_log := lg ++ stderr_log err |})
    ∧ exists_ d' (active_task_path store) = false
    ∧ persisted_status store d' (id_of t) = Some "failed".
Proof.
  intros Hceil Hretry.
  destruct (finish_failed_settled store config project_root d1 tr lg
              plan_a (id_of t) active line err payload started_usable
              Hans Hvalid (policy_verdict_ok _ _ _ Hpolicy) Hfailed
              Hresult (with_status t "active") pre post placed_active
              "failed" eq_refl Hceil) as (summary & _ & Hstop).
  destruct (settled_state "failed" summary eq_refl)
    as (Hu' & Hidle & Hfile & Hpp & Hst).
  exists (settled_disk store (answered_disk store d1 payload)
            (plan_after plan_a (id_of t) "failed") summary).
  split; [|split].
  - rewrite pass_started. erewrite bind_err; [|by apply Hstop].
    reflexivity.
  - done.
  - done.
Qed.
End Pass.

(** *** A plan file from which nothing can be selected *)

Lemma run_loop_select_error store config project_root agent d tr lg
    plan e :
  exists_ d (active_task_path store) = false →
  d !! key (plan_path store) = Some (File (text_of plan)) →
  well_formed plan = true → is_plan plan = true →
  select_next_task plan = Err e →
  _run_loop store config project_root agent
    {| w_disk := d; w_tracker := tr; w_log := lg |}
  = (Err e, {| w_disk := d; w_tracker := tr; w_log := lg |}).
Proof.
  intros Hidle Hf Hwf Hp He.
  assert (start_iteration store config
            {| w_disk := d; w_tracker := tr; w_log := lg |}
          = (Err e, {| w_disk := d; w_tracker := tr; w_log := lg |}))
    as Hstart.
  { unfold start_iteration.
    advance reflexivity. rewrite Hidle.
    advance reflexivity.
    advance_disk (unfold ensure_plan, exists_; rewrite Hf;
                  apply (load_plan_done store d (text_of plan));
                  [done|by apply loads_text_of|done]).
    erewrite bind_err; [reflexivity|]. unfold lift. by rewrite He. }
  destruct agent; simpl; by erewrite bind_err.
Qed.

(** *** The limits of the tracker do not change *)

Lemma keeps_bind {A B} (m : M World A) (f : A → M World B) :
  keeps m → (∀ a, keeps (f a)) → keeps (m ≫= f).
Proof.
  intros Hm Hf w. unfold mbind, M_bind. specialize (Hm w).
  destruct (m w) as [[a|e] w1]; simpl in *; [|done].
  by rewrite Hf.
Qed.

Lemma keeps_ret {A} (a : A) : keeps (mret a).
Proof. done. Qed.

Lemma keeps_raise {A} e : keeps (@raise World A e).
Proof. done. Qed.

Lemma keeps_lift {A} (r : res A) : keeps (lift r).
Proof. done. Qed.

Lemma keeps_get_state : keeps get_state.
Proof. done. Qed.

Lemma keeps_tracker : keeps tracker.
Proof. done. Qed.

Lemma keeps_logger level msg : keeps (logger level msg).
Proof. done. Qed.

Lemma keeps_on_disk {A} (m : M disk A) : keeps (on_disk m).
Proof. intros w. unfold on_disk. by destruct (m (w_disk w)). Qed.

Lemma keeps_on_tracker f :
  (∀ t, limits (f t) = limits t) → keeps (on_tracker f).
Proof. intros Hf w. simpl. apply Hf. Qed.

Ltac keeps_step :=
  first
    [ apply keeps_bind; [|intros ?]
    | apply keeps_ret | apply keeps_raise | apply keeps_lift
    | apply keeps_get_state | apply keeps_tracker | apply keeps_logger
    | apply keeps_on_disk
    | apply keeps_on_tracker; intros ?; reflexivity
    | lazymatch goal with
      | |- keeps (match ?x with _ => _ end) => destruct x
      | |- keeps (let _ := ?x in _) => destruct x
      end ].

Lemma keeps_start store config : keeps (start_iteration store config).
Proof. unfold start_iteration. repeat keeps_step. Qed.

Lemma keeps_finish store config project_root plan id active x :
  keeps (finish_iteration store config project_root plan id active x).
Proof. unfold finish_iteration. repeat keeps_step. Qed.

Lemma keeps_run_loop store config project_root agent :
  keeps (_run_loop store config project_root agent).
Proof.
  induction agent as [|x agent IH]; simpl.
  - apply keeps_bind; [apply keeps_start|]. intros [[[p id] a]|]; done.
  - apply keeps_bind; [apply keeps_start|]. intros [[[p id] a]|]; [|done].
    apply keeps_bind; [apply keeps_finish|done].
Qed.

Lemma keeps_guarded_loop store config project_root agent :
  keeps (guarded_loop store config project_root agent).
Proof.
  intros w. unfold guarded_loop.
  pose proof (keeps_run_loop store config project_root agent w) as H.
  destruct (_run_loop store config project_root agent w) as [[r|e] w'];
    simpl in H; [done|].
  destruct e; simpl; done.
Qed.

Lemma run_entered store config project_root agent w :
  run store config project_root agent w
  = guarded_loop store config project_root agent (entered config w).
Proof.
  unfold run, entered, clamp_log.
  destruct (effective_max_retries config <? max_retries_per_task config).
  - reflexivity.
  - unfold mbind, M_bind, mret, M_ret, on_tracker. simpl.
    by rewrite app_nil_r.
Qed.

Theorem run_limits store config project_root agent w :
  limits (w_tracker (run store config project_root agent w).2)
  = (Z.min (max_retries_per_task config) 1,
     max_consecutive_failures config).
Proof. rewrite run_entered. by rewrite keeps_guarded_loop. Qed.

(** *** How [main] logs the end of the loop *)

Lemma guarded_stop store config project_root agent w msg w' :
  _run_loop store config project_root agent w
  = (Err (StopExecution msg), w') →
  guarded_loop store config project_root agent w
  = (Ok Returned,
     {| w_disk := w_disk w'; w_tracker := w_tracker w';
        w_log := w_log w'
                 ++ [("ERROR", "Execution stopped: " +:+ msg);
                     ("INFO", "Shepherd exiting.")] |}).
Proof.
  intros H. unfold guarded_loop. rewrite H.
  unfold mbind, M_bind, logger, mret, M_ret. simpl.
  by rewrite <- app_assoc.
Qed.

Lemma guarded_halt store config project_root agent w e w' :
  _run_loop store config project_root agent w = (Err e, w') →
  is_StateError e
  || match e with PlannerError _ | PolicyViolation _ => true | _ => false end
  = true →
  (∀ msg, e ≠ StopExecution msg) →
  guarded_loop store config project_root agent w
  = (Ok Returned,
     {| w_disk := w_disk w'; w_tracker := w_tracker w';
        w_log := w_log w'
                 ++ [("ERROR", "Execution halted: " +:+ exn_message e);
                     ("INFO", "Shepherd exiting.")] |}).
Proof.
  intros H He Hne. unfold guarded_loop. rewrite H.
  destruct e; try done; try (by destruct (Hne msg));
    unfold mbind, M_bind, logger, mret, M_ret; simpl;
    by rewrite <- app_assoc.
Qed.
End RunFacts.

(** ** The state store refuses what it must *)

Section StoreClaims.
Import Py pathlib fs state schema SchemaFacts.
Import refinement.

Lemma sample_store_init :
  StateStore_init sample.bare_disk sample.root "ai" "design" None true true
  = Ok sample.store.
Proof. reflexivity. Qed.

Lemma ensure_writable_read_only store path :
  is_read_only_path store path = true →
  ∃ msg, _ensure_writable_path path store = Err (ReadOnlyStateError msg).
Proof.
  unfold is_read_only_path, _ensure_writable_path. cbv zeta.
  destruct (bool_decide _); [eauto|]. intros ->. eauto.
Qed.

Lemma ensure_writable_unknown store path :
  is_read_only_path store path = false →
  is_writable_path store path = false →
  ∃ msg, _ensure_writable_path path store = Err (StateError msg).
Proof.
  unfold is_read_only_path, is_writable_path, _ensure_writable_path.
  cbv zeta. destruct (bool_decide (_ ∈ _read_only_paths store)); [done|].
  intros -> ->. simpl. eauto.
Qed.

Lemma write_refused (path : Path) (store : StateStore) (d : disk) e :
  _ensure_writable_path path store = Err e →
  (∀ content, _atomic_write_text path content store d = (Err e, d))
  ∧ (∀ data, is_dict data = true →
       _atomic_write_json path data store d = (Err e, d)).
Proof.
  intros He. split.
  - intros content. unfold _atomic_write_text. by rewrite He.
  - intros data Hd. unfold _atomic_write_json. by rewrite Hd, He.
Qed.

(** C6.  A write to a read-only path (the configuration, the goals, the
    sources, or anything under the design directory) raises
    [ReadOnlyStateError], and a write to a path that is neither read-only
    nor one of the writable files raises [StateError]; in both cases the
    disk is left as it was. *)
Theorem write_outside_writable_set_refused (store : StateStore)
    (path : Path) (d : disk) :
  (is_read_only_path store path = true →
   ∃ msg,
     (∀ content,
        _atomic_write_text path content store d
        = (Err (ReadOnlyStateError msg), d))
     ∧ (∀ data, is_dict data = true →
          _atomic_write_json path data store d
          = (Err (ReadOnlyStateError msg), d)))
  ∧ (is_read_only_path store path = false →
     is_writable_path store path = false →
     ∃ msg,
       (∀ content,
          _atomic_write_text path content store d = (Err (StateError msg), d))
       ∧ (∀ data, is_dict data = true →
            _atomic_write_json path data store d
            = (Err (StateError msg), d))).
Proof.
  split.
  - intros Hro. destruct (ensure_writable_read_only _ _ Hro) as [msg He].
    exists msg. by apply write_refused.
  - intros Hro Hw. destruct (ensure_writable_unknown _ _ Hro Hw) as [msg He].
    exists msg. by apply write_refused.
Qed.

Lemma write_outside_writable_set_refused_witness :
  (∃ msg, ∀ content,
      _atomic_write_text (join (design_dir sample.store) "spec.md") content
        sample.store (sample.disk_with sample.plan)
      = (Err (ReadOnlyStateError msg), sample.disk_with sample.plan))
  ∧ (∃ msg, ∀ content,
        _atomic_write_text (join sample.root "notes.txt") content
          sample.store (sample.disk_with sample.plan)
        = (Err (StateError msg), sample.disk_with sample.plan)).
Proof.
  split.
  - destruct (write_outside_writable_set_refused sample.store
                (join (design_dir sample.store) "spec.md")
                (sample.disk_with sample.plan)) as [H _].
    destruct (H eq_refl) as (msg & Ht & _). by exists msg.
  - destruct (write_outside_writable_set_refused sample.store
                (join sample.root "notes.txt")
                (sample.disk_with sample.plan)) as [_ H].
    destruct (H eq_refl eq_refl) as (msg & Ht & _). by exists msg.
Defined.

Lemma validated_write_refused (strict : bool) (r : res unit) (b : bool)
    (m : M disk unit) (d : disk) :
  strict = true → agrees r b → b = false →
  ∃ msg,
    ((if strict then lift r else mret tt);; m) d
    = (Err (StateValidationError msg), d).
Proof.
  intros -> Hr ->. apply agrees_err in Hr as [msg ->]. by exists msg.
Qed.

(** C7.  Under strict validation, [write_plan], [write_active_task] and
    [write_last_result] raise [StateValidationError] on a payload that
    does not have the shape of a plan, of an active task, of an agent
    result, and leave the disk as it was. *)
Theorem invalid_payload_write_refused (store : StateStore)
    (payload : json) (d : disk) :
  strict_schema_validation store = true →
  (is_plan payload = false →
   ∃ msg, write_plan store payload d = (Err (StateValidationError msg), d))
  ∧ (is_active_task payload = false →
     ∃ msg,
       write_active_task store payload d
       = (Err (StateValidationError msg), d))
  ∧ (is_agent_result payload = false →
     ∃ msg,
       write_last_result store payload d
       = (Err (StateValidationError msg), d)).
Proof.
  intros Hs. repeat split; intros Hb.
  - eapply validated_write_refused; [done | apply validate_plan_agrees | done].
  - eapply validated_write_refused;
      [done | apply validate_active_task_agrees | done].
  - eapply validated_write_refused;
      [done | apply validate_codex_result_agrees | done].
Qed.

Lemma invalid_payload_write_refused_witness :
  ∃ msg,
    write_plan sample.store (sample.plan_of [sample.task "t1" "paused" []])
      (sample.disk_with sample.plan)
    = (Err (StateValidationError msg), sample.disk_with sample.plan).
Proof.
  destruct (invalid_payload_write_refused sample.store
              (sample.plan_of [sample.task "t1" "paused" []])
              (sample.disk_with sample.plan) eq_refl) as [H _].
  apply H. reflexivity.
Defined.
End StoreClaims.

(** ** The progress file *)

Section ProgressClaims.
Import Py pathlib fs state.

Lemma atomic_write_bytes_ok (path : Path) (content : string)
    (d d' : disk) :
  _atomic_write_bytes path content d = (Ok tt, d') →
  d' = <[key path := File content]> d.
Proof.
  unfold _atomic_write_bytes.
  destruct (d !! key (parent path)) as [[]|]; try done.
  destruct (d !! key path) as [[]|]; try done; by intros [= <-].
Qed.

Lemma atomic_write_text_ok (path : Path) (content : string)
    (store : StateStore) (d d' : disk) :
  _atomic_write_text path content store d = (Ok tt, d') →
  d' = <[key path := File content]> d.
Proof.
  unfold _atomic_write_text. unfold mbind, M_bind, lift.
  destruct (_ensure_writable_path path store); [|done].
  unfold _ensure_parent_dir. destruct (negb _); [done|].
  apply atomic_write_bytes_ok.
Qed.

Lemma progress_of_shape plan progress :
  planner.progress_of plan = Ok progress →
  ∃ objectives tasks,
    progress = JObj [("objectives", JObj objectives); ("tasks", JObj tasks)].
Proof.
  unfold planner.progress_of. intros H.
  repeat match type of H with
    | (?m ≫= _) = Ok _ =>
        let E := fresh in destruct m eqn:E; [cbn [mbind res_bind] in H|done]
    end.
  injection H as <-. eauto.
Qed.

(** C10.  With no progress file on disk, [load_progress] returns the
    default text, [objectives: {}] and a newline.  That text is not a
    JSON document and the word [tasks] does not occur in it, whereas
    whatever [write_progress] writes is the text of a dictionary with
    exactly the keys [objectives] and [tasks], and so differs from it. *)
Theorem load_progress_default (store : StateStore) (d : disk) :
  exists_ d (progress_path store) = false →
  load_progress store d = (Ok DEFAULT_PROGRESS, d)
  ∧ DEFAULT_PROGRESS = "objectives: {}" +:+ newline
  ∧ Json.loads DEFAULT_PROGRESS = None
  ∧ String.index 0 "tasks" DEFAULT_PROGRESS = None
  ∧ ∀ (plan : json) (d0 d1 : disk),
      planner.write_progress store plan d0 = (Ok tt, d1) →
      ∃ objectives tasks text,
        text = planner._json_dump
                 (JObj [("objectives", JObj objectives);
                        ("tasks", JObj tasks)])
        ∧ d1 !! key (progress_path store) = Some (File text)
        ∧ text ≠ DEFAULT_PROGRESS.
Proof.
  intros Hno. split; [|split; [|split; [|split]]]; try reflexivity.
  - unfold load_progress. by rewrite Hno.
  - intros plan d0 d1. unfold planner.write_progress.
    unfold mbind at 1, M_bind, lift.
    destruct (planner.progress_of plan) as [progress|] eqn:Ep; [|done].
    destruct (progress_of_shape _ _ Ep) as (objectives & tasks & ->).
    intros Hw. apply atomic_write_text_ok in Hw as ->.
    eexists objectives, tasks, _. split; [reflexivity|]. split.
    + apply lookup_insert_eq.
    + discriminate.
Qed.

Lemma load_progress_default_witness :
  load_progress sample.store (sample.disk_with sample.plan)
  = (Ok ("objectives: {}" +:+ newline), sample.disk_with sample.plan).
Proof.
  apply (load_progress_default sample.store (sample.disk_with sample.plan)).
  reflexivity.
Defined.
End ProgressClaims.

(** ** The policy enforcer *)

Section PolicyClaims.
Import Py pathlib policies.
Import policy_rule.

#[local] Instance str_le_total : Total str_le.
Proof. intros a b. unfold str_le. apply String.leb_total. Qed.

Lemma sorted_Sorted (l : list string) : Sorted str_le (sorted l).
Proof. apply Sorted_merge_sort, _. Qed.

Lemma sorted_Permutation (l : list string) : sorted l ≡ₚ l.
Proof. apply merge_sort_Permutation. Qed.

(** *** Names that hold a NUL character *)

Lemma existsb_filter {A} (f keep : A → bool) (l : list A) :
  (∀ x, keep x = false → f x = false) →
  existsb f (List.filter keep l) = existsb f l.
Proof.
  intros H. induction l as [|x l IH]; simpl; [done|].
  destruct (keep x) eqn:E; simpl; rewrite IH; [done|].
  by rewrite (H x E).
Qed.

Lemma nul_split_slash (s : string) :
  existsb (contains_char "000") (split_slash s) = contains_char "000" s.
Proof.
  induction s as [|c s IH]; [done|]. cbn [split_slash contains_char].
  destruct (Ascii.eqb_spec c "/") as [->|Hc].
  - cbn [existsb contains_char]. by rewrite IH.
  - destruct (split_slash s) as [|h t]; cbn [existsb contains_char] in *.
    + rewrite <- IH. by rewrite !orb_false_r.
    + rewrite <- IH. by rewrite orb_assoc.
Qed.

Lemma has_nul_of_str (s : string) :
  has_nul (of_str s) = contains_char "000" s.
Proof.
  unfold has_nul, of_str. cbn [parts].
  rewrite existsb_filter; [apply nul_split_slash|].
  intros x. unfold keep_part. rewrite negb_false_iff, orb_true_iff.
  by intros [->%String.eqb_eq | ->%String.eqb_eq].
Qed.

Lemma existsb_rev' {A} (f : A → bool) (l : list A) :
  existsb f (rev l) = existsb f l.
Proof.
  induction l as [|x l IH]; simpl; [done|].
  rewrite existsb_app, IH. simpl. by rewrite orb_false_r, orb_comm.
Qed.

Lemma nul_normalize stack l :
  existsb (contains_char "000") stack = false →
  existsb (contains_char "000") l = false →
  existsb (contains_char "000") (normalize stack l) = false.
Proof.
  revert stack. induction l as [|x l IH]; intros stack Hs Hl; simpl.
  - rewrite existsb_rev'. exact Hs.
  - simpl in Hl. apply orb_false_iff in Hl as [Hx Hl].
    destruct (String.eqb x "..").
    + apply IH; [|done]. destruct stack as [|y stack]; [done|].
      simpl in Hs. by apply orb_false_iff in Hs as [_ Hs].
    + apply IH; [|done]. simpl. by rewrite Hx, Hs.
Qed.

Lemma has_nul_resolve (p : Path) :
  has_nul p = false → has_nul (resolve p) = false.
Proof. unfold has_nul, resolve. simpl. by apply nul_normalize. Qed.

Lemma has_nul_candidate root s :
  has_nul root = false →
  has_nul (if negb (is_absolute (of_str s))
           then joinpath (resolve root) (of_str s) else of_str s)
  = contains_char "000" s.
Proof.
  intros Hr. destruct (is_absolute (of_str s)) eqn:Ea; simpl.
  - apply has_nul_of_str.
  - unfold joinpath. rewrite Ea. unfold has_nul. cbn [parts].
    rewrite existsb_app. fold (has_nul (resolve root)).
    rewrite (has_nul_resolve root Hr). apply has_nul_of_str.
Qed.

(** *** The loop over the entries *)

Lemma is_forbidden_spec root design state entry :
  has_nul root = false → contains_char "000" entry = false →
  is_forbidden (resolve root) (resolve design) (resolve state) entry
  = Ok (forbidden root design state entry).
Proof.
  intros Hr He.
  unfold is_forbidden, resolve_path, resolve_checked. cbv zeta.
  rewrite (has_nul_candidate root entry Hr), He.
  unfold forbidden, resolution, _is_within. cbn [mbind res_bind].
  destruct (is_absolute (of_str entry)); simpl;
    by destruct (relative_to_ok _ (resolve design)),
         (relative_to_ok _ (resolve state)), (relative_to_ok _ (resolve root)).
Qed.

Lemma is_forbidden_nul root design state entry :
  has_nul root = false → contains_char "000" entry = true →
  is_forbidden (resolve root) (resolve design) (resolve state) entry
  = Err (ValueError "embedded null byte").
Proof.
  intros Hr He.
  unfold is_forbidden, resolve_path, resolve_checked. cbv zeta.
  by rewrite (has_nul_candidate root entry Hr), He.
Qed.

Lemma forbidden_loop_strings root design state names acc :
  has_nul root = false →
  Forall (fun s => contains_char "000" s = false) names →
  forbidden_loop (resolve root) (resolve design) (resolve state)
    (map JStr names) acc
  = Ok (acc ++ List.filter (forbidden root design state) names).
Proof.
  intros Hr Hn. revert acc.
  induction Hn as [|s names Hs _ IH]; intros acc; simpl.
  - by rewrite app_nil_r.
  - rewrite (is_forbidden_spec root design state s Hr Hs).
    cbn [mbind res_bind]. rewrite IH.
    destruct (forbidden root design state s); [|done].
    by rewrite <- app_assoc.
Qed.

Lemma resolvable_strings (l : list json) :
  Forall (fun v => resolvable v = true) l →
  ∃ names, l = map JStr names
           ∧ Forall (fun s => contains_char "000" s = false) names.
Proof.
  induction 1 as [|v l Hv _ (names & -> & Hn)].
  - by exists [].
  - destruct v as [| | |s| |]; try done. exists (s :: names).
    split; [done|]. constructor; [|done].
    by apply negb_true_iff in Hv.
Qed.

Lemma forbidden_loop_stops root design state pre x post acc :
  has_nul root = false →
  Forall (fun v => resolvable v = true) pre → resolvable x = false →
  forbidden_loop (resolve root) (resolve design) (resolve state)
    (pre ++ x :: post) acc
  = Err (if is_str x then ValueError "embedded null byte"
         else PolicyViolation "files_changed entries must be strings.").
Proof.
  intros Hr Hpre Hx. revert acc.
  induction Hpre as [|v pre Hv _ IH]; intros acc; simpl.
  - destruct x as [| | |s| |]; try done. simpl in Hx.
    apply negb_false_iff in Hx.
    by rewrite (is_forbidden_nul root design state s Hr Hx).
  - destruct v as [| | |s| |]; try done. simpl in Hv.
    apply negb_true_iff in Hv.
    rewrite (is_forbidden_spec root design state s Hr Hv).
    cbn [mbind res_bind]. apply IH.
Qed.

Lemma first_unresolvable (files : list json) :
  Forall (fun v => resolvable v = true) files
  ∨ ∃ pre x post,
      files = pre ++ x :: post
      ∧ Forall (fun v => resolvable v = true) pre ∧ resolvable x = false.
Proof.
  induction files as [|v files IH]; [by left|].
  destruct (resolvable v) eqn:Ev.
  - destruct IH as [IH|(pre & x & post & -> & Hpre & Hx)].
    + left. by constructor.
    + right. exists (v :: pre), x, post. split; [done|].
      split; [by constructor|done].
  - right. by exists [], v, files.
Qed.

(** With the three directories resolved, the enforcer is the loop. *)
Lemma assert_unfolded files root design state :
  has_nul root = false → has_nul design = false → has_nul state = false →
  assert_no_forbidden_changes (JList files) root design state
  = (forbidden ←
       forbidden_loop (resolve root) (resolve design) (resolve state)
         files [];
     match forbidden with
     | [] => Ok tt
     | _ =>
         Err (PolicyViolation
                ("Forbidden files modified: "
                 +:+ Py.join ", " (sorted forbidden)))
     end).
Proof.
  intros Hr Hd Hs. unfold assert_no_forbidden_changes, resolve_checked.
  by rewrite Hr, Hd, Hs.
Qed.

(** C8.  An entry that holds a NUL character is a string.  Read as a
    path, [src/a_b] (with NUL for [_]) lies in the project root, outside
    the design and the state directory, and [design/a_b] lies under the
    design directory; yet on the first the enforcer does not return and
    on the second it does not raise [PolicyViolation]: [Path.resolve]
    raises [ValueError], which nothing catches, so that a run in which
    the agent reports such an entry ends with it. *)
Lemma policy_enforcer_nul_entry :
  let inside := "src/a" +:+ String "000"%char "b" in
  let design := "design/a" +:+ String "000"%char "b" in
  let report := sample.answers (sample.result "success" [inside]) in
  let enforce files :=
    assert_no_forbidden_changes (JList files) sample.root
      (state.design_dir sample.store) (state.ai_dir sample.store) in
  forbidden sample.root (state.design_dir sample.store)
    (state.ai_dir sample.store) inside = false
  ∧ enforce [JStr inside] = Err (ValueError "embedded null byte")
  ∧ forbidden sample.root (state.design_dir sample.store)
      (state.ai_dir sample.store) design = true
  ∧ enforce [JStr design] = Err (ValueError "embedded null byte")
  ∧ schema.is_agent_result (sample.result "success" [inside]) = true
  ∧ (daemon.run sample.store (sample.config 1 2) sample.root [report]
       (sample.world (sample.disk_with sample.plan))).1
    = Err (ValueError "embedded null byte").
Proof. cbv zeta. repeat split; vm_compute; reflexivity. Qed.

(** X25.  When none of the three directories holds a NUL character, the
    enforcer goes through the entries in order.  At the first entry that
    is not a string without NUL character it raises: [PolicyViolation]
    if the entry is not a string, the [ValueError] of [Path.resolve] if
    it is a string with a NUL character.  On strings without NUL
    character it collects the forbidden entries, returns when there is
    none and otherwise raises [PolicyViolation] with the message that
    lists them in lexicographic order. *)
Theorem policy_enforcer_verdict (files : list json)
    (root design state : Path) :
  has_nul root = false → has_nul design = false → has_nul state = false →
  (∀ pre x post,
      files = pre ++ x :: post →
      Forall (fun v => resolvable v = true) pre → resolvable x = false →
      assert_no_forbidden_changes (JList files) root design state
      = Err (if is_str x then ValueError "embedded null byte"
             else PolicyViolation "files_changed entries must be strings."))
  ∧ (∀ names,
        files = map JStr names →
        Forall (fun s => contains_char "000" s = false) names →
        let offenders := List.filter (forbidden root design state) names in
        (offenders = [] →
         assert_no_forbidden_changes (JList files) root design state = Ok tt)
        ∧ (offenders ≠ [] →
           ∃ listed,
             Sorted str_le listed ∧ listed ≡ₚ offenders
             ∧ assert_no_forbidden_changes (JList files) root design state
               = Err (PolicyViolation
                        ("Forbidden files modified: "
                         +:+ Py.join ", " listed)))).
Proof.
  intros Hr Hd Hs. rewrite (assert_unfolded files root design state Hr Hd Hs).
  split.
  - intros pre x post -> Hpre Hx.
    by rewrite (forbidden_loop_stops root design state pre x post []
                  Hr Hpre Hx).
  - intros names -> Hn offenders.
    rewrite (forbidden_loop_strings root design state names [] Hr Hn).
    cbn [app mbind res_bind]. fold offenders. split.
    + by intros ->.
    + intros Hne. exists (sorted offenders).
      split; [apply sorted_Sorted|]. split; [apply sorted_Permutation|].
      by destruct offenders.
Qed.

Lemma policy_enforcer_verdict_witness :
  assert_no_forbidden_changes
    (JList [JStr "src/a.txt"; JInt 3; JStr "design/spec.md"])
    sample.root (state.design_dir sample.store) (state.ai_dir sample.store)
  = Err (PolicyViolation "files_changed entries must be strings.")
  ∧ assert_no_forbidden_changes
      (JList [JStr "src/a.txt"; JStr (String "000"%char "x"); JInt 3])
      sample.root (state.design_dir sample.store)
      (state.ai_dir sample.store)
    = Err (ValueError "embedded null byte")
  ∧ assert_no_forbidden_changes (JList (map JStr ["src/a.txt"; "README"]))
      sample.root (state.design_dir sample.store)
      (state.ai_dir sample.store)
    = Ok tt
  ∧ ∃ listed,
      Sorted str_le listed
      ∧ listed ≡ₚ ["design/spec.md"; "../x"; "ai/PLAN.yaml"]
      ∧ assert_no_forbidden_changes
          (JList (map JStr ["design/spec.md"; "src/a"; "../x"; "ai/PLAN.yaml"]))
          sample.root (state.design_dir sample.store)
          (state.ai_dir sample.store)
        = Err (PolicyViolation
                 ("Forbidden files modified: " +:+ Py.join ", " listed)).
Proof.
  split; [|split; [|split]].
  - destruct (policy_enforcer_verdict
                [JStr "src/a.txt"; JInt 3; JStr "design/spec.md"]
                sample.root (state.design_dir sample.store)
                (state.ai_dir sample.store) eq_refl eq_refl eq_refl)
      as [H _].
    apply (H [JStr "src/a.txt"] (JInt 3) [JStr "design/spec.md"]);
      [reflexivity | by repeat constructor | reflexivity].
  - destruct (policy_enforcer_verdict
                [JStr "src/a.txt"; JStr (String "000"%char "x"); JInt 3]
                sample.root (state.design_dir sample.store)
                (state.ai_dir sample.store) eq_refl eq_refl eq_refl)
      as [H _].
    apply (H [JStr "src/a.txt"] (JStr (String "000"%char "x")) [JInt 3]);
      [reflexivity | by repeat constructor | reflexivity].
  - destruct (policy_enforcer_verdict
                (map JStr ["src/a.txt"; "README"])
                sample.root (state.design_dir sample.store)
                (state.ai_dir sample.store) eq_refl eq_refl eq_refl)
      as [_ H].
    apply (H ["src/a.txt"; "README"] eq_refl);
      [by repeat constructor | reflexivity].
  - destruct (policy_enforcer_verdict
                (map JStr ["design/spec.md"; "src/a"; "../x"; "ai/PLAN.yaml"])
                sample.root (state.design_dir sample.store)
                (state.ai_dir sample.store) eq_refl eq_refl eq_refl)
      as [_ H].
    apply (H ["design/spec.md"; "src/a"; "../x"; "ai/PLAN.yaml"] eq_refl);
      [by repeat constructor | discriminate].
Defined.
End PolicyClaims.

(** ** The planner *)

Section SelectClaims.
Import Py state schema view planner scanning PlanFacts SelectFacts.

(** C5, as the code has it.  On a plan of the right shape, the task map
    is built first: if a task id is empty or repeated, [PlannerError] is
    raised before any task is scanned.  Otherwise the tasks are scanned in
    document order.  A task is passed over when it is neither active nor
    pending, or when it is pending and one of its dependencies names a
    task that is not done while those listed before it name tasks that
    are done, whatever is listed after it.  At a task before which every
    task was passed over, the scan raises [PlannerError] if the task is
    active, returns the task if it is pending with every dependency
    naming a task that is done, and raises [PlannerError] if the task is
    pending and one of its dependencies names no task while those listed
    before it name tasks that are done.  [None] is returned exactly when
    every task is passed over. *)
Theorem select_next_task_rule plan :
  is_plan plan = true →
  (unique_ids (tasks_of plan) = false →
   ∃ msg, select_next_task plan = Err (PlannerError msg))
  ∧ (unique_ids (tasks_of plan) = true →
     (∀ pre t post,
         tasks_of plan = pre ++ t :: post →
         forallb (passed_over (tasks_of plan)) pre = true →
         (has_status "active" t = true →
          ∃ msg, select_next_task plan = Err (PlannerError msg))
         ∧ (eligible (tasks_of plan) t = true →
            select_next_task plan = Ok (Some t))
         ∧ (has_status "pending" t = true →
            ∀ d1 g d2,
              deps_of t = d1 ++ g :: d2 →
              forallb (dep_done (tasks_of plan)) d1 = true →
              dep_exists (tasks_of plan) g = false →
              ∃ msg, select_next_task plan = Err (PlannerError msg)))
     ∧ (select_next_task plan = Ok None
        ↔ forallb (passed_over (tasks_of plan)) (tasks_of plan) = true)).
Proof.
  intros Hp. split.
  - intros Hu. unfold select_next_task.
    rewrite (is_plan_get_tasks plan Hp). simpl. unfold _task_map. simpl.
    destruct (task_map_loop_bad (tasks_of plan) (is_plan_tasks plan Hp) []
                eq_refl Hu) as [msg ->].
    eauto.
  - intros Hu. rewrite (select_next_task_scan plan Hp Hu). split.
    + intros pre t post Heq Hpre.
      assert (scan (tasks_of plan) (tasks_of plan)
              = scan (tasks_of plan) (t :: post)) as ->.
      { rewrite Heq at 2. by apply scan_passed_over. }
      simpl. repeat split.
      * intros ->. eauto.
      * unfold eligible. rewrite andb_true_iff. intros [Hpend Hdeps].
        assert (has_status "active" t = false) as ->.
        { unfold has_status in *. apply String.eqb_eq in Hpend.
          by rewrite Hpend. }
        rewrite Hpend. simpl. by rewrite (deps_verdict_done _ _ Hdeps).
      * intros Hpend d1 g d2 Hd Hd1 Hg.
        assert (has_status "active" t = false) as ->.
        { unfold has_status in *. apply String.eqb_eq in Hpend.
          by rewrite Hpend. }
        rewrite Hpend, Hd. simpl.
        rewrite (deps_verdict_missing _ _ _ _ Hd1 Hg). eauto.
    + apply scan_None.
Qed.

(** On [sample.chain] the first task is done and the second is held back
    by its second dependency; the third is returned.  On
    [sample.dangling] the first task is held back by its first
    dependency, so that the name after it, which is in no task, raises
    nothing, and the second task is returned. *)
Lemma select_next_task_rule_witness :
  select_next_task sample.chain
  = Ok (Some (sample.task "c" "pending" ["a"]))
  ∧ select_next_task sample.dangling
    = Ok (Some (sample.task "a" "pending" [])).
Proof.
  split.
  - destruct (select_next_task_rule sample.chain eq_refl) as [_ H].
    destruct (H eq_refl) as [H' _].
    destruct (H' [sample.task "a" "done" [];
                  sample.task "b" "pending" ["a"; "c"]]
                (sample.task "c" "pending" ["a"]) [] eq_refl eq_refl)
      as (_ & Hel & _).
    apply Hel. reflexivity.
  - destruct (select_next_task_rule sample.dangling eq_refl) as [_ H].
    destruct (H eq_refl) as [H' _].
    destruct (H' [sample.task "b" "pending" ["a"; "ghost"]]
                (sample.task "a" "pending" []) [] eq_refl eq_refl)
      as (_ & Hel & _).
    apply Hel. reflexivity.
Defined.

(** C5, as stated, fails.  The first task of [sample.dangling] is
    scanned, is pending and has the dependency [ghost], which no task of the plan
    bears; no [PlannerError] is raised and the second task is returned.
    And the only task of a plan may be pending and free of dependencies
    and still not be returned: its id is empty. *)
Lemma select_next_task_counterexample :
  (is_plan sample.dangling = true
   ∧ tasks_of sample.dangling
     = [sample.task "b" "pending" ["a"; "ghost"];
        sample.task "a" "pending" []]
   ∧ has_status "pending" (sample.task "b" "pending" ["a"; "ghost"]) = true
   ∧ "ghost" ∈ deps_of (sample.task "b" "pending" ["a"; "ghost"])
   ∧ dep_exists (tasks_of sample.dangling) "ghost" = false
   ∧ select_next_task sample.dangling
     = Ok (Some (sample.task "a" "pending" [])))
  ∧ (is_plan (sample.plan_of [sample.task "" "pending" []]) = true
     ∧ eligible [sample.task "" "pending" []] (sample.task "" "pending" [])
       = true
     ∧ select_next_task (sample.plan_of [sample.task "" "pending" []])
       = Err (PlannerError "Task id must be a non-empty string.")).
Proof.
  repeat split; try reflexivity.
  apply elem_of_cons. right. apply elem_of_cons. by left.
Qed.
End SelectClaims.

Section RollupClaims.
Import Py state schema view effect planner rollup_spec.
Import PlanFacts MutationFacts.

Lemma mutated_rolled_up plan tasks :
  is_plan plan = true → forallb is_task tasks = true →
  rolled_up plan (mutated plan tasks).
Proof.
  intros Hp Ht.
  destruct (mutated_plan plan tasks Hp Ht) as (_ & Hts & Hos).
  unfold rolled_up. rewrite Hts, Hos. split; [by rewrite length_map|].
  intros i o o' Ho. rewrite list_lookup_fmap, Ho. intros [= <-].
  pose proof (is_plan_objectives plan Hp) as Hobjs.
  rewrite Forall_forall in Hobjs.
  assert (Hio : is_objective o = true)
    by (eapply Hobjs, list_elem_of_lookup_2; exact Ho).
  destruct (refresh_one_objective tasks o Hio) as [_ Hid]. split; [done|].
  unfold related at 1. rewrite Hid. fold (related tasks o).
  unfold refresh_one. destruct (related tasks o) as [|r rel]; [done|].
  by destruct (with_status_objective o (view.rollup (r :: rel)) Hio
                 (rollup_enum _)) as (_ & _ & -> & _).
Qed.

Lemma set_status_rolled_up plan id s plan' t' :
  is_plan plan = true → mem s TASK_STATUSES = true →
  set_status plan id s = Ok (plan', t') → rolled_up plan plan'.
Proof.
  intros Hp Hs Hset.
  destruct (split_at_id (tasks_of plan) id)
    as [(pre & t & post & Heq & Hpre & Hid)|Hmiss].
  - rewrite (set_status_ok plan id s pre t post Hp Heq Hpre Hid Hs) in Hset.
    injection Hset as <- <-. apply mutated_rolled_up; [done|].
    pose proof (is_plan_tasks plan Hp) as Hts. rewrite Heq in Hts.
    apply Forall_app in Hts as [Hts_pre Hts_post].
    apply Forall_cons in Hts_post as [Ht Hts_post].
    apply forallb_Forall, Forall_app. split; [done|]. constructor; [|done].
    by destruct (with_status_task t s Ht Hs) as [? _].
  - by rewrite (set_status_missing plan id s Hp Hmiss) in Hset.
Qed.

(** C4.  After [activate_task], [finalize_task] (to done, failed or
    blocked) and [reset_task_for_retry] on a plan of the right shape,
    every objective that has a related task is [complete] if all its
    related tasks are done, else [in_progress] if one of them is active,
    done, failed or blocked, else [pending]; an objective without
    related task is as it was. *)
Theorem objectives_rolled_up_after_mutation plan id :
  is_plan plan = true →
  (∀ seconds plan' active,
      activate_task plan id seconds = Ok (plan', active) →
      rolled_up plan plan')
  ∧ (∀ status plan',
        mem status ["done"; "failed"; "blocked"] = true →
        finalize_task plan id status = Ok plan' → rolled_up plan plan')
  ∧ (∀ plan', reset_task_for_retry plan id = Ok plan' → rolled_up plan plan').
Proof.
  intros Hp. split; [|split].
  - intros seconds plan' active. unfold activate_task.
    destruct (set_status plan id "active") as [[p t]|] eqn:E; [|done].
    cbn [mbind res_bind]. destruct (setitem t _ _); [|done].
    intros [= <- <-]. eapply set_status_rolled_up; [done| |exact E]. done.
  - intros status plan' Hs. unfold finalize_task.
    destruct (set_status plan id status) as [[p t]|] eqn:E; [|done].
    intros [= <-]. eapply set_status_rolled_up; [done| |exact E].
    revert Hs. unfold mem, TASK_STATUSES. simpl.
    destruct (String.eqb status "done"), (String.eqb status "failed"),
      (String.eqb status "blocked"), (String.eqb status "pending"),
      (String.eqb status "active"); done.
  - intros plan'. unfold reset_task_for_retry.
    destruct (set_status plan id "pending") as [[p t]|] eqn:E; [|done].
    intros [= <-]. eapply set_status_rolled_up; [done| |exact E]. done.
Qed.

Lemma objectives_rolled_up_after_mutation_witness :
  ∃ plan', finalize_task sample.plan "t1" "done" = Ok plan'
           ∧ rolled_up sample.plan plan'
           ∧ map status_of (objectives_of plan') = ["complete"].
Proof.
  eexists. split; [reflexivity|]. split; [|reflexivity].
  destruct (objectives_rolled_up_after_mutation sample.plan "t1" eq_refl)
    as (_ & H & _).
  apply (H "done"); reflexivity.
Defined.
End RollupClaims.

(** ** The control loop *)

Section LoopClaims.
Import Py pathlib fs state schema view effect outcome scanning layout.
Import planner daemon.
Import StoreFacts SelectedFacts LoopFacts RunFacts.
Import shape.

(** *** The tracker after one and two failures of a new run *)

Lemma first_failure_ceiling r c id :
  watchdog.too_many_consecutive_failures
    (watchdog.record_failure (watchdog.new r c) id) = (c <=? 1).
Proof. done. Qed.

Lemma first_failure_retry r c id :
  watchdog.can_retry (watchdog.record_failure (watchdog.new r c) id) id
  = (1 <=? r).
Proof.
  unfold watchdog.can_retry. simpl.
  by rewrite lookup_insert_eq, lookup_empty.
Qed.

Lemma second_failure_ceiling r c id :
  watchdog.too_many_consecutive_failures
    (watchdog.record_failure
       (watchdog.record_failure (watchdog.new r c) id) id) = (c <=? 2).
Proof. done. Qed.

Lemma second_failure_retry r c id :
  watchdog.can_retry
    (watchdog.record_failure
       (watchdog.record_failure (watchdog.new r c) id) id) id
  = (2 <=? r).
Proof.
  unfold watchdog.can_retry. simpl.
  by rewrite !lookup_insert_eq, lookup_empty.
Qed.

Lemma agent_result_status payload status :
  is_agent_result payload = true → get payload "status" = Ok status →
  eq_str status "success" || eq_str status "failed"
  || eq_str status "blocked" = true.
Proof.
  destruct payload as [| | | | |fields]; try done. simpl.
  rewrite !andb_true_iff. intros ((((_ & Hst) & _) & _) & _).
  unfold field_is in Hst.
  destruct (dict_get "status" fields) as [v|]; [|done]. simpl.
  intros [= <-]. destruct v as [| | |s| |]; try done. simpl in *.
  by destruct (String.eqb s "success"), (String.eqb s "failed"),
    (String.eqb s "blocked").
Qed.

(** *** The sample project *)

Lemma sample_ready store :
  store = sample.store ∨ store = sample.lenient_store →
  ready store (sample.disk_with sample.plan) sample.plan.
Proof.
  intros [-> | ->].
  - split; [by vm_compute|by vm_compute| |by vm_compute].
    exists (text_of sample.plan). split; vm_compute; reflexivity.
  - split; [by vm_compute|by vm_compute| |by vm_compute].
    exists (text_of sample.plan). split; vm_compute; reflexivity.
Defined.

Lemma sample_reporting store k c status :
  store = sample.store ∨ store = sample.lenient_store →
  mem status CODEX_RESULT_STATUSES = true →
  reporting store (sample.config k c) sample.root status
    (text_of (sample.result status [])) (sample.result status []).
Proof.
  intros Hstore Hs.
  assert (well_formed (sample.result status []) = true) as Hwf by done.
  split.
  - split; [done|done|]. unfold mcp_client._parse_response, text_of.
    by rewrite (JsonRoundTrip.loads_dumps_newline _ Hwf).
  - unfold sample.result, is_agent_result, only_keys, field_is.
    simpl in Hs |- *. by rewrite Hs.
  - done.
  - by destruct Hstore as [-> | ->].
Defined.

(** *** Two failures in a row *)

(** C1.  In a run with [max_consecutive_failures = 2] and a retry limit
    of at least one, started on a plan from which a task is selected, an
    agent that reports [failed] twice makes the loop stop with the
    message [Max consecutive failures reached.]: [main] logs it and
    returns.  The first failure puts the task back to pending; the second
    one reaches the ceiling before any reset, so the plan file keeps the
    task as it was written when the pass began, with the status
    [active], and the active task file is gone. *)
Theorem consecutive_failure_ceiling_halts (store : StateStore)
    (config : Config) (project_root : Path) (d : disk) tr0 lg0 plan t
    l1 e1 p1 l2 e2 p2 agent :
  max_consecutive_failures config = 2 →
  1 <= max_retries_per_task config →
  ready store d plan → select_next_task plan = Ok (Some t) →
  reporting store config project_root "failed" l1 p1 →
  reporting store config project_root "failed" l2 p2 →
  ∃ w',
    run store config project_root
      (mcp_client.Answers l1 e1 :: mcp_client.Answers l2 e2 :: agent)
      {| w_disk := d; w_tracker := tr0; w_log := lg0 |}
    = (Ok Returned, w')
    ∧ (∃ lg,
         w_log w'
         = lg ++ [("ERROR",
                   "Execution stopped: Max consecutive failures reached.");
                  ("INFO", "Shepherd exiting.")])
    ∧ exists_ (w_disk w') (active_task_path store) = false
    ∧ persisted_status store (w_disk w') (id_of t) = Some "active".
Proof.
  intros Hc Hk Hr Hs [Ha1 Hres1 Hst1 Hpol1] [Ha2 Hres2 Hst2 Hpol2].
  destruct (select_selected plan t (ready_plan _ _ _ Hr) Hs)
    as (pre & post & Hsel).
  set (tr := watchdog.new (effective_max_retries config)
               (max_consecutive_failures config)).
  set (lg := lg0 ++ clamp_log config).
  destruct (pass_failed_retry store config project_root d tr lg plan t
              pre post l1 e1 p1 Hr Hsel Ha1 (fun _ => Hres1) Hpol1 Hst1
              Hres1) as (d' & Hpass1 & Hr' & _).
  { subst tr. rewrite first_failure_ceiling, Hc. done. }
  { subst tr. rewrite first_failure_retry. unfold effective_max_retries.
    apply Z.leb_le. lia. }
  destruct (selected_again plan t pre post (ready_plan _ _ _ Hr) Hsel)
    as (_ & _ & Hsel').
  pose proof (pass_failed_ceiling store config project_root d'
                (watchdog.record_failure tr (id_of t))
                (lg ++ stderr_log e1) _ t pre post l2 e2 p2 Hr' Hsel' Ha2
                (fun _ => Hres2) Hpol2 Hst2) as Hpass2.
  destruct (answered_summary store config d' _ t pre post p2 Hr' Hsel')
    as (Hidle & _ & Hstatus).
  eexists. split; [|split; [|split]].
  - rewrite run_entered. apply guarded_stop.
    unfold entered. cbn [w_disk w_tracker w_log]. fold tr lg.
    rewrite run_loop_iteration.
    erewrite bind_ok; [|exact Hpass1]. cbv iota.
    rewrite run_loop_iteration.
    erewrite bind_err; [reflexivity|]. apply Hpass2.
    subst tr. rewrite second_failure_ceiling, Hc. done.
  - cbn [w_log]. eexists. reflexivity.
  - exact Hidle.
  - exact Hstatus.
Qed.

Lemma consecutive_failure_ceiling_halts_witness :
  ∃ w',
    run sample.store (sample.config 1 2) sample.root
      [mcp_client.Answers (text_of (sample.result "failed" [])) "";
       mcp_client.Answers (text_of (sample.result "failed" [])) ""]
      (sample.world (sample.disk_with sample.plan))
    = (Ok Returned, w')
    ∧ (∃ lg,
         w_log w'
         = lg ++ [("ERROR",
                   "Execution stopped: Max consecutive failures reached.");
                  ("INFO", "Shepherd exiting.")])
    ∧ exists_ (w_disk w') (active_task_path sample.store) = false
    ∧ persisted_status sample.store (w_disk w') "t1" = Some "active".
Proof.
  apply (consecutive_failure_ceiling_halts sample.store
           (sample.config 1 2) sample.root
           (sample.disk_with sample.plan) (watchdog.new 1 2) []
           sample.plan (sample.task "t1" "pending" [])
           (text_of (sample.result "failed" [])) ""
           (sample.result "failed" [])
           (text_of (sample.result "failed" [])) ""
           (sample.result "failed" []) []).
  - reflexivity.
  - simpl. lia.
  - apply sample_ready. by left.
  - vm_compute. reflexivity.
  - apply sample_reporting; [by left|reflexivity].
  - apply sample_reporting; [by left|reflexivity].
Defined.

(** The scenario of the specification, run: the loop stops at the
    ceiling and the plan file has the task as active, not pending. *)
Lemma consecutive_failure_ceiling_counterexample :
  let failed := sample.answers (sample.result "failed" []) in
  let w' :=
    (run sample.store (sample.config 1 2) sample.root [failed; failed]
       (sample.world (sample.disk_with sample.plan))).2 in
  max_consecutive_failures (sample.config 1 2) = 2
  ∧ w_log w'
    = [("ERROR", "Execution stopped: Max consecutive failures reached.");
       ("INFO", "Shepherd exiting.")]
  ∧ persisted_status sample.store (w_disk w') "t1" = Some "active"
  ∧ persisted_status sample.store (w_disk w') "t1" ≠ Some "pending".
Proof.
  cbv zeta. split; [reflexivity|]. split; [vm_compute; reflexivity|].
  split; [vm_compute; reflexivity|]. vm_compute. discriminate.
Qed.

(** *** A policy violation *)

(** C2.  When the policy enforcer raises a violation on the result of
    the agent, the loop ends with that violation; by then the active task
    file has been cleared, and the plan file is the one written when the
    pass began, with the task as active.  A later run on that disk,
    whatever its configuration, tracker and agent, gets past the check of
    the active task file and ends in the [PlannerError] that
    [select_next_task] raises on an active task, leaving everything as it
    was. *)
Theorem policy_violation_leaves_active_task (store : StateStore)
    (config : Config) (project_root : Path) (d : disk) tr lg plan t
    line err payload msg agent :
  ready store d plan → select_next_task plan = Ok (Some t) →
  answering config line payload →
  (strict_schema_validation store = true →
   is_agent_result payload = true) →
  policy_verdict store project_root payload = Err (PolicyViolation msg) →
  ∃ w',
    _run_loop store config project_root
      (mcp_client.Answers line err :: agent)
      {| w_disk := d; w_tracker := tr; w_log := lg |}
    = (Err (PolicyViolation msg), w')
    ∧ exists_ (w_disk w') (active_task_path store) = false
    ∧ persisted_status store (w_disk w') (id_of t) = Some "active"
    ∧ ∀ (config' : Config) (project_root' : Path) agent' tr' lg',
        let next :=
          {| w_disk := w_disk w'; w_tracker := tr'; w_log := lg' |} in
        _run_loop store config' project_root' agent' next
        = (Err (PlannerError
                  "Plan contains an active task without execution context."),
           next).
Proof.
  intros Hr Hs Hans Hvalid Hpol.
  pose proof (ready_plan _ _ _ Hr) as Hp.
  destruct (select_selected plan t Hp Hs) as (pre & post & Hsel).
  pose proof (pass_policy_violation store config project_root d tr lg
                plan t pre post line err payload Hr Hsel Hans Hvalid _
                Hpol) as Hpass.
  destruct (answered_summary store config d plan t pre post payload
              Hr Hsel) as (Hidle & Hpp & Hstatus).
  eexists. split; [|split; [|split]].
  - rewrite run_loop_iteration. erewrite bind_err; [reflexivity|].
    exact Hpass.
  - exact Hidle.
  - exact Hstatus.
  - intros config' project_root' agent' tr' lg'. cbv zeta.
    cbn [w_disk].
    pose proof (started_usable store config d plan t Hr) as Hu1.
    apply (run_loop_select_error _ _ _ _ _ _ _
             (plan_after plan (id_of t) "active")); [done| | | |].
    + rewrite answered_disk_plan by done. apply started_disk_plan.
      by destruct Hr.
    + apply well_formed_plan_after. by apply (ready_well_formed store d).
    + by destruct (plan_after_plan plan (id_of t) "active" Hp eq_refl).
    + by apply (select_active plan t pre post).
Qed.

Lemma policy_violation_leaves_active_task_witness :
  ∃ w',
    _run_loop sample.store (sample.config 1 2) sample.root
      [mcp_client.Answers
         (text_of (sample.result "success" ["design/spec.md"])) ""]
      (sample.world (sample.disk_with sample.plan))
    = (Err (PolicyViolation "Forbidden files modified: design/spec.md"),
       w')
    ∧ exists_ (w_disk w') (active_task_path sample.store) = false
    ∧ persisted_status sample.store (w_disk w') "t1" = Some "active"
    ∧ ∀ (config' : Config) (project_root' : Path) agent' tr' lg',
        let next :=
          {| w_disk := w_disk w'; w_tracker := tr'; w_log := lg' |} in
        _run_loop sample.store config' project_root' agent' next
        = (Err (PlannerError
                  "Plan contains an active task without execution context."),
           next).
Proof.
  apply (policy_violation_leaves_active_task sample.store
           (sample.config 1 2) sample.root
           (sample.disk_with sample.plan) (watchdog.new 1 2) []
           sample.plan (sample.task "t1" "pending" [])
           (text_of (sample.result "success" ["design/spec.md"])) ""
           (sample.result "success" ["design/spec.md"])
           "Forbidden files modified: design/spec.md" []).
  - apply sample_ready. by left.
  - vm_compute. reflexivity.
  - split; [reflexivity|simpl; lia|vm_compute; reflexivity].
  - intros _. vm_compute. reflexivity.
  - vm_compute. reflexivity.
Defined.

(** *** The retry limit *)

(** C3.  Whatever [max_retries_per_task = k] the configuration gives,
    the tracker [main] builds, and the one any run ends with, has the
    limit [min(k, 1)], and [can_retry] holds exactly when the attempts
    recorded for the task are at most the limit.  On a plan from which a
    task is selected and with an agent that reports [failed]: when
    [k >= 1] and the ceiling of consecutive failures is above two, the
    first failure puts the task back to pending and the loop goes on,
    and the second failure makes it failed, the loop stopping with
    [Task failed more than once.]; when [k <= 0] and the ceiling is above
    one, the first failure already makes the task failed, with no reset
    at all. *)
Theorem retry_limit_clamped (store : StateStore) (config : Config)
    (project_root : Path) (d : disk) tr0 lg plan t l1 e1 p1 l2 e2 p2
    agent :
  ready store d plan → select_next_task plan = Ok (Some t) →
  reporting store config project_root "failed" l1 p1 →
  reporting store config project_root "failed" l2 p2 →
  let k := max_retries_per_task config in
  let x1 := mcp_client.Answers l1 e1 in
  let x2 := mcp_client.Answers l2 e2 in
  let w0 := entered config {| w_disk := d; w_tracker := tr0; w_log := lg |} in
  let stop := StopExecution "Task failed more than once." in
  (∀ agent' w,
     watchdog.max_retries_per_task
       (w_tracker (run store config project_root agent' w).2)
     = Z.min k 1)
  ∧ watchdog.max_retries_per_task (w_tracker w0) = Z.min k 1
  ∧ (∀ tr id,
       watchdog.can_retry tr id = true
       ↔ default 0 (watchdog.attempts tr !! id)
         <= watchdog.max_retries_per_task tr)
  ∧ (1 <= k → 2 < max_consecutive_failures config →
     ∃ w1 w2,
       iteration store config project_root x1 w0 = (Ok true, w1)
       ∧ persisted_status store (w_disk w1) (id_of t) = Some "pending"
       ∧ iteration store config project_root x2 w1 = (Err stop, w2)
       ∧ persisted_status store (w_disk w2) (id_of t) = Some "failed"
       ∧ _run_loop store config project_root (x1 :: x2 :: agent) w0
         = (Err stop, w2))
  ∧ (k <= 0 → 1 < max_consecutive_failures config →
     ∃ w1,
       iteration store config project_root x1 w0 = (Err stop, w1)
       ∧ persisted_status store (w_disk w1) (id_of t) = Some "failed"
       ∧ _run_loop store config project_root (x1 :: agent) w0
         = (Err stop, w1)).
Proof.
  intros Hr Hs [Ha1 Hres1 Hst1 Hpol1] [Ha2 Hres2 Hst2 Hpol2].
  cbv zeta.
  pose proof (ready_plan _ _ _ Hr) as Hp.
  destruct (select_selected plan t Hp Hs) as (pre & post & Hsel).
  unfold entered. cbn [w_disk w_tracker w_log].
  set (tr := watchdog.new (effective_max_retries config)
               (max_consecutive_failures config)).
  set (lg' := lg ++ clamp_log config).
  split; [|split; [|split; [|split]]].
  - intros agent' w.
    pose proof (run_limits store config project_root agent' w) as H.
    unfold limits in H. by injection H.
  - reflexivity.
  - intros tr1 id. unfold watchdog.can_retry. apply Z.leb_le.
  - intros Hk Hc.
    destruct (pass_failed_retry store config project_root d tr lg' plan t
                pre post l1 e1 p1 Hr Hsel Ha1 (fun _ => Hres1) Hpol1 Hst1
                Hres1) as (d' & Hpass1 & Hr' & Hpending).
    { subst tr. rewrite first_failure_ceiling. apply Z.leb_gt. lia. }
    { subst tr. rewrite first_failure_retry.
      unfold effective_max_retries. apply Z.leb_le. lia. }
    destruct (selected_again plan t pre post Hp Hsel) as (_ & _ & Hsel').
    destruct (pass_failed_final store config project_root d'
                (watchdog.record_failure tr (id_of t))
                (lg' ++ stderr_log e1) _ t pre post l2 e2 p2 Hr' Hsel'
                Ha2 (fun _ => Hres2) Hpol2 Hst2 Hres2)
      as (d'' & Hpass2 & _ & Hfailed).
    { subst tr. rewrite second_failure_ceiling. apply Z.leb_gt. lia. }
    { subst tr. rewrite second_failure_retry.
      unfold effective_max_retries. apply Z.leb_gt. lia. }
    eexists _, _. split; [exact Hpass1|]. split; [exact Hpending|].
    split; [exact Hpass2|]. split; [exact Hfailed|].
    rewrite run_loop_iteration. erewrite bind_ok; [|exact Hpass1].
    cbv iota. rewrite run_loop_iteration.
    erewrite bind_err; [reflexivity|exact Hpass2].
  - intros Hk Hc.
    destruct (pass_failed_final store config project_root d tr lg' plan t
                pre post l1 e1 p1 Hr Hsel Ha1 (fun _ => Hres1) Hpol1 Hst1
                Hres1) as (d' & Hpass1 & _ & Hfailed).
    { subst tr. rewrite first_failure_ceiling. apply Z.leb_gt. lia. }
    { subst tr. rewrite first_failure_retry.
      unfold effective_max_retries. apply Z.leb_gt. lia. }
    eexists. split; [exact Hpass1|]. split; [exact Hfailed|].
    rewrite run_loop_iteration.
    erewrite bind_err; [reflexivity|exact Hpass1].
Qed.

Lemma retry_limit_clamped_witness :
  let config := sample.config 3 5 in
  let x := mcp_client.Answers (text_of (sample.result "failed" [])) "" in
  let w0 := entered config (sample.world (sample.disk_with sample.plan)) in
  let stop := StopExecution "Task failed more than once." in
  watchdog.max_retries_per_task (w_tracker w0) = 1
  ∧ ∃ w1 w2,
      iteration sample.store config sample.root x w0 = (Ok true, w1)
      ∧ persisted_status sample.store (w_disk w1) "t1" = Some "pending"
      ∧ iteration sample.store config sample.root x w1 = (Err stop, w2)
      ∧ persisted_status sample.store (w_disk w2) "t1" = Some "failed"
      ∧ _run_loop sample.store config sample.root [x; x] w0 = (Err stop, w2).
Proof.
  cbv zeta.
  destruct (retry_limit_clamped sample.store (sample.config 3 5)
              sample.root (sample.disk_with sample.plan)
              (watchdog.new 1 2) [] sample.plan
              (sample.task "t1" "pending" [])
              (text_of (sample.result "failed" [])) ""
              (sample.result "failed" [])
              (text_of (sample.result "failed" [])) ""
              (sample.result "failed" []) [])
    as (_ & Hlimit & _ & Htwo & _).
  - apply sample_ready. by left.
  - vm_compute. reflexivity.
  - apply sample_reporting; [by left|reflexivity].
  - apply sample_reporting; [by left|reflexivity].
  - split; [exact Hlimit|]. apply Htwo; simpl; lia.
Defined.

(** With [max_retries_per_task = 0] the limit is zero, and the first
    failure makes the task failed: it is not reset to pending once. *)
Lemma retry_limit_clamped_counterexample :
  let config := sample.config 0 5 in
  let failed := sample.answers (sample.result "failed" []) in
  let w0 := sample.world (sample.disk_with sample.plan) in
  let w' := (run sample.store config sample.root [failed; failed] w0).2 in
  watchdog.max_retries_per_task (w_tracker w') = Z.min 0 1
  ∧ watchdog.attempts (w_tracker w') !! "t1" = Some 1
  ∧ w_log w'
    = [("ERROR", "Execution stopped: Task failed more than once.");
       ("INFO", "Shepherd exiting.")]
  ∧ persisted_status sample.store (w_disk w') "t1" = Some "failed"
  ∧ (iteration sample.store config sample.root failed
       (entered config w0)).1
    = Err (StopExecution "Task failed more than once.").
Proof.
  cbv zeta. repeat split; vm_compute; reflexivity.
Qed.

(** *** A status that is none of the three *)

(** C9.  The agent answers with a result whose status is none of
    [success], [failed] and [blocked].  With strict validation on, the
    loop ends when it stores the result: [write_last_result] raises a
    [StateValidationError], after the active task file has been cleared,
    the result file is not written, the plan keeps the task as active,
    and the message about the unexpected status is never reached.  With
    strict validation off and a result that passes the policy check, the
    result is stored and the loop stops with the message
    [Unexpected Codex status:] followed by the status. *)
Theorem unexpected_status_halt (store : StateStore) (config : Config)
    (project_root : Path) (d : disk) tr lg plan t line err payload
    status agent :
  ready store d plan → select_next_task plan = Ok (Some t) →
  answering config line payload →
  get payload "status" = Ok status →
  eq_str status "success" = false → eq_str status "failed" = false →
  eq_str status "blocked" = false →
  let loop :=
    _run_loop store config project_root
      (mcp_client.Answers line err :: agent)
      {| w_disk := d; w_tracker := tr; w_log := lg |} in
  (strict_schema_validation store = true →
   ∃ msg w',
     loop = (Err (StateValidationError msg), w')
     ∧ exists_ (w_disk w') (active_task_path store) = false
     ∧ w_disk w' !! key (last_result_path store)
       = d !! key (last_result_path store)
     ∧ persisted_status store (w_disk w') (id_of t) = Some "active")
  ∧ (strict_schema_validation store = false →
     policy_verdict store project_root payload = Ok tt →
     ∃ w',
       loop
       = (Err (StopExecution ("Unexpected Codex status: " +:+ str status)),
          w')
       ∧ w_disk w' !! key (last_result_path store)
         = Some (File (text_of payload))).
Proof.
  intros Hr Hs Hans Hst H1 H2 H3. cbv zeta.
  pose proof (ready_plan _ _ _ Hr) as Hp.
  destruct (select_selected plan t Hp Hs) as (pre & post & Hsel).
  split.
  - intros Hstrict.
    assert (is_agent_result payload = false) as Hbad.
    { destruct (is_agent_result payload) eqn:E; [|done].
      pose proof (agent_result_status payload status E Hst) as H.
      by rewrite H1, H2, H3 in H. }
    destruct (pass_invalid store config project_root d tr lg plan t pre
                post line err payload Hr Hsel Hans Hstrict Hbad)
      as [msg Hpass].
    destruct (cleared_summary store config d plan t pre post Hr Hsel)
      as (Hidle & Hstatus & Hlast).
    eexists msg, _. split; [|split; [|split]].
    + rewrite run_loop_iteration. erewrite bind_err; [reflexivity|].
      exact Hpass.
    + exact Hidle.
    + exact Hlast.
    + exact Hstatus.
  - intros Hlenient Hpol.
    assert (strict_schema_validation store = true →
            is_agent_result payload = true) as Hvalid
      by (rewrite Hlenient; discriminate).
    pose proof (pass_unexpected store config project_root d tr lg plan t
                  pre post line err payload Hr Hsel Hans Hvalid Hpol
                  status Hst H1 H3 H2) as Hpass.
    eexists. split.
    + rewrite run_loop_iteration. erewrite bind_err; [reflexivity|].
      exact Hpass.
    + cbn [w_disk]. unfold answered_disk. apply lookup_insert_eq.
Qed.

Lemma unexpected_status_halt_witness :
  let line := text_of (sample.result "weird" []) in
  ∃ w',
    _run_loop sample.lenient_store (sample.config 1 2) sample.root
      [mcp_client.Answers line ""]
      (sample.world (sample.disk_with sample.plan))
    = (Err (StopExecution "Unexpected Codex status: weird"), w')
    ∧ w_disk w' !! key (last_result_path sample.lenient_store)
      = Some (File line).
Proof.
  cbv zeta.
  destruct (unexpected_status_halt sample.lenient_store
              (sample.config 1 2) sample.root
              (sample.disk_with sample.plan) (watchdog.new 1 2) []
              sample.plan (sample.task "t1" "pending" [])
              (text_of (sample.result "weird" [])) ""
              (sample.result "weird" []) (JStr "weird") [])
    as [_ Hlenient].
  - apply sample_ready. by right.
  - vm_compute. reflexivity.
  - split; [reflexivity|simpl; lia|vm_compute; reflexivity].
  - reflexivity.
  - reflexivity.
  - reflexivity.
  - reflexivity.
  - apply Hlenient; [reflexivity|vm_compute; reflexivity].
Defined.

(** With strict validation on, a result with the status [weird] ends
    the run with the validation error, not with the message about an
    unexpected status, and the result file is not written. *)
Lemma unexpected_status_halt_counterexample :
  let weird := sample.answers (sample.result "weird" []) in
  let w0 := sample.world (sample.disk_with sample.plan) in
  let r := run sample.store (sample.config 1 2) sample.root [weird] w0 in
  strict_schema_validation sample.store = true
  ∧ (_run_loop sample.store (sample.config 1 2) sample.root [weird] w0).1
    = Err (StateValidationError
             "codex_result.status must be one of: blocked, failed, success")
  ∧ w_log r.2
    = [("ERROR",
        "Execution halted: codex_result.status must be one of: blocked, failed, success");
       ("INFO", "Shepherd exiting.")]
  ∧ w_disk r.2 !! key (last_result_path sample.store) = None.
Proof.
  cbv zeta. repeat split; vm_compute; reflexivity.
Qed.
End LoopClaims.

(** ** More on the state store *)

Section StoreProperties.
Import Py pathlib fs state schema outcome refinement.
Import JsonRoundTrip SchemaFacts.


(** *** What a write does to the disk *)

Lemma atomic_write_bytes_cases (path : Path) (content : string)
    (d : disk) :
  _atomic_write_bytes path content d
  = (Ok tt, <[key path := File content]> d)
  ∨ ∃ e, _atomic_write_bytes path content d = (Err e, d).
Proof.
  unfold _atomic_write_bytes.
  destruct (d !! key (parent path)) as [[]|]; eauto.
  destruct (d !! key path) as [[]|]; eauto.
Qed.

Lemma atomic_write_text_cases (path : Path) (content : string)
    (store : StateStore) (d : disk) :
  _atomic_write_text path content store d
  = (Ok tt, <[key path := File content]> d)
  ∨ ∃ e, _atomic_write_text path content store d = (Err e, d).
Proof.
  unfold _atomic_write_text, mbind, M_bind, lift.
  destruct (_ensure_writable_path path store) as [[]|e]; [|eauto].
  unfold _ensure_parent_dir. destruct (negb _); [eauto|].
  apply atomic_write_bytes_cases.
Qed.

Lemma atomic_write_json_cases (path : Path) (data : json)
    (store : StateStore) (d : disk) :
  (_atomic_write_json path data store d
   = (Ok tt, <[key path := File (text_of data)]> d)
   ∧ is_dict data = true)
  ∨ ∃ e, _atomic_write_json path data store d = (Err e, d).
Proof.
  unfold _atomic_write_json.
  destruct (is_dict data); simpl; [|eauto].
  unfold mbind, M_bind, lift.
  destruct (_ensure_writable_path path store) as [[]|e]; [|eauto].
  unfold _ensure_parent_dir. destruct (negb _); [eauto|].
  destruct (atomic_write_bytes_cases path (text_of data) d) as [H|H];
    [left|right]; done.
Qed.

Lemma validated_write_cases (strict : bool) (check : res unit)
    (path : Path) (data : json) (store : StateStore) (d : disk) :
  let write :=
    (if strict then lift check else mret tt);;
    _atomic_write_json path data store in
  (write d = (Ok tt, <[key path := File (text_of data)]> d)
   ∧ is_dict data = true ∧ (strict = true → check = Ok tt))
  ∨ ∃ e, write d = (Err e, d).
Proof.
  cbv zeta. unfold mbind, M_bind.
  assert ((if strict then lift check else mret tt) d = (Ok tt, d)
          ∧ (strict = true → check = Ok tt)
          ∨ ∃ e, (if strict then lift check else mret tt) d = (Err e, d))
    as [[-> Hc]|[e ->]]; [|
    destruct (atomic_write_json_cases path data store d) as [[-> ?]|[e ->]]
    |]; eauto.
  destruct strict; [|by left].
  unfold lift. destruct check as [[]|e]; eauto.
Qed.

(** X2.  A write of the store changes the disk at its own file only, and
    only when it succeeds: [write_plan], [write_active_task],
    [write_last_result], [write_summary] and [write_progress] either
    return, and the disk is the old one with the text at the target, or
    raise, and the disk is the old one. *)
Theorem write_changes_its_file_only (store : StateStore) (d : disk) :
  (∀ plan,
      write_plan store plan d
      = (Ok tt, <[key (plan_path store) := File (text_of plan)]> d)
      ∨ ∃ e, write_plan store plan d = (Err e, d))
  ∧ (∀ task,
        write_active_task store task d
        = (Ok tt, <[key (active_task_path store) := File (text_of task)]> d)
        ∨ ∃ e, write_active_task store task d = (Err e, d))
  ∧ (∀ result,
        write_last_result store result d
        = (Ok tt,
           <[key (last_result_path store) := File (text_of result)]> d)
        ∨ ∃ e, write_last_result store result d = (Err e, d))
  ∧ (∀ content,
        write_summary store content d
        = (Ok tt, <[key (summary_path store) := File content]> d)
        ∨ ∃ e, write_summary store content d = (Err e, d))
  ∧ (∀ content,
        state.write_progress store content d
        = (Ok tt, <[key (progress_path store) := File content]> d)
        ∨ ∃ e, state.write_progress store content d = (Err e, d)).
Proof.
  split; [|split; [|split; [|split]]].
  - intros plan.
    destruct (validated_write_cases (strict_schema_validation store)
                (_validate_plan plan) (plan_path store) plan store d)
      as [(H & _)|H]; [by left|by right].
  - intros task.
    destruct (validated_write_cases (strict_schema_validation store)
                (_validate_active_task task) (active_task_path store) task
                store d) as [(H & _)|H]; [by left|by right].
  - intros result.
    destruct (validated_write_cases (strict_schema_validation store)
                (_validate_codex_result result) (last_result_path store)
                result store d) as [(H & _)|H]; [by left|by right].
  - intros content. apply atomic_write_text_cases.
  - intros content. apply atomic_write_text_cases.
Qed.

(** *** Writing and reading back *)

Lemma read_back (path : Path) (data : json) (d : disk) :
  well_formed data = true → is_dict data = true →
  _read_json_object path (<[key path := File (text_of data)]> d)
  = (Ok data, <[key path := File (text_of data)]> d).
Proof.
  intros Hwf Hd. unfold _read_json_object, mbind, M_bind, _read_text.
  rewrite lookup_insert_eq. unfold text_of.
  rewrite universal_newlines_dumps.
  by rewrite (loads_dumps_newline data Hwf), Hd.
Qed.

Lemma validated_round_trip (strict : bool) (check : json → res unit)
    (path : Path) (data : json) (store : StateStore) (d d' : disk) :
  well_formed data = true →
  ((if strict then lift (check data) else mret tt);;
   _atomic_write_json path data store) d = (Ok tt, d') →
  (data' ← _read_json_object path;
   (if strict then lift (check data') else mret tt);;
   mret data') d' = (Ok data, d').
Proof.
  intros Hwf Hw.
  destruct (validated_write_cases strict (check data) path data store d)
    as [(Hw' & Hd & Hc)|[e He]]; cbv zeta in *; [|congruence].
  rewrite Hw' in Hw. injection Hw as <-.
  unfold mbind at 1, M_bind at 1. rewrite (read_back path data d Hwf Hd).
  destruct strict; [|done]. by rewrite Hc.
Qed.

(** X3.  What the store writes it reads back: after a [write_plan] that
    returned, [load_plan] returns the plan that was written and leaves
    the disk as it is, and so for the active task and for the last
    result.  (The document holds no dictionary with a repeated key, as
    every value Python builds.) *)
Theorem store_reads_back_what_it_wrote (store : StateStore)
    (data : json) (d d' : disk) :
  well_formed data = true →
  (write_plan store data d = (Ok tt, d') →
   load_plan store d' = (Ok data, d'))
  ∧ (write_active_task store data d = (Ok tt, d') →
     load_active_task store d' = (Ok data, d'))
  ∧ (write_last_result store data d = (Ok tt, d') →
     load_last_result store d' = (Ok (Some data), d')).
Proof.
  intros Hwf. split; [|split].
  - intros Hw. unfold load_plan.
    by apply (validated_round_trip _ _validate_plan _ _ store d).
  - intros Hw. unfold load_active_task.
    by apply (validated_round_trip _ _validate_active_task _ _ store d).
  - intros Hw. unfold load_last_result.
    pose proof Hw as Hw0.
    destruct (validated_write_cases (strict_schema_validation store)
                (_validate_codex_result data) (last_result_path store)
                data store d) as [(Hw' & Hd & Hc)|[e He]];
      cbv zeta in *; [|unfold write_last_result in Hw; congruence].
    unfold write_last_result in Hw. rewrite Hw' in Hw. injection Hw as <-.
    unfold exists_. rewrite lookup_insert_eq. simpl.
    unfold mbind at 1, M_bind at 1.
    rewrite (read_back _ data d Hwf Hd).
    destruct (strict_schema_validation store); [|done].
    by rewrite Hc.
Qed.

Lemma store_reads_back_what_it_wrote_witness :
  load_plan sample.store
    (<[key (plan_path sample.store) := File (text_of sample.chain)]>
       (sample.disk_with sample.plan))
  = (Ok sample.chain,
     <[key (plan_path sample.store) := File (text_of sample.chain)]>
       (sample.disk_with sample.plan)).
Proof.
  destruct (store_reads_back_what_it_wrote sample.store sample.chain
              (sample.disk_with sample.plan)
              (<[key (plan_path sample.store)
                 := File (text_of sample.chain)]>
                 (sample.disk_with sample.plan)) eq_refl) as [H _].
  apply H. vm_compute. reflexivity.
Defined.

(** X4.  Each validator of the store returns exactly on the values the
    data model describes and raises [StateValidationError] on every
    other value: whatever it is given, no [KeyError], [TypeError] or
    [AttributeError] comes out of it. *)
Theorem validators_refine_data_model (v : json) :
  agrees (_validate_plan v) (is_plan v)
  ∧ (∀ context, agrees (_validate_objective v context) (is_objective v))
  ∧ (∀ context, agrees (_validate_task v context) (is_task v))
  ∧ agrees (_validate_active_task v) (is_active_task v)
  ∧ agrees (_validate_codex_result v) (is_agent_result v).
Proof.
  split; [apply validate_plan_agrees|].
  split; [intros; apply validate_objective_agrees|].
  split; [intros; apply validate_task_agrees|].
  split; [apply validate_active_task_agrees|].
  apply validate_codex_result_agrees.
Qed.

(** *** Reading *)

Lemma read_text_frame (path : Path) (d : disk) :
  (_read_text path d).2 = d.
Proof.
  unfold _read_text. destruct (d !! key path) as [[]|]; try done.
  by destruct (under_file d path).
Qed.

Lemma read_json_object_frame (path : Path) (d : disk) :
  (_read_json_object path d).2 = d.
Proof.
  unfold _read_json_object, mbind, M_bind.
  pose proof (read_text_frame path d) as H.
  destruct (_read_text path d) as [[text|e] d1]; simpl in H; subst d1;
    [|done].
  destruct (Json.loads text) as [data|]; [|done].
  by destruct (is_dict data).
Qed.

Lemma read_text_missing (path : Path) (d : disk) :
  exists_ d path = false →
  ∃ msg,
    _read_text path d
    = (Err (if under_file d path then OSError msg
            else MissingStateError msg), d).
Proof.
  unfold exists_, _read_text. destruct (d !! key path); [done|].
  intros _. destruct (under_file d path); eauto.
Qed.

Lemma read_json_object_missing (path : Path) (d : disk) :
  exists_ d path = false →
  ∃ msg,
    _read_json_object path d
    = (Err (if under_file d path then OSError msg
            else MissingStateError msg), d).
Proof.
  intros [msg H]%read_text_missing. exists msg.
  unfold _read_json_object. by erewrite StoreFacts.bind_err.
Qed.

Lemma validated_read_frame (strict : bool) (check : json → res unit)
    (path : Path) (d : disk) :
  ((data ← _read_json_object path;
    (if strict then lift (check data) else mret tt);;
    mret data) d).2 = d.
Proof.
  unfold mbind, M_bind.
  pose proof (read_json_object_frame path d) as H.
  destruct (_read_json_object path d) as [[data|e] d1]; simpl in H;
    subst d1; [|done].
  destruct strict; [|done]. unfold lift. by destruct (check data).
Qed.

(** X5.  Reading never changes the disk: every [load_] function of the
    store leaves it as it was, whether it returns or raises.  With
    nothing at the path, [load_summary] returns the empty text and
    [load_last_result] returns [None], while [load_plan],
    [load_active_task], [load_sources], [load_goals] and [load_config]
    raise: [MissingStateError] when no ancestor of the path is a regular
    file, and otherwise the [OSError] of [open] (a
    [NotADirectoryError]), which [_read_text] does not convert. *)
Theorem loads_leave_the_disk (store : StateStore) (d : disk) :
  let absent (p : Path) (msg : string) : exn :=
    if under_file d p then OSError msg else MissingStateError msg in
  ((load_plan store d).2 = d ∧ (load_active_task store d).2 = d
   ∧ (load_last_result store d).2 = d ∧ (load_summary store d).2 = d
   ∧ (load_progress store d).2 = d ∧ (load_goals store d).2 = d
   ∧ (load_sources store d).2 = d ∧ (load_config store d).2 = d)
  ∧ (exists_ d (plan_path store) = false →
     ∃ msg, load_plan store d = (Err (absent (plan_path store) msg), d))
  ∧ (exists_ d (active_task_path store) = false →
     ∃ msg,
       load_active_task store d
       = (Err (absent (active_task_path store) msg), d))
  ∧ (exists_ d (sources_path store) = false →
     ∃ msg,
       load_sources store d = (Err (absent (sources_path store) msg), d))
  ∧ (exists_ d (goals_path store) = false →
     ∃ msg, load_goals store d = (Err (absent (goals_path store) msg), d))
  ∧ (exists_ d (config_path store) = false →
     ∃ msg,
       load_config store d = (Err (absent (config_path store) msg), d))
  ∧ (exists_ d (summary_path store) = false →
     load_summary store d = (Ok EmptyString, d))
  ∧ (exists_ d (last_result_path store) = false →
     load_last_result store d = (Ok None, d)).
Proof.
  cbv zeta. split.
  { repeat split.
    - apply validated_read_frame.
    - apply validated_read_frame.
    - unfold load_last_result. destruct (negb _); [done|].
      unfold mbind, M_bind.
      pose proof (read_json_object_frame (last_result_path store) d) as H.
      destruct (_read_json_object _ d) as [[data|e] d1]; simpl in H;
        subst d1; [|done].
      destruct (strict_schema_validation store); [|done].
      unfold lift. by destruct (_validate_codex_result data).
    - unfold load_summary. destruct (negb _); [done|].
      apply read_text_frame.
    - unfold load_progress. destruct (negb _); [done|].
      apply read_text_frame.
    - apply read_text_frame.
    - apply read_json_object_frame.
    - unfold load_config, mbind, M_bind.
      pose proof (read_json_object_frame (config_path store) d) as H.
      by destruct (_read_json_object _ d) as [[data|e] d1]; simpl in H;
        subst d1. }
  repeat split.
  - intros [msg H]%read_json_object_missing. exists msg.
    unfold load_plan. by erewrite StoreFacts.bind_err.
  - intros [msg H]%read_json_object_missing. exists msg.
    unfold load_active_task. by erewrite StoreFacts.bind_err.
  - by intros [msg H]%read_json_object_missing; exists msg.
  - by intros [msg H]%read_text_missing; exists msg.
  - intros [msg H]%read_json_object_missing. exists msg.
    unfold load_config. by erewrite StoreFacts.bind_err.
  - unfold load_summary. by intros ->.
  - unfold load_last_result. by intros ->.
Qed.

(** With a regular file where the state directory should be, the plan
    file is absent and [load_plan] raises the error of [open]. *)
Lemma loads_leave_the_disk_witness :
  let d := <[ ["proj"; "ai"] := File "x" ]> sample.bare_disk in
  exists_ d (plan_path sample.store) = false
  ∧ ∃ msg, load_plan sample.store d = (Err (OSError msg), d).
Proof.
  cbv zeta. split; [reflexivity|].
  destruct (loads_leave_the_disk sample.store
              (<[ ["proj"; "ai"] := File "x" ]> sample.bare_disk))
    as (_ & H & _).
  destruct (H eq_refl) as [msg Hm]. exists msg. exact Hm.
Defined.

(** *** The configuration *)

Lemma ensures_bind {A B} (m : res A) (f : A → res B) (P : A → Prop)
    (Q : B → Prop) :
  ensures m P → (∀ a, P a → ensures (f a) Q) → ensures (m ≫= f) Q.
Proof. destruct m as [a|[]]; simpl; auto. Qed.

Lemma agrees_ensures (r : res unit) (b : bool) :
  agrees r b → ensures r (fun _ => b = true).
Proof. by destruct r as [[]|[]]. Qed.

Lemma require_section_ensures d name :
  ensures (_require_section (JObj d) name)
    (fun section => is_dict section = true).
Proof.
  unfold _require_section. simpl.
  by destruct (is_dict (default JNull (dict_get name d))) eqn:E.
Qed.

Lemma require_bool_ensures v context :
  ensures (_require_bool v context) (fun _ => is_bool v = true).
Proof. unfold _require_bool. by destruct (is_bool v). Qed.

Lemma require_non_negative_ensures z context :
  ensures (_require_non_negative (JInt z) context) (fun _ => 0 <= z).
Proof.
  unfold _require_non_negative. simpl.
  destruct (Z.ltb_spec z 0); simpl; [done|lia].
Qed.

Lemma require_positive_ensures z context :
  ensures (_require_positive (JInt z) context) (fun _ => 0 < z).
Proof.
  unfold _require_positive. simpl.
  destruct (Z.leb_spec z 0); simpl; [done|lia].
Qed.

Lemma require_non_empty_ensures s context :
  ensures (_require_non_empty (JStr s) context)
    (fun _ => is_empty (strip s) = false).
Proof. unfold _require_non_empty. by destruct (is_empty (strip s)). Qed.

Lemma require_log_level_ensures s :
  ensures (_require_log_level (JStr s))
    (fun _ => mem (lower s) LOG_LEVELS = true).
Proof.
  unfold _require_log_level. by destruct (mem (lower s) LOG_LEVELS).
Qed.

Lemma getitem_present d k :
  dict_mem k d = true → ∃ x, getitem (JObj d) k = Ok x.
Proof.
  unfold dict_mem. simpl. destruct (dict_get k d); [eauto|done].
Qed.

(** The checks on a section: it is a dictionary that has the keys. *)
Ltac section_keys d Hk :=
  eapply ensures_bind; [apply require_section_ensures|];
  intros [| | | | |d] ?; try done;
  eapply ensures_bind;
    [apply agrees_ensures, require_keys_agrees|]; intros [] Hk;
  eapply ensures_bind;
    [apply agrees_ensures, reject_extra_keys_agrees|]; intros [] _;
  cbn [forallb] in Hk; rewrite ?andb_true_iff in Hk.

Ltac field x H :=
  let E := fresh "E" in
  destruct (getitem_present _ _ H) as [x E]; rewrite E; clear E;
  cbn [mbind res_bind].

Ltac checked lemma H :=
  eapply ensures_bind; [apply lemma|]; intros [] H.

Ltac a_string x :=
  let H := fresh in
  checked (fun v c => agrees_ensures _ _ (require_string_agrees v c)) H;
  destruct x; try done; clear H.

Ltac an_integer x :=
  let H := fresh in
  checked (fun v c => agrees_ensures _ _ (require_int_agrees v c)) H;
  destruct x; try done; clear H.

Ltac a_boolean x :=
  let H := fresh in
  checked require_bool_ensures H; destruct x; try done; clear H.

Lemma parse_config_ensures data : ensures (_parse_config data) config_ok.
Proof.
  unfold _parse_config. cbv zeta.
  eapply ensures_bind; [apply agrees_ensures, require_mapping_agrees|].
  intros [] Hd. destruct data as [| | | | |d]; try done. clear Hd.
  eapply ensures_bind; [apply agrees_ensures, require_keys_agrees|].
  intros [] _.
  eapply ensures_bind; [apply agrees_ensures, reject_extra_keys_agrees|].
  intros [] _.
  section_keys mcp Hmcp. destruct Hmcp as (Hcommand & Hstartup & _).
  field v_command Hcommand. a_string v_command.
  field v_startup Hstartup. an_integer v_startup.
  checked require_non_negative_ensures Hstartup0.
  section_keys execution Hex.
  destruct Hex as (Htask & Hretries & Hfailures & Hone & _).
  field v_task Htask. an_integer v_task.
  checked require_positive_ensures Htask0.
  field v_retries Hretries. an_integer v_retries.
  checked require_non_negative_ensures Hretries0.
  field v_failures Hfailures. an_integer v_failures.
  checked require_positive_ensures Hfailures0.
  field v_one_task Hone. a_boolean v_one_task.
  destruct b; [|done]. cbn [is_not_True mbind res_bind].
  section_keys paths Hpaths. destruct Hpaths as (Hdesign & Hstate & _).
  field v_design_dir Hdesign. a_string v_design_dir.
  field v_state_dir Hstate. a_string v_state_dir.
  checked require_non_empty_ensures Hdesign0.
  checked require_non_empty_ensures Hstate0.
  section_keys validation Hval. destruct Hval as (Hstrict & Hsubset & _).
  field v_strict Hstrict. a_boolean v_strict.
  field v_subset Hsubset. a_boolean v_subset.
  destruct b0; [|done]. cbn [is_not_True mbind res_bind].
  section_keys logging_cfg Hlog. destruct Hlog as (Hlevel & Hfile & _).
  field v_level Hlevel. a_string v_level.
  field v_log_file Hfile. a_string v_log_file.
  checked require_non_empty_ensures Hlevel0.
  checked require_non_empty_ensures Hfile0.
  checked require_log_level_ensures Hlevel1.
  simpl. unfold config_ok. simpl. done.
Qed.

(** X6.  Whatever document it is given, [_parse_config] returns a
    configuration or raises [StateValidationError], nothing else.  A
    configuration it returns has a start-up timeout and a retry limit
    that are not negative, a task timeout and a ceiling of consecutive
    failures above zero, [one_task_at_a_time] and [json_subset_only]
    true, directories, a log file and a log level that are not blank,
    and a log level that is one of the five names whatever its case; so
    the retry limit [main] derives from it is 0 or 1. *)
Theorem parse_config_verdict (data : json) :
  match _parse_config data with
  | Ok c =>
      config_ok c
      ∧ (daemon.effective_max_retries c = 0
         ∨ daemon.effective_max_retries c = 1)
  | Err e => ∃ msg, e = StateValidationError msg
  end.
Proof.
  pose proof (parse_config_ensures data) as H.
  destruct (_parse_config data) as [c|e]; simpl in H.
  - split; [done|]. destruct H as (_ & _ & Hk & _).
    unfold daemon.effective_max_retries. lia.
  - destruct e; try done. eauto.
Qed.

Lemma parse_config_verdict_witness :
  config_ok (sample.config 3 2)
  ∧ (daemon.effective_max_retries (sample.config 3 2) = 0
     ∨ daemon.effective_max_retries (sample.config 3 2) = 1).
Proof. exact (parse_config_verdict (sample.config_data 3 2)). Defined.
End StoreProperties.

(** ** More on the planner *)

Section PlannerProperties.
Import Py pathlib fs state schema view effect outcome scanning layout.
Import planner shape.
Import DictFacts PlanFacts SelectFacts MutationFacts JsonRoundTrip.
Import StoreFacts SelectedFacts LoopFacts RunFacts.

(** *** Ids that are empty or repeated *)

(** X7.  On a plan of the right shape in which a task id is empty or
    occurs twice, [select_next_task] raises [PlannerError], whatever the
    statuses and dependencies of the tasks: the task map is built before
    any task is looked at. *)
Theorem select_rejects_empty_and_repeated_ids (plan : json) :
  is_plan plan = true → unique_ids (tasks_of plan) = false →
  ∃ msg, select_next_task plan = Err (PlannerError msg).
Proof.
  intros Hp Hu. unfold select_next_task.
  rewrite (is_plan_get_tasks plan Hp). simpl. unfold _task_map. simpl.
  destruct (task_map_loop_bad (tasks_of plan) (is_plan_tasks plan Hp) []
              eq_refl Hu) as [msg ->].
  eauto.
Qed.

Lemma select_rejects_empty_and_repeated_ids_witness :
  ∃ msg,
    select_next_task
      (sample.plan_of [sample.task "a" "done" [];
                       sample.task "a" "pending" []])
    = Err (PlannerError msg).
Proof.
  apply select_rejects_empty_and_repeated_ids; reflexivity.
Defined.

(** *** A task that is not in the plan *)

Lemma find_task_None (tasks : list json) id :
  find_task tasks id = None → Forall (fun u => id_of u ≠ id) tasks.
Proof.
  unfold find_task. induction tasks as [|u tasks IH]; simpl; [done|].
  destruct (String.eqb_spec (id_of u) id); [done|].
  intros H. constructor; [done|by apply IH].
Qed.

(** X8.  On a plan of the right shape that has no task with the id,
    [activate_task], [finalize_task] and [reset_task_for_retry] raise
    [PlannerError] with the message [Task not found:] and the id. *)
Theorem mutation_of_missing_task_refused (plan : json) (id : string) :
  is_plan plan = true → find_task (tasks_of plan) id = None →
  let not_found := PlannerError ("Task not found: " +:+ id) in
  (∀ seconds, activate_task plan id seconds = Err not_found)
  ∧ (∀ status, finalize_task plan id status = Err not_found)
  ∧ reset_task_for_retry plan id = Err not_found.
Proof.
  intros Hp Hnone. apply find_task_None in Hnone. cbv zeta.
  unfold activate_task, finalize_task, reset_task_for_retry.
  split; [|split]; intros; by rewrite (set_status_missing plan id _ Hp Hnone).
Qed.

Lemma mutation_of_missing_task_refused_witness :
  finalize_task sample.plan "t2" "done"
  = Err (PlannerError "Task not found: t2").
Proof.
  destruct (mutation_of_missing_task_refused sample.plan "t2" eq_refl
              eq_refl) as (_ & H & _).
  apply H.
Defined.

(** *** What a mutation changes *)

Lemma set_status_result plan id s plan' t' :
  is_plan plan = true → mem s TASK_STATUSES = true →
  set_status plan id s = Ok (plan', t') →
  ∃ t,
    find_task (tasks_of plan) id = Some t
    ∧ plan' = plan_after plan id s ∧ t' = with_status t s
    ∧ is_task t = true.
Proof.
  intros Hp Hs Hset.
  destruct (split_at_id (tasks_of plan) id)
    as [(pre & t & post & Heq & Hpre & Hid)|Hmiss].
  - assert (placed plan id t pre post) as Hpl by by split.
    destruct (plan_after_placed plan id t pre post s Hpl Hs) as [Hok _].
    rewrite Hok in Hset. injection Hset as <- <-. exists t.
    split; [|split; [done|split; [done|]]].
    + pose proof (status_in_placed plan id t pre post Hpl) as Hst.
      unfold status_in in Hst.
      unfold find_task in *. rewrite Heq. clear -Hpre Hid.
      induction Hpre as [|v pre Hv Hpre IH]; simpl.
      * by rewrite Hid, String.eqb_refl.
      * apply String.eqb_neq in Hv. by rewrite Hv.
    + by apply (placed_task plan id t pre post).
  - by rewrite (set_status_missing plan id s Hp Hmiss) in Hset.
Qed.

Lemma plan_after_status plan id s t :
  is_plan plan = true → mem s TASK_STATUSES = true →
  find_task (tasks_of plan) id = Some t → is_task t = true →
  status_in (plan_after plan id s) id = Some s.
Proof.
  intros Hp Hs Hf Ht. unfold status_in.
  destruct (plan_after_plan plan id s Hp Hs) as [_ ->].
  rewrite find_task_set_first, Hf. simpl.
  assert (id_of t = id) as <-.
  { unfold find_task in Hf. apply find_some in Hf as [_ Hf].
    by apply String.eqb_eq in Hf. }
  rewrite String.eqb_refl.
  by destruct (with_status_task t s Ht Hs) as (_ & _ & _ & _ & -> & _).
Qed.

(** X9.  [finalize_task] and [reset_task_for_retry], when they return on
    a plan of the right shape, give a plan of the right shape again: its
    tasks are the old ones with the status of the first task that has
    the id replaced, so that the ids, the order and every other task are
    as they were, and the task has the new status. *)
Theorem mutation_keeps_plan_valid (plan : json) (id status : string)
    (plan' : json) :
  is_plan plan = true → mem status TASK_STATUSES = true →
  finalize_task plan id status = Ok plan'
  ∨ (status = "pending" ∧ reset_task_for_retry plan id = Ok plan') →
  is_plan plan' = true
  ∧ tasks_of plan' = set_first (tasks_of plan) id status
  ∧ map id_of (tasks_of plan') = map id_of (tasks_of plan)
  ∧ status_in plan' id = Some status.
Proof.
  intros Hp Hs Hm.
  assert (∃ t', set_status plan id status = Ok (plan', t')) as [t' Hset].
  { destruct Hm as [Hm|[-> Hm]];
      unfold finalize_task, reset_task_for_retry in Hm;
      destruct (set_status plan id _) as [[p t']|]; try done;
      injection Hm as <-; eauto. }
  destruct (set_status_result plan id status plan' t' Hp Hs Hset)
    as (t & Hf & -> & _ & Ht).
  destruct (plan_after_plan plan id status Hp Hs) as [Hp' Ht'].
  split; [done|]. split; [done|]. split.
  - rewrite Ht'. apply ids_set_first.
  - by apply (plan_after_status plan id status t).
Qed.

Lemma mutation_keeps_plan_valid_witness :
  ∃ plan',
    finalize_task sample.chain "b" "blocked" = Ok plan'
    ∧ is_plan plan' = true
    ∧ map id_of (tasks_of plan') = ["a"; "b"; "c"]
    ∧ status_in plan' "b" = Some "blocked".
Proof.
  destruct (finalize_task sample.chain "b" "blocked") as [plan'|] eqn:E;
    [|by vm_compute in E].
  exists plan'. split; [done|].
  destruct (mutation_keeps_plan_valid sample.chain "b" "blocked" plan'
              eq_refl eq_refl (or_introl E)) as (Hp & _ & Hids & Hst).
  done.
Defined.

(** X10.  [activate_task], when it returns on a plan of the right shape,
    gives an active task that passes the validation of active tasks: it
    is the task of the plan with the status [active] and the timeout
    added.  The plan keeps the right shape, its task has the status
    [active] and no timeout: the active task is a copy. *)
Theorem activate_task_gives_valid_active_task (plan : json) (id : string)
    (seconds : Z) (plan' active : json) :
  is_plan plan = true →
  activate_task plan id seconds = Ok (plan', active) →
  is_active_task active = true
  ∧ id_of active = id ∧ status_of active = "active"
  ∧ get active "timeout_seconds" = Ok (JInt seconds)
  ∧ is_plan plan' = true
  ∧ tasks_of plan' = set_first (tasks_of plan) id "active"
  ∧ ∃ t, find_task (tasks_of plan') id = Some t
         ∧ active = with_timeout t seconds.
Proof.
  intros Hp Hact. unfold activate_task in Hact.
  destruct (set_status plan id "active") as [[p t']|] eqn:Hset; [|done].
  cbn [mbind res_bind] in Hact.
  destruct (set_status_result plan id "active" p t' Hp eq_refl Hset)
    as (t & Hf & -> & -> & Ht).
  destruct (with_status_task t "active" Ht eq_refl)
    as (Ht' & Hid & _ & _ & Hst & _).
  destruct (with_timeout_active (with_status t "active") seconds Ht')
    as [Hsetitem Hactive].
  rewrite Hsetitem in Hact. injection Hact as <- <-.
  destruct (plan_after_plan plan id "active" Hp eq_refl) as [Hp' Htasks].
  assert (id_of t = id) as Hidt.
  { unfold find_task in Hf. apply find_some in Hf as [_ Hf].
    by apply String.eqb_eq in Hf. }
  destruct (with_status t "active") as [| | | | |fields] eqn:E; try done.
  split; [done|]. split.
  { unfold id_of in *. simpl. rewrite dict_get_set_ne by done.
    simpl in Hid. by rewrite Hid. }
  split.
  { unfold status_of in *. simpl. rewrite dict_get_set_ne by done.
    simpl in Hst. by rewrite Hst. }
  split; [simpl; by rewrite dict_get_set_eq|].
  split; [done|]. split; [done|].
  exists (JObj fields). split; [|done].
  rewrite Htasks, find_task_set_first, Hf. simpl.
  by rewrite <- Hidt, String.eqb_refl, E.
Qed.

Lemma activate_task_gives_valid_active_task_witness :
  ∃ plan' active,
    activate_task sample.plan "t1" 30 = Ok (plan', active)
    ∧ is_active_task active = true
    ∧ get active "timeout_seconds" = Ok (JInt 30)
    ∧ is_plan plan' = true.
Proof.
  destruct (activate_task sample.plan "t1" 30) as [[plan' active]|] eqn:E;
    [|by vm_compute in E].
  exists plan', active. split; [done|].
  destruct (activate_task_gives_valid_active_task sample.plan "t1" 30
              plan' active eq_refl E) as (Ha & _ & _ & Ht & Hp & _).
  done.
Defined.

(** *** The progress file *)

Lemma status_by_id_fresh (items : list json) :
  Forall (fun x => getitem x "id" = Ok (JStr (id_of x))
                   ∧ getitem x "status" = Ok (JStr (status_of x))) items →
  ∀ acc,
    distinct (map fst acc ++ map id_of items) = true →
    status_by_id items acc = Ok (acc ++ statuses items).
Proof.
  induction 1 as [|x items [Hid Hst] _ IH]; intros acc Hd; simpl.
  - by rewrite app_nil_r.
  - rewrite Hid, Hst. simpl.
    apply distinct_NoDup in Hd.
    assert (id_of x ∉ map fst acc) as Hfresh.
    { apply NoDup_app in Hd as (_ & Hd & _). intros Hin.
      apply (Hd _ Hin). apply elem_of_cons. by left. }
    rewrite (dict_set_fresh _ _ _ Hfresh), IH.
    + by rewrite <- app_assoc.
    + apply distinct_NoDup. rewrite map_app. simpl.
      by rewrite <- app_assoc.
Qed.

Lemma objective_items plan :
  is_plan plan = true →
  Forall (fun x => getitem x "id" = Ok (JStr (id_of x))
                   ∧ getitem x "status" = Ok (JStr (status_of x)))
    (objectives_of plan).
Proof.
  intros Hp. eapply Forall_impl; [apply (is_plan_objectives plan Hp)|].
  intros o Ho. destruct o as [| | | | |d]; try done. simpl in Ho.
  rewrite !andb_true_iff in Ho. destruct Ho as (((_ & Hid) & _) & Hst).
  apply field_is_str in Hid. apply field_one_of in Hst as [Hst _].
  unfold getitem. simpl. by rewrite Hid, Hst.
Qed.

Lemma task_items plan :
  is_plan plan = true →
  Forall (fun x => getitem x "id" = Ok (JStr (id_of x))
                   ∧ getitem x "status" = Ok (JStr (status_of x)))
    (tasks_of plan).
Proof.
  intros Hp. eapply Forall_impl; [apply (is_plan_tasks plan Hp)|].
  intros u Hu.
  by rewrite (is_task_getitem_id u Hu), (is_task_getitem_status u Hu).
Qed.

Lemma statuses_well_formed (items : list json) :
  distinct (map id_of items) = true →
  well_formed (JObj (statuses items)) = true.
Proof.
  intros Hd. cbn [well_formed]. apply andb_true_iff. split.
  - unfold statuses. rewrite map_map. simpl. exact Hd.
  - unfold statuses. clear Hd. by induction items as [|x items IH].
Qed.

Lemma pair_well_formed (a b : json) :
  well_formed a = true → well_formed b = true →
  well_formed (JObj [("objectives", a); ("tasks", b)]) = true.
Proof. intros Ha Hb. simpl. by rewrite Ha, Hb. Qed.

(** X11.  On a plan of the right shape whose objectives have distinct ids
    and whose tasks have distinct ids, the progress that
    [Planner.write_progress] writes maps the id of each objective and of
    each task to its status, in document order, and the text written is
    read back by [json.loads] as that document. *)
Theorem progress_lists_every_status (store : StateStore) (plan : json)
    (d : disk) :
  is_plan plan = true →
  distinct (map id_of (objectives_of plan)) = true →
  distinct (map id_of (tasks_of plan)) = true →
  progress_of plan = Ok (snapshot_of plan)
  ∧ Json.loads (text_of (snapshot_of plan)) = Some (snapshot_of plan)
  ∧ (usable store d = true →
     planner.write_progress store plan d
     = (Ok tt,
        <[key (progress_path store) := File (text_of (snapshot_of plan))]>
          d)).
Proof.
  intros Hp Ho Ht.
  assert (progress_of plan = Ok (snapshot_of plan)) as Hprog.
  { unfold progress_of.
    rewrite (is_plan_get_objectives plan Hp), (is_plan_get_tasks plan Hp).
    simpl.
    rewrite (status_by_id_fresh _ (objective_items plan Hp) []) by done.
    simpl.
    by rewrite (status_by_id_fresh _ (task_items plan Hp) []) by done. }
  split; [done|]. split.
  - apply loads_dumps_newline. unfold snapshot_of.
    by apply pair_well_formed; apply statuses_well_formed.
  - intros Hu. rewrite (planner_write_progress_done store d plan Hu Hp).
    unfold progress_text. by rewrite Hprog.
Qed.

Lemma progress_lists_every_status_witness :
  progress_of sample.chain
  = Ok (JObj [("objectives", JObj [("o1", JStr "pending")]);
              ("tasks", JObj [("a", JStr "done"); ("b", JStr "pending");
                              ("c", JStr "pending")])]).
Proof.
  apply (progress_lists_every_status sample.store sample.chain
           (sample.disk_with sample.plan)); reflexivity.
Defined.

(** *** The summary *)

(** X12.  On a disk the store can work on, [append_summary] writes the
    summary file and nothing else.  The entry, closed by a newline,
    stands at the end.  When the file held text that is not blank, that
    text stands before it as the store reads it, that is with every
    carriage return, alone or before a line feed, turned into a line
    feed, stripped of its trailing white space and followed by an empty
    line, so no earlier entry is lost; when there was no file, or a
    blank one, the header stands before the entry. *)
Theorem append_summary_keeps_history (store : StateStore) (d : disk)
    (entry : string) :
  usable store d = true →
  ∃ content,
    append_summary store entry d
    = (Ok tt, <[key (summary_path store) := File content]> d)
    ∧ match d !! key (summary_path store) with
      | Some (File existing) =>
          if is_empty (strip (universal_newlines existing))
          then content = SUMMARY_HEADER +:+ closed_entry entry
          else content
               = rstrip (universal_newlines existing) +:+ newline
                 +:+ newline +:+ closed_entry entry
      | _ => content = SUMMARY_HEADER +:+ closed_entry entry
      end.
Proof.
  intros Hu. unfold append_summary.
  erewrite bind_ok; [cbv beta|reflexivity].
  pose proof (proj1 (usable_spec store d) Hu) as [_ Hat].
  destruct (Hat _ (in_written_summary store)) as [_ _ Hnd].
  fold (closed_entry entry).
  unfold exists_.
  destruct (d !! key (summary_path store)) as [[|existing]|] eqn:E;
    [done| |]; cbn [negb]; cbv iota.
  - assert (load_summary store d = (Ok (universal_newlines existing), d))
      as Hload.
    { unfold load_summary, exists_. rewrite E. by apply read_text_file. }
    destruct (is_empty (strip (universal_newlines existing))) eqn:Eb.
    + erewrite bind_ok; [cbv beta|];
        [|erewrite bind_ok; [cbv beta|exact Hload];
          rewrite Eb; reflexivity].
      eexists. split; [by apply write_summary_done|done].
    + erewrite bind_ok; [cbv beta|];
        [|erewrite bind_ok; [cbv beta|exact Hload];
          rewrite Eb; reflexivity].
      eexists. split; [by apply write_summary_done|done].
  - erewrite bind_ok; [cbv beta|reflexivity].
    eexists. split; [by apply write_summary_done|done].
Qed.

(** Without a summary file the header comes first; after a summary with
    the line ends of another system, the earlier lines come first, each
    ended by a line feed. *)
Lemma append_summary_keeps_history_witness :
  let crlf := String "013"%char newline in
  let d := <[key (summary_path sample.store) :=
               File ("a" +:+ crlf +:+ "b" +:+ crlf)]>
             (sample.disk_with sample.plan) in
  (∃ content,
     append_summary sample.store "Task t1: success"
       (sample.disk_with sample.plan)
     = (Ok tt,
        <[key (summary_path sample.store) := File content]>
          (sample.disk_with sample.plan))
     ∧ content
       = SUMMARY_HEADER +:+ ("Task t1: success" +:+ newline))
  ∧ ∃ content,
      append_summary sample.store "e" d
      = (Ok tt, <[key (summary_path sample.store) := File content]> d)
      ∧ content
        = "a" +:+ newline +:+ "b" +:+ newline +:+ newline +:+ "e"
          +:+ newline.
Proof.
  cbv zeta. split.
  - destruct (append_summary_keeps_history sample.store
                (sample.disk_with sample.plan) "Task t1: success" eq_refl)
      as (content & Hw & Hc).
    exists content. split; [exact Hw|exact Hc].
  - destruct (append_summary_keeps_history sample.store
                (<[key (summary_path sample.store) :=
                     File ("a" +:+ String "013"%char newline +:+ "b"
                           +:+ String "013"%char newline)]>
                   (sample.disk_with sample.plan)) "e")
      as (content & Hw & Hc); [vm_compute; reflexivity|].
    exists content. split; [exact Hw|].
    vm_compute in Hc. subst content. vm_compute. reflexivity.
Defined.
End PlannerProperties.

(** ** More on the control loop *)

Section LoopProperties.
Import Py pathlib fs state schema view effect outcome scanning layout.
Import planner daemon shape.
Import JsonRoundTrip StoreFacts SelectedFacts LoopFacts RunFacts.

(** *** Nothing to do *)

Lemma start_nothing_selected (store : StateStore) (config : Config)
    (d d' : disk) tr lg plan :
  exists_ d (active_task_path store) = false →
  ensure_plan store d = (Ok plan, d') →
  select_next_task plan = Ok None →
  start_iteration store config
    {| w_disk := d; w_tracker := tr; w_log := lg |}
  = (Ok None,
     {| w_disk := d'; w_tracker := tr;
        w_log := lg ++ [("INFO", "No pending tasks available. Stopping.")]
     |}).
Proof.
  intros Hidle Hplan Hsel. unfold start_iteration.
  advance reflexivity. rewrite Hidle.
  advance reflexivity.
  advance_disk (exact Hplan).
  advance (by apply lift_ok).
  reflexivity.
Qed.

Lemma run_loop_nothing_selected (store : StateStore) (config : Config)
    (project_root : Path) (agent : list mcp_client.exchange)
    (d d' : disk) tr lg plan :
  exists_ d (active_task_path store) = false →
  ensure_plan store d = (Ok plan, d') →
  select_next_task plan = Ok None →
  _run_loop store config project_root agent
    {| w_disk := d; w_tracker := tr; w_log := lg |}
  = (Ok Returned,
     {| w_disk := d'; w_tracker := tr;
        w_log := lg ++ [("INFO", "No pending tasks available. Stopping.")]
     |}).
Proof.
  intros Hidle Hplan Hsel.
  pose proof (start_nothing_selected store config d d' tr lg plan Hidle
                Hplan Hsel) as Hstart.
  destruct agent; simpl; (erewrite bind_ok; [|exact Hstart]);
    reflexivity.
Qed.

(** X13.  Started on a disk the store can work on that has neither a plan
    file nor an active task file, the loop writes the empty plan, logs
    that no task is pending and returns: the agent is not invoked and
    the tracker is as it was. *)
Theorem loop_on_fresh_state_writes_empty_plan (store : StateStore)
    (config : Config) (project_root : Path)
    (agent : list mcp_client.exchange) (d : disk) tr lg :
  usable store d = true →
  exists_ d (plan_path store) = false →
  exists_ d (active_task_path store) = false →
  _run_loop store config project_root agent
    {| w_disk := d; w_tracker := tr; w_log := lg |}
  = (Ok Returned,
     {| w_disk := <[key (plan_path store) := File (text_of empty_plan)]> d;
        w_tracker := tr;
        w_log := lg ++ [("INFO", "No pending tasks available. Stopping.")]
     |}).
Proof.
  intros Hu Hplan Hidle.
  apply (run_loop_nothing_selected _ _ _ _ _ _ _ _ empty_plan);
    [done| |done].
  unfold ensure_plan. rewrite Hplan. simpl.
  erewrite bind_ok; [reflexivity|]. by apply write_plan_done.
Qed.

Lemma loop_on_fresh_state_writes_empty_plan_witness :
  _run_loop sample.store (sample.config 1 2) sample.root
    [sample.answers (sample.result "success" [])]
    (sample.world sample.bare_disk)
  = (Ok Returned,
     {| w_disk :=
          <[key (plan_path sample.store) := File (text_of empty_plan)]>
            sample.bare_disk;
        w_tracker := watchdog.new 1 2;
        w_log := [("INFO", "No pending tasks available. Stopping.")] |}).
Proof.
  apply (loop_on_fresh_state_writes_empty_plan sample.store
           (sample.config 1 2) sample.root
           [sample.answers (sample.result "success" [])]
           sample.bare_disk (watchdog.new 1 2) []); reflexivity.
Defined.

(** X14.  When the plan on disk has no task to select (every task is
    done, failed or blocked, or waits for one that is not done), the
    loop logs that no task is pending and returns; the disk and the
    tracker are as they were and the agent is not invoked. *)
Theorem loop_without_eligible_task_returns (store : StateStore)
    (config : Config) (project_root : Path)
    (agent : list mcp_client.exchange) (d : disk) tr lg plan :
  ready store d plan → select_next_task plan = Ok None →
  _run_loop store config project_root agent
    {| w_disk := d; w_tracker := tr; w_log := lg |}
  = (Ok Returned,
     {| w_disk := d; w_tracker := tr;
        w_log := lg ++ [("INFO", "No pending tasks available. Stopping.")]
     |}).
Proof.
  intros Hr Hsel.
  apply (run_loop_nothing_selected _ _ _ _ _ _ _ _ plan); [|
    by apply ensure_plan_ready|done].
  by destruct Hr.
Qed.

Lemma done_plan_ready :
  ready sample.store
    (sample.disk_with (sample.plan_of [sample.task "t1" "done" []]))
    (sample.plan_of [sample.task "t1" "done" []]).
Proof.
  split; [by vm_compute|by vm_compute| |by vm_compute].
  exists (text_of (sample.plan_of [sample.task "t1" "done" []])).
  split; vm_compute; reflexivity.
Defined.

Lemma loop_without_eligible_task_returns_witness :
  _run_loop sample.store (sample.config 1 2) sample.root
    [sample.answers (sample.result "success" [])]
    (sample.world
       (sample.disk_with (sample.plan_of [sample.task "t1" "done" []])))
  = (Ok Returned,
     {| w_disk :=
          sample.disk_with (sample.plan_of [sample.task "t1" "done" []]);
        w_tracker := watchdog.new 1 2;
        w_log := [("INFO", "No pending tasks available. Stopping.")] |}).
Proof.
  apply (loop_without_eligible_task_returns sample.store
           (sample.config 1 2) sample.root
           [sample.answers (sample.result "success" [])]
           (sample.disk_with (sample.plan_of [sample.task "t1" "done" []]))
           (watchdog.new 1 2) []
           (sample.plan_of [sample.task "t1" "done" []])).
  - exact done_plan_ready.
  - reflexivity.
Defined.

(** *** The agent reports success, or that it is blocked *)

Section Settle.
Context (store : StateStore) (config : Config) (project_root : Path).
Context (d : disk) (tr : watchdog.RetryTracker).
Context (lg : list (string * string)).
Context (plan : json) (id : string) (active : json).
Context (line err : string) (payload : json).
Context (u : json) (pre post : list json).
Hypothesis Hu : usable store d = true.
Hypothesis Hans : answering config line payload.
Hypothesis Hresult : is_agent_result payload = true.
Hypothesis Hpolicy : policy_verdict store project_root payload = Ok tt.
Hypothesis Hplaced : placed plan id u pre post.

Let finish :=
  finish_iteration store config project_root plan id active
    (mcp_client.Answers line err)
    {| w_disk := d; w_tracker := tr; w_log := lg |}.

Lemma finish_success :
  get payload "status" = Ok (JStr "success") →
  ∃ summary,
    finish
    = (Ok tt,
       {| w_disk :=
            succeeded_disk store (answered_disk store d payload)
              (plan_after plan id "done") summary;
          w_tracker := watchdog.record_success tr id;
          w_log := lg ++ stderr_log err |}).
Proof.
  intros Hst. subst finish.
  destruct (plan_after_placed plan id u pre post "done" Hplaced eq_refl)
    as [Hset [Hp' _ _ _]].
  pose proof (answered_disk_usable store d payload Hu) as Hu1.
  destruct (daemon_append_summary_done store _ id "success" payload
              Hu1 Hresult) as [summary Hsum].
  exists summary.
  destruct (policy_verdict_ok _ _ _ Hpolicy) as (files & Hf & Hpol).
  pose proof (parse_response_dict _ _ (answering_line _ _ _ Hans)).
  to_stored_result Hans.
  advance_disk (apply write_last_result_done; auto with written).
  advance (by apply lift_ok).
  advance (by apply lift_ok).
  advance (by apply lift_ok).
  cbn [eq_str String.eqb Ascii.eqb Bool.eqb]. cbv iota.
  advance (apply lift_ok; unfold finalize_task; by rewrite Hset).
  advance reflexivity.
  advance_disk (exact Hsum).
  advance_disk (apply write_plan_done; auto with written).
  unfold succeeded_disk. apply on_disk_ok. cbn [w_disk].
  apply planner_write_progress_done; auto with written.
Qed.

Lemma finish_blocked :
  get payload "status" = Ok (JStr "blocked") →
  ∃ summary,
    finish
    = (Err (StopExecution "Codex reported blocked."),
       {| w_disk :=
            settled_disk store (answered_disk store d payload)
              (plan_after plan id "blocked") summary;
          w_tracker := tr;
          w_log := lg ++ stderr_log err |}).
Proof.
  intros Hst. subst finish.
  destruct (plan_after_placed plan id u pre post "blocked" Hplaced
              eq_refl) as [Hset [Hp' _ _ _]].
  pose proof (answered_disk_usable store d payload Hu) as Hu1.
  assert (usable store
            (<[key (progress_path store) :=
                 File (progress_text (plan_after plan id "blocked"))]>
               (<[key (plan_path store) :=
                    File (text_of (plan_after plan id "blocked"))]>
                  (answered_disk store d payload))) = true) as Hu2
    by auto with written.
  destruct (daemon_append_summary_done store _ id "blocked" payload
              Hu2 Hresult) as [summary Hsum].
  exists summary.
  destruct (policy_verdict_ok _ _ _ Hpolicy) as (files & Hf & Hpol).
  pose proof (parse_response_dict _ _ (answering_line _ _ _ Hans)).
  to_stored_result Hans.
  advance_disk (apply write_last_result_done; auto with written).
  advance (by apply lift_ok).
  advance (by apply lift_ok).
  advance (by apply lift_ok).
  cbn [eq_str String.eqb Ascii.eqb Bool.eqb]. cbv iota.
  advance (apply lift_ok; unfold finalize_task; by rewrite Hset).
  advance_disk (by apply write_plan_done).
  advance_disk (apply planner_write_progress_done; auto with written).
  advance_disk (exact Hsum).
  reflexivity.
Qed.
End Settle.

Lemma succeeded_disk_usable store d plan summary :
  usable store d = true →
  usable store (succeeded_disk store d plan summary) = true.
Proof. intros. unfold succeeded_disk. auto 10 with written. Qed.

Lemma succeeded_disk_plan store d plan summary :
  usable store d = true →
  succeeded_disk store d plan summary !! key (plan_path store)
  = Some (File (text_of plan)).
Proof.
  intros Hu. unfold succeeded_disk.
  rewrite !lookup_insert_ne by keys_ne Hu. by rewrite lookup_insert_eq.
Qed.

Lemma succeeded_disk_idle store d plan summary :
  usable store d = true →
  exists_ (succeeded_disk store d plan summary) (active_task_path store)
  = exists_ d (active_task_path store).
Proof.
  intros Hu. unfold exists_, succeeded_disk.
  by rewrite !lookup_insert_ne by keys_ne Hu.
Qed.

Lemma succeeded_disk_result store d plan summary :
  usable store d = true →
  succeeded_disk store d plan summary !! key (last_result_path store)
  = d !! key (last_result_path store).
Proof.
  intros Hu. unfold succeeded_disk.
  by rewrite !lookup_insert_ne by keys_ne Hu.
Qed.

(** X15.  A pass in which the agent answers with a result that passes
    validation and the policy check and reports [success] goes on to the
    next pass: the tracker records the success, the result file holds the
    result, the active task file is gone, the plan file has the task as
    done, and the disk is one from which the next pass can start. *)
Theorem success_pass_completes_task (store : StateStore) (config : Config)
    (project_root : Path) (d : disk) tr lg plan t line err payload :
  ready store d plan → select_next_task plan = Ok (Some t) →
  reporting store config project_root "success" line payload →
  let done := plan_after (plan_after plan (id_of t) "active") (id_of t)
                "done" in
  ∃ d',
    iteration store config project_root (mcp_client.Answers line err)
      {| w_disk := d; w_tracker := tr; w_log := lg |}
    = (Ok true,
       {| w_disk := d';
          w_tracker := watchdog.record_success tr (id_of t);
          w_log := lg ++ stderr_log err |})
    ∧ ready store d' done
    ∧ persisted_status store d' (id_of t) = Some "done"
    ∧ d' !! key (last_result_path store) = Some (File (text_of payload)).
Proof.
  intros Hr Hs [Hans Hres Hst Hpol]. cbv zeta.
  pose proof (ready_plan _ _ _ Hr) as Hp.
  destruct (select_selected plan t Hp Hs) as (pre & post & Hsel).
  pose proof (started_usable store config d plan t Hr) as Hu1.
  pose proof (placed_active store d plan t pre post Hr Hsel) as Hpl.
  destruct (finish_success store config project_root _ tr lg _ (id_of t)
              (with_timeout (with_status t "active")
                 (task_timeout_seconds config))
              line err payload _ pre post Hu1 Hans Hres Hpol Hpl Hst)
    as [summary Hfin].
  pose proof (answered_disk_usable store _ payload Hu1) as Hu2.
  destruct (plan_after_placed _ (id_of t) _ pre post "done" Hpl eq_refl)
    as [_ Hpl'].
  eexists. split; [|split; [|split]].
  - rewrite (pass_started store config project_root d tr lg plan t pre
               post line err Hr Hsel).
    erewrite bind_ok; [|exact Hfin]. reflexivity.
  - assert (well_formed
              (plan_after (plan_after plan (id_of t) "active") (id_of t)
                 "done") = true) as Hwf.
    { do 2 apply well_formed_plan_after.
      by apply (ready_well_formed store d). }
    split.
    + by apply succeeded_disk_usable.
    + rewrite succeeded_disk_idle by done. by apply answered_disk_idle.
    + eexists. split; [by apply succeeded_disk_plan|].
      by apply loads_text_of.
    + by destruct Hpl'.
  - rewrite (persisted_status_placed store _ _ (id_of t) _ pre post
               (persisted_plan_text _ _ _
                  (succeeded_disk_plan _ _ _ _ Hu2)
                  (well_formed_plan_after _ _ _
                     (well_formed_plan_after _ _ _
                        (ready_well_formed store d plan Hr))))
               Hpl').
    by rewrite (status_after plan t pre post Hsel).
  - rewrite succeeded_disk_result by done. unfold answered_disk.
    apply lookup_insert_eq.
Qed.

Lemma success_pass_completes_task_witness :
  ∃ d',
    iteration sample.store (sample.config 1 2) sample.root
      (mcp_client.Answers (text_of (sample.result "success" [])) "")
      (sample.world (sample.disk_with sample.plan))
    = (Ok true,
       {| w_disk := d';
          w_tracker := watchdog.record_success (watchdog.new 1 2) "t1";
          w_log := [] |})
    ∧ ready sample.store d'
        (plan_after (plan_after sample.plan "t1" "active") "t1" "done")
    ∧ persisted_status sample.store d' "t1" = Some "done"
    ∧ d' !! key (last_result_path sample.store)
      = Some (File (text_of (sample.result "success" []))).
Proof.
  apply (success_pass_completes_task sample.store (sample.config 1 2)
           sample.root (sample.disk_with sample.plan) (watchdog.new 1 2)
           [] sample.plan (sample.task "t1" "pending" [])
           (text_of (sample.result "success" [])) ""
           (sample.result "success" [])).
  - apply sample_ready. by left.
  - vm_compute. reflexivity.
  - apply sample_reporting; [by left|reflexivity].
Defined.

(** X16.  When the agent answers with a result that passes validation
    and the policy check and reports [blocked], the loop stops with the
    message [Codex reported blocked.] whatever the agent would do next:
    the tracker is as it was, the active task file is gone, the result
    file holds the result and the plan file has the task as blocked. *)
Theorem blocked_pass_stops_loop (store : StateStore) (config : Config)
    (project_root : Path) (d : disk) tr lg plan t line err payload agent :
  ready store d plan → select_next_task plan = Ok (Some t) →
  reporting store config project_root "blocked" line payload →
  ∃ d',
    _run_loop store config project_root
      (mcp_client.Answers line err :: agent)
      {| w_disk := d; w_tracker := tr; w_log := lg |}
    = (Err (StopExecution "Codex reported blocked."),
       {| w_disk := d'; w_tracker := tr; w_log := lg ++ stderr_log err |})
    ∧ exists_ d' (active_task_path store) = false
    ∧ persisted_status store d' (id_of t) = Some "blocked"
    ∧ d' !! key (last_result_path store) = Some (File (text_of payload)).
Proof.
  intros Hr Hs [Hans Hres Hst Hpol].
  pose proof (ready_plan _ _ _ Hr) as Hp.
  destruct (select_selected plan t Hp Hs) as (pre & post & Hsel).
  pose proof (started_usable store config d plan t Hr) as Hu1.
  pose proof (placed_active store d plan t pre post Hr Hsel) as Hpl.
  destruct (finish_blocked store config project_root _ tr lg _ (id_of t)
              (with_timeout (with_status t "active")
                 (task_timeout_seconds config))
              line err payload _ pre post Hu1 Hans Hres Hpol Hpl Hst)
    as [summary Hfin].
  destruct (settled_state store config d plan t pre post payload Hr Hsel
              "blocked" summary eq_refl) as (_ & Hidle & _ & _ & Hstatus).
  eexists. split; [|split; [|split]].
  - rewrite run_loop_iteration. erewrite bind_err; [reflexivity|].
    rewrite (pass_started store config project_root d tr lg plan t pre
               post line err Hr Hsel).
    erewrite bind_err; [reflexivity|exact Hfin].
  - exact Hidle.
  - exact Hstatus.
  - pose proof (answered_disk_usable store _ payload Hu1) as Hu2.
    unfold settled_disk. rewrite !lookup_insert_ne by keys_ne Hu2.
    unfold answered_disk. apply lookup_insert_eq.
Qed.

Lemma blocked_pass_stops_loop_witness :
  ∃ d',
    _run_loop sample.store (sample.config 1 2) sample.root
      [mcp_client.Answers (text_of (sample.result "blocked" [])) ""]
      (sample.world (sample.disk_with sample.plan))
    = (Err (StopExecution "Codex reported blocked."),
       {| w_disk := d'; w_tracker := watchdog.new 1 2; w_log := [] |})
    ∧ exists_ d' (active_task_path sample.store) = false
    ∧ persisted_status sample.store d' "t1" = Some "blocked"
    ∧ d' !! key (last_result_path sample.store)
      = Some (File (text_of (sample.result "blocked" []))).
Proof.
  apply (blocked_pass_stops_loop sample.store (sample.config 1 2)
           sample.root (sample.disk_with sample.plan) (watchdog.new 1 2)
           [] sample.plan (sample.task "t1" "pending" [])
           (text_of (sample.result "blocked" [])) ""
           (sample.result "blocked" []) []).
  - apply sample_ready. by left.
  - vm_compute. reflexivity.
  - apply sample_reporting; [by left|reflexivity].
Defined.

(** *** The agent gives no result *)

Lemma active_file_stops (store : StateStore) (config : Config)
    (project_root : Path) (agent : list mcp_client.exchange) (w : World) :
  exists_ (w_disk w) (active_task_path store) = true →
  _run_loop store config project_root agent w
  = (Err (StopExecution
            "ACTIVE_TASK.yaml exists; manual intervention required."), w).
Proof.
  intros Hlock.
  assert (start_iteration store config w
          = (Err (StopExecution
                    "ACTIVE_TASK.yaml exists; manual intervention required."),
             w)) as Hstart.
  { unfold start_iteration. advance reflexivity. rewrite Hlock.
    by erewrite bind_err. }
  destruct agent; simpl; by erewrite bind_err.
Qed.

Lemma started_disk_active store d plan active :
  started_disk store d plan active !! key (active_task_path store)
  = Some (File (text_of active)).
Proof. unfold started_disk. apply lookup_insert_eq. Qed.

Section NoResult.
Context (store : StateStore) (config : Config) (project_root : Path).
Context (d : disk) (tr : watchdog.RetryTracker).
Context (lg : list (string * string)).
Context (plan t : json) (pre post : list json).
Hypothesis Hr : ready store d plan.
Hypothesis Hsel : selected plan t pre post.
Hypothesis Hcmd : is_empty (strip (mcp_command config)) = false.

Let plan_a := plan_after plan (id_of t) "active".
Let active :=
  with_timeout (with_status t "active") (task_timeout_seconds config).
Let w1 :=
  {| w_disk := started_disk store d plan_a active; w_tracker := tr;
     w_log := lg |}.

Lemma loop_no_result x e agent :
  mcp_client.run_task
    {| mcp_client.command := mcp_command config;
       mcp_client.startup_timeout_seconds := startup_timeout_seconds config;
       mcp_client.task_timeout_seconds := task_timeout_seconds config |}
    (JObj [("task", active)]) x = Err e →
  _run_loop store config project_root (x :: agent)
    {| w_disk := d; w_tracker := tr; w_log := lg |}
  = (Err match e with
         | MCPTimeoutError msg => StopExecution msg
         | _ => e
         end, w1).
Proof.
  intros Hrun. simpl.
  erewrite bind_ok;
    [|by apply (start_iteration_selected _ _ _ _ _ plan t pre post)].
  cbv beta iota zeta. erewrite bind_err; [reflexivity|].
  unfold finish_iteration.
  advance (unfold lift, mcp_client.MCPClient_init; by rewrite Hcmd).
  erewrite bind_err; [reflexivity|].
  fold active. rewrite Hrun. by destruct e.
Qed.

Lemma active_well_formed : well_formed active = true.
Proof.
  pose proof (well_formed_field "tasks" plan
                (ready_well_formed _ _ _ Hr)) as Hts.
  fold (tasks_of plan) in Hts. rewrite (sel_tasks _ _ _ _ Hsel) in Hts.
  rewrite forallb_app in Hts. apply andb_true_iff in Hts as [_ Hts].
  simpl in Hts. apply andb_true_iff in Hts as [Ht _].
  pose proof (well_formed_with_status t "active" Ht) as Hw.
  subst active. unfold with_timeout.
  destruct (with_status t "active"); try done.
  by apply well_formed_set.
Qed.

Lemma started_state :
  load_active_task store (w_disk w1) = (Ok active, w_disk w1)
  ∧ persisted_status store (w_disk w1) (id_of t) = Some "active".
Proof.
  pose proof Hr as [Hu _ _ Hp]. split.
  - destruct (activate_task_selected plan t pre post
                (task_timeout_seconds config) Hp Hsel) as [_ Hact].
    fold active in Hact. unfold load_active_task.
    erewrite bind_ok;
      [|apply read_json_object_done;
        [apply started_disk_active|apply active_well_formed
        |by destruct active]].
    cbv beta.
    erewrite bind_ok; [|by apply checked, SchemaFacts.validate_active_task_ok].
    reflexivity.
  - apply (answered_state store config d plan t pre post Hr Hsel).
    reflexivity.
Qed.
End NoResult.

(** X17.  When the agent is invoked and no line comes within the time
    allowed, the loop stops with the message of the timeout, whatever the
    agent would do next.  Nothing is cleaned up: the disk is the one
    written when the pass began, the active task file holds the active
    task and the plan has the task as active.  Every later run on that
    disk stops at the active task file before it reads the plan, and
    leaves everything as it was. *)
Theorem timeout_keeps_active_task (store : StateStore) (config : Config)
    (project_root : Path) (d : disk) tr lg plan t agent :
  ready store d plan → select_next_task plan = Ok (Some t) →
  invocable config →
  let active :=
    with_timeout (with_status t "active") (task_timeout_seconds config) in
  let d1 :=
    started_disk store d (plan_after plan (id_of t) "active") active in
  _run_loop store config project_root (mcp_client.Silent :: agent)
    {| w_disk := d; w_tracker := tr; w_log := lg |}
  = (Err (StopExecution "Timed out waiting for MCP response."),
     {| w_disk := d1; w_tracker := tr; w_log := lg |})
  ∧ load_active_task store d1 = (Ok active, d1)
  ∧ persisted_status store d1 (id_of t) = Some "active"
  ∧ ∀ (config' : Config) (project_root' : Path) agent' tr' lg',
      let next := {| w_disk := d1; w_tracker := tr'; w_log := lg' |} in
      _run_loop store config' project_root' agent' next
      = (Err (StopExecution
                "ACTIVE_TASK.yaml exists; manual intervention required."),
         next).
Proof.
  intros Hr Hs [Hcmd Hstartup]. cbv zeta.
  pose proof (ready_plan _ _ _ Hr) as Hp.
  destruct (select_selected plan t Hp Hs) as (pre & post & Hsel).
  destruct (started_state store config d tr lg plan t pre post Hr Hsel)
    as [Hload Hstatus].
  split; [|split; [|split]]; [|exact Hload|exact Hstatus|].
  - rewrite (loop_no_result store config project_root d tr lg plan t pre
               post Hr Hsel Hcmd mcp_client.Silent
               (MCPTimeoutError "Timed out waiting for MCP response."));
      [done|].
    unfold mcp_client.run_task. cbn [is_dict negb mcp_client.startup_timeout_seconds].
    by apply Z.ltb_ge in Hstartup as ->.
  - intros config' project_root' agent' tr' lg'. apply active_file_stops.
    unfold exists_. cbn [w_disk]. by rewrite started_disk_active.
Qed.

Lemma timeout_keeps_active_task_witness :
  let active :=
    with_timeout (with_status (sample.task "t1" "pending" []) "active") 30 in
  let d1 :=
    started_disk sample.store (sample.disk_with sample.plan)
      (plan_after sample.plan "t1" "active") active in
  _run_loop sample.store (sample.config 1 2) sample.root
    [mcp_client.Silent] (sample.world (sample.disk_with sample.plan))
  = (Err (StopExecution "Timed out waiting for MCP response."),
     {| w_disk := d1; w_tracker := watchdog.new 1 2; w_log := [] |})
  ∧ load_active_task sample.store d1 = (Ok active, d1)
  ∧ persisted_status sample.store d1 "t1" = Some "active"
  ∧ ∀ (config' : Config) (project_root' : Path) agent' tr' lg',
      let next := {| w_disk := d1; w_tracker := tr'; w_log := lg' |} in
      _run_loop sample.store config' project_root' agent' next
      = (Err (StopExecution
                "ACTIVE_TASK.yaml exists; manual intervention required."),
         next).
Proof.
  apply (timeout_keeps_active_task sample.store (sample.config 1 2)
           sample.root (sample.disk_with sample.plan) (watchdog.new 1 2)
           [] sample.plan (sample.task "t1" "pending" []) []).
  - apply sample_ready. by left.
  - vm_compute. reflexivity.
  - split; [reflexivity|simpl; lia].
Defined.

(** X18.  When the agent cannot be started, has exited when the client
    first looks, or answers with a line that is not the text of a JSON
    object, [main] logs [MCP error:] with the message of the client, then
    its exit, and returns.  The disk is the one written when the pass
    began, so the active task file stays, and the tracker is the new
    one: the failure is not counted. *)
Theorem agent_failure_is_logged (store : StateStore) (config : Config)
    (project_root : Path) (d : disk) tr0 lg0 plan t x msg agent :
  ready store d plan → select_next_task plan = Ok (Some t) →
  is_empty (strip (mcp_command config)) = false →
  match x with
  | mcp_client.SpawnFails why =>
      msg = "Failed to start MCP command: " +:+ why
  | mcp_client.ExitsAtStartup => msg = "MCP process exited during startup."
  | mcp_client.Answers line _ =>
      0 <= startup_timeout_seconds config
      ∧ mcp_client._parse_response line = Err (MCPProtocolError msg)
  | mcp_client.Silent => False
  end →
  let active :=
    with_timeout (with_status t "active") (task_timeout_seconds config) in
  let d1 :=
    started_disk store d (plan_after plan (id_of t) "active") active in
  run store config project_root (x :: agent)
    {| w_disk := d; w_tracker := tr0; w_log := lg0 |}
  = (Ok Returned,
     {| w_disk := d1;
        w_tracker :=
          watchdog.new (effective_max_retries config)
            (max_consecutive_failures config);
        w_log :=
          (lg0 ++ clamp_log config)
          ++ [("ERROR", "MCP error: " +:+ msg);
              ("INFO", "Shepherd exiting.")] |})
  ∧ load_active_task store d1 = (Ok active, d1).
Proof.
  intros Hr Hs Hcmd Hx. cbv zeta.
  pose proof (ready_plan _ _ _ Hr) as Hp.
  destruct (select_selected plan t Hp Hs) as (pre & post & Hsel).
  destruct (started_state store config d tr0 lg0 plan t pre post Hr Hsel)
    as [Hload _].
  split; [|exact Hload].
  rewrite run_entered. unfold guarded_loop, entered.
  cbn [w_disk w_tracker w_log].
  assert (∃ e,
            mcp_client.run_task
              {| mcp_client.command := mcp_command config;
                 mcp_client.startup_timeout_seconds :=
                   startup_timeout_seconds config;
                 mcp_client.task_timeout_seconds :=
                   task_timeout_seconds config |}
              (JObj [("task",
                      with_timeout (with_status t "active")
                        (task_timeout_seconds config))]) x = Err e
            ∧ (e = MCPProcessError msg ∨ e = MCPProtocolError msg))
    as (e & Hrun & He).
  { unfold mcp_client.run_task.
    cbn [is_dict negb mcp_client.startup_timeout_seconds].
    destruct x as [why| | |line err].
    - subst msg. eauto.
    - subst msg. eauto.
    - done.
    - destruct Hx as [Hstartup Hparse].
      apply Z.ltb_ge in Hstartup as ->. rewrite Hparse. eauto. }
  rewrite (loop_no_result store config project_root d _ _ plan t pre post
             Hr Hsel Hcmd x e agent Hrun).
  destruct He as [-> | ->];
    unfold mbind, M_bind, logger, mret, M_ret; simpl;
    by rewrite <- app_assoc.
Qed.

Lemma agent_failure_is_logged_witness :
  let active :=
    with_timeout (with_status (sample.task "t1" "pending" []) "active") 30 in
  let d1 :=
    started_disk sample.store (sample.disk_with sample.plan)
      (plan_after sample.plan "t1" "active") active in
  run sample.store (sample.config 1 2) sample.root
    [mcp_client.Answers "[1, 2]" ""]
    (sample.world (sample.disk_with sample.plan))
  = (Ok Returned,
     {| w_disk := d1;
        w_tracker := watchdog.new 1 2;
        w_log :=
          [("ERROR", "MCP error: MCP response must be a JSON object.");
           ("INFO", "Shepherd exiting.")] |})
  ∧ load_active_task sample.store d1 = (Ok active, d1).
Proof.
  apply (agent_failure_is_logged sample.store (sample.config 1 2)
           sample.root (sample.disk_with sample.plan) (watchdog.new 1 2)
           [] sample.plan (sample.task "t1" "pending" [])
           (mcp_client.Answers "[1, 2]" "")
           "MCP response must be a JSON object." []).
  - apply sample_ready. by left.
  - vm_compute. reflexivity.
  - reflexivity.
  - split; [simpl; lia|vm_compute; reflexivity].
Defined.
End LoopProperties.

(** ** The client of the agent *)

Section ClientProperties.
Import Py mcp_client.

(** X20.  When [run_task] returns, the request was a dictionary, the
    start-up timeout is not negative, the process answered with a line
    that is not empty, and the payload of the result is the dictionary
    that line is the text of, beside what the process wrote to its error
    stream. *)
Theorem run_task_result_is_decoded_object (self : MCPClient)
    (request : json) (x : exchange) (r : MCPResult) :
  run_task self request x = Ok r →
  is_dict request = true ∧ 0 <= startup_timeout_seconds self
  ∧ is_dict (payload r) = true
  ∧ ∃ line, x = Answers line (stderr r) ∧ is_empty line = false
            ∧ Json.loads line = Some (payload r).
Proof.
  unfold run_task. destruct (is_dict request); simpl; [|done].
  destruct x as [why| | |line err]; try done.
  - by destruct (startup_timeout_seconds self <? 0).
  - destruct (Z.ltb_spec (startup_timeout_seconds self) 0); [done|].
    unfold _parse_response. destruct (is_empty line) eqn:El; [done|].
    destruct (Json.loads line) as [data|] eqn:E; [|done].
    destruct (is_dict data) eqn:Ed; simpl; [|done].
    intros [= <-]. simpl. repeat split; try done; try lia.
    by exists line.
Qed.

Lemma run_task_result_is_decoded_object_witness :
  let answer := JObj [("status", JStr "success")] in
  let r := {| payload := answer; stderr := "warn" |} in
  is_dict (payload r) = true
  ∧ ∃ line,
      Answers (Json.dumps answer) "warn" = Answers line (stderr r)
      ∧ Json.loads line = Some (payload r).
Proof.
  cbv zeta.
  destruct (run_task_result_is_decoded_object
              {| command := "agent"; startup_timeout_seconds := 0;
                 task_timeout_seconds := 30 |}
              (JObj [])
              (Answers (Json.dumps (JObj [("status", JStr "success")]))
                 "warn")
              {| payload := JObj [("status", JStr "success")];
                 stderr := "warn" |})
    as (_ & _ & Hd & line & Hx & _ & Hl); [vm_compute; reflexivity|].
  split; [exact Hd|]. exists line. by split.
Defined.
End ClientProperties.

(** ** The retry tracker *)

Section TrackerProperties.
Import watchdog.

(** X21.  After a success of a task and then [n] failures of it in a
    row, whatever the tracker held before, the tracker counts [n]
    consecutive failures and [n] attempts of the task: the task can be
    retried exactly when [n] is at most the retry limit, and the ceiling
    is reached exactly when [n] is at least the ceiling.  The attempts of
    the other tasks and the two limits are as they were. *)
Theorem failures_since_success (tr : RetryTracker) (id : string)
    (n : nat) :
  let t := Nat.iter n (fun t => record_failure t id) (record_success tr id) in
  consecutive_failures t = Z.of_nat n
  ∧ default 0 (attempts t !! id) = Z.of_nat n
  ∧ can_retry t id = (Z.of_nat n <=? max_retries_per_task tr)
  ∧ too_many_consecutive_failures t
    = (max_consecutive_failures tr <=? Z.of_nat n)
  ∧ max_retries_per_task t = max_retries_per_task tr
  ∧ max_consecutive_failures t = max_consecutive_failures tr
  ∧ ∀ other, other ≠ id → attempts t !! other = attempts tr !! other.
Proof.
  cbv zeta.
  assert (consecutive_failures
            (Nat.iter n (fun t => record_failure t id)
               (record_success tr id)) = Z.of_nat n
          ∧ default 0
              (attempts (Nat.iter n (fun t => record_failure t id)
                           (record_success tr id)) !! id) = Z.of_nat n
          ∧ max_retries_per_task
              (Nat.iter n (fun t => record_failure t id)
                 (record_success tr id)) = max_retries_per_task tr
          ∧ max_consecutive_failures
              (Nat.iter n (fun t => record_failure t id)
                 (record_success tr id)) = max_consecutive_failures tr
          ∧ ∀ other, other ≠ id →
              attempts (Nat.iter n (fun t => record_failure t id)
                          (record_success tr id)) !! other
              = attempts tr !! other) as (Hc & Ha & Hr & Hm & Ho).
  { induction n as [|n (Hc & Ha & Hr & Hm & Ho)].
    - simpl. rewrite lookup_delete_eq.
      do 4 (split; [done|]).
      intros other Hne. by rewrite lookup_delete_ne.
    - rewrite Nat.iter_succ. cbn [record_failure consecutive_failures
        attempts max_retries_per_task max_consecutive_failures].
      rewrite lookup_insert_eq, Hc, Ha. cbn [default].
      split; [lia|]. split; [unfold Datatypes.id; lia|].
      do 2 (split; [done|]).
      intros other Hne. rewrite lookup_insert_ne by done. by apply Ho. }
  unfold can_retry, too_many_consecutive_failures.
  rewrite Hc, Ha, Hr, Hm. done.
Qed.
End TrackerProperties.

(** ** The policy enforcer and the order of the entries *)

Section PolicyOrder.
Import Py pathlib policies.
Import policy_rule.

Lemma compare_le_trans (a b c : string) :
  String.compare a b ≠ Gt → String.compare b c ≠ Gt →
  String.compare a c ≠ Gt.
Proof.
  revert b c. induction a as [|x a IH]; intros [|y b] [|z c]; simpl;
    try done.
  unfold Ascii.compare.
  destruct (N.compare_spec (N_of_ascii x) (N_of_ascii y)) as [E1|L1|G1];
    try done;
    destruct (N.compare_spec (N_of_ascii y) (N_of_ascii z)) as [E2|L2|G2];
    try done.
  - rewrite E1, E2, N.compare_refl. apply IH.
  - intros _ _. rewrite E1. apply N.compare_lt_iff in L2. by rewrite L2.
  - intros _ _. rewrite <- E2. apply N.compare_lt_iff in L1.
    by rewrite L1.
  - intros _ _.
    assert (N_of_ascii x < N_of_ascii z)%N as L by lia.
    apply N.compare_lt_iff in L. by rewrite L.
Qed.

#[local] Instance str_le_transitive : Transitive str_le.
Proof.
  intros a b c. unfold str_le, String.leb.
  pose proof (compare_le_trans a b c) as H.
  destruct (String.compare a b), (String.compare b c),
    (String.compare a c); try done; intros _ _; by destruct H.
Qed.

#[local] Instance str_le_antisymm : AntiSymm (=) str_le.
Proof. intros a b. unfold str_le. apply String.leb_antisym. Qed.

Lemma sorted_Permutation_eq (l1 l2 : list string) :
  l1 ≡ₚ l2 → sorted l1 = sorted l2.
Proof.
  intros H. apply (Sorted_unique str_le).
  - apply sorted_Sorted.
  - apply sorted_Sorted.
  - by rewrite !sorted_Permutation.
Qed.

Lemma filter_Permutation_strings (p : string → bool) (l1 l2 : list string) :
  l1 ≡ₚ l2 → List.filter p l1 ≡ₚ List.filter p l2.
Proof.
  induction 1 as [|x l1 l2 _ IH|x y l|l1 l2 l3 _ IH1 _ IH2]; simpl.
  - done.
  - destruct (p x); [by constructor|done].
  - destruct (p x), (p y); try done. apply perm_swap.
  - by etrans.
Qed.

Lemma strings_Permutation (names names' : list string) :
  map JStr names ≡ₚ map JStr names' → names ≡ₚ names'.
Proof.
  intros H. apply (Permutation_map view.unstr) in H.
  assert (∀ l, map view.unstr (map JStr l) = l) as Hback.
  { induction l as [|s l IH]; simpl; congruence. }
  by rewrite !Hback in H.
Qed.

Lemma resolvable_Permutation (files files' : list json) :
  files ≡ₚ files' →
  Forall (fun v => resolvable v = true) files →
  Forall (fun v => resolvable v = true) files'.
Proof. by intros <-. Qed.

(** X22.  The verdict of the policy enforcer does not depend on the order
    of the entries when they are all strings, and when no string among
    them holds a NUL character: on two such lists with the same entries
    it returns on both or raises the same exception, with the same
    message, on both.  (A list with both an entry that is not a string
    and a string with a NUL character is stopped by whichever comes
    first.) *)
Theorem policy_verdict_ignores_order (files files' : list json)
    (root design state : Path) :
  files ≡ₚ files' →
  Forall (fun v => is_str v = true) files
  ∨ Forall (fun v => is_str v = true → resolvable v = true) files →
  assert_no_forbidden_changes (JList files) root design state
  = assert_no_forbidden_changes (JList files') root design state.
Proof.
  intros Hperm Hkind.
  destruct (has_nul design) eqn:Hd;
    [by unfold assert_no_forbidden_changes, resolve_checked; rewrite Hd|].
  destruct (has_nul state) eqn:Hs;
    [by unfold assert_no_forbidden_changes, resolve_checked;
       rewrite Hd, Hs|].
  destruct (has_nul root) eqn:Hr;
    [by unfold assert_no_forbidden_changes, resolve_checked;
       rewrite Hd, Hs, Hr|].
  rewrite !assert_unfolded by done.
  assert (∃ b, ∀ x, x ∈ files → resolvable x = false → is_str x = b)
    as [b Hstop].
  { destruct Hkind as [Hall|Hall]; rewrite Forall_forall in Hall.
    - exists true. intros x Hx _. by apply Hall.
    - exists false. intros x Hx Hbad. specialize (Hall x Hx).
      destruct (is_str x); [|done]. by rewrite Hall in Hbad. }
  destruct (first_unresolvable files)
    as [Hall|(pre & x & post & Hf & Hpre & Hx)],
      (first_unresolvable files')
    as [Hall'|(pre' & x' & post' & Hf' & Hpre' & Hx')].
  - destruct (resolvable_strings files Hall) as (names & -> & Hn).
    destruct (resolvable_strings files' Hall') as (names' & -> & Hn').
    rewrite !forbidden_loop_strings by done. cbn [app mbind res_bind].
    pose proof (filter_Permutation_strings (forbidden root design state)
                  names names' (strings_Permutation _ _ Hperm)) as Hp.
    destruct (List.filter _ names) as [|s l] eqn:E1,
      (List.filter _ names') as [|s' l'] eqn:E2.
    + done.
    + by apply Permutation_nil_cons in Hp.
    + symmetry in Hp. by apply Permutation_nil_cons in Hp.
    + by rewrite (sorted_Permutation_eq _ _ Hp).
  - pose proof (resolvable_Permutation files files' Hperm Hall) as Hall'.
    rewrite Forall_forall in Hall'. rewrite Hall' in Hx'; [done|].
    rewrite Hf'. set_solver.
  - symmetry in Hperm.
    pose proof (resolvable_Permutation files' files Hperm Hall') as Hall.
    rewrite Forall_forall in Hall. rewrite Hall in Hx; [done|].
    rewrite Hf. set_solver.
  - assert (is_str x = is_str x') as Hsame.
    { rewrite (Hstop x), (Hstop x'); try done.
      - rewrite Hperm, Hf'. set_solver.
      - rewrite Hf. set_solver. }
    rewrite Hf, Hf'.
    rewrite (forbidden_loop_stops root design state pre x post [] Hr
               Hpre Hx).
    rewrite (forbidden_loop_stops root design state pre' x' post' [] Hr
               Hpre' Hx').
    by rewrite Hsame.
Qed.

(** Two orders of the same names give the same violation; with an entry
    that is not a string and a name that holds a NUL character, the
    order decides. *)
Lemma policy_verdict_ignores_order_witness :
  assert_no_forbidden_changes
    (JList (map JStr ["design/spec.md"; "src/a"; "../x"]))
    sample.root (state.design_dir sample.store) (state.ai_dir sample.store)
  = assert_no_forbidden_changes
      (JList (map JStr ["../x"; "design/spec.md"; "src/a"]))
      sample.root (state.design_dir sample.store)
      (state.ai_dir sample.store)
  ∧ assert_no_forbidden_changes
      (JList [JStr (String "000"%char "x"); JInt 3])
      sample.root (state.design_dir sample.store)
      (state.ai_dir sample.store)
    ≠ assert_no_forbidden_changes
        (JList [JInt 3; JStr (String "000"%char "x")])
        sample.root (state.design_dir sample.store)
        (state.ai_dir sample.store).
Proof.
  split.
  - apply (policy_verdict_ignores_order
             (map JStr ["design/spec.md"; "src/a"; "../x"])
             (map JStr ["../x"; "design/spec.md"; "src/a"])).
    + apply (Permutation_cons_app [JStr "../x"] [JStr "src/a"]).
      apply perm_swap.
    + left. by repeat constructor.
  - vm_compute. discriminate.
Defined.
End PolicyOrder.

(** ** The store and its files *)

Section StoreLayout.
Import Py pathlib fs state layout shape StoreFacts.

(** X23.  [clear_active_task] either returns, and then the disk is the
    one it was given without the active task file, that file is not
    there, and clearing again changes nothing; or it raises, and then
    the disk is as it was and something stands at the path of the active
    task file: the store refuses to write there, or a directory stands
    there. *)
Theorem clear_active_task_removes_only_lock (store : StateStore)
    (d : disk) :
  match clear_active_task store d with
  | (Ok _, d') =>
      d' = delete (key (active_task_path store)) d
      ∧ exists_ d' (active_task_path store) = false
      ∧ clear_active_task store d' = (Ok tt, d')
  | (Err e, d') =>
      d' = d ∧ exists_ d (active_task_path store) = true
      ∧ (_ensure_writable_path (active_task_path store) store = Err e
         ∨ d !! key (active_task_path store) = Some Dir)
  end.
Proof.
  unfold clear_active_task, exists_.
  destruct (d !! key (active_task_path store)) as [[|content]|] eqn:E.
  - unfold mbind, M_bind, lift.
    destruct (_ensure_writable_path _ store) as [[]|e]; [|by auto].
    unfold unlink. rewrite E. auto.
  - unfold mbind, M_bind, lift.
    destruct (_ensure_writable_path _ store) as [[]|e]; [|by auto].
    unfold unlink. rewrite E. rewrite lookup_delete_eq. done.
  - rewrite delete_id by done. by rewrite E.
Qed.

(** *** The default layout *)

Lemma normalize_plain stack l :
  Forall (fun x => x ≠ "..") l → normalize stack l = rev stack ++ l.
Proof.
  intros H. revert stack.
  induction H as [|x l Hx _ IH]; intros stack; simpl.
  - by rewrite app_nil_r.
  - apply String.eqb_neq in Hx. rewrite Hx, IH. simpl.
    by rewrite <- app_assoc.
Qed.

Lemma normalize_no_parent stack l :
  Forall (fun x => x ≠ "..") stack →
  Forall (fun x => x ≠ "..") (normalize stack l).
Proof.
  revert stack. induction l as [|x l IH]; intros stack Hs; simpl.
  - by apply Forall_rev.
  - destruct (String.eqb_spec x "..").
    + apply IH. by destruct Hs.
    + apply IH. by constructor.
Qed.

Lemma key_under (root : Path) (l : list string) :
  Forall (fun x => x ≠ "..") l →
  key {| is_absolute := true; parts := parts (resolve root) ++ l |}
  = parts (resolve root) ++ l.
Proof.
  intros Hl. unfold key, resolve. cbn [parts].
  rewrite normalize_plain; [done|]. apply Forall_app. split; [|done].
  apply normalize_no_parent. constructor.
Qed.

Lemma is_prefix_app (p a b : list string) :
  is_prefix (p ++ a) (p ++ b) = is_prefix a b.
Proof.
  induction p as [|x p IH]; simpl; [done|].
  by rewrite String.eqb_refl.
Qed.

Lemma state_file (root : Path) (dir file : string) :
  of_str dir = {| is_absolute := false; parts := [dir] |} →
  of_str file = {| is_absolute := false; parts := [file] |} →
  join (join (resolve root) dir) file
  = {| is_absolute := true; parts := parts (resolve root) ++ [dir; file] |}.
Proof.
  intros Hd Hf. unfold join, joinpath. rewrite Hd, Hf. simpl.
  by rewrite <- app_assoc.
Qed.

Lemma removelast_two (p : list string) (a b : string) :
  removelast (p ++ [a; b]) = p ++ [a].
Proof.
  change [a; b] with ([a] ++ [b]). rewrite app_assoc.
  by rewrite removelast_last.
Qed.

(** X24.  The store that [StateStore(project_root)] builds with the
    default directories can work on every disk where its state directory
    is a directory and none of its five files is one: the five files are
    five different files of the state directory, none of them is
    read-only, and the three inputs (configuration, goals, sources) are
    read-only. *)
Theorem default_store_usable (d : disk) (root : Path)
    (strict subset : bool) (store : StateStore) :
  StateStore_init d root AI_DIRNAME DESIGN_DIRNAME None strict subset
  = Ok store →
  d !! key (ai_dir store) = Some Dir →
  Forall (fun p => d !! key p ≠ Some Dir) (written_paths store) →
  usable store d = true
  ∧ Forall (fun p => parent p = ai_dir store) (written_paths store)
  ∧ Forall (fun p => is_read_only_path store p = true
                     ∧ is_writable_path store p = false)
      [config_path store; goals_path store; sources_path store].
Proof.
  unfold StateStore_init. destruct (negb _); [done|]. cbv zeta.
  intros [= <-]. unfold written_paths.
  cbn [ai_dir plan_path active_task_path summary_path last_result_path
       progress_path config_path goals_path sources_path].
  rewrite !state_file by done.
  assert (join (resolve root) AI_DIRNAME
          = {| is_absolute := true;
               parts := parts (resolve root) ++ [AI_DIRNAME] |}) as Hai
    by done.
  rewrite Hai. intros Hdir Hfiles.
  assert (∀ file,
            parent {| is_absolute := true;
                      parts := parts (resolve root) ++ [AI_DIRNAME; file] |}
            = {| is_absolute := true;
                 parts := parts (resolve root) ++ [AI_DIRNAME] |})
    as Hparent.
  { intros file. unfold parent. cbn [is_absolute parts].
    by rewrite removelast_two. }
  assert (∀ file, file ≠ ".." →
            resolve {| is_absolute := true;
                       parts := parts (resolve root) ++ [AI_DIRNAME; file] |}
            = {| is_absolute := true;
                 parts := parts (resolve root) ++ [AI_DIRNAME; file] |})
    as Hres.
  { intros file Hne.
    pose proof (key_under root [AI_DIRNAME; file]) as Hk.
    unfold key in Hk. unfold resolve at 1. cbn [parts]. f_equal.
    apply Hk. by repeat constructor. }
  assert (∀ file file', file ≠ file' →
            {| is_absolute := true;
               parts := parts (resolve root) ++ [AI_DIRNAME; file] |}
            ≠ {| is_absolute := true;
                 parts := parts (resolve root) ++ [AI_DIRNAME; file'] |})
    as Hne.
  { intros file file' Hff [= E]. apply app_inv_head in E. congruence. }
  assert (∀ file,
            _is_within
              {| is_absolute := true;
                 parts := parts (resolve root) ++ [AI_DIRNAME; file] |}
              (resolve (join (resolve root) DESIGN_DIRNAME)) = false)
    as Hdesign.
  { intros file. unfold _is_within, relative_to_ok.
    assert (resolve (join (resolve root) DESIGN_DIRNAME)
            = {| is_absolute := true;
                 parts := parts (resolve root) ++ [DESIGN_DIRNAME] |})
      as ->.
    { pose proof (key_under root [DESIGN_DIRNAME]) as Hk.
      unfold key in Hk. unfold resolve at 1. f_equal. apply Hk.
      by repeat constructor. }
    cbn [is_absolute parts]. by rewrite is_prefix_app. }
  split; [|split].
  - apply usable_spec. split.
    + unfold written_paths.
      cbn [map plan_path active_task_path summary_path last_result_path
           progress_path].
      rewrite !key_under by (by repeat constructor).
      repeat constructor; rewrite ?not_elem_of_cons;
        repeat split; try apply not_elem_of_nil;
        intros E; apply app_inv_head in E; discriminate.
    + unfold written_paths.
      cbn [plan_path active_task_path summary_path last_result_path
           progress_path].
      intros p Hp. split.
      * unfold _ensure_writable_path.
        cbn [_read_only_paths _writable_paths _design_resolved].
        try rewrite !state_file by done.
        repeat (apply elem_of_cons in Hp as [->|Hp]);
          [| | | | |by apply elem_of_nil in Hp];
          rewrite !Hres by done; cbv zeta;
          (rewrite bool_decide_eq_false_2;
           [|rewrite !not_elem_of_cons; repeat split;
             try apply not_elem_of_nil; by apply Hne]);
          rewrite Hdesign;
          (rewrite bool_decide_eq_true_2; [done|]);
          rewrite !elem_of_cons; tauto.
      * repeat (apply elem_of_cons in Hp as [->|Hp]);
          [| | | | |by apply elem_of_nil in Hp];
          by rewrite Hparent.
      * rewrite Forall_forall in Hfiles. by apply Hfiles.
  - repeat constructor; apply Hparent.
  - unfold is_read_only_path, is_writable_path.
    cbn [_read_only_paths _writable_paths _design_resolved].
    try rewrite !state_file by done.
    repeat constructor; rewrite !Hres by done; cbv zeta.
    all: try (rewrite bool_decide_eq_true_2; [done|];
              rewrite !elem_of_cons; tauto).
    all: rewrite bool_decide_eq_false_2; [done|];
      rewrite !not_elem_of_cons; repeat split;
      try apply not_elem_of_nil; by apply Hne.
Qed.

Lemma default_store_usable_witness :
  usable sample.store sample.bare_disk = true
  ∧ Forall (fun p => parent p = ai_dir sample.store)
      (written_paths sample.store)
  ∧ Forall (fun p => is_read_only_path sample.store p = true
                     ∧ is_writable_path sample.store p = false)
      [config_path sample.store; goals_path sample.store;
       sources_path sample.store].
Proof.
  apply (default_store_usable sample.bare_disk sample.root true true
           sample.store).
  - vm_compute. reflexivity.
  - vm_compute. reflexivity.
  - repeat constructor; vm_compute; discriminate.
Defined.
End StoreLayout.
